(* ===== verification/_CoqProject ===== *)
-Q . S2P
Prelude.v
GoString.v
GoHash.v
GoNet.v
GoUrl.v
GoCookie.v
GoJson.v
Message.v
Multiplexer.v
Backend.v
Session.v
SessionProps.v
SessionStream.v
SessionManager.v
Delegation.v
Capability.v
Http.v
Upgrade.v
Frontend.v
TokenLookup.v
Tickets.v
SessionHttp.v
SessionFrames.v
ProxyProtocol.v
HttpPipe.v
FrontendHttp.v
Stats.v
Clients.v
Interleaving.v
Agent.v
AgentFlow.v
EndToEnd.v
Config.v
Mux.v
Filters.v
Interceptor.v
Server.v
System.v
