(* ===== verification/Prelude.v ===== *)
(** * Verification of the PastureStack WebSocket proxy

    The proxy stands between browsers and API clients on one side and the hosts of a
    cluster on the other.  A host's agent opens one WebSocket to the proxy; the proxy
    multiplexes onto it the streams of all clients of that host (consoles, logs,
    statistics, HTTP requests to services), authenticates each client by a signed
    ticket, keeps console sessions alive while browser tabs come and go, and reports
    denied uses of delegated tickets to the engine.

    ** How the parts interact

    A client request enters a handler ([proxy/frontend_handler.go],
    [frontend_http_handler.go], [stats_handler.go], [persistent_session_handler.go]).
    The handler authenticates the ticket ([auth_safety.go], [delegation],
    [key_backend_capability.go], [expired_handshake.go], [token.go]), then talks to
    the host through the interface [backendProxy]: register a client, connect, send,
    close.  The manager ([backend_proxy_manager.go]) maps host keys to multiplexers
    ([multiplexer.go]), whose goroutines exchange the frames of [common/common.go]
    with the agent ([backend/backend.go]).

    The server around them ([main.go], [proxy.go]) reads the configuration
    ([config.go]), downloads the key and the certificates from the control platform,
    and routes: a connection passes the TLS splitter, a request the choice by client
    certificate, the path cleaner and the router; the handlers above are wrapped by
    the master switcher ([frontend_switcher.go]), and all other paths go to the
    platform through the API interceptor ([apiinterceptor]), whose filters may change
    or refuse them.

    ** Files

    - [Prelude]: results for Go's errors, tactics, the hint database.
    - [GoString]: Go's string, number, hexadecimal and base64 functions.  [GoHash]:
      SHA-256, SHA-512 and HMAC.  [GoNet]: IP addresses and networks.  [GoUrl]: URLs,
      percent encoding and query strings.  [GoCookie]: cookies.  [GoJson]: JSON.
      These six model what the program uses of the standard library; examples and
      published test vectors check them.
    - [Message]: [common], [internal/logsafe]: the wire envelope and its parser,
      random identifiers, log values.
    - [Multiplexer]: [multiplexer.go], [backend_proxy_manager.go].  Shared objects in
      a heap, Go channels that panic as in Go, one step per critical section, so the
      runs of [step] are the interleavings the locks allow; the Go functions are
      executable and are shown to be runs of steps.
    - [Backend]: the interface as the class [backendProxy] with its laws; the manager
      is an instance.  All handlers below are verified against the class.
    - [Session], [SessionProps], [SessionStream]: [persistentSession] and
      [workspaceClient] of [persistent_session_handler.go]; a history is any sequence
      of critical sections.
    - [SessionManager]: the session table, limits, cleanup.  [SessionHttp]: its HTTP
      interface.  [SessionFrames]: the JSON texts of its frames and answers.
    - [Delegation]: package [delegation].  [Capability]: tickets and claims, route
      denials, expired tickets, receipts, key capabilities.
    - [Http]: headers, requests, cookies, base64 round trip.  [Upgrade]: the origin
      check and the handshake every WebSocket endpoint shares.  [Frontend]: the
      WebSocket frontend and the backend endpoint.  [Tickets]: [testutils], the issuer
      of the tests.  [TokenLookup]: [token.go].
    - [ProxyProtocol]: package [proxyprotocol].
    - [HttpPipe]: [backend_http_reader.go], [_writer.go], [_pipe.go]. [FrontendHttp]:
      [frontend_http_handler.go].  [Stats]: [stats_handler.go].
    - [Clients]: what the handlers above may do to the hosts, once for all: the class
      [client_invariant] of the invariants of the interface, and one lemma per
      handler.  [Interleaving]: the interface as one handler sees it while others run:
      an instance of [backendProxy] in which any operations of the others (frames from
      and to hosts, calls for other streams, hosts that come and go) happen before
      each call, and its invariant.
    - [Agent]: package [backend], the host side.  [AgentFlow]: the same loop over
      channels of ten messages, with handlers and writer as goroutines of their own.
      [EndToEnd]: a multiplexer and the agent of its host, composed.
    - [Config]: [config.go]: flags and environment, the key, the certificates.
    - [Mux]: what is used of the vendored router.  [Filters]: the filter interface,
      the HTTP filter and the token filter.  [Interceptor]: [interceptor.go],
      [router_constructor.go], [handler.go]; also the shared slices of its table as Go
      arrays.
    - [Server]: [proxy.go], [main.go], [frontend_switcher.go], [swarm_handler.go],
      [tls/splitter.go], [access.go].
    - [System]: the running server: every handler behind the router on one state
      (backends, sessions, token cache, interceptor, client addresses, switcher), and
      the events that change it; also the two answers of [k8s].

    Within a file a definition carries the name of the Go function it translates;
    where two would clash, or a function is cut into its critical sections, the
    comment above it names the function.

    ** What the theorems show

    - Wire: the parser accepts exactly the formatted messages and inverts the
      formatter.
    - Multiplexer: no interleaving panics; frames keep their order; shutdown closes
      every client; key traces only go to capable backends; the API refines the steps.
    - Sessions: the invariant of every history; only the controlling tab writes;
      revocation is final, up to the frames whose guard had already passed; the status
      moves forward; the stream is closed at most once; the replay buffer is the
      longest fitting suffix; an attached tab sees every output; active sessions are
      bounded; creation is all or nothing; cleanup is exact; without the secret
      nothing is learnt or changed; the internal URL of a session always parses, to
      the requested path with the ticket.
    - Tickets: grants are parsed and applied exactly; a live check cannot be replayed
      for another ticket; only signed tickets for connected hosts are accepted, by
      each of the frontends, and every valid ticket for a connected host is, on the
      paths it allows ([auth_complete]); denial and expiry evidence names only hosts a
      signature vouches for; a key ticket reaches the capability gate with every query
      of fewer than 10,000 parameters.
    - Relays: data passes unchanged, HTTP responses message by message; every stream
      is released however its handler ends; which of the client's credentials a
      service gets is exact ([service_credentials_exact]: not its token cookie, but
      the value of it as a bearer token, unless the client sent an [Authorization] of
      its own); forwarding headers cannot be forged; tokens come from the platform;
      PROXY headers are read back as they were printed, and only from peers in the
      networks the flag denotes; a redirect to the login page stays on this server.
    - Agent: streams are routed in order and without panic; replies are written in
      order; the pong timer closes exactly when it should; the secrets of the endpoint
      are not logged.  With bounded channels the loop still does what the unbounded
      one does on the frames read, holds at most ten messages per channel, and gets on
      as long as the others do; and it is stuck for ever when they do not.
    - End to end: what a client sends reaches the handler of its stream on the host,
      and what the handler replies reaches the client, complete and in order, whatever
      the other streams do.
    - Configuration: an accepted one is well typed; flags win over the environment and
      that over defaults; downloads ask the platform's host only; an archive is
      accepted exactly when it is complete.
    - Interceptor: what reaches a destination is what the filters of the first
      matching route, and those merged from the other matching paths, made of the
      request ([forwarded_request_filtered]); the tables are those of the
      configuration file, also after reloads; merging the shared slices refines
      merging lists; the token filter admits only what the platform confirmed; the
      HTTP filter stays within its bounds.
    - Server: the routes with privileges are reached by exactly their requests; a
      started server answers every request here or at the master in force; the
      switcher follows the master file; the whole program, from its arguments on,
      contacts only the platform while it starts and serves only sound TLS.
    - System: in every history of requests, console traffic, host frames, timers and
      master files, with the calls of concurrent requests interleaved, the server does
      not panic, every host connection was opened by a request that presented a ticket
      signed for this host, every console session by one that posted its secret and a
      ticket signed for its host, and the sessions stay within their limit; WebSockets
      are opened for requests of the same origin only, with two exceptions the theorem
      states ([websocket_origins]); a request without a ticket that verifies registers
      no host, creates no session and opens no stream; while there is another master,
      nothing of this server's is touched; a session path is served for exactly the
      session it names; the client address a request is forwarded under is the one the
      connection it came on announced, if its peer is trusted, and that of the peer
      otherwise.

    Some theorems state a weakness of the code as it is, for example that a
    reconnecting tab can lose control ([replaced_connection_takes_control]), that the
    status of a failed filter is lost ([filter_status_lost]), that two clients with
    certificate chains share a cached token ([chain_clients_share_cache_key]), that
    malformed frames leave the agent's streams open
    ([lost_connection_closes_streams]), or that a key ticket beside 10,000 query
    parameters misses the gate ([oversized_query_misses_gate]).

    ** Conventions and bounds

    A Go [string] or byte slice is a Rocq [string]; integers are [Z], with the
    wrap-around of the 64-bit sequence number and the ranges of [strconv] written out;
    times are nanoseconds or seconds read by the caller and passed in, as are random
    bytes and the iteration order of maps.  A WebSocket, a request body or a response
    channel is the list of what it yields before it fails or is closed. Parameters of
    sections stand for code outside the repository (the JWT parser, PEM, X.509 and zip
    codecs, the texts of JSON errors, the HTTP exchange with the engine and the
    platform); what a theorem needs of them is one of its hypotheses, and its witness
    instantiates them.  URLs, addresses, cookies, JSON and digests are computed; a
    theorem says "with this digest", never that two texts cannot share one. Recursion
    is structural except for the four digits of a group of an IPv6 address
    ([GoNet.hex_digits]), the search for the primes of the hash constants
    ([GoHash.primes_from], whose result the test vectors confirm), [HttpPipe.io_copy],
    whose fuel is one read per body byte and one per message ([copy_fuel];
    [http_response_delivered] shows that it always suffices), the JSON parser
    [GoJson.parse_value], whose fuel is two calls per byte ([json_fuel_enough]; values
    nest 10,000 deep at most, as in Go), [Upgrade.token_list], whose fuel is the
    length of a header value ([token_list_fuel]), and [Server.template_parts], whose
    fuel is the length of a template ([templates_compile] runs it on all templates of
    the program).

    In [System] a request is one event, from the listener to the end of its handler,
    with the traffic of its stream as an argument; but it runs on the backends of
    [Interleaving], so that any operations of hosts and other requests take place
    before every call it makes.  Consoles, which outlive their request, proceed frame
    by frame, and hosts by iterations of their goroutines.  A request may draw at most
    [maxStatsTargets] identifiers, all fresh.

    ** Not modelled

    WebSocket pings and deadlines (timers only choose a case of a select), logging
    apart from the endpoint and the access record; in [System], interleavings on the
    session table and the token cache inside one request (those on the backends are
    modelled; those of a console are the critical sections of [Session]); [net/http],
    [httputil.ReverseProxy] and the copying of bytes between two connections; the
    parsing of the command line into flag assignments; the parts of the vendored
    router the program does not use, and path patterns other than those of [main.go];
    the text of the swagger document of [k8s], a constant of 18,000 lines that is
    served as it is. *)

From stdpp Require Export ssreflect base tactics numbers list option gmap strings sorting.
From Stdlib Require Export ZArith Lia Ascii.

(** ** Options the whole development uses *)

#[export] Set Default Goal Selector "!".
#[export] Set Warnings "-rewrite-rw,-clear-no-such-hyp".
Global Open Scope Z_scope.

(** Lemmas that close the routine cases of the invariants. *)
Create HintDb proxy discriminated.

(** ** Fallible computations: a Go function returning [(T, error)] *)

Inductive result (E A : Type) : Type :=
| Ok (a : A)
| Err (e : E).
Arguments Ok {E A} a.
Arguments Err {E A} e.

#[export] Instance result_ret {E} : MRet (result E) := fun A a => Ok a.
#[export] Instance result_bind {E} : MBind (result E) :=
  fun A B f r => match r with Ok a => f a | Err e => Err e end.

#[export] Instance result_eq_dec {E A} `{EqDecision E, EqDecision A} :
  EqDecision (result E A).
Proof. solve_decision. Defined.

Definition is_Ok {E A} (r : result E A) : bool :=
  match r with Ok _ => true | Err _ => false end.

(** ** Strings *)

(** [len(s)] of a Go string (a byte sequence), as an unbounded integer. *)
Definition go_len (s : string) : Z := Z.of_nat (String.length s).

(** ** Tactics *)

(** Turn boolean tests into propositions everywhere. *)
Ltac bool_to_prop :=
  repeat match goal with
  | H : _ && _ = true |- _ => apply andb_true_iff in H as [? ?]
  | H : _ || _ = true |- _ => apply orb_true_iff in H
  | H : _ && _ = false |- _ => apply andb_false_iff in H
  | H : _ || _ = false |- _ => apply orb_false_iff in H as [? ?]
  | H : negb _ = true |- _ => apply negb_true_iff in H
  | H : negb _ = false |- _ => apply negb_false_iff in H
  | H : bool_decide _ = true |- _ => apply bool_decide_eq_true in H
  | H : bool_decide _ = false |- _ => apply bool_decide_eq_false in H
  | H : (_ <=? _) = true |- _ => apply Z.leb_le in H
  | H : (_ <=? _) = false |- _ => apply Z.leb_gt in H
  | H : (_ <? _) = true |- _ => apply Z.ltb_lt in H
  | H : (_ <? _) = false |- _ => apply Z.ltb_ge in H
  | H : (_ =? _) = true |- _ => apply Z.eqb_eq in H
  | H : (_ =? _) = false |- _ => apply Z.eqb_neq in H
  end.

(** ** Generic lemmas *)

Lemma Ok_inj {E A} (a b : A) : (Ok a : result E A) = Ok b -> a = b.
Proof. by inversion 1. Qed.

Lemma bind_Ok {E A B} (f : A -> result E B) (r : result E A) b :
  (r ≫= f) = Ok b <-> exists a, r = Ok a /\ f a = Ok b.
Proof.
  destruct r as [a|e]; simpl; split.
  - intros H. by exists a.
  - by intros (a' & [= <-] & H).
  - done.
  - by intros (a' & ? & _).
Qed.
