(* ===== verification/GoString.v ===== *)
(** * Go's [strings], [strconv], [encoding/hex] and [encoding/base64]

    The part of the Go standard library the proxy computes with, as executable
    functions on byte strings (a Go [string] is a byte sequence, and so is a
    Rocq [string]).  Case folding and white space are those of ASCII, which is
    the alphabet of every header token, host name and path the proxy compares.
    No definition of this file models repository code: they are the vocabulary
    the component files are written in. *)

From S2P Require Import Prelude.
From Stdlib Require Import DecimalString DecimalPos DecimalN.

(** ** Substrings *)

Fixpoint sdrop (n : nat) (s : string) : string :=
  match n, s with
  | O, _ => s
  | S n, String _ s => sdrop n s
  | S _, EmptyString => EmptyString
  end.

Fixpoint stake (n : nat) (s : string) : string :=
  match n, s with
  | O, _ => EmptyString
  | S n, String c s => String c (stake n s)
  | S _, EmptyString => EmptyString
  end.

(** [strings.HasPrefix], [strings.CutPrefix], [strings.TrimPrefix]. *)
Fixpoint has_prefix (s p : string) : bool :=
  match p, s with
  | EmptyString, _ => true
  | String a p, String b s => bool_decide (a = b) && has_prefix s p
  | String _ _, EmptyString => false
  end.
Arguments has_prefix _ !_ : simpl nomatch.

Definition cut_prefix (s p : string) : option string :=
  if has_prefix s p then Some (sdrop (String.length p) s) else None.

Definition trim_prefix (s p : string) : string := default s (cut_prefix s p).

(** [strings.HasSuffix], [strings.TrimSuffix]. *)
Definition has_suffix (s p : string) : bool :=
  bool_decide (String.length p <= String.length s)%nat &&
  bool_decide (sdrop (String.length s - String.length p) s = p).

Definition trim_suffix (s p : string) : string :=
  if has_suffix s p then stake (String.length s - String.length p) s else s.

(** [strings.Cut]: the text before and after the first occurrence of [sep]. *)
Fixpoint cut (sep s : string) : option (string * string) :=
  if has_prefix s sep then Some ("", sdrop (String.length sep) s)
  else match s with
       | EmptyString => None
       | String c s' =>
           match cut sep s' with
           | Some (b, a) => Some (String c b, a)
           | None => None
           end
       end.

(** At most [n] cuts: [strings.SplitN(s, sep, n+1)] for a non-empty [sep]. *)
Fixpoint cuts (n : nat) (sep s : string) : list string :=
  match n with
  | O => [s]
  | S n => match cut sep s with
           | Some (b, a) => b :: cuts n sep a
           | None => [s]
           end
  end.

Definition split_n (s sep : string) (n : nat) : list string := cuts (pred n) sep s.

(** [strings.Split]: every cut consumes at least one byte of [s] when [sep] is
    not empty, so [length s] cuts are enough ([split_spec] below). *)
Definition split (s sep : string) : list string := cuts (String.length s) sep s.

Definition contains (s sub : string) : bool :=
  match cut sub s with Some _ => true | None => false end.

Fixpoint join (sep : string) (l : list string) : string :=
  match l with
  | [] => ""
  | [s] => s
  | s :: l => s +:+ sep +:+ join sep l
  end.

(** [strings.ReplaceAll] for a non-empty [old]. *)
Definition replace_all (s old new : string) : string := join new (split s old).

Fixpoint smap (f : ascii -> ascii) (s : string) : string :=
  match s with
  | EmptyString => EmptyString
  | String c s => String (f c) (smap f s)
  end.

Fixpoint sforall (p : ascii -> bool) (s : string) : bool :=
  match s with
  | EmptyString => true
  | String c s => p c && sforall p s
  end.

Definition code (c : ascii) : Z := Z.of_N (Ascii.N_of_ascii c).
Definition chr (z : Z) : ascii := Ascii.ascii_of_N (Z.to_N z).

Definition in_range (lo hi : Z) (c : ascii) : bool := (lo <=? code c) && (code c <=? hi).
Definition is_digit : ascii -> bool := in_range 48 57.
Definition is_upper : ascii -> bool := in_range 65 90.
Definition is_lower : ascii -> bool := in_range 97 122.
Definition is_space (c : ascii) : bool := in_range 9 13 c || (code c =? 32).

Definition lower (c : ascii) : ascii := if is_upper c then chr (code c + 32) else c.
Definition upper (c : ascii) : ascii := if is_lower c then chr (code c - 32) else c.

Definition to_lower : string -> string := smap lower.
Definition to_upper : string -> string := smap upper.

(** [strings.EqualFold] on ASCII. *)
Definition equal_fold (s t : string) : bool := bool_decide (to_lower s = to_lower t).

(** [strings.Trim(s, cutset)] with the cutset as a predicate; [TrimSpace]. *)
Fixpoint trim_left (p : ascii -> bool) (s : string) : string :=
  match s with
  | String c s' => if p c then trim_left p s' else s
  | EmptyString => ""
  end.

Fixpoint trim_right (p : ascii -> bool) (s : string) : string :=
  match s with
  | EmptyString => ""
  | String c s' =>
      match trim_right p s' with
      | EmptyString => if p c then "" else String c ""
      | t => String c t
      end
  end.

Definition trim (p : ascii -> bool) (s : string) : string := trim_right p (trim_left p s).
Definition trim_space : string -> string := trim is_space.

(** [strings.Fields]: the maximal runs of non-space bytes. *)
Fixpoint fields_aux (cur s : string) : list string :=
  match s with
  | EmptyString => match cur with EmptyString => [] | _ => [cur] end
  | String c s' =>
      if is_space c
      then match cur with EmptyString => fields_aux "" s' | _ => cur :: fields_aux "" s' end
      else fields_aux (cur +:+ String c "") s'
  end.
Definition fields : string -> list string := fields_aux "".

(** ** [strconv] *)

Definition max_uint64 : Z := 2 ^ 64 - 1.
Definition max_int64 : Z := 2 ^ 63 - 1.
Definition min_int64 : Z := - 2 ^ 63.

(** [FormatUint(n, 10)] of a non-negative [n]; [Itoa]. *)
Definition format_uint (n : Z) : string := NilEmpty.string_of_uint (N.to_uint (Z.to_N n)).
Definition itoa (n : Z) : string :=
  if n <? 0 then "-" +:+ format_uint (- n) else format_uint n.

Definition parse_digits (s : string) : option Z :=
  match s with
  | EmptyString => None
  | _ => (fun d => Z.of_N (N.of_uint d)) <$> NilEmpty.uint_of_string s
  end.

(** [ParseUint(s, 10, 64)] and [ParseInt(s, 10, 64)] = [Atoi] (64-bit [int]). *)
Definition parse_uint (s : string) : option Z :=
  n ← parse_digits s; if n <=? max_uint64 then Some n else None.

Definition parse_int (s : string) : option Z :=
  let magnitude sign rest :=
    n ← parse_digits rest;
    let v := sign * n in
    if (min_int64 <=? v) && (v <=? max_int64) then Some v else None in
  match s with
  | String "+" rest => magnitude 1 rest
  | String "-" rest => magnitude (-1) rest
  | _ => magnitude 1 s
  end.

(** ** [encoding/hex] *)

Definition hex_digit (n : Z) : ascii := chr (if n <? 10 then 48 + n else 87 + n).

(** Bytes are integers in [0, 256). *)
Definition hex_byte (b : Z) : string :=
  String (hex_digit (Z.shiftr b 4)) (String (hex_digit (Z.land b 15)) "").

Fixpoint hex (l : list Z) : string :=
  match l with [] => "" | b :: l => hex_byte b +:+ hex l end.

Definition is_hex (c : ascii) : bool := is_digit c || in_range 97 102 c.

(** ** [encoding/base64], [StdEncoding] *)

Definition b64_digit (n : Z) : ascii :=
  chr (if n <? 26 then 65 + n else if n <? 52 then 71 + n else if n <? 62 then n - 4
       else if n =? 62 then 43 else 47).

Definition b64_value (c : ascii) : option Z :=
  let z := code c in
  if is_upper c then Some (z - 65) else if is_lower c then Some (z - 71)
  else if is_digit c then Some (z + 4) else if z =? 43 then Some 62
  else if z =? 47 then Some 63 else None.

Fixpoint bytes_of (s : string) : list Z :=
  match s with EmptyString => [] | String c s => code c :: bytes_of s end.
Fixpoint string_of (l : list Z) : string :=
  match l with [] => "" | b :: l => String (chr b) (string_of l) end.

Fixpoint b64_encode (l : list Z) : string :=
  match l with
  | [] => ""
  | [a] => String (b64_digit (Z.shiftr a 2)) (String (b64_digit (Z.shiftl (Z.land a 3) 4)) "==")
  | [a; b] =>
      String (b64_digit (Z.shiftr a 2))
        (String (b64_digit (Z.lor (Z.shiftl (Z.land a 3) 4) (Z.shiftr b 4)))
           (String (b64_digit (Z.shiftl (Z.land b 15) 2)) "="))
  | a :: b :: c :: l =>
      String (b64_digit (Z.shiftr a 2))
        (String (b64_digit (Z.lor (Z.shiftl (Z.land a 3) 4) (Z.shiftr b 4)))
           (String (b64_digit (Z.lor (Z.shiftl (Z.land b 15) 2) (Z.shiftr c 6)))
              (String (b64_digit (Z.land c 63)) (b64_encode l))))
  end.

Definition is_newline (c : ascii) : bool := (code c =? 10) || (code c =? 13).

Fixpoint sfilter (p : ascii -> bool) (s : string) : string :=
  match s with
  | EmptyString => ""
  | String c s => if p c then String c (sfilter p s) else sfilter p s
  end.

Definition pad : ascii := "="%char.

(** One quantum of four characters; padding is accepted in the last one only
    and the unused low bits of a padded quantum are ignored (non-strict mode). *)
Fixpoint b64_decode_quads (s : string) : option (list Z) :=
  match s with
  | EmptyString => Some []
  | String c0 (String c1 (String c2 (String c3 rest))) =>
      v0 ← b64_value c0;
      v1 ← b64_value c1;
      let b0 := Z.lor (Z.shiftl v0 2) (Z.shiftr v1 4) in
      match b64_value c2, b64_value c3 with
      | Some v2, Some v3 =>
          let b1 := Z.lor (Z.shiftl (Z.land v1 15) 4) (Z.shiftr v2 2) in
          let b2 := Z.lor (Z.shiftl (Z.land v2 3) 6) v3 in
          l ← b64_decode_quads rest; Some (b0 :: b1 :: b2 :: l)
      | Some v2, None =>
          if bool_decide (c3 = pad) && bool_decide (rest = "")
          then Some [b0; Z.lor (Z.shiftl (Z.land v1 15) 4) (Z.shiftr v2 2)] else None
      | None, _ =>
          if bool_decide (c2 = pad) && bool_decide (c3 = pad) && bool_decide (rest = "")
          then Some [b0] else None
      end
  | _ => None
  end.

(** [DecodeString]: carriage returns and line feeds are skipped. *)
Definition b64_decode (s : string) : option (list Z) :=
  b64_decode_quads (sfilter (fun c => negb (is_newline c)) s).

(** ** Anchored regular expressions made of character classes *)

(** [^p1 p2 ... pn$]: one class per byte. *)
Fixpoint match_classes (ps : list (ascii -> bool)) (s : string) : bool :=
  match ps, s with
  | [], EmptyString => true
  | p :: ps, String c s => p c && match_classes ps s
  | _, _ => false
  end.

(** [^prefix[class]{lo,hi}$] *)
Definition match_token (prefix : string) (class : ascii -> bool) (lo hi : Z) (s : string) : bool :=
  match cut_prefix s prefix with
  | Some rest => (lo <=? go_len rest) && (go_len rest <=? hi) && sforall class rest
  | None => false
  end.

Definition lit (x : ascii) : ascii -> bool := fun c => bool_decide (c = x).

(** ** Lemmas: lengths and concatenation *)

Lemma append_nil_l (s : string) : "" +:+ s = s.
Proof. done. Qed.

Lemma append_cons c (s t : string) : String c s +:+ t = String c (s +:+ t).
Proof. done. Qed.

Lemma append_nil_r (s : string) : s +:+ "" = s.
Proof. induction s as [|c s IH]; [done|]. by rewrite append_cons IH. Qed.

Lemma append_assoc (s t u : string) : (s +:+ t) +:+ u = s +:+ t +:+ u.
Proof. induction s as [|c s IH]; [done|]. by rewrite !append_cons IH. Qed.

Lemma length_append (s t : string) :
  String.length (s +:+ t) = (String.length s + String.length t)%nat.
Proof. induction s as [|c s IH]; [done|]. rewrite append_cons /= IH. done. Qed.

Lemma go_len_append (s t : string) : go_len (s +:+ t) = go_len s + go_len t.
Proof. unfold go_len. rewrite length_append. lia. Qed.

Lemma go_len_nonneg (s : string) : 0 <= go_len s.
Proof. unfold go_len. lia. Qed.

Lemma go_len_0 (s : string) : go_len s = 0 <-> s = "".
Proof. destruct s; unfold go_len; simpl; split; (done || lia). Qed.

Lemma sdrop_append (s t : string) : sdrop (String.length s) (s +:+ t) = t.
Proof. induction s as [|c s IH]; [by destruct t|]. done. Qed.

Lemma stake_append (s t : string) : stake (String.length s) (s +:+ t) = s.
Proof. induction s as [|c s IH]; [done|]. rewrite append_cons. simpl. by rewrite IH. Qed.

Lemma stake_sdrop k s : stake k s +:+ sdrop k s = s.
Proof. revert s. induction k as [|k IH]; intros [|c s]; simpl; try done. by rewrite append_cons IH. Qed.

Lemma sdrop_length k s : String.length (sdrop k s) = (String.length s - k)%nat.
Proof. revert s. induction k as [|k IH]; intros [|c s]; simpl; try done; by rewrite IH. Qed.

Lemma has_prefix_append (s t : string) : has_prefix (s +:+ t) s = true.
Proof.
  induction s as [|c s IH]; [by destruct t|].
  rewrite append_cons /=. by rewrite bool_decide_eq_true_2.
Qed.

Lemma has_prefix_spec (s p : string) :
  has_prefix s p = true <-> exists r, s = p +:+ r.
Proof.
  split.
  - revert s. induction p as [|a p IH]; intros s; [by exists s|].
    destruct s as [|b s]; simpl; [done|]. intros [?%bool_decide_eq_true H]%andb_true_iff.
    subst. destruct (IH s H) as [r ->]. by exists r.
  - intros [r ->]. apply has_prefix_append.
Qed.

Lemma cut_prefix_spec (s p r : string) : cut_prefix s p = Some r <-> s = p +:+ r.
Proof.
  unfold cut_prefix. destruct (has_prefix s p) eqn:E.
  - apply has_prefix_spec in E as [r' ->]. rewrite sdrop_append. split.
    + by intros [= ->].
    + intros H. f_equal. by apply (f_equal (sdrop (String.length p))) in H;
        rewrite !sdrop_append in H.
  - split; [done|]. intros ->. by rewrite has_prefix_append in E.
Qed.

(** ** Lemmas: cutting at a separator *)

(** [cut] returns the first occurrence: the two parts around it, and no earlier
    one. *)
Lemma cut_sound (sep s b a : string) : cut sep s = Some (b, a) -> s = b +:+ sep +:+ a.
Proof.
  revert b a. induction s as [|c s IH]; intros b a; simpl.
  - destruct (has_prefix "" sep) eqn:E; [|done].
    destruct sep; [by intros [= <- <-]|by simpl in E].
  - destruct (has_prefix (String c s) sep) eqn:E.
    + intros [= <- <-]. apply has_prefix_spec in E as [r E].
      rewrite E. by rewrite sdrop_append.
    + destruct (cut sep s) as [[b' a']|] eqn:C; [|done].
      intros [= <- <-]. rewrite append_cons. f_equal. by apply IH.
Qed.

Lemma cut_length (sep s b a : string) :
  cut sep s = Some (b, a) ->
  String.length s = (String.length b + String.length sep + String.length a)%nat.
Proof. intros ->%cut_sound. rewrite !length_append. lia. Qed.

Lemma cut_cons sep c s :
  cut sep (String c s) =
  if has_prefix (String c s) sep then Some ("", sdrop (String.length sep) (String c s))
  else match cut sep s with Some (b, a) => Some (String c b, a) | None => None end.
Proof. done. Qed.

Lemma has_prefix_cons a p c s :
  has_prefix (String c s) (String a p) = bool_decide (a = c) && has_prefix s p.
Proof. done. Qed.

Lemma has_prefix_nil s : has_prefix s "" = true.
Proof. by destruct s. Qed.

Lemma cut_None_tail sep c s : cut sep (String c s) = None -> cut sep s = None.
Proof.
  simpl. destruct (has_prefix _ sep); [done|]. by destruct (cut sep s) as [[]|].
Qed.

Lemma cut_before_free (sep s b a : string) :
  sep <> "" -> cut sep s = Some (b, a) -> cut sep b = None.
Proof.
  intros Hsep. revert b a. induction s as [|c s IH]; intros b a; simpl.
  - by destruct sep.
  - destruct (has_prefix (String c s) sep) eqn:E.
    + intros [= <- <-]. by destruct sep.
    + destruct (cut sep s) as [[b' a']|] eqn:C; [|done]. intros [= <- <-]. simpl.
      rewrite (IH b' a') //. destruct (has_prefix (String c b') sep) eqn:P; [|done].
      apply has_prefix_spec in P as [r P]. apply cut_sound in C as ->.
      rewrite -append_cons P append_assoc has_prefix_append in E. done.
Qed.

(** Every piece of [cuts] put back together gives the text. *)
Lemma join_cuts n sep s : join sep (cuts n sep s) = s.
Proof.
  revert s. induction n as [|n IH]; intros s; [done|]. simpl.
  destruct (cut sep s) as [[b a]|] eqn:C; [|done].
  apply cut_sound in C as ->. specialize (IH a).
  destruct (cuts n sep a) as [|x l] eqn:D.
  - destruct n; simpl in D; [done|]. by destruct (cut sep a) as [[]|].
  - cbn [join]. by rewrite <- IH.
Qed.

Lemma cuts_nonempty n sep s : cuts n sep s <> [].
Proof. destruct n; simpl; [done|]. by destruct (cut sep s) as [[]|]. Qed.

Lemma cuts_length n sep s : (length (cuts n sep s) <= S n)%nat.
Proof.
  revert s. induction n as [|n IH]; intros s; simpl; [lia|].
  destruct (cut sep s) as [[b a]|]; simpl; [|lia]. specialize (IH a). lia.
Qed.

(** With enough cuts no piece contains the separator: [split] is complete. *)
Lemma cuts_free n sep s :
  sep <> "" -> (String.length s <= n)%nat ->
  Forall (fun p => cut sep p = None) (cuts n sep s).
Proof.
  intros Hsep. revert s. induction n as [|n IH]; intros s Hlen; simpl.
  - destruct s; simpl in *; [|lia]. constructor; [by destruct sep|done].
  - destruct (cut sep s) as [[b a]|] eqn:C; [|by repeat constructor].
    constructor; [by eapply cut_before_free|]. apply IH.
    apply cut_length in C. destruct sep; [done|]. simpl in C. lia.
Qed.

Lemma split_spec (s sep : string) :
  sep <> "" ->
  join sep (split s sep) = s /\ Forall (fun p => cut sep p = None) (split s sep).
Proof. intros H. split; [apply join_cuts|by apply cuts_free]. Qed.

(** ** Lemmas: characters *)

Lemma sforall_append p (s t : string) : sforall p (s +:+ t) = sforall p s && sforall p t.
Proof. induction s as [|c s IH]; [done|]. rewrite append_cons /= IH andb_assoc //. Qed.

Lemma sforall_impl (p q : ascii -> bool) s :
  (forall c, p c = true -> q c = true) -> sforall p s = true -> sforall q s = true.
Proof.
  intros H. induction s as [|c s IH]; [done|]. simpl. intros [Hc Hs]%andb_true_iff.
  by rewrite H // IH.
Qed.

Lemma cut_here (sep t : string) : cut sep (sep +:+ t) = Some ("", t).
Proof.
  pose proof (has_prefix_append sep t) as P. pose proof (sdrop_append sep t) as D.
  destruct (sep +:+ t); simpl; by rewrite P D.
Qed.

(** A string without the first byte of [sep] cannot be cut at [sep] early. *)
Lemma cut_skip (x : ascii) (sep s t : string) :
  sforall (fun c => negb (bool_decide (c = x))) s = true ->
  cut (String x sep) (s +:+ String x sep +:+ t) = Some (s, t).
Proof.
  induction s as [|c s IH]; intros H.
  - rewrite append_nil_l. apply cut_here.
  - simpl in H. apply andb_true_iff in H as [Hc Hs]. rewrite append_cons /=.
    rewrite (bool_decide_eq_false_2 (x = c)); [|intros ->; by rewrite bool_decide_eq_true_2 in Hc].
    simpl. by rewrite IH.
Qed.

(** ** Lemmas: characters as numbers *)

Lemma code_chr z : 0 <= z < 256 -> code (chr z) = z.
Proof. intros H. unfold code, chr. rewrite Ascii.N_ascii_embedding; lia. Qed.

Lemma chr_code c : chr (code c) = c.
Proof. unfold code, chr. by rewrite N2Z.id Ascii.ascii_N_embedding. Qed.

Lemma code_range c : 0 <= code c < 256.
Proof. unfold code. pose proof (Ascii.N_ascii_bounded c). lia. Qed.

(** ** Lemmas: decimal numbers *)

Lemma format_uint_nonempty n : format_uint n <> "".
Proof.
  unfold format_uint. destruct (N.to_uint (Z.to_N n)) eqn:E; [|done..].
  destruct (Z.to_N n) as [|q]; [done|].
  by destruct (DecimalPos.Unsigned.to_uint_nonnil q).
Qed.

Lemma parse_digits_format n : 0 <= n -> parse_digits (format_uint n) = Some n.
Proof.
  intros H. unfold parse_digits. destruct (format_uint n) eqn:E.
  - by destruct (format_uint_nonempty n).
  - rewrite -E. unfold format_uint. rewrite NilEmpty.usu. simpl.
    rewrite DecimalN.Unsigned.of_to. f_equal. lia.
Qed.

Lemma parse_uint_format n : 0 <= n <= max_uint64 -> parse_uint (format_uint n) = Some n.
Proof.
  intros H. unfold parse_uint. rewrite parse_digits_format; [|lia]. simpl.
  destruct (n <=? max_uint64) eqn:E; [done|]. bool_to_prop. lia.
Qed.

Lemma parse_digits_nonneg s n : parse_digits s = Some n -> 0 <= n.
Proof.
  unfold parse_digits. destruct s; [done|]. intros H. apply fmap_Some in H as (d & _ & ->). lia.
Qed.

Lemma parse_uint_range s n : parse_uint s = Some n -> 0 <= n <= max_uint64.
Proof.
  unfold parse_uint. destruct (parse_digits s) as [m|] eqn:E; simpl; [|done].
  apply parse_digits_nonneg in E. destruct (m <=? max_uint64) eqn:L; [|done].
  intros [= ->]. bool_to_prop. lia.
Qed.

Lemma parse_int_range s n : parse_int s = Some n -> min_int64 <= n <= max_int64.
Proof.
  assert (forall sg r m, (x ← parse_digits r;
     if (min_int64 <=? sg * x) && (sg * x <=? max_int64) then Some (sg * x) else None) = Some m ->
     min_int64 <= m <= max_int64) as A.
  { intros sg r m. destruct (parse_digits r) as [x|]; simpl; [|done].
    destruct (_ && _) eqn:B; [|done]. intros [= <-]. bool_to_prop. lia. }
  unfold parse_int. intros H.
  destruct s as [|c r]; [by apply A in H|].
  by repeat case_match; apply A in H.
Qed.

(** ** Lemmas: bytes *)

(** A boolean fact about one byte is checked by enumeration. *)
Lemma byte_enum (P : Z -> bool) :
  forallb P (seqZ 0 256) = true -> forall b, 0 <= b < 256 -> P b = true.
Proof.
  intros H b Hb. rewrite -> forallb_forall in H. apply H.
  apply list_elem_of_In, elem_of_seqZ. lia.
Qed.

Lemma match_classes_sforall (q : ascii -> bool) ps s :
  Forall (fun p => forall c, p c = true -> q c = true) ps ->
  match_classes ps s = true -> sforall q s = true.
Proof.
  intros H. revert s. induction H as [|p ps Hp _ IH]; intros [|c s]; simpl; try done.
  intros [Hc Hs]%andb_true_iff. by rewrite Hp // IH.
Qed.

(** ** Lemmas: strings without a character, splitting and joining *)

Definition lacks (x : ascii) : string -> bool := sforall (fun c => negb (bool_decide (c = x))).

Lemma cut_char_None x (s : string) : cut (String x "") s = None <-> lacks x s = true.
Proof.
  unfold lacks. induction s as [|c s IH]; [done|].
  rewrite cut_cons has_prefix_cons has_prefix_nil andb_true_r. simpl.
  destruct (decide (c = x)) as [->|N].
  - by rewrite bool_decide_eq_true_2.
  - rewrite (bool_decide_eq_false_2 (x = c)); [|congruence].
    rewrite (bool_decide_eq_false_2 (c = x)) //=. rewrite -IH.
    by destruct (cut (String x "") s) as [[]|].
Qed.

Lemma sforall_join p sep l :
  sforall p sep = true -> sforall p (join sep l) = forallb (sforall p) l.
Proof.
  intros H. induction l as [|s [|t l] IH]; [done| |].
  - simpl. by rewrite andb_true_r.
  - change (join sep (s :: t :: l)) with (s +:+ sep +:+ join sep (t :: l)).
    rewrite !sforall_append IH H. done.
Qed.

(** Splitting at a character undoes joining. *)
Lemma cuts_join x (l : list string) n :
  l <> [] -> Forall (fun p => lacks x p = true) l -> (length l <= S n)%nat ->
  cuts n (String x "") (join (String x "") l) = l.
Proof.
  revert n. induction l as [|p l IH]; intros n N F L; [done|].
  apply Forall_cons in F as [Fp F]. destruct l as [|q l].
  - simpl. destruct n; [done|]. simpl. by rewrite (proj2 (cut_char_None x p) Fp).
  - destruct n as [|n]; [simpl in L; lia|].
    cbn [cuts]. change (join (String x "") (p :: q :: l)) with (p +:+ String x "" +:+ join (String x "") (q :: l)).
    rewrite (cut_skip x "" p _ Fp). f_equal. apply IH; [done|done|]. simpl in *. lia.
Qed.

Lemma length_join x (l : list string) :
  (length l <= S (String.length (join (String x "") l)))%nat.
Proof.
  induction l as [|p l IH]; [simpl; lia|]. destruct l as [|q l]; [simpl; lia|].
  change (join (String x "") (p :: q :: l)) with (p +:+ String x "" +:+ join (String x "") (q :: l)).
  rewrite !length_append. simpl in *. lia.
Qed.

Lemma split_join x (l : list string) :
  l <> [] -> Forall (fun p => lacks x p = true) l ->
  split (join (String x "") l) (String x "") = l.
Proof. intros N F. apply cuts_join; [done|done|]. apply length_join. Qed.

Lemma split_parts x (s : string) :
  join (String x "") (split s (String x "")) = s /\
  Forall (fun p => lacks x p = true) (split s (String x "")).
Proof.
  destruct (split_spec s (String x "")) as [J F]; [done|]. split; [done|].
  eapply Forall_impl; [exact F|]. intros p. apply cut_char_None.
Qed.

Lemma join_inj x (l l' : list string) :
  l <> [] -> l' <> [] -> Forall (fun p => lacks x p = true) l -> Forall (fun p => lacks x p = true) l' ->
  join (String x "") l = join (String x "") l' -> l = l'.
Proof. intros N N' F F' E. by rewrite -(split_join x l) // E split_join. Qed.

Lemma format_uint_digits n : sforall is_digit (format_uint n) = true.
Proof. unfold format_uint. induction (N.to_uint (Z.to_N n)); simpl; done. Qed.

Lemma digits_lack x s : is_digit x = false -> sforall is_digit s = true -> lacks x s = true.
Proof.
  intros Hx. apply sforall_impl. intros c Hc. apply negb_true_iff, bool_decide_eq_false. intros ->.
  by rewrite Hx in Hc.
Qed.

Lemma parse_int_itoa n : min_int64 <= n <= max_int64 -> parse_int (itoa n) = Some n.
Proof.
  intros H. unfold itoa. destruct (Z.ltb_spec n 0).
  { rewrite append_cons append_nil_l. unfold parse_int. rewrite parse_digits_format; [|lia]. cbn [mbind option_bind].
    rewrite (_ : -1 * - n = n); [|lia]. rewrite (proj2 (Z.leb_le min_int64 n)); [|lia].
    by rewrite (proj2 (Z.leb_le n max_int64)); [|lia]. }
  pose proof (format_uint_digits n) as D. pose proof (parse_digits_format n ltac:(lia)) as P.
  assert ((m ← parse_digits (format_uint n);
    if (min_int64 <=? 1 * m) && (1 * m <=? max_int64) then Some (1 * m) else None) = Some n) as E.
  { rewrite P. cbn. rewrite Z.mul_1_l. unfold min_int64. rewrite (proj2 (Z.leb_le _ n)); [|lia].
    rewrite (proj2 (Z.leb_le n _)); [done|lia]. }
  unfold parse_int. destruct (format_uint n) as [|c r]; [done|].
  simpl in D. apply andb_true_iff in D as [D _].
  destruct c as [[] [] [] [] [] [] [] []]; first [exact E | by vm_compute in D].
Qed.

Lemma itoa_lacks x n : 0 <= n -> is_digit x = false -> lacks x (itoa n) = true.
Proof.
  intros H Hx. unfold itoa. destruct (Z.ltb_spec n 0); [lia|].
  apply digits_lack; [done|apply format_uint_digits].
Qed.

Lemma has_suffix_append (s p : string) : has_suffix (s +:+ p) p = true.
Proof.
  unfold has_suffix. rewrite length_append.
  replace (String.length s + String.length p - String.length p)%nat with (String.length s) by lia.
  rewrite sdrop_append. rewrite !bool_decide_eq_true_2 //. lia.
Qed.

Lemma split_two x (a b : string) :
  lacks x a = true -> lacks x b = true -> split (a +:+ String x "" +:+ b) (String x "") = [a; b].
Proof. intros A Bb. apply (split_join x [a; b]); [done|by repeat constructor]. Qed.

(** A boolean fact about the integers of a range is checked by enumeration. *)
Fixpoint zrange (a : Z) (n : nat) : list Z := match n with O => [] | S n => a :: zrange (a + 1) n end.

Lemma zrange_enum (P : Z -> bool) a n :
  forallb P (zrange a n) = true -> forall z, a <= z < a + Z.of_nat n -> P z = true.
Proof.
  revert a. induction n as [|n IH]; intros a H z Hz; [lia|]. cbn [zrange forallb] in H. apply andb_true_iff in H as [Ha H].
  destruct (decide (z = a)) as [->|N]; [done|]. apply (IH (a + 1)); [done|lia].
Qed.

Lemma itoa_port n : 0 <= n <= 65535 -> go_len (itoa n) <= 5.
Proof.
  intros H. apply Z.leb_le. apply (zrange_enum (fun n => go_len (itoa n) <=? 5) 0 (Z.to_nat 65536)); [by vm_compute|lia].
Qed.

Lemma join_bound sep k l : Forall (fun s => go_len s <= k) l -> l <> [] ->
  go_len (join sep l) <= Z.of_nat (length l) * (k + go_len sep) - go_len sep.
Proof.
  induction 1 as [|s l S F IH]; intros N; [done|]. destruct l as [|t l]; [simpl; lia|].
  change (join sep (s :: t :: l)) with (s +:+ sep +:+ join sep (t :: l)). rewrite !go_len_append.
  specialize (IH ltac:(done)). cbn [length] in *. lia.
Qed.
