(* ===== verification/GoHash.v ===== *)
(** * Go's [crypto/sha256], [crypto/sha512] and [crypto/hmac]

    SHA-2 as FIPS 180-4 defines it, once for both word sizes, and HMAC (RFC 2104),
    on byte strings; a digest is a list of bytes in [0, 256).  The round constants
    are computed from the primes they come from.  No definition of this file models
    repository code; [sha256] is used for the digests of secrets, tickets and cache
    keys, [hmac_sha512] by the API filters. *)

From S2P Require Import Prelude GoString.

(** ** Constants *)

(** The first [n] primes from [c] on, by trial division. *)
Fixpoint primes_from (fuel : nat) (c : Z) (n : nat) (found : list Z) : list Z :=
  match fuel, n with
  | S fuel, S n' =>
      if forallb (fun p => negb (c mod p =? 0)) found
      then primes_from fuel (c + 1) n' (found ++ [c]) else primes_from fuel (c + 1) n found
  | _, _ => found
  end.

(** The integer cube root of [x], bit by bit from bit [k - 1] down. *)
Fixpoint cbrt_bits (k : nat) (x r : Z) : Z :=
  match k with
  | O => r
  | S k => let r' := Z.lor r (Z.shiftl 1 (Z.of_nat k)) in cbrt_bits k x (if r' * r' * r' <=? x then r' else r)
  end.

(** The first [w] bits of the fractional parts of the cube and square roots. *)
Definition cbrt_fraction (w p : Z) : Z := cbrt_bits (Z.to_nat w + 3) (Z.shiftl p (3 * w)) 0 mod 2 ^ w.
Definition sqrt_fraction (w p : Z) : Z := Z.sqrt (Z.shiftl p (2 * w)) mod 2 ^ w.

Definition primes : list Z := Eval vm_compute in primes_from 500 2 80 [].

(** ** SHA-2 *)

(** A member of the family: word size, bytes of the length field, rotations of the
    four functions (the last of [sha_s0] and [sha_s1] is a shift), tables. *)
Record sha2 := mkSha2 {
  sha_w : Z; sha_len : nat;
  sha_S0 : Z * Z * Z; sha_S1 : Z * Z * Z; sha_s0 : Z * Z * Z; sha_s1 : Z * Z * Z;
  sha_K : list Z; sha_H : list Z }.

Definition SHA256 : sha2 := Eval vm_compute in
  mkSha2 32 8 (2, 13, 22) (6, 11, 25) (7, 18, 3) (17, 19, 10)
    (cbrt_fraction 32 <$> take 64 primes) (sqrt_fraction 32 <$> take 8 primes).
Definition SHA512 : sha2 := Eval vm_compute in
  mkSha2 64 16 (28, 34, 39) (14, 18, 41) (1, 8, 7) (19, 61, 6)
    (cbrt_fraction 64 <$> primes) (sqrt_fraction 64 <$> take 8 primes).

(** [n] bytes of an integer, the highest first, and back. *)
Fixpoint be_bytes (n : nat) (z : Z) : list Z :=
  match n with O => [] | S n => Z.land (Z.shiftr z (8 * Z.of_nat n)) 255 :: be_bytes n z end.
Definition be_word (l : list Z) : Z := foldl (fun z b => Z.lor (Z.shiftl z 8) b) 0 l.

(** The first [n] pieces of [k] elements. *)
Fixpoint pieces {A} (n k : nat) (l : list A) : list (list A) :=
  match n with O => [] | S n => take k l :: pieces n k (drop k l) end.

Section SHA2.
Context (h : sha2).
Definition word (z : Z) : Z := z mod 2 ^ sha_w h.
Definition word_bytes : nat := Z.to_nat (sha_w h / 8).
Definition block_bytes : nat := 16 * word_bytes.

Definition rotr (n x : Z) : Z := word (Z.lor (Z.shiftr x n) (Z.shiftl x (sha_w h - n))).
Definition big_sigma (r : Z * Z * Z) (x : Z) : Z :=
  let '(a, b, c) := r in Z.lxor (Z.lxor (rotr a x) (rotr b x)) (rotr c x).
Definition small_sigma (r : Z * Z * Z) (x : Z) : Z :=
  let '(a, b, c) := r in Z.lxor (Z.lxor (rotr a x) (rotr b x)) (Z.shiftr x c).
Definition choose (x y z : Z) : Z := Z.lxor (Z.land x y) (Z.land (word (Z.lnot x)) z).
Definition majority (x y z : Z) : Z := Z.lxor (Z.lxor (Z.land x y) (Z.land x z)) (Z.land y z).

(** The message, a 1 bit, zeros, and its length in bits, to a multiple of the block
    size. *)
Definition padded (m : list Z) : list Z :=
  let zeros := Z.to_nat ((- (Z.of_nat (length m) + 1 + Z.of_nat (sha_len h))) mod Z.of_nat block_bytes) in
  m ++ [128] ++ replicate zeros 0 ++ be_bytes (sha_len h) (8 * Z.of_nat (length m)).

(** The next word of the schedule, from the sixteen before it. *)
Definition next_word (win : list Z) : Z :=
  let at_ i := default 0 (win !! i) in
  word (small_sigma (sha_s1 h) (at_ 14%nat) + at_ 9%nat + small_sigma (sha_s0 h) (at_ 1%nat) + at_ 0%nat).

Definition sha_round (k w : Z) (st : list Z) : list Z :=
  match st with
  | [a; b; c; d; e; f; g; hh] =>
      let t1 := hh + big_sigma (sha_S1 h) e + choose e f g + k + w in
      let t2 := big_sigma (sha_S0 h) a + majority a b c in
      [word (t1 + t2); a; b; c; word (d + t1); e; f; g]
  | _ => st
  end.

Fixpoint sha_rounds (ks win st : list Z) : list Z :=
  match ks, win with
  | k :: ks, w :: win' => sha_rounds ks (win' ++ [next_word win]) (sha_round k w st)
  | _, _ => st
  end.

Definition sha_block (st : list Z) (block : list Z) : list Z :=
  zip_with (fun x y => word (x + y)) st (sha_rounds (sha_K h) (be_word <$> pieces 16 word_bytes block) st).

(** [Sum]. *)
Definition sha_sum (m : list Z) : list Z :=
  let p := padded m in
  foldl sha_block (sha_H h) (pieces (length p / block_bytes) block_bytes p) ≫= be_bytes word_bytes.

(** [hmac.New] with the key, [Write] of the message, [Sum]. *)
Definition hmac (key m : list Z) : list Z :=
  let key := if (block_bytes <? length key)%nat then sha_sum key else key in
  let key := key ++ replicate (block_bytes - length key) 0 in
  sha_sum ((Z.lxor 92 <$> key) ++ sha_sum ((Z.lxor 54 <$> key) ++ m)).
End SHA2.

Definition sha256 (s : string) : list Z := sha_sum SHA256 (bytes_of s).
Definition hmac_sha512 (key s : string) : string := string_of (hmac SHA512 (bytes_of key) (bytes_of s)).

(** ** Published test vectors *)

Example sha256_empty :
  hex (sha256 "") = "e3b0c44298fc1c149afbf4c8996fb92427ae41e4649b934ca495991b7852b855".
Proof. by vm_compute. Qed.

Example sha256_abc :
  hex (sha256 "abc") = "ba7816bf8f01cfea414140de5dae2223b00361a396177a9cb410ff61f20015ad".
Proof. by vm_compute. Qed.

(** Two blocks. *)
Example sha256_two_blocks :
  hex (sha256 "abcdbcdecdefdefgefghfghighijhijkijkljklmklmnlmnomnopnopq") =
  "248d6a61d20638b8e5c026930c3e6039a33ce45964ff2167f6ecedd419db06c1".
Proof. by vm_compute. Qed.

(** RFC 4231, test case 2. *)
Example hmac_sha512_jefe :
  hex (bytes_of (hmac_sha512 "Jefe" "what do ya want for nothing?")) =
  "164b7a7bfcf819e2e395fbe73b56e0a387bd64222e831fd610270cd7ea2505549758bf75c05a994a6d034f65f8f0e6fdcaeab1a34d4a6b4b636e070a38bce737".
Proof. by vm_compute. Qed.

(** ** A digest is an array of bytes *)

Lemma be_bytes_length n z : length (be_bytes n z) = n.
Proof. induction n as [|n IH]; simpl; [done|by rewrite IH]. Qed.

Lemma be_bytes_range n z : Forall (fun b => 0 <= b < 256) (be_bytes n z).
Proof.
  induction n as [|n IH]; simpl; constructor; [|done].
  rewrite (Z.land_ones _ 8); [apply Z.mod_pos_bound; lia|lia].
Qed.

Section Digest.
Context (h : sha2).

Lemma sha_round_length k w st : length (sha_round h k w st) = length st.
Proof. do 9 (destruct st as [|? st]; [done|]). done. Qed.

Lemma sha_rounds_length ks win st : length (sha_rounds h ks win st) = length st.
Proof.
  revert win st. induction ks as [|k ks IH]; intros [|w win] st; simpl; [done..|]. by rewrite IH sha_round_length.
Qed.

Lemma sha_block_length st block : length (sha_block h st block) = length st.
Proof. unfold sha_block. rewrite length_zip_with sha_rounds_length. lia. Qed.

Lemma sha_blocks_length l st : length (foldl (sha_block h) st l) = length st.
Proof. revert st. induction l as [|x l IH]; intros st; simpl; [done|]. by rewrite IH sha_block_length. Qed.

Lemma be_bytes_words n l : length (l ≫= be_bytes n) = (length l * n)%nat.
Proof. induction l as [|x l IH]; [done|]. rewrite bind_cons length_app be_bytes_length IH. simpl. lia. Qed.

Lemma sha_sum_length m : length (sha_sum h m) = (length (sha_H h) * word_bytes h)%nat.
Proof. unfold sha_sum. by rewrite be_bytes_words sha_blocks_length. Qed.

Lemma sha_sum_range m : Forall (fun b => 0 <= b < 256) (sha_sum h m).
Proof. unfold sha_sum. apply Forall_bind, Forall_true. intros x. apply be_bytes_range. Qed.
End Digest.

Lemma sha256_length s : length (sha256 s) = 32%nat.
Proof. apply sha_sum_length. Qed.

Lemma sha256_range s : Forall (fun b => 0 <= b < 256) (sha256 s).
Proof. apply sha_sum_range. Qed.

(** Digests are only computed by [vm_compute]. *)
#[global] Opaque sha256 hmac_sha512.
