(* ===== verification/GoNet.v ===== *)
(** * Go's [net] and [net/netip]: addresses and networks

    Parsing and printing of IP addresses and of CIDR blocks, and membership, on byte
    lists: a [net.IP] has 4 or 16 bytes, and [ParseIP] always returns 16.  No
    definition of this file models repository code; the PROXY protocol, the
    trusted proxies of the configuration and the host part of URLs use them. *)

From S2P Require Import Prelude GoString.

Abbreviation IP := (list Z) (only parsing).
Definition v4InV6Prefix : list Z := replicate 10 0 ++ [255; 255].

(** ** Parsing *)

(** One decimal field of an IPv4 address: no leading zero, at most 255. *)
Definition ipv4_field (s : string) : option Z :=
  match s with
  | "" => None
  | String c (String _ _) => if bool_decide (c = "0"%char) then None
                             else v ← parse_digits s; if v <=? 255 then Some v else None
  | _ => parse_digits s
  end.

(** [parseIPv4Fields] *)
Definition parseIPv4 (s : string) : option (list Z) :=
  match split s "." with
  | [a; b; c; d] => a ← ipv4_field a; b ← ipv4_field b; c ← ipv4_field c; d ← ipv4_field d; Some [a; b; c; d]
  | _ => None
  end.

Definition hex_value (c : ascii) : option Z :=
  if is_digit c then Some (code c - 48)
  else if in_range 97 102 c then Some (code c - 87)
  else if in_range 65 70 c then Some (code c - 55) else None.

(** The hexadecimal digits a string starts with, and the rest. *)
Fixpoint hex_run (s : string) : list Z * string :=
  match s with
  | EmptyString => ([], "")
  | String c s' => match hex_value c with
                   | Some v => let '(l, r) := hex_run s' in (v :: l, r)
                   | None => ([], s)
                   end
  end.
Definition hex_number (l : list Z) : Z := foldl (fun a v => 16 * a + v) 0 l.
Definition group_bytes (z : Z) : list Z := [z / 256; z mod 256].

(** The loop of [parseIPv6] over at most [k] groups: the bytes so far, the position
    of the ellipsis, and what was not read. *)
Fixpoint parse_groups (k : nat) (s : string) (ip : list Z) (ellipsis : option nat)
  : option (list Z * option nat * string) :=
  match k with
  | O => Some (ip, ellipsis, s)
  | S k =>
      let '(ds, rest) := hex_run s in
      if bool_decide (ds = []) || (4 <? length ds)%nat then None
      else
        let ip' := ip ++ group_bytes (hex_number ds) in
        match rest with
        | EmptyString => Some (ip', ellipsis, "")
        | String c rest =>
            if bool_decide (c = "."%char) then
              if bool_decide (ellipsis = None) && negb (length ip =? 12)%nat then None
              else if (16 <? length ip + 4)%nat then None
              else v4 ← parseIPv4 s; Some (ip ++ v4, ellipsis, "")
            else if negb (bool_decide (c = ":"%char)) then None
            else match rest with
                 | EmptyString => None
                 | String c' rest' =>
                     if bool_decide (c' = ":"%char) then
                       match ellipsis with
                       | Some _ => None
                       | None => if bool_decide (rest' = "") then Some (ip', Some (length ip'), "")
                                 else parse_groups k rest' ip' (Some (length ip'))
                       end
                     else parse_groups k rest ip' ellipsis
                 end
        end
  end.

(** The end of [parseIPv6]: the whole text was read, and the ellipsis stands for at
    least one group. *)
Definition expand (r : list Z * option nat * string) : option (list Z) :=
  let '(ip, ellipsis, rest) := r in
  if negb (bool_decide (rest = "")) then None
  else match ellipsis with
       | None => if (length ip =? 16)%nat then Some ip else None
       | Some e => if (length ip <? 16)%nat
                   then Some (take e ip ++ replicate (16 - length ip) 0 ++ drop e ip) else None
       end.

Definition parseIPv6 (s : string) : option (list Z) :=
  match s with
  | String ":" (String ":" "") => Some (replicate 16 0)
  | String ":" (String ":" s) => parse_groups 8 s [] (Some 0%nat) ≫= expand
  | _ => parse_groups 8 s [] None ≫= expand
  end.

(** [netip.ParseAddr]: the bytes of an IPv4 or of an IPv6 address with its zone. *)
Inductive addr := Addr4 (l : list Z) | Addr6 (l : list Z) (zone : string).

Fixpoint addr_kind (s : string) : option ascii :=
  match s with
  | EmptyString => None
  | String c s => if bool_decide (c = "."%char) || bool_decide (c = ":"%char) || bool_decide (c = "%"%char)
                  then Some c else addr_kind s
  end.

Definition ParseAddr (s : string) : option addr :=
  match addr_kind s with
  | Some "."%char => Addr4 <$> parseIPv4 s
  | Some ":"%char =>
      match cut "%" s with
      | None => (fun l => Addr6 l "") <$> parseIPv6 s
      | Some (s, zone) => if bool_decide (zone = "") then None else (fun l => Addr6 l zone) <$> parseIPv6 s
      end
  | _ => None
  end.

Definition As16 (a : addr) : list Z :=
  match a with Addr4 l => v4InV6Prefix ++ l | Addr6 l _ => l end.
Definition Zone (a : addr) : string := match a with Addr4 _ => "" | Addr6 _ z => z end.
Definition BitLen (a : addr) : Z := match a with Addr4 _ => 32 | Addr6 _ _ => 128 end.

(** [net.ParseIP] *)
Definition ParseIP (s : string) : option IP :=
  a ← ParseAddr s; if bool_decide (Zone a = "") then Some (As16 a) else None.

(** ** Properties of an address *)

(** [ip.To4()] *)
Definition To4 (ip : IP) : option IP :=
  if (length ip =? 4)%nat then Some ip
  else if (length ip =? 16)%nat && bool_decide (take 12 ip = v4InV6Prefix) then Some (drop 12 ip) else None.
Definition Is4 (ip : IP) : bool := match To4 ip with Some _ => true | None => false end.

Definition IPv6loopback : IP := replicate 15 0 ++ [1].
Definition IsLoopback (ip : IP) : bool :=
  match To4 ip with
  | Some ip4 => match ip4 with a :: _ => a =? 127 | [] => false end
  | None => bool_decide (ip = IPv6loopback)
  end.

(** ** Printing *)

(** A group in hexadecimal, without leading zeros. *)
Fixpoint hex_digits (fuel : nat) (z : Z) (acc : string) : string :=
  match fuel with
  | O => acc
  | S fuel => let acc := String (hex_digit (z mod 16)) acc in if z / 16 =? 0 then acc else hex_digits fuel (z / 16) acc
  end.
Definition hex_group (z : Z) : string := hex_digits 4 z "".

Fixpoint groups (ip : list Z) : list Z :=
  match ip with a :: b :: ip => 256 * a + b :: groups ip | _ => [] end.

(** The number of leading zeros. *)
Fixpoint zero_run (l : list Z) : nat :=
  match l with z :: l => if z =? 0 then S (zero_run l) else O | [] => O end.

(** The first longest run of at least two zero groups, from group [i] on: its
    position and length. *)
Fixpoint longest_run (i : nat) (l : list Z) (best : option (nat * nat)) : option (nat * nat) :=
  match l with
  | [] => best
  | _ :: l' =>
      let n := zero_run l in
      let best := if (2 <=? n)%nat && (match best with Some (_, m) => (m <? n)%nat | None => true end)
                  then Some (i, n) else best in
      longest_run (S i) l' best
  end.

(** [Addr.String] of an IPv6 address *)
Definition string6 (ip : list Z) : string :=
  let g := groups ip in
  match longest_run 0 g None with
  | None => join ":" (hex_group <$> g)
  | Some (i, n) => join ":" (hex_group <$> take i g) +:+ "::" +:+ join ":" (hex_group <$> drop (i + n) g)
  end.
Definition string4 (ip : list Z) : string := join "." (itoa <$> ip).

(** [ip.String()] *)
Definition ip_string (ip : IP) : string :=
  match ip with
  | [] => "<nil>"
  | _ => match To4 ip with
         | Some p4 => string4 p4
         | None => if (length ip =? 16)%nat then string6 ip else "?" +:+ hex ip
         end
  end.

(** ** Networks *)

Record IPNet := mkIPNet { net_IP : IP; net_Mask : list Z }.

(** [CIDRMask(ones, bits)] *)
Fixpoint CIDRMask (bytes : nat) (ones : Z) : list Z :=
  match bytes with
  | O => []
  | S bytes => (if 8 <=? ones then 255 else 255 - Z.shiftr 255 (Z.max ones 0)) :: CIDRMask bytes (ones - 8)
  end.

(** [ip.Mask(m)] *)
Definition Mask (ip : IP) (m : list Z) : option IP :=
  let m := if (length m =? 16)%nat && (length ip =? 4)%nat && bool_decide (take 12 m = replicate 12 255)
           then drop 12 m else m in
  let ip := if (length m =? 4)%nat && (length ip =? 16)%nat && bool_decide (take 12 ip = v4InV6Prefix)
            then drop 12 ip else ip in
  if (length ip =? length m)%nat then Some (zip_with Z.land ip m) else None.

(** [dtoi] on a text that must be a number: fails from [big] on. *)
Definition dtoi (s : string) : option Z :=
  n ← parse_digits s; if n <? 16777215 then Some n else None.

(** [net.ParseCIDR]: the network. *)
Definition ParseCIDR (s : string) : option IPNet :=
  match cut "/" s with
  | None => None
  | Some (address, mask) =>
      a ← ParseAddr address;
      if negb (bool_decide (Zone a = "")) then None
      else
        n ← dtoi mask;
        if BitLen a <? n then None
        else
          let m := CIDRMask (Z.to_nat (BitLen a / 8)) n in
          ip ← Mask (As16 a) m; Some (mkIPNet ip m)
  end.

Definition networkNumberAndMask (n : IPNet) : option (list Z * list Z) :=
  ip ← match To4 (net_IP n) with
       | Some ip => Some ip
       | None => if (length (net_IP n) =? 16)%nat then Some (net_IP n) else None
       end;
  match length (net_Mask n) with
  | 4%nat => if (length ip =? 4)%nat then Some (ip, net_Mask n) else None
  | 16%nat => Some (ip, if (length ip =? 4)%nat then drop 12 (net_Mask n) else net_Mask n)
  | _ => None
  end.

(** [network.Contains(ip)] *)
Definition Contains (n : IPNet) (ip : IP) : bool :=
  let ip := default ip (To4 ip) in
  match networkNumberAndMask n with
  | None => (length ip =? 0)%nat
  | Some (nn, m) => (length ip =? length nn)%nat && bool_decide (zip_with Z.land nn m = zip_with Z.land ip m)
  end.

(** ** Examples *)

Example parse_ip_examples :
  ParseIP "10.0.0.1" = Some (v4InV6Prefix ++ [10; 0; 0; 1]) /\
  ParseIP "::1" = Some IPv6loopback /\ ParseIP "::" = Some (replicate 16 0) /\
  ParseIP "fe80::1%eth0" = None /\ ParseIP "01.2.3.4" = None /\ ParseIP "1.2.3" = None /\
  ParseIP "256.0.0.1" = None /\ ParseIP "1:2:3:4:5:6:7::" = Some [0;1;0;2;0;3;0;4;0;5;0;6;0;7;0;0] /\
  ParseIP "1:2:3:4:5:6:7:8::" = None /\ ParseIP "::ffff:1.2.3.4" = ParseIP "1.2.3.4" /\
  ParseIP "1::2::3" = None /\ ParseIP ":::1" = None /\ ParseIP "12345::" = None /\ ParseIP "" = None.
Proof. by vm_compute. Qed.

Example ip_string_examples :
  ip_string (v4InV6Prefix ++ [10; 0; 0; 1]) = "10.0.0.1" /\ ip_string IPv6loopback = "::1" /\
  ip_string [32;1;13;184;0;0;0;0;0;1;0;0;0;0;0;1] = "2001:db8::1:0:0:1" /\
  ip_string [0;1;0;0;0;3;0;4;0;5;0;6;0;7;0;8] = "1:0:3:4:5:6:7:8" /\ ip_string (replicate 16 0) = "::".
Proof. by vm_compute. Qed.

Example contains_examples :
  match ParseCIDR "10.1.0.0/16", ParseIP "10.1.2.3", ParseIP "10.2.0.1", ParseIP "::1" with
  | Some n, Some a, Some b, Some c => Contains n a = true /\ Contains n b = false /\ Contains n c = false
  | _, _, _, _ => False
  end /\ ParseCIDR "10.1.0.0/33" = None /\ ParseCIDR "10.1.0.0" = None.
Proof. by vm_compute. Qed.

(** ** Printing and parsing are inverse *)

(** The 16 bytes [ParseIP] returns. *)
Definition ip16 (ip : IP) : Prop := length ip = 16%nat /\ Forall (fun b => 0 <= b < 256) ip.

Definition is_hexc (c : ascii) : bool := match hex_value c with Some _ => true | None => false end.
Definition hex_values (s : string) : list Z := fst (hex_run s).

Lemma hex_run_all s r : sforall is_hexc s = true ->
  match r with String c _ => is_hexc c | EmptyString => false end = false ->
  hex_run (s +:+ r) = (hex_values s, r).
Proof.
  intros S R. unfold hex_values. induction s as [|c s IH].
  - rewrite append_nil_l. destruct r as [|c r]; [done|]. unfold is_hexc in R. simpl.
    by destruct (hex_value c).
  - simpl in S. apply andb_true_iff in S as [Sc S]. rewrite append_cons. simpl. unfold is_hexc in Sc.
    destruct (hex_value c); [|done]. rewrite (IH S). by destruct (hex_run s).
Qed.

Lemma hex_digit_value n : 0 <= n < 16 -> hex_value (hex_digit n) = Some n.
Proof.
  intros H. assert (In n (seqZ 0 16)) as I by (apply list_elem_of_In, elem_of_seqZ; lia).
  repeat (destruct I as [<-|I]; [done|]). done.
Qed.

Lemma hex_digits_ok fuel z acc : 0 <= z < 16 ^ Z.of_nat (S fuel) ->
  exists s, hex_digits (S fuel) z acc = s +:+ acc /\ sforall is_hexc s = true /\ s <> "" /\
    (length (hex_values s) <= S fuel)%nat /\ hex_number (hex_values s) = z /\ hex_values s <> [].
Proof.
  revert z acc. induction fuel as [|fuel IH]; intros z acc H; cbn [hex_digits];
    pose proof (Z.mod_pos_bound z 16 ltac:(done)) as B; pose proof (Z_div_mod_eq_full z 16) as Dz;
    pose proof (hex_digit_value (z mod 16) B) as V.
  { assert (z mod 16 = z) as Ez by (apply Z.mod_small; lia). exists (String (hex_digit (z mod 16)) "").
    unfold is_hexc, hex_values. simpl. rewrite V. simpl. rewrite Ez. by destruct (_ =? 0). }
  destruct (z / 16 =? 0) eqn:E; bool_to_prop.
  - exists (String (hex_digit (z mod 16)) ""). unfold is_hexc, hex_values. simpl. rewrite V. simpl. rewrite E in Dz. split_and!; try done. lia.
  - destruct (IH (z / 16) (String (hex_digit (z mod 16)) acc)) as (s & Es & A & N & L & Hn & Nn).
    { split; [apply Z.div_pos; lia|]. apply Z.div_lt_upper_bound; [lia|].
      rewrite (_ : 16 * 16 ^ Z.of_nat (S fuel) = 16 ^ Z.of_nat (S (S fuel))); [lia|].
      rewrite (Nat2Z.inj_succ (S fuel)) Z.pow_succ_r; lia. }
    assert (forall r, hex_run (s +:+ String (hex_digit (z mod 16)) r) =
      (hex_values s ++ z mod 16 :: fst (hex_run r), snd (hex_run r))) as R.
    { clear -A V. intros r. unfold hex_values. induction s as [|c s IH].
      - rewrite append_nil_l. simpl. rewrite V. by destruct (hex_run r).
      - simpl in A. apply andb_true_iff in A as [Ac A]. rewrite append_cons. simpl. unfold is_hexc in Ac.
        destruct (hex_value c); [|done]. rewrite (IH A). by destruct (hex_run s). }
    exists (s +:+ String (hex_digit (z mod 16)) ""). rewrite append_assoc append_cons append_nil_l. unfold hex_values at 1 2 3.
    rewrite R. simpl. rewrite length_app sforall_append A. unfold hex_number. rewrite foldl_app. fold (hex_number (hex_values s)).
    rewrite Hn. unfold is_hexc. simpl. rewrite V. split_and!; try done; try lia; by [destruct s|destruct (hex_values s)].
Qed.

Lemma hex_group_ok z : 0 <= z < 65536 ->
  sforall is_hexc (hex_group z) = true /\ hex_values (hex_group z) <> [] /\
  (length (hex_values (hex_group z)) <= 4)%nat /\ hex_number (hex_values (hex_group z)) = z.
Proof. intros H. destruct (hex_digits_ok 3 z "" H) as (s & E & ?). unfold hex_group. rewrite E append_nil_r. naive_solver. Qed.

Definition groups_range (g : list Z) : Prop := Forall (fun z => 0 <= z < 65536) g.

Lemma hex_group_run z r : 0 <= z < 65536 -> match r with String c _ => is_hexc c | EmptyString => false end = false ->
  exists ds, hex_run (hex_group z +:+ r) = (ds, r) /\
    bool_decide (ds = []) || (4 <? length ds)%nat = false /\ hex_number ds = z.
Proof.
  intros Z R. destruct (hex_group_ok z Z) as (A & N & L & E). exists (hex_values (hex_group z)).
  split_and!; [by apply hex_run_all| |done]. rewrite bool_decide_eq_false_2 //. simpl. apply Nat.ltb_ge. lia.
Qed.

#[local] Abbreviation text g := (join ":" (hex_group <$> g)).

Lemma text_cons z z' g : text (z :: z' :: g) = hex_group z +:+ ":" +:+ text (z' :: g).
Proof. done. Qed.

(** The first character of a printed list of groups is a digit. *)
Lemma text_head z g : 0 <= z < 65536 -> exists c r, text (z :: g) = String c r /\ is_hexc c = true.
Proof.
  intros Z. destruct (hex_group_ok z Z) as (A & N & _). unfold hex_values in N.
  destruct (hex_group z) as [|c r] eqn:E; [done|]. simpl in A. apply andb_true_iff in A as [A _].
  destruct g as [|z' g]; simpl; rewrite E; eexists _, _; split; try done.
Qed.

(** A list of groups, at the end or before an ellipsis. *)
Lemma parse_groups_text g k ip e :
  g <> [] -> (length g <= k)%nat -> groups_range g ->
  parse_groups k (text g) ip e = Some (ip ++ (g ≫= group_bytes), e, "").
Proof.
  revert k ip. induction g as [|z g IH]; intros k ip N L R; [done|]. apply Forall_cons in R as [Z R].
  destruct k as [|k]; [simpl in L; lia|]. cbn [parse_groups].
  destruct g as [|z' g].
  - destruct (hex_group_run z "" Z ltac:(done)) as (ds & E & D & V). rewrite append_nil_r in E. cbn [fmap list_fmap join].
    rewrite E D V. simpl. done.
  - destruct (hex_group_run z (":" +:+ text (z' :: g)) Z ltac:(done)) as (ds & E & D & V).
    rewrite text_cons E D V. rewrite append_cons append_nil_l.
    rewrite (bool_decide_eq_false_2 (":"%char = "."%char)) //. rewrite (bool_decide_eq_true_2 (":"%char = ":"%char)) //.
    cbn [negb]. destruct (text_head z' g) as (c & r & Ec & Hc); [by apply Forall_cons in R as [? _]|].
    rewrite Ec. rewrite bool_decide_eq_false_2; [|by intros ->]. rewrite -Ec IH; [|done|simpl in *; lia|done].
    by rewrite -app_assoc.
Qed.

Lemma parse_groups_ellipsis g k ip post :
  g <> [] -> (length g <= k)%nat -> groups_range g ->
  parse_groups k (text g +:+ "::" +:+ post) ip None =
  let ip' := ip ++ (g ≫= group_bytes) in
  if bool_decide (post = "") then Some (ip', Some (length ip'), "")
  else parse_groups (k - length g) post ip' (Some (length ip')).
Proof.
  revert k ip. induction g as [|z g IH]; intros k ip N L R; [done|]. apply Forall_cons in R as [Z R].
  destruct k as [|k]; [simpl in L; lia|].
  destruct g as [|z' g].
  - destruct (hex_group_run z ("::" +:+ post) Z ltac:(done)) as (ds & E & D & V). cbn [fmap list_fmap join parse_groups].
    rewrite E D V. rewrite !append_cons append_nil_l.
    rewrite (bool_decide_eq_false_2 (":"%char = "."%char)) //. rewrite (bool_decide_eq_true_2 (":"%char = ":"%char)) //.
    cbn [negb]. cbv zeta. simpl (_ - _)%nat. rewrite Nat.sub_0_r. simpl (_ ≫= _). done.
  - destruct (hex_group_run z (":" +:+ text (z' :: g) +:+ "::" +:+ post) Z ltac:(done)) as (ds & E & D & V).
    rewrite text_cons. rewrite !append_assoc. cbn [parse_groups].
    rewrite E D V. rewrite (append_cons ":") append_nil_l.
    rewrite (bool_decide_eq_false_2 (":"%char = "."%char)) //. rewrite (bool_decide_eq_true_2 (":"%char = ":"%char)) //.
    cbn [negb]. destruct (text_head z' g) as (c & r & Ec & Hc); [by apply Forall_cons in R as [? _]|].
    rewrite Ec append_cons. rewrite bool_decide_eq_false_2; [|by intros ->]. rewrite -append_cons -Ec IH; [|done|simpl in *; lia|done].
    cbv zeta. by rewrite -app_assoc.
Qed.

(** The run of zero groups that is left out. *)
Lemma zero_run_spec l : take (zero_run l) l = replicate (zero_run l) 0 /\ (zero_run l <= length l)%nat.
Proof.
  induction l as [|z l [IH L]]; simpl; [done|]. destruct (z =? 0) eqn:E; bool_to_prop; simpl; [|split; [done|lia]].
  subst. split; [by rewrite IH|lia].
Qed.

Definition run_in (l : list Z) (r : nat * nat) : Prop :=
  (2 <= snd r)%nat /\ (fst r + snd r <= length l)%nat /\ take (snd r) (drop (fst r) l) = replicate (snd r) 0.

Lemma longest_run_spec pre l best r :
  (forall b, best = Some b -> run_in (pre ++ l) b) -> longest_run (length pre) l best = Some r -> run_in (pre ++ l) r.
Proof.
  revert pre best. induction l as [|z l IH]; intros pre best B E; cbn [longest_run] in E; [by apply B|].
  rewrite (_ : pre ++ z :: l = (pre ++ [z]) ++ l); [|by rewrite -app_assoc]. eapply IH; [|].
  2: { rewrite length_app Nat.add_1_r. exact E. }
  rewrite -app_assoc. cbn [app]. intros b Hb. destruct (_ && _) eqn:T; [|by apply B].
  apply (inj Some) in Hb as <-. bool_to_prop. destruct (zero_run_spec (z :: l)) as [Z L].
  split_and!; cbn [fst snd].
  - by apply Nat.leb_le.
  - rewrite length_app. lia.
  - by rewrite drop_app_length.
Qed.

Lemma longest_run_groups g i n : longest_run 0 g None = Some (i, n) ->
  (2 <= n)%nat /\ (i + n <= length g)%nat /\ g = take i g ++ replicate n 0 ++ drop (i + n) g.
Proof.
  intros E. destruct (longest_run_spec [] g None (i, n) ltac:(done) E) as (N & L & Z). cbn [fst snd app] in *.
  split_and!; [done..|]. rewrite -Z -drop_drop take_drop. by rewrite take_drop.
Qed.

Lemma groups_of_bytes ip n : length ip = (2 * n)%nat -> Forall (fun b => 0 <= b < 256) ip ->
  groups_range (groups ip) /\ length (groups ip) = n /\ groups ip ≫= group_bytes = ip.
Proof.
  revert ip. induction n as [|n IH]; intros ip L F.
  { destruct ip; [|done]. split_and!; [by constructor|done..]. }
  destruct ip as [|a [|b ip]]; [simpl in L; lia..|]. apply Forall_cons in F as [A F]. apply Forall_cons in F as [B F].
  destruct (IH ip ltac:(simpl in L; lia) F) as (R & Ln & E). cbn [groups]. split_and!.
  - constructor; [lia|done].
  - simpl. by rewrite Ln.
  - rewrite bind_cons E. unfold group_bytes. rewrite (Z.add_comm (256 * a)) (Z.mul_comm 256).
    rewrite Z.div_add // Z.mod_add // Z.div_small // Z.mod_small //.
Qed.

Lemma bind_groups_length g : length (g ≫= group_bytes) = (2 * length g)%nat.
Proof. induction g as [|z g IH]; [done|]. rewrite bind_cons length_app IH. simpl. lia. Qed.

Lemma bind_zeros n : replicate n 0 ≫= group_bytes = replicate (2 * n) 0.
Proof. induction n as [|n IH]; [done|]. cbn [replicate]. rewrite bind_cons IH. replace (2 * S n)%nat with (S (S (2 * n))) by lia. done. Qed.

(** Every IPv6 text of [string6] is read back. *)
Lemma parseIPv6_hex c r : is_hexc c = true -> parseIPv6 (String c r) = parse_groups 8 (String c r) [] None ≫= expand.
Proof. intros H. unfold parseIPv6. by destruct c as [[] [] [] [] [] [] [] []]. Qed.

Lemma parseIPv6_double c r : is_hexc c = true ->
  parseIPv6 ("::" +:+ String c r) = parse_groups 8 (String c r) [] (Some 0%nat) ≫= expand.
Proof. done. Qed.

Lemma expand_run a b n : (length (a ++ b) + n = 16)%nat -> (0 < n)%nat ->
  expand (a ++ b, Some (length a), "") = Some (a ++ replicate n 0 ++ b).
Proof.
  intros L N. unfold expand. rewrite bool_decide_eq_true_2 //. cbn [negb].
  rewrite (proj2 (Nat.ltb_lt _ _)); [|lia]. rewrite take_app_length drop_app_length. by replace (16 - length (a ++ b))%nat with n by lia.
Qed.

Lemma parse_ellipsis pre post :
  (length pre + length post < 8)%nat -> groups_range pre -> groups_range post ->
  parseIPv6 (text pre +:+ "::" +:+ text post) =
  expand ((pre ≫= group_bytes) ++ (post ≫= group_bytes), Some (length (pre ≫= group_bytes)), "").
Proof.
  intros L Rp Rq. destruct pre as [|p pre]; destruct post as [|q post]; [done| | |].
  - destruct (text_head q post) as (c & r & Ec & Hc); [by apply Forall_cons in Rq as [? _]|].
    change (text []) with "". rewrite append_nil_l Ec parseIPv6_double // -Ec.
    rewrite parse_groups_text; [done..|simpl in *; lia|done].
  - destruct (text_head p pre) as (c & r & Ec & Hc); [by apply Forall_cons in Rp as [? _]|].
    rewrite Ec append_cons parseIPv6_hex // -append_cons -Ec.
    rewrite (parse_groups_ellipsis (p :: pre) 8 [] "") //; [|simpl in *; lia]. cbv zeta.
    by rewrite bool_decide_eq_true_2 // app_nil_r.
  - destruct (text_head q post) as (c & r & Ec & Hc); [by apply Forall_cons in Rq as [? _]|].
    destruct (text_head p pre) as (c' & r' & Ec' & Hc'); [by apply Forall_cons in Rp as [? _]|].
    rewrite Ec' append_cons parseIPv6_hex // -append_cons -Ec'.
    rewrite (parse_groups_ellipsis (p :: pre) 8 []) //; [|simpl in *; lia]. cbv zeta.
    rewrite bool_decide_eq_false_2; [|by rewrite Ec].
    rewrite parse_groups_text; [done..|simpl in *; lia|done].
Qed.

Lemma parse_string6 ip : ip16 ip -> parseIPv6 (string6 ip) = Some ip.
Proof.
  intros [L F]. destruct (groups_of_bytes ip 8 L F) as (R & Ln & E). unfold string6.
  destruct (longest_run 0 (groups ip) None) as [[i n]|] eqn:Lr.
  - destruct (longest_run_groups _ _ _ Lr) as (N & Lin & Eg).
    rewrite parse_ellipsis; [|rewrite length_take length_drop; lia|by apply Forall_take|by apply Forall_drop].
    rewrite (expand_run _ _ (2 * n)); [|rewrite length_app !bind_groups_length length_take length_drop; lia|lia].
    by rewrite -bind_zeros -!bind_app -Eg E.
  - destruct (groups ip) as [|z g] eqn:Eg; [simpl in Ln; lia|].
    destruct (text_head z g) as (c & r & Ec & Hc); [by apply Forall_cons in R as [? _]|].
    rewrite Ec parseIPv6_hex // -Ec parse_groups_text //; [|lia].
    rewrite E. simpl. by rewrite L.
Qed.

(** The characters of printed addresses. *)
Definition ip6_char (c : ascii) : bool := is_hexc c || bool_decide (c = ":"%char).

Lemma text_chars g : groups_range g -> sforall ip6_char (text g) = true.
Proof.
  intros R. rewrite sforall_join //. apply forallb_forall. intros s Hs%list_elem_of_In.
  apply list_elem_of_fmap in Hs as (z & -> & Hz). unfold groups_range in R; rewrite -> Forall_forall in R.
  destruct (hex_group_ok z (R z Hz)) as (A & _). eapply sforall_impl; [|exact A]. intros c Hc. unfold ip6_char. by rewrite Hc.
Qed.

Lemma string6_chars ip : ip16 ip -> sforall ip6_char (string6 ip) = true.
Proof.
  intros [L F]. destruct (groups_of_bytes ip 8 L F) as (R & _ & _). unfold string6.
  destruct (longest_run _ _ _) as [[i n]|]; [|by apply text_chars].
  rewrite !sforall_append !text_chars //; [by apply Forall_drop|by apply Forall_take].
Qed.

Lemma string6_colon ip : ip16 ip -> exists a b, string6 ip = a +:+ String ":" b /\ sforall is_hexc a = true.
Proof.
  intros [L F]. destruct (groups_of_bytes ip 8 L F) as (R & Ln & _). unfold string6.
  assert (forall z g, 0 <= z < 65536 -> exists b, text (z :: g) +:+ "::" = hex_group z +:+ String ":" b) as H.
  { intros z [|z' g] Z; [by eexists|]. rewrite text_cons append_assoc. by eexists. }
  destruct (groups ip) as [|z g] eqn:Eg; [simpl in Ln; lia|].
  pose proof (hex_group_ok z) as G. apply Forall_cons in R as [Z R]. destruct (G Z) as (A & _).
  destruct (longest_run _ _ _) as [[[|i] n]|].
  - exists "", (":" +:+ text (drop (0 + n) (z :: g))). by split.
  - cbn [take]. destruct (H z (take i g) Z) as [b E]. exists (hex_group z), (b +:+ text (drop (S i + n) (z :: g))).
    split; [|done]. by rewrite -append_assoc E append_assoc append_cons.
  - destruct g as [|z' g]; [simpl in Ln; lia|]. exists (hex_group z), (text (z' :: g)). by split.
Qed.

Lemma addr_kind_skip (p : ascii -> bool) a c s :
  (forall x, p x = true -> x <> "."%char /\ x <> ":"%char /\ x <> "%"%char) -> sforall p a = true ->
  bool_decide (c = "."%char) || bool_decide (c = ":"%char) || bool_decide (c = "%"%char) = true ->
  addr_kind (a +:+ String c s) = Some c.
Proof.
  intros P A C. induction a as [|x a IH].
  - rewrite append_nil_l. cbn [addr_kind]. by rewrite C.
  - simpl in A. apply andb_true_iff in A as [Ax A]. rewrite append_cons. cbn [addr_kind].
    destruct (P x Ax) as (N1 & N2 & N3). rewrite !bool_decide_eq_false_2 //. by apply IH.
Qed.

Lemma byte_field b : 0 <= b < 256 -> ipv4_field (itoa b) = Some b /\ sforall is_digit (itoa b) = true.
Proof.
  intros H. pose proof (byte_enum (fun b => bool_decide (ipv4_field (itoa b) = Some b) && sforall is_digit (itoa b))
    ltac:(by vm_compute) b H) as E. cbv beta in E. by bool_to_prop.
Qed.

Lemma string4_spec a b c d : Forall (fun b => 0 <= b < 256) [a; b; c; d] ->
  parseIPv4 (string4 [a; b; c; d]) = Some [a; b; c; d] /\ addr_kind (string4 [a; b; c; d]) = Some "."%char /\
  sforall (fun c => is_digit c || bool_decide (c = "."%char)) (string4 [a; b; c; d]) = true.
Proof.
  intros F. rewrite !Forall_cons in F. destruct F as (A & B & C & D & _).
  destruct (byte_field a A) as [Fa Da]. destruct (byte_field b B) as [Fb Db].
  destruct (byte_field c C) as [Fc Dc]. destruct (byte_field d D) as [Fd Dd]. unfold string4. split_and!.
  - unfold parseIPv4. rewrite split_join //; [|repeat constructor; by apply digits_lack].
    cbn [fmap list_fmap]. by rewrite Fa Fb Fc Fd.
  - cbn [fmap list_fmap join]. apply (addr_kind_skip is_digit); [|done|done].
    intros x Hx. split_and!; by intros ->.
  - rewrite sforall_join //. cbn [fmap list_fmap forallb].
    assert (forall s, sforall is_digit s = true -> sforall (fun c => is_digit c || bool_decide (c = "."%char)) s = true) as I.
    { intros s. apply sforall_impl. by intros x ->. }
    by rewrite !I.
Qed.

Lemma ip_string_v4 ip : ip16 ip -> take 12 ip = v4InV6Prefix ->
  exists a b c d, ip = v4InV6Prefix ++ [a; b; c; d] /\ Forall (fun b => 0 <= b < 256) [a; b; c; d] /\
    ip_string ip = string4 [a; b; c; d].
Proof.
  intros [L F] T. assert (ip = v4InV6Prefix ++ drop 12 ip) as E by (by rewrite -T take_drop).
  assert (Forall (fun b => 0 <= b < 256) (drop 12 ip)) as F' by by apply Forall_drop.
  assert (length (drop 12 ip) = 4%nat) as L' by (rewrite length_drop L; done).
  destruct (drop 12 ip) as [|a [|b [|c [|d [|]]]]]; try done. exists a, b, c, d. split_and!; [done..|]. by rewrite E.
Qed.

Lemma ip_string_v6 ip : ip16 ip -> take 12 ip <> v4InV6Prefix -> ip_string ip = string6 ip.
Proof.
  intros [L F] T. unfold ip_string, To4. rewrite L. cbn [Nat.eqb andb]. rewrite bool_decide_eq_false_2 //.
  by destruct ip.
Qed.

(** The printed form of an address parses back to it... *)
Lemma ip_roundtrip ip : ip16 ip -> ParseIP (ip_string ip) = Some ip.
Proof.
  intros I. destruct (decide (take 12 ip = v4InV6Prefix)) as [T|T].
  - destruct (ip_string_v4 ip I T) as (a & b & c & d & -> & F & ->).
    destruct (string4_spec a b c d F) as (P & K & _). unfold ParseIP, ParseAddr. by rewrite K P.
  - rewrite (ip_string_v6 ip I T). destruct (string6_colon ip I) as (a & b & E & A).
    assert (addr_kind (string6 ip) = Some ":"%char) as K.
    { rewrite E. apply (addr_kind_skip is_hexc); [|done|done]. intros x Hx. split_and!; by intros ->. }
    assert (cut "%" (string6 ip) = None) as C.
    { apply cut_char_None. eapply sforall_impl; [|by apply string6_chars].
      intros x Hx. apply negb_true_iff, bool_decide_eq_false. by intros ->. }
    unfold ParseIP, ParseAddr. by rewrite K C (parse_string6 ip I).
Qed.

(** ... and has only digits, letters, dots and colons. *)
Lemma ip_string_lacks x ip : ip16 ip -> is_hexc x = false -> x <> "."%char -> x <> ":"%char ->
  lacks x (ip_string ip) = true.
Proof.
  intros I H N1 N2. destruct (decide (take 12 ip = v4InV6Prefix)) as [T|T].
  - destruct (ip_string_v4 ip I T) as (a & b & c & d & -> & F & ->). destruct (string4_spec a b c d F) as (_ & _ & S).
    eapply sforall_impl; [|exact S]. intros y Hy. apply negb_true_iff, bool_decide_eq_false. intros ->.
    rewrite bool_decide_eq_false_2 // orb_false_r in Hy. unfold is_hexc, hex_value in H. by rewrite Hy in H.
  - rewrite (ip_string_v6 ip I T). eapply sforall_impl; [|by apply string6_chars].
    intros y Hy. apply negb_true_iff, bool_decide_eq_false. intros ->. unfold ip6_char in Hy.
    by rewrite H bool_decide_eq_false_2 in Hy.
Qed.

Lemma hex_values_length s : sforall is_hexc s = true -> length (hex_values s) = String.length s.
Proof.
  unfold hex_values. induction s as [|c s IH]; [done|]. simpl. unfold is_hexc at 1. destruct (hex_value c); [|done].
  intros H. specialize (IH H). destruct (hex_run s). simpl in *. by rewrite IH.
Qed.

Lemma text_bound g : groups_range g -> go_len (text g) <= 5 * Z.of_nat (length g) - (if bool_decide (g = []) then 0 else 1).
Proof.
  intros R. destruct g as [|z g]; [done|]. rewrite bool_decide_eq_false_2 //.
  assert (Forall (fun s => go_len s <= 4) (hex_group <$> z :: g)) as F.
  { apply Forall_fmap. eapply Forall_impl; [exact R|]. intros x Hx. destruct (hex_group_ok x Hx) as (A & _ & L & _).
    unfold go_len. simpl. rewrite hex_values_length // in L. lia. }
  pose proof (join_bound ":" 4 _ F ltac:(done)) as B. rewrite length_fmap in B. change (go_len ":") with 1 in B. lia.
Qed.

(** ... and at most 39 characters. *)
Lemma ip_string_length ip : ip16 ip -> go_len (ip_string ip) <= 39.
Proof.
  intros I. destruct (decide (take 12 ip = v4InV6Prefix)) as [T|T].
  - destruct (ip_string_v4 ip I T) as (a & b & c & d & _ & F & ->).
    pose proof (join_bound "." 5 (itoa <$> [a; b; c; d])) as B. unfold string4. cbn [length fmap list_fmap] in B.
    change (go_len ".") with 1 in B. cbn [fmap list_fmap].
    assert (Forall (fun s => go_len s <= 5) [itoa a; itoa b; itoa c; itoa d]) as Fi.
    { rewrite !Forall_cons in F |- *. split_and!; try done; apply itoa_port; lia. }
    specialize (B Fi ltac:(done)). lia.
  - rewrite (ip_string_v6 ip I T). destruct I as [L F]. destruct (groups_of_bytes ip 8 L F) as (R & Ln & _). unfold string6.
    destruct (longest_run _ _ _) as [[i n]|] eqn:E.
    + destruct (longest_run_groups _ _ _ E) as (N & Li & _). rewrite !go_len_append. change (go_len "::") with 2.
      pose proof (text_bound (take i (groups ip)) (Forall_take _ _ _ R)) as A.
      pose proof (text_bound (drop (i + n) (groups ip)) (Forall_drop _ _ _ R)) as B.
      rewrite length_take in A. rewrite length_drop in B. repeat case_bool_decide; lia.
    + pose proof (text_bound (groups ip) R) as B. rewrite Ln in B. case_bool_decide as Z; [by rewrite Z in Ln|]. lia.
Qed.

(** ** What [ParseIP] returns *)

Lemma hex_run_range s : Forall (fun v => 0 <= v < 16) (hex_values s).
Proof.
  unfold hex_values. induction s as [|c s IH]; simpl; [constructor|].
  destruct (hex_value c) as [v|] eqn:E; [|constructor]. destruct (hex_run s) as [l r]. simpl in *. constructor; [|done].
  revert E. unfold hex_value, is_digit, in_range. repeat case_match; intros [= <-]; bool_to_prop; lia.
Qed.

Lemma hex_number_range l : Forall (fun v => 0 <= v < 16) l -> 0 <= hex_number l < 16 ^ Z.of_nat (length l).
Proof.
  induction l as [|v l IH] using rev_ind; intros F; [done|]. apply Forall_app in F as [F [V _]%Forall_cons].
  unfold hex_number. rewrite foldl_app. fold (hex_number l). cbn [foldl]. rewrite length_app Nat2Z.inj_add Z.pow_add_r; [|lia..].
  change (16 ^ Z.of_nat (length [v])) with 16. specialize (IH F). lia.
Qed.

Definition byte_list (l : list Z) : Prop := Forall (fun b => 0 <= b < 256) l.

Lemma group_bytes_range ds : (length ds <= 4)%nat -> Forall (fun v => 0 <= v < 16) ds -> byte_list (group_bytes (hex_number ds)).
Proof.
  intros L F. pose proof (hex_number_range ds F) as R.
  assert (16 ^ Z.of_nat (length ds) <= 16 ^ 4) as P by (apply Z.pow_le_mono_r; lia).
  repeat constructor; try (apply Z.mod_pos_bound; lia); [apply Z.div_pos; lia|apply Z.div_lt_upper_bound; lia].
Qed.

Lemma parseIPv4_range s l : parseIPv4 s = Some l -> length l = 4%nat /\ byte_list l.
Proof.
  assert (forall s v, ipv4_field s = Some v -> 0 <= v < 256) as Fd.
  { intros [|c [|d t]] v; [done| |].
    - destruct c as [[] [] [] [] [] [] [] []]; by vm_compute; try (intros [= <-]; split).
    - unfold ipv4_field. case_bool_decide; [done|]. intros (x & P & V)%bind_Some. apply parse_digits_nonneg in P.
      destruct (x <=? 255) eqn:E; [|done]. injection V as <-. bool_to_prop. lia. }
  unfold parseIPv4. destruct (split s ".") as [|a [|b [|c [|d [|]]]]]; try done.
  intros (a' & ?%Fd & (b' & ?%Fd & (c' & ?%Fd & (d' & ?%Fd & [= <-])%bind_Some)%bind_Some)%bind_Some)%bind_Some.
  split; [done|]. by repeat constructor; lia.
Qed.

Definition partial_ok (k : nat) (ip : list Z) (e : option nat) : Prop :=
  byte_list ip /\ (length ip + 2 * k <= 16)%nat /\ forall n, e = Some n -> (n <= length ip)%nat.

Lemma parse_groups_ok k s ip e r :
  partial_ok k ip e -> parse_groups k s ip e = Some r -> exists ip' e' t, r = (ip', e', t) /\ partial_ok 0 ip' e'.
Proof.
  revert s ip e. induction k as [|k IH]; intros s ip e O; cbn [parse_groups].
  { intros [= <-]. by eexists _, _, _. }
  pose proof (hex_run_range s) as Hr. unfold hex_values in Hr. destruct (hex_run s) as [ds rest]. simpl in Hr.
  destruct (_ || _) eqn:T; [done|]. bool_to_prop.
  match goal with H : (_ <? _)%nat = false |- _ => apply Nat.ltb_ge in H end.
  destruct O as (B & L & En). pose proof (group_bytes_range ds ltac:(done) Hr) as G.
  assert (byte_list (ip ++ group_bytes (hex_number ds)) /\
    length (ip ++ group_bytes (hex_number ds)) = (length ip + 2)%nat) as [B' L'] by (split; [by apply Forall_app|apply length_app]).
  assert (forall e', (e' = e \/ e' = Some (length (ip ++ group_bytes (hex_number ds)))) -> forall j, (j <= k)%nat ->
    partial_ok j (ip ++ group_bytes (hex_number ds)) e') as O'.
  { intros e' He j Hj. split_and!; [done|lia|]. intros n ->. destruct He as [<-|[= ->]]; [|lia]. specialize (En n eq_refl). lia. }
  destruct rest as [|c rest].
  { intros [= <-]. eexists _, _, _. split; [done|]. apply O'; [by left|lia]. }
  case_bool_decide.
  { destruct (_ && _); [done|]. destruct (_ <? _)%nat eqn:E; [done|]. apply Nat.ltb_ge in E.
    intros (v4 & [Lv Bv]%parseIPv4_range & [= <-])%bind_Some. eexists _, _, _. split; [done|].
    split_and!; [by apply Forall_app|rewrite length_app; lia|]. intros n Hn. rewrite length_app. specialize (En n Hn). lia. }
  destruct (negb _); [done|]. destruct rest as [|c' rest']; [done|]. case_bool_decide.
  - destruct e; [done|]. case_bool_decide.
    + intros [= <-]. eexists _, _, _. split; [done|]. apply O'; [by right|lia].
    + apply IH, O'; [by right|lia].
  - apply IH, O'; [by left|lia].
Qed.

Lemma expand_ok ip e t l : partial_ok 0 ip e -> expand (ip, e, t) = Some l -> ip16 l.
Proof.
  intros (B & L & En). unfold expand. destruct (negb _); [done|]. destruct e as [e|].
  - destruct (_ <? _)%nat eqn:E; [|done]. apply Nat.ltb_lt in E. intros [= <-]. specialize (En e eq_refl). split.
    + rewrite !length_app length_replicate length_take length_drop. lia.
    + repeat apply Forall_app_2; [by apply Forall_take|by apply Forall_replicate|by apply Forall_drop].
  - destruct (_ =? _)%nat eqn:E; [|done]. apply Nat.eqb_eq in E. by intros [= <-].
Qed.

Lemma parseIPv6_ok s l : parseIPv6 s = Some l -> ip16 l.
Proof.
  assert (forall s e, e = None \/ e = Some 0%nat -> parse_groups 8 s [] e ≫= expand = Some l -> ip16 l) as H.
  { intros t e He (r & P & X)%bind_Some. destruct (parse_groups_ok 8 t [] e r) as (ip & e' & u & -> & O); [|done|].
    - split_and!; [constructor|simpl; lia|]. intros n ->. destruct He as [|[= ->]]; [done|simpl; lia].
    - by eapply expand_ok. }
  unfold parseIPv6. repeat case_match; try (apply H; by auto). intros [= <-]. split; [done|]. by repeat constructor.
Qed.

Lemma ParseAddr_ok s a : ParseAddr s = Some a -> ip16 (As16 a) /\ match a with Addr4 l => length l = 4%nat | _ => True end.
Proof.
  unfold ParseAddr. destruct (addr_kind s) as [k|]; [|done].
  assert (forall t z, (fun l => Addr6 l z) <$> parseIPv6 t = Some a -> ip16 (As16 a) /\
    match a with Addr4 l => length l = 4%nat | _ => True end) as H6.
  { intros t z (l & P & ->)%fmap_Some_1. split; [|done]. by eapply parseIPv6_ok. }
  assert (Addr4 <$> parseIPv4 s = Some a -> ip16 (As16 a) /\ match a with Addr4 l => length l = 4%nat | _ => True end) as H4.
  { intros (l & [L B]%parseIPv4_range & ->)%fmap_Some_1. cbn [As16]. split; [|done]. split; [by rewrite length_app L|].
    apply Forall_app. split; [|done]. by repeat constructor. }
  repeat case_match; intros Hs; try done; eauto.
Qed.

Lemma ParseIP_ok s ip : ParseIP s = Some ip -> ip16 ip.
Proof.
  intros (a & [P _]%ParseAddr_ok & E)%bind_Some. by case_bool_decide; [injection E as <-|].
Qed.

(** ** Membership in a network *)

(** Addresses as numbers; the first [p] bits of two addresses agree. *)
Definition be_value (l : list Z) : Z := foldl (fun a b => 256 * a + b) 0 l.
Definition same_prefix (p : Z) (a b : list Z) : Prop :=
  be_value a / 2 ^ (8 * Z.of_nat (length a) - Z.max 0 p) = be_value b / 2 ^ (8 * Z.of_nat (length b) - Z.max 0 p).

Lemma be_value_cons a l : be_value (a :: l) = a * 2 ^ (8 * Z.of_nat (length l)) + be_value l.
Proof.
  unfold be_value. cbn [foldl]. rewrite Z.mul_0_r Z.add_0_l.
  assert (forall x, foldl (fun a b => 256 * a + b) x l =
    x * 2 ^ (8 * Z.of_nat (length l)) + foldl (fun a b => 256 * a + b) 0 l) as H; [|apply H].
  induction l as [|b l IH]; intros x; cbn [foldl]; [simpl; lia|]. rewrite (IH (256 * x + b)) (IH (256 * 0 + b)).
  cbn [length]. rewrite (_ : 8 * Z.of_nat (S (length l)) = 8 + 8 * Z.of_nat (length l)); [|lia].
  rewrite Z.pow_add_r; [|lia..]. change (2 ^ 8) with 256. lia.
Qed.

Lemma be_value_range l : byte_list l -> 0 <= be_value l < 2 ^ (8 * Z.of_nat (length l)).
Proof.
  induction l as [|a l IH]; intros F; [done|]. apply Forall_cons in F as [A F]. specialize (IH F). rewrite be_value_cons.
  cbn [length]. rewrite (_ : 8 * Z.of_nat (S (length l)) = 8 + 8 * Z.of_nat (length l)); [|lia].
  rewrite Z.pow_add_r; [|lia..]. change (2 ^ 8) with 256. nia.
Qed.

(** One byte of a mask keeps the high bits. *)
Definition mask_byte (p : Z) : Z := if 8 <=? p then 255 else 255 - Z.shiftr 255 (Z.max p 0).

Lemma mask_byte_land b p : 0 <= b < 256 ->
  let k := 8 - Z.min 8 (Z.max 0 p) in Z.land b (mask_byte p) = b / 2 ^ k * 2 ^ k.
Proof.
  intros B k.
  assert (forallb (fun b => forallb (fun p => Z.land b (mask_byte p) =? b / 2 ^ (8 - p) * 2 ^ (8 - p)) (seqZ 0 9)) (seqZ 0 256)
    = true) as F by by vm_compute.
  pose proof (byte_enum _ F b B) as G. cbv beta in G. rewrite -> forallb_forall in G.
  specialize (G (Z.min 8 (Z.max 0 p)) ltac:(apply list_elem_of_In, elem_of_seqZ; lia)). bool_to_prop. rewrite -/k in G. rewrite -G.
  f_equal. unfold mask_byte. destruct (Z.leb_spec 8 p).
  - by rewrite (_ : Z.min 8 (Z.max 0 p) = 8); [|lia].
  - rewrite (proj2 (Z.leb_gt _ _)); [|lia]. do 2 f_equal. lia.
Qed.

Lemma mask_byte_eq a b p : 0 <= a < 256 -> 0 <= b < 256 ->
  let k := 8 - Z.min 8 (Z.max 0 p) in Z.land a (mask_byte p) = Z.land b (mask_byte p) <-> a / 2 ^ k = b / 2 ^ k.
Proof.
  intros A B k. rewrite !mask_byte_land //. fold k. assert (0 < 2 ^ k) by (apply Z.pow_pos_nonneg; lia). nia.
Qed.

(** Pairs of a high and a low part are compared part by part. *)
Lemma pair_eq m a b x y : 0 <= x < m -> 0 <= y < m -> a * m + x = b * m + y <-> a = b /\ x = y.
Proof. intros X Y. split; [|by intros [-> ->]]. intros E. assert (a = b) by nia. subst. lia. Qed.

Lemma mask_prefix a b p : length a = length b -> byte_list a -> byte_list b -> p <= 8 * Z.of_nat (length a) ->
  zip_with Z.land a (CIDRMask (length a) p) = zip_with Z.land b (CIDRMask (length a) p) <-> same_prefix p a b.
Proof.
  revert b p. induction a as [|x a IH]; intros [|y b] p L A B P; try done.
  apply Forall_cons in A as [X A]. apply Forall_cons in B as [Y B]. cbn [length CIDRMask zip_with] in *. fold (mask_byte p).
  injection L as L. specialize (IH b (p - 8) L A B ltac:(lia)).
  assert (forall u v (l l' : list Z), u :: l = v :: l' <-> u = v /\ l = l') as C by (intros; split; [by intros [= -> ->]|by intros [-> ->]]).
  rewrite C IH mask_byte_eq //. unfold same_prefix. rewrite !be_value_cons. cbn [length]. rewrite -L.
  pose proof (be_value_range a A) as Va. pose proof (be_value_range b B) as Vb. rewrite -L in Vb.
  set (n := Z.of_nat (length a)) in *. rewrite Nat2Z.inj_succ -/n.
  destruct (Z.le_gt_cases 8 p).
  - rewrite (_ : 8 * Z.succ n - Z.max 0 p = 8 * n - Z.max 0 (p - 8)); [|lia]. set (e := 8 * n - Z.max 0 (p - 8)).
    rewrite (_ : 2 ^ (8 * n) = 2 ^ (p - 8) * 2 ^ e) in Va Vb |- *; [|rewrite -Z.pow_add_r; [f_equal|..]; lia].
    assert (0 < 2 ^ e) by (apply Z.pow_pos_nonneg; lia).
    rewrite !Z.mul_assoc !Z.div_add_l; [|lia..]. rewrite (_ : 8 - Z.min 8 (Z.max 0 p) = 0); [|lia]. rewrite !Z.div_1_r.
    rewrite (pair_eq (2 ^ (p - 8))); [done|..]; (split; [apply Z.div_pos; lia|apply Z.div_lt_upper_bound; lia]).
  - rewrite (_ : 8 * n - Z.max 0 (p - 8) = 8 * n); [|lia]. rewrite (Z.div_small (be_value a)) // (Z.div_small (be_value b)) //.
    rewrite (_ : 8 * Z.succ n - Z.max 0 p = 8 * n + (8 - Z.min 8 (Z.max 0 p))); [|lia].
    rewrite Z.pow_add_r; [|lia..]. rewrite -!Z.div_div; try (apply Z.pow_nonzero || apply Z.pow_pos_nonneg); try lia.
    rewrite !Z.div_add_l; [|apply Z.pow_nonzero; lia..]. rewrite (Z.div_small (be_value a)) // (Z.div_small (be_value b)) // !Z.add_0_r.
    naive_solver.
Qed.

Lemma CIDRMask_length n p : length (CIDRMask n p) = n.
Proof. revert p. induction n as [|n IH]; intros p; simpl; [done|]. by rewrite IH. Qed.

Lemma CIDRMask_app n k p : CIDRMask (n + k) p = CIDRMask n p ++ CIDRMask k (p - 8 * Z.of_nat n).
Proof.
  revert p. induction n as [|n IH]; intros p; [simpl; f_equal; lia|]. cbn [Nat.add CIDRMask app]. f_equal.
  rewrite IH. do 2 f_equal. lia.
Qed.

Lemma CIDRMask_full n p : 8 * Z.of_nat n <= p -> CIDRMask n p = replicate n 255.
Proof.
  revert p. induction n as [|n IH]; intros p L; [done|]. cbn [CIDRMask replicate].
  rewrite (proj2 (Z.leb_le _ _)); [|lia]. rewrite IH //. lia.
Qed.

Lemma land_full l : byte_list l -> zip_with Z.land l (replicate (length l) 255) = l.
Proof.
  induction 1 as [|b l B F IH]; [done|]. cbn [length replicate zip_with]. rewrite IH (Z.land_ones _ 8) // Z.mod_small //.
Qed.

Lemma land_idem l m : zip_with Z.land (zip_with Z.land l m) m = zip_with Z.land l m.
Proof.
  revert m. induction l as [|b l IH]; intros [|x m]; [done..|]. cbn [zip_with]. rewrite IH -Z.land_assoc Z.land_diag //.
Qed.

(** A mask of at least 96 bits: the first twelve bytes, and a mask of the others. *)
Lemma mask_split l q : ip16 l -> 0 <= q ->
  zip_with Z.land l (CIDRMask 16 (q + 96)) = take 12 l ++ zip_with Z.land (drop 12 l) (CIDRMask 4 q).
Proof.
  intros [L F] Q. rewrite (CIDRMask_app 12 4) -{1}(take_drop 12 l).
  rewrite CIDRMask_full; [|lia]. assert (length (take 12 l) = 12%nat) as L12 by (rewrite length_take L; done).
  rewrite zip_with_app; [|by rewrite L12 length_replicate]. rewrite -{2}L12 land_full; [|by apply Forall_take].
  do 3 f_equal. lia.
Qed.

Lemma prefix_split ip l q : ip16 ip -> ip16 l -> 0 <= q <= 32 ->
  same_prefix (q + 96) ip l <->
  take 12 ip = take 12 l /\ zip_with Z.land (drop 12 l) (CIDRMask 4 q) = zip_with Z.land (drop 12 ip) (CIDRMask 4 q).
Proof.
  intros [L F] [L' F'] Q. rewrite -mask_prefix //; [|by rewrite L L'|rewrite L; lia]. rewrite L !mask_split //; [|lia..].
  split.
  - intros [E1 E2]%app_inj_1; [by split|]. by rewrite !length_take L L'.
  - by intros [-> ->].
Qed.

(** A shorter mask leaves no IPv4 address. *)
Lemma short_mask l p : ip16 l -> p < 96 -> To4 (zip_with Z.land l (CIDRMask 16 p)) = None.
Proof.
  intros [L F] P. unfold To4. rewrite length_zip_with CIDRMask_length L. cbn [Nat.min Nat.eqb andb].
  rewrite bool_decide_eq_false_2 //. intros E. apply (f_equal (lookup 11%nat)) in E.
  rewrite lookup_take_lt in E; [|lia]. rewrite lookup_zip_with in E.
  do 12 (destruct l as [|? l]; [done|]). cbn [lookup list_lookup] in E. rewrite (CIDRMask_app 11 5) in E.
  rewrite lookup_app_r in E; [|by rewrite CIDRMask_length]. rewrite CIDRMask_length in E. simpl in E.
  injection E as E. fold (mask_byte (p - 88)) in E. rewrite mask_byte_land in E; [|by decompose_Forall_hyps].
  set (k := 8 - Z.min 8 (Z.max 0 (p - 88))) in *. assert (1 <= k) as K by lia.
  rewrite (_ : 2 ^ k = 2 * 2 ^ (k - 1)) in E; [lia|]. rewrite -Z.pow_succ_r; [f_equal; lia|lia].
Qed.

Lemma Is4_spec ip : ip16 ip -> To4 ip = if bool_decide (take 12 ip = v4InV6Prefix) then Some (drop 12 ip) else None.
Proof. intros [L _]. unfold To4. by rewrite L. Qed.

(** What [Contains] compares, for a network of either length. *)
Lemma Contains_masked l m ip : length l = length m -> (length m = 4 \/ length m = 16 /\ To4 (zip_with Z.land l m) = None)%nat ->
  Contains (mkIPNet (zip_with Z.land l m) m) ip = true <->
  length (default ip (To4 ip)) = length m /\ zip_with Z.land l m = zip_with Z.land (default ip (To4 ip)) m.
Proof.
  intros L H. unfold Contains, networkNumberAndMask. cbn [net_IP net_Mask].
  assert (length (zip_with Z.land l m) = length m) as Lz by (rewrite length_zip_with; lia).
  assert (match To4 (zip_with Z.land l m) with
          | Some ip => Some ip
          | None => if (length (zip_with Z.land l m) =? 16)%nat then Some (zip_with Z.land l m) else None
          end = Some (zip_with Z.land l m)) as ->.
  { destruct H as [H|[H ->]]; [unfold To4|]; by rewrite Lz H. }
  simpl. rewrite Lz. destruct H as [H|[H _]]; rewrite H; simpl; rewrite land_idem Lz H;
    rewrite andb_true_iff Nat.eqb_eq bool_decide_eq_true; done.
Qed.

Lemma contains4 l q ip : length l = 4%nat -> byte_list l -> 0 <= q <= 32 -> ip16 ip ->
  Contains (mkIPNet (zip_with Z.land l (CIDRMask 4 q)) (CIDRMask 4 q)) ip = true <->
  same_prefix (q + 96) ip (v4InV6Prefix ++ l).
Proof.
  intros L4 Fl Q I. rewrite Contains_masked ?CIDRMask_length; [|done|by left].
  rewrite (prefix_split ip) //; [|split; [by rewrite length_app L4|apply Forall_app; split; [by repeat constructor|done]]].
  rewrite take_app_length' // drop_app_length' // (Is4_spec ip I). destruct I as [L F].
  case_bool_decide as K; cbn [default].
  - rewrite length_drop L. naive_solver.
  - rewrite L. naive_solver.
Qed.

Lemma contains6_mapped l q ip : ip16 l -> 0 <= q -> take 12 l = v4InV6Prefix ->
  Contains (mkIPNet (zip_with Z.land l (CIDRMask 16 (q + 96))) (CIDRMask 16 (q + 96))) ip =
  Contains (mkIPNet (zip_with Z.land (drop 12 l) (CIDRMask 4 q)) (CIDRMask 4 q)) ip.
Proof.
  intros I Q K. rewrite mask_split // K. unfold Contains, networkNumberAndMask. cbn [net_IP net_Mask].
  set (x := zip_with Z.land (drop 12 l) (CIDRMask 4 q)). rewrite !CIDRMask_length.
  assert (length x = 4%nat) as Lx by (subst x; rewrite length_zip_with CIDRMask_length length_drop (proj1 I); done).
  assert (To4 (v4InV6Prefix ++ x) = Some x) as ->.
  { unfold To4. rewrite length_app Lx. cbn [Nat.eqb andb]. by rewrite take_app_length' // bool_decide_eq_true_2 // drop_app_length'. }
  assert (To4 x = Some x) as -> by (unfold To4; by rewrite Lx).
  cbn [mbind option_bind]. rewrite Lx. cbn [Nat.eqb]. rewrite (CIDRMask_app 12 4) drop_app_length' ?CIDRMask_length //.
  rewrite (_ : q + 96 - 8 * Z.of_nat 12 = q); [by rewrite Lx|lia].
Qed.

Lemma contains6 l p ip : ip16 l -> 0 <= p <= 128 -> ip16 ip ->
  Contains (mkIPNet (zip_with Z.land l (CIDRMask 16 p)) (CIDRMask 16 p)) ip = true <->
  same_prefix p ip l /\ (p < 96 -> Is4 ip = false).
Proof.
  intros Il P I. pose proof (Is4_spec ip I) as T. unfold Is4. destruct (Z.lt_ge_cases p 96) as [Lp|Lp].
  - rewrite Contains_masked ?CIDRMask_length; [|by destruct Il|right; split; [done|by apply short_mask]].
    destruct I as [L F]. destruct Il as [Ll Fl]. rewrite -mask_prefix //; [|congruence|rewrite L; lia].
    rewrite T L. case_bool_decide as K; cbn [default].
    + rewrite length_drop L. split; [by intros []|]. intros [_ N]. by specialize (N Lp).
    + rewrite L. by split; [intros [_ ->]|intros [-> _]].
  - rewrite (_ : p = (p - 96) + 96); [|lia]. set (q := p - 96). assert (0 <= q <= 32) as Q by lia.
    destruct (decide (take 12 l = v4InV6Prefix)) as [K|K].
    + rewrite contains6_mapped //; [|lia]. destruct Il as [Ll Fl].
      rewrite contains4 //; [|by rewrite length_drop Ll|by apply Forall_drop]. rewrite -K take_drop. split; [by split; [|lia]|by intros []].
    + rewrite Contains_masked ?CIDRMask_length; [|by destruct Il|right; split; [done|]].
      2: { rewrite mask_split //; [|lia]. unfold To4. rewrite length_app length_zip_with CIDRMask_length length_take length_drop (proj1 Il).
           cbn [Nat.eqb andb Nat.min Nat.sub Nat.add]. rewrite take_app_length' ?length_take ?(proj1 Il) //. by rewrite bool_decide_eq_false_2. }
      rewrite T (prefix_split ip l) // mask_split //; [|lia]. case_bool_decide as K'; cbn [default].
      * rewrite length_drop (proj1 I). split; [by intros []|]. intros [[E _] _]. congruence.
      * rewrite (proj1 I) mask_split //; [|lia]. split.
        -- intros [_ [E1 E2]%app_inj_1]; [by split; [split|lia]|]. by rewrite !length_take (proj1 I) (proj1 Il).
        -- intros [[-> ->] _]. done.
Qed.

(** A network holds exactly the addresses that share its first bits; shorter
    prefixes than that of the IPv4-mapped block do not reach into it. *)
Lemma ParseCIDR_contains s address mask a p n ip :
  cut "/" s = Some (address, mask) -> ParseAddr address = Some a -> dtoi mask = Some p -> ParseCIDR s = Some n -> ip16 ip ->
  let ones := p + (128 - BitLen a) in
  Contains n ip = true <-> same_prefix ones ip (As16 a) /\ (ones < 96 -> Is4 ip = false).
Proof.
  intros C A D E I. unfold ParseCIDR in E. rewrite C A in E. cbn [mbind option_bind] in E.
  destruct (negb _); [done|]. rewrite D in E. cbn [mbind option_bind] in E.
  destruct (BitLen a <? p) eqn:B; [done|]. bool_to_prop.
  assert (0 <= p) as P.
  { unfold dtoi in D. apply bind_Some in D as (x & ?%parse_digits_nonneg & Hx). by destruct (_ <? _); [injection Hx as <-|]. }
  destruct (ParseAddr_ok _ _ A) as [I' L4]. unfold Mask in E. rewrite CIDRMask_length (proj1 I') in E.
  destruct a as [l|l z]; cbn [As16 BitLen] in *.
  - change (Z.to_nat (32 / 8)) with 4%nat in E. cbn [Nat.eqb andb] in E.
    rewrite take_app_length' // in E. rewrite bool_decide_eq_true_2 // in E.
    rewrite drop_app_length' // L4 in E. cbn [Nat.eqb mbind option_bind] in E. apply (inj Some) in E as <-.
    assert (byte_list l) as Fl by (by destruct I' as [_ [_ ?]%Forall_app]).
    rewrite contains4 //. change (128 - 32) with 96. split; [by split; [|lia]|by intros []].
  - change (Z.to_nat (128 / 8)) with 16%nat in E. cbn [Nat.eqb andb] in E. rewrite CIDRMask_length in E.
    cbn [Nat.eqb andb] in E. rewrite (proj1 I') in E. cbn [Nat.eqb mbind option_bind] in E. apply (inj Some) in E as <-.
    rewrite Z.add_0_r. by apply contains6.
Qed.

(** [ip.To16()]: addresses of 4 and 16 bytes in one form. *)
Definition To16 (ip : IP) : option IP :=
  if (length ip =? 4)%nat then Some (v4InV6Prefix ++ ip) else if (length ip =? 16)%nat then Some ip else None.

Lemma To4_To16 ip ip' : To16 ip = Some ip' -> To4 ip' = To4 ip.
Proof.
  unfold To16. destruct (length ip =? 4)%nat eqn:L.
  - intros H. apply (inj Some) in H as <-. unfold To4. rewrite L. apply Nat.eqb_eq in L. rewrite length_app L.
    change (_ =? 4)%nat with false. change (_ =? 16)%nat with true. cbn [andb].
    by rewrite take_app_length' // bool_decide_eq_true_2 // drop_app_length'.
  - destruct (length ip =? 16)%nat; [|done]. by intros [= <-].
Qed.

Lemma To16_same ip ip' : To16 ip = Some ip' -> To4 ip = None -> ip' = ip.
Proof.
  unfold To16, To4. destruct (length ip =? 4)%nat; [done|]. destruct (length ip =? 16)%nat; [by intros [= <-]|done].
Qed.

(** A network and the loopback range do not tell the two forms of an IPv4 address
    apart. *)
Lemma Contains_To16 n ip ip' : To16 ip = Some ip' -> Contains n ip' = Contains n ip.
Proof.
  intros H. unfold Contains. rewrite (To4_To16 _ _ H). destruct (To4 ip) eqn:T; [done|]. by rewrite (To16_same _ _ H T).
Qed.

Lemma IsLoopback_To16 ip ip' : To16 ip = Some ip' -> IsLoopback ip' = IsLoopback ip.
Proof.
  intros H. unfold IsLoopback. rewrite (To4_To16 _ _ H). destruct (To4 ip) eqn:T; [done|]. by rewrite (To16_same _ _ H T).
Qed.
