(* ===== verification/GoUrl.v ===== *)
(** * Go's [net/url]

    URLs, their parser and printer, percent encoding and query strings, as of Go 1.26:
    a host with brackets must hold an IPv6 address, one without brackets has at most
    one colon, and a query string of more than 10,000 parameters is refused as a
    whole ([urlmaxqueryparams]).  The leniency for the host lists of [postgresql]
    URLs is left out.  No definition of this file models repository code. *)

From S2P Require Import Prelude GoString GoNet.

(** ** Percent encoding *)

Inductive encoding :=
| encodePath | encodePathSegment | encodeHost | encodeZone | encodeUserPassword | encodeQueryComponent | encodeFragment.
#[export] Instance encoding_eq_dec : EqDecision encoding.
Proof. solve_decision. Defined.

Fixpoint in_chars (c : ascii) (s : string) : bool :=
  match s with EmptyString => false | String d s => bool_decide (c = d) || in_chars c s end.

Definition quote : ascii := chr 34.
Definition is_alnum (c : ascii) : bool := is_lower c || is_upper c || is_digit c.

Definition shouldEscape (c : ascii) (mode : encoding) : bool :=
  if is_alnum c then false
  else if bool_decide (mode = encodeHost \/ mode = encodeZone) && (in_chars c "!$&'()*+,;=:[]<>" || bool_decide (c = quote))
  then false
  else if in_chars c "-_.~" then false
  else if in_chars c "$&+,/:;=?@" then
    match mode with
    | encodePath => bool_decide (c = "?"%char)
    | encodePathSegment => in_chars c "/;,?"
    | encodeUserPassword => in_chars c "@/?:"
    | encodeQueryComponent => true
    | encodeFragment => false
    | encodeHost | encodeZone => true
    end
  else if bool_decide (mode = encodeFragment) && in_chars c "!()*" then false
  else true.

Definition upper_hex (n : Z) : ascii := chr (if n <? 10 then 48 + n else 55 + n).

Fixpoint escape (mode : encoding) (s : string) : string :=
  match s with
  | EmptyString => ""
  | String c s =>
      if shouldEscape c mode then
        if bool_decide (c = " "%char) && bool_decide (mode = encodeQueryComponent) then String "+" (escape mode s)
        else String "%" (String (upper_hex (code c / 16)) (String (upper_hex (code c mod 16)) (escape mode s)))
      else String c (escape mode s)
  end.

Fixpoint unescape (mode : encoding) (s : string) : option string :=
  match s with
  | EmptyString => Some ""
  | String c s' =>
      if bool_decide (c = "%"%char) then
        match s' with
        | String a (String b r) =>
            x ← hex_value a; y ← hex_value b;
            let v := 16 * x + y in
            if bool_decide (mode = encodeHost) && (x <? 8) && negb (v =? 37) then None
            else if bool_decide (mode = encodeZone) && negb (v =? 37) && negb (v =? 32) && shouldEscape (chr v) encodeHost
            then None
            else String (chr v) <$> unescape mode r
        | _ => None
        end
      else if bool_decide (c = "+"%char) && bool_decide (mode = encodeQueryComponent)
      then String " " <$> unescape mode s'
      else if bool_decide (mode = encodeHost \/ mode = encodeZone) && (code c <? 128) && shouldEscape c mode then None
      else String c <$> unescape mode s'
  end.

Definition QueryEscape : string -> string := escape encodeQueryComponent.
Definition PathEscape : string -> string := escape encodePathSegment.

(** ** Query strings *)

Definition urlmaxqueryparams : Z := 10000.

(** The number of occurrences of a character. *)
Fixpoint count_char (x : ascii) (s : string) : nat :=
  match s with EmptyString => O | String c s => ((if bool_decide (c = x) then 1 else 0) + count_char x s)%nat end.

(** One setting: [None] when it is skipped as empty, an error when it is malformed. *)
Definition parse_setting (s : string) : result unit (option (string * string)) :=
  if contains s ";" then Err ()
  else if bool_decide (s = "") then Ok None
  else
    let '(key, value) := default (s, "") (cut "=" s) in
    match unescape encodeQueryComponent key, unescape encodeQueryComponent value with
    | Some k, Some v => Ok (Some (k, v))
    | _, _ => Err ()
    end.

Fixpoint parse_settings (l : list string) : list (string * string) * bool :=
  match l with
  | [] => ([], true)
  | s :: l =>
      let '(q, ok) := parse_settings l in
      match parse_setting s with
      | Err _ => (q, false)
      | Ok None => (q, ok)
      | Ok (Some kv) => (kv :: q, ok)
      end
  end.

(** [ParseQuery]: the pairs it could read, in order, and whether there was no error. *)
Definition parse_query (raw : string) : list (string * string) * bool :=
  if urlmaxqueryparams <? Z.of_nat (count_char "&" raw) + 1 then ([], false)
  else if bool_decide (raw = "") then ([], true)
  else parse_settings (split raw "&").

(** The values of a key, in order ([query[key]]); [Get], [Set], [Del]. *)
Definition query_values (key : string) (q : list (string * string)) : list string :=
  snd <$> List.filter (fun kv => bool_decide (fst kv = key)) q.
Definition query_get (key : string) (q : list (string * string)) : string := hd "" (query_values key q).
Definition query_del (key : string) (q : list (string * string)) : list (string * string) :=
  List.filter (fun kv => negb (bool_decide (fst kv = key))) q.
Definition query_set (key v : string) (q : list (string * string)) : list (string * string) :=
  query_del key q ++ [(key, v)].

(** [Values.Encode]: the keys in byte order, the values of a key in theirs. *)
Definition str_le (a b : string) : Prop := String.leb a b = true.
#[export] Instance str_le_dec a b : Decision (str_le a b).
Proof. unfold str_le. apply _. Defined.

Definition query_keys (q : list (string * string)) : list string := merge_sort str_le (remove_dups (fst <$> q)).
Definition sorted_pairs (q : list (string * string)) : list (string * string) :=
  query_keys q ≫= fun k => pair k <$> query_values k q.
Definition setting (kv : string * string) : string := QueryEscape (fst kv) +:+ "=" +:+ QueryEscape (snd kv).
Definition encode_query (q : list (string * string)) : string := join "&" (setting <$> sorted_pairs q).

(** ** URLs *)

(** [url.URL]; the user is the name and, if it was given, the password. *)
Record url := mkURL {
  Scheme : string; Opaque : string; User : option (string * option string); Host : string;
  Path : string; RawPath : string; OmitHost : bool; ForceQuery : bool; RawQuery : string;
  Fragment : string; RawFragment : string }.
#[export] Instance url_eq_dec : EqDecision url.
Proof. solve_decision. Defined.

(** [&url.URL{Path: p}] *)
Definition path_url (p : string) : url := mkURL "" "" None "" p "" false false "" "" "".
(** [&url.URL{Path: p, RawPath: raw, RawQuery: query}] *)
Definition internal_url (p raw query : string) : url := mkURL "" "" None "" p raw false false query "" "".
Definition HasUser (u : url) : bool := match User u with Some _ => true | None => false end.

(** Assignments to fields. *)
Definition with_scheme (x : string) (u : url) : url :=
  mkURL x (Opaque u) (User u) (Host u) (Path u) (RawPath u) (OmitHost u) (ForceQuery u) (RawQuery u) (Fragment u) (RawFragment u).
Definition with_host (x : string) (u : url) : url :=
  mkURL (Scheme u) (Opaque u) (User u) x (Path u) (RawPath u) (OmitHost u) (ForceQuery u) (RawQuery u) (Fragment u) (RawFragment u).
Definition with_user (x : option (string * option string)) (u : url) : url :=
  mkURL (Scheme u) (Opaque u) x (Host u) (Path u) (RawPath u) (OmitHost u) (ForceQuery u) (RawQuery u) (Fragment u) (RawFragment u).
Definition with_opaque (x : string) (u : url) : url :=
  mkURL (Scheme u) x (User u) (Host u) (Path u) (RawPath u) (OmitHost u) (ForceQuery u) (RawQuery u) (Fragment u) (RawFragment u).
Definition with_paths (path raw : string) (u : url) : url :=
  mkURL (Scheme u) (Opaque u) (User u) (Host u) path raw (OmitHost u) (ForceQuery u) (RawQuery u) (Fragment u) (RawFragment u).
(** A new path in its default encoding. *)
Definition with_path (path : string) (u : url) : url := with_paths path "" u.
Definition with_query (x : string) (u : url) : url :=
  mkURL (Scheme u) (Opaque u) (User u) (Host u) (Path u) (RawPath u) (OmitHost u) (ForceQuery u) x (Fragment u) (RawFragment u).
Definition with_fragments (x raw : string) (u : url) : url :=
  mkURL (Scheme u) (Opaque u) (User u) (Host u) (Path u) (RawPath u) (OmitHost u) (ForceQuery u) (RawQuery u) x raw.

(** [validEncoded] *)
Definition valid_encoded (s : string) (mode : encoding) : bool :=
  sforall (fun c => in_chars c "!$&'()*+,;=:@[]%" || negb (shouldEscape c mode)) s.

(** [EscapedPath] and [EscapedFragment]: the raw form if it is one of the text. *)
Definition escaped (mode : encoding) (text raw : string) : string :=
  if negb (bool_decide (raw = "")) && valid_encoded raw mode && bool_decide (unescape mode raw = Some text)
  then raw else escape mode text.
Definition EscapedPath (u : url) : string :=
  let raw := RawPath u in
  if negb (bool_decide (raw = "")) && valid_encoded raw encodePath && bool_decide (unescape encodePath raw = Some (Path u))
  then raw else if bool_decide (Path u = "*") then "*" else escape encodePath (Path u).
Definition EscapedFragment (u : url) : string := escaped encodeFragment (Fragment u) (RawFragment u).

(** [setPath] and [setFragment]: both forms of an encoded text. *)
Definition set_encoded (mode : encoding) (p : string) : option (string * string) :=
  text ← unescape mode p; Some (text, if bool_decide (p = escape mode text) then "" else p).

(** *** Parsing *)

(** [getScheme]: [None] for an empty scheme. *)
Fixpoint scheme_from (start : bool) (s : string) : option (string * string) :=
  match s with
  | EmptyString => None
  | String c s' =>
      if is_lower c || is_upper c || negb start && (is_digit c || in_chars c "+-.")
      then match scheme_from false s' with Some (a, b) => Some (String c a, b) | None => None end
      else if bool_decide (c = ":"%char) then Some ("", s') else None
  end.
Definition getScheme (raw : string) : option (string * string) :=
  match scheme_from true raw with
  | Some ("", _) => None
  | Some (scheme, rest) => Some (scheme, rest)
  | None => Some ("", raw)
  end.

Definition valid_port (port : string) : bool :=
  match port with
  | EmptyString => true
  | String c digits => bool_decide (c = ":"%char) && sforall is_digit digits
  end.

(** [strings.LastIndex] of a character: the text before and after it. *)
Fixpoint cut_last (x : ascii) (s : string) : option (string * string) :=
  match s with
  | EmptyString => None
  | String c s' =>
      match cut_last x s' with
      | Some (a, b) => Some (String c a, b)
      | None => if bool_decide (c = x) then Some ("", s') else None
      end
  end.

(** The text between brackets: an IPv6 address with an optional zone. *)
Definition parse_literal (s : string) : option string :=
  name ← match cut "%25" s with
         | Some (addr, zone) => a ← unescape encodeHost addr; z ← unescape encodeZone ("%25" +:+ zone); Some (a +:+ z)
         | None => unescape encodeHost s
         end;
  match ParseAddr name with Some (Addr6 _ _) => Some name | _ => None end.

Definition parseHost (host : string) : option string :=
  match cut_last "[" host with
  | Some (String _ _, _) => None
  | Some ("", tail) =>
      match cut_last "]" tail with
      | None => None
      | Some (literal, port) =>
          if negb (valid_port port) then None
          else name ← parse_literal literal; Some ("[" +:+ name +:+ "]" +:+ port)
      end
  | None =>
      match cut ":" host with
      | Some (_, port) => if negb (sforall is_digit port) then None else unescape encodeHost host
      | None => unescape encodeHost host
      end
  end.

Definition valid_userinfo (s : string) : bool := sforall (fun c => is_alnum c || in_chars c "-._:~!$&'()*+,;=%@") s.

Definition parseAuthority (s : string) : option (option (string * option string) * string) :=
  match cut_last "@" s with
  | None => host ← parseHost s; Some (None, host)
  | Some (userinfo, host) =>
      host ← parseHost host;
      if negb (valid_userinfo userinfo) then None
      else match cut ":" userinfo with
           | None => name ← unescape encodeUserPassword userinfo; Some (Some (name, None), host)
           | Some (name, password) =>
               name ← unescape encodeUserPassword name; password ← unescape encodeUserPassword password;
               Some (Some (name, Some password), host)
           end
  end.

Definition is_ctl (c : ascii) : bool := (code c <? 32) || (code c =? 127).

(** The query: [rest], whether the query was empty, and the query. *)
Definition split_query (rest : string) : string * bool * string :=
  if has_suffix rest "?" && (count_char "?" rest =? 1)%nat then (trim_suffix rest "?", true, "")
  else match cut "?" rest with Some (a, b) => (a, false, b) | None => (rest, false, "") end.

(** [parse] without the fragment. *)
Definition parse_reference (raw : string) : option url :=
  if negb (sforall (fun c => negb (is_ctl c)) raw) then None
  else if bool_decide (raw = "*") then Some (path_url "*")
  else
    '(scheme, rest) ← getScheme raw;
    let scheme := to_lower scheme in
    let '(rest, force, query) := split_query rest in
    if negb (has_prefix rest "/") && negb (bool_decide (scheme = ""))
    then Some (mkURL scheme rest None "" "" "" false force query "" "")
    else if negb (has_prefix rest "/") && contains (match cut "/" rest with Some (s, _) => s | None => rest end) ":"
    then None
    else if (negb (bool_decide (scheme = "")) || negb (has_prefix rest "///")) && has_prefix rest "//" then
      let '(authority, rest) := match cut "/" (sdrop 2 rest) with
                                | Some (a, b) => (a, "/" +:+ b)
                                | None => (sdrop 2 rest, "")
                                end in
      '(user, host) ← parseAuthority authority;
      '(path, raw) ← set_encoded encodePath rest;
      Some (mkURL scheme "" user host path raw false force query "" "")
    else
      '(path, raw) ← set_encoded encodePath rest;
      Some (mkURL scheme "" None "" path raw (negb (bool_decide (scheme = "")) && has_prefix rest "/") force query "" "").

(** [Parse] *)
Definition url_parse (raw : string) : option url :=
  match cut "#" raw with
  | None => parse_reference raw
  | Some (u, frag) =>
      target ← parse_reference u;
      if bool_decide (frag = "") then Some target
      else '(f, rawf) ← set_encoded encodeFragment frag; Some (with_fragments f rawf target)
  end.

(** *** Printing *)

Definition userinfo_string (user : string * option string) : string :=
  match user with
  | ("", None) | ("", Some "") => ""
  | (name, None) => escape encodeUserPassword name
  | (name, Some password) => escape encodeUserPassword name +:+ ":" +:+ escape encodeUserPassword password
  end.

(** [String] *)
Definition url_string (u : url) : string :=
  let scheme := if bool_decide (Scheme u = "") then "" else Scheme u +:+ ":" in
  let target :=
    if negb (bool_decide (Opaque u = "")) then Opaque u
    else
      let authority :=
        if bool_decide (Scheme u = "") && bool_decide (Host u = "") && negb (HasUser u) then ""
        else if OmitHost u && bool_decide (Host u = "") && negb (HasUser u) then ""
        else (if negb (bool_decide (Host u = "")) || negb (bool_decide (Path u = "")) || HasUser u then "//" else "") +:+
             match User u with Some user => userinfo_string user +:+ "@" | None => "" end +:+
             escape encodeHost (Host u) in
      let path := EscapedPath u in
      authority +:+
      (if negb (bool_decide (path = "")) && negb (has_prefix path "/") && negb (bool_decide (Host u = "")) then "/" else "") +:+
      (if bool_decide (scheme = "") && bool_decide (authority = "") &&
          contains (match cut "/" path with Some (s, _) => s | None => path end) ":" then "./" else "") +:+ path in
  scheme +:+ target +:+
  (if ForceQuery u || negb (bool_decide (RawQuery u = "")) then "?" +:+ RawQuery u else "") +:+
  (if bool_decide (Fragment u = "") then "" else "#" +:+ EscapedFragment u).

Definition RequestURI (u : url) : string :=
  let base :=
    if bool_decide (Opaque u = "") then (if bool_decide (EscapedPath u = "") then "/" else EscapedPath u)
    else if has_prefix (Opaque u) "//" then Scheme u +:+ ":" +:+ Opaque u else Opaque u in
  base +:+ (if ForceQuery u || negb (bool_decide (RawQuery u = "")) then "?" +:+ RawQuery u else "").

(** [u.Query()] drops what [ParseQuery] reports as malformed. *)
Definition url_query (u : url) : list (string * string) := fst (parse_query (RawQuery u)).

(** [splitHostPort]; [Hostname] and [Port]. *)
Definition split_host_port (hostport : string) : string * string :=
  let '(host, port) := match cut_last ":" hostport with
                       | Some (h, p) => if sforall is_digit p then (h, p) else (hostport, "")
                       | None => (hostport, "")
                       end in
  (if has_prefix host "[" && has_suffix host "]" then stake (String.length host - 2) (sdrop 1 host) else host, port).
Definition Hostname (u : url) : string := fst (split_host_port (Host u)).
Definition Port_ (u : url) : string := snd (split_host_port (Host u)).

(** *** Resolving references *)

(** The loop of [resolvePath]: what was written after the first slash, and whether
    the next element comes first. *)
Fixpoint resolve_elements (l : list string) (dst : string) (first : bool) : string :=
  match l with
  | [] => dst
  | elem :: l =>
      if bool_decide (elem = ".") then resolve_elements l dst false
      else if bool_decide (elem = "..") then
        match cut_last "/" dst with
        | Some (str, _) => resolve_elements l str first
        | None => resolve_elements l "" true
        end
      else resolve_elements l ((if first then dst else dst +:+ "/") +:+ elem) false
  end.

Definition resolvePath (base ref : string) : string :=
  let full := if bool_decide (ref = "") then base
              else if negb (has_prefix ref "/")
              then match cut_last "/" base with Some (a, _) => a +:+ "/" | None => "" end +:+ ref
              else ref in
  if bool_decide (full = "") then ""
  else
    let elements := split full "/" in
    let r := "/" +:+ resolve_elements elements "" true in
    let r := match last elements with
             | Some elem => if bool_decide (elem = ".") || bool_decide (elem = "..") then r +:+ "/" else r
             | None => r
             end in
    if has_prefix r "//" then sdrop 1 r else r.

(** The path is set if it can be unescaped, which the printed path always can. *)
Definition set_path (p : string) (u : url) : url :=
  match set_encoded encodePath p with Some (path, raw) => with_paths path raw u | None => u end.

(** [base.ResolveReference(ref)] *)
Definition ResolveReference (base ref : url) : url :=
  let u := if bool_decide (Scheme ref = "") then with_scheme (Scheme base) ref else ref in
  if negb (bool_decide (Scheme ref = "")) || negb (bool_decide (Host ref = "")) || HasUser ref
  then set_path (resolvePath (EscapedPath ref) "") u
  else if negb (bool_decide (Opaque ref = "")) then with_user None (with_host "" (with_paths "" (RawPath u) u))
  else
    let u :=
      if bool_decide (Path ref = "") && negb (ForceQuery ref) && bool_decide (RawQuery ref = "")
      then let u := with_query (RawQuery base) u in
           if bool_decide (Fragment ref = "") then with_fragments (Fragment base) (RawFragment base) u else u
      else u in
    if bool_decide (Path ref = "") && negb (bool_decide (Opaque base = ""))
    then with_opaque (Opaque base) (with_user None (with_host "" (with_paths "" (RawPath u) u)))
    else set_path (resolvePath (EscapedPath base) (EscapedPath ref)) (with_user (User base) (with_host (Host base) u)).

(** ** [path] *)

(** [path.Clean], by segments; [stack] holds the elements kept so far, last first. *)
Fixpoint clean_segments (rooted : bool) (stack l : list string) : list string :=
  match l with
  | [] => rev stack
  | x :: l =>
      if bool_decide (x = "") || bool_decide (x = ".") then clean_segments rooted stack l
      else if bool_decide (x = "..")
           then match stack with
                | [] => clean_segments rooted (if rooted then [] else [x]) l
                | top :: rest => clean_segments rooted (if bool_decide (top = "..") then x :: stack else rest) l
                end
           else clean_segments rooted (x :: stack) l
  end.
Definition path_Clean (p : string) : string :=
  let rooted := has_prefix p "/" in
  let cleaned := join "/" (clean_segments rooted [] (split p "/")) in
  if rooted then "/" +:+ cleaned else if bool_decide (cleaned = "") then "." else cleaned.

(** [path.Split], the directory. *)
Definition path_dir (p : string) : string := match cut_last "/" p with Some (d, _) => d +:+ "/" | None => "" end.

Example path_Clean_examples :
  path_Clean "a//b/./c/.." = "a/b" /\ path_Clean "../a/../.." = "../.." /\ path_Clean "/../a/" = "/a" /\
  path_Clean "" = "." /\ path_Clean "/" = "/" /\ path_dir "/r/web" = "/r/" /\ path_dir "*" = "".
Proof. by vm_compute. Qed.

(** ** Percent encoding is inverted by decoding *)

Lemma upper_hex_value n : 0 <= n < 16 -> hex_value (upper_hex n) = Some n.
Proof.
  intros H. assert (In n (seqZ 0 16)) as I by (apply list_elem_of_In, elem_of_seqZ; lia).
  repeat (destruct I as [<-|I]; [done|]). done.
Qed.

Lemma nibbles c : 0 <= code c / 16 < 16 /\ 0 <= code c mod 16 < 16.
Proof.
  pose proof (code_range c). split; [|apply Z.mod_pos_bound; lia].
  split; [apply Z.div_pos; lia|apply Z.div_lt_upper_bound; lia].
Qed.

(** Characters that are not escaped do not start an escape. *)
Lemma plain_char c mode : shouldEscape c mode = false ->
  c <> "%"%char /\ (mode = encodeQueryComponent -> c <> "+"%char /\ c <> "&"%char /\ c <> "="%char /\ c <> ";"%char).
Proof. intros H. split; [intros ->; by destruct mode|]. intros ->. split_and!; by intros ->. Qed.

Definition text_mode (mode : encoding) : Prop := mode <> encodeHost /\ mode <> encodeZone.

Lemma unescape_escape mode s : text_mode mode -> unescape mode (escape mode s) = Some s.
Proof.
  intros [N1 N2]. induction s as [|c s IH]; [done|]. cbn [escape]. destruct (shouldEscape c mode) eqn:E.
  - destruct (_ && _) eqn:B.
    + bool_to_prop. subst. cbn [unescape]. rewrite IH. done.
    + destruct (nibbles c). pose proof (Z_div_mod_eq_full (code c) 16) as D.
      cbn [unescape]. rewrite bool_decide_eq_true_2 // !upper_hex_value //.
      cbn [mbind option_bind]. rewrite !(bool_decide_eq_false_2 (mode = _)) //. cbn [andb]. rewrite IH -D chr_code. done.
  - destruct (plain_char c mode E) as [P Q]. cbn [unescape]. rewrite (bool_decide_eq_false_2 (c = _)) //.
    assert (bool_decide (c = "+"%char) && bool_decide (mode = encodeQueryComponent) = false) as ->.
    { apply andb_false_iff. destruct (decide (mode = encodeQueryComponent)) as [M|M].
      - left. apply bool_decide_eq_false. by apply Q.
      - right. by apply bool_decide_eq_false. }
    rewrite (bool_decide_eq_false_2 (mode = _ \/ _)); [|tauto]. cbn [andb]. by rewrite IH.
Qed.

(** An encoded text has no character of [bad], whose members are all escaped. *)
Lemma escape_lacks mode x s : shouldEscape x mode = true -> is_hexc x = false -> x <> "%"%char -> x <> "+"%char ->
  lacks x (escape mode s) = true.
Proof.
  intros E H N P. unfold lacks. induction s as [|c s IH]; [done|]. cbn [escape].
  assert (forall n, 0 <= n < 16 -> negb (bool_decide (upper_hex n = x)) = true) as U.
  { intros n Hn. apply negb_true_iff, bool_decide_eq_false. intros <-. unfold is_hexc in H. by rewrite upper_hex_value in H. }
  destruct (nibbles c).
  destruct (shouldEscape c mode) eqn:Ec; [destruct (_ && _)|]; cbn [sforall]; rewrite IH.
  - by rewrite bool_decide_eq_false_2.
  - rewrite !U //. by rewrite bool_decide_eq_false_2.
  - rewrite bool_decide_eq_false_2 //. intros ->. by rewrite E in Ec.
Qed.

(** ** Encoded queries are read back *)

Lemma query_char_lacks x s : x = "&"%char \/ x = "="%char \/ x = ";"%char -> lacks x (QueryEscape s) = true.
Proof. intros H. apply escape_lacks; by destruct H as [->|[-> | ->]]. Qed.

Lemma parse_setting_setting kv : parse_setting (setting kv) = Ok (Some kv).
Proof.
  destruct kv as [k v]. unfold parse_setting, setting. cbn [fst snd].
  assert (contains (QueryEscape k +:+ "=" +:+ QueryEscape v) ";" = false) as ->.
  { unfold contains. rewrite (proj2 (cut_char_None ";" _)) //. unfold lacks. rewrite !sforall_append.
    pose proof (query_char_lacks ";" k ltac:(auto)) as A. pose proof (query_char_lacks ";" v ltac:(auto)) as B.
    unfold lacks in A, B. by rewrite A B. }
  rewrite bool_decide_eq_false_2.
  2: { intros E. apply (f_equal String.length) in E. rewrite !length_append in E. simpl in E. lia. }
  rewrite (cut_skip "=" "" (QueryEscape k)); [|apply (query_char_lacks "="); auto]. cbn [default].
  cbn [id]. unfold QueryEscape. by rewrite !unescape_escape.
Qed.

Lemma parse_settings_all q : parse_settings (setting <$> q) = (q, true).
Proof. induction q as [|kv q IH]; [done|]. cbn [fmap list_fmap parse_settings]. by rewrite IH parse_setting_setting. Qed.

Lemma count_append x s t : count_char x (s +:+ t) = (count_char x s + count_char x t)%nat.
Proof. induction s as [|c s IH]; [done|]. rewrite append_cons. cbn [count_char]. rewrite IH. lia. Qed.

Lemma count_lacks x s : lacks x s = true -> count_char x s = 0%nat.
Proof.
  unfold lacks. induction s as [|c s IH]; [done|]. cbn [sforall count_char]. intros [C S]%andb_true_iff.
  apply negb_true_iff in C. by rewrite C IH.
Qed.

Lemma count_lacks_iff x s : lacks x s = true <-> count_char x s = 0%nat.
Proof.
  split; [apply count_lacks|]. unfold lacks. induction s as [|c s IH]; [done|]. cbn [sforall count_char].
  case_bool_decide; [done|]. intros C. by rewrite IH.
Qed.

Lemma count_join x l : Forall (fun p => lacks x p = true) l -> count_char x (join (String x "") l) = pred (length l).
Proof.
  induction 1 as [|s l S F IH]; [done|]. destruct l as [|t l]; [by apply count_lacks|].
  change (join (String x "") (s :: t :: l)) with (s +:+ String x "" +:+ join (String x "") (t :: l)).
  rewrite !count_append IH count_lacks //. cbn [count_char length pred]. rewrite bool_decide_eq_true_2 //.
Qed.

Lemma setting_lacks kv : lacks "&" (setting kv) = true.
Proof.
  destruct kv as [k v]. unfold setting, lacks. cbn [fst snd]. rewrite !sforall_append.
  pose proof (query_char_lacks "&" k ltac:(auto)) as A. pose proof (query_char_lacks "&" v ltac:(auto)) as B.
  unfold lacks in A, B. by rewrite A B.
Qed.

Lemma parse_encoded q : Z.of_nat (length (sorted_pairs q)) <= urlmaxqueryparams ->
  parse_query (encode_query q) = (sorted_pairs q, true).
Proof.
  intros L. unfold parse_query, encode_query. set (l := sorted_pairs q) in *.
  assert (Forall (fun p => lacks "&" p = true) (setting <$> l)) as F.
  { apply Forall_fmap, Forall_true. intros kv. apply setting_lacks. }
  rewrite count_join // length_fmap. unfold urlmaxqueryparams in *.
  rewrite (proj2 (Z.ltb_ge _ _)); [|lia]. destruct l as [|kv l]; [done|].
  rewrite bool_decide_eq_false_2.
  2: { intros E. apply (f_equal (fun s => split s "&")) in E. rewrite split_join // in E. cbn [fmap list_fmap] in E.
       assert (setting kv = "") as Z by (by inversion E). apply (f_equal String.length) in Z. unfold setting in Z.
       rewrite !length_append in Z. simpl in Z. lia. }
  rewrite split_join //. apply parse_settings_all.
Qed.

Lemma query_values_app k q r : query_values k (q ++ r) = query_values k q ++ query_values k r.
Proof. unfold query_values. by rewrite List.filter_app fmap_app. Qed.

Lemma query_values_pairs k k' l : query_values k (pair k' <$> l) = if bool_decide (k' = k) then l else [].
Proof.
  unfold query_values. induction l as [|v l IH]; [by destruct (bool_decide _)|]. cbn [fmap list_fmap List.filter fst].
  case_bool_decide; cbn [fmap list_fmap snd]; [by rewrite IH|done].
Qed.

Lemma query_values_none k q : k ∉ fst <$> q -> query_values k q = [].
Proof.
  unfold query_values. induction q as [|[a v] q IH]; [done|]. cbn [fmap list_fmap List.filter fst]. intros N.
  apply not_elem_of_cons in N as [N1 N2]. rewrite bool_decide_eq_false_2; [|congruence]. by apply IH.
Qed.

Lemma query_keys_spec q : NoDup (query_keys q) /\ forall k, k ∈ query_keys q <-> k ∈ fst <$> q.
Proof.
  unfold query_keys. pose proof (merge_sort_Permutation str_le (remove_dups (fst <$> q))) as P. split.
  - rewrite P. apply NoDup_remove_dups.
  - intros k. rewrite P. apply elem_of_remove_dups.
Qed.

Lemma query_values_sorted k q : query_values k (sorted_pairs q) = query_values k q.
Proof.
  unfold sorted_pairs. destruct (query_keys_spec q) as [N E].
  assert (forall l, NoDup l -> query_values k (l ≫= fun k => pair k <$> query_values k q) =
    if bool_decide (k ∈ l) then query_values k q else []) as H.
  { induction l as [|k' l IH]; intros Nl; [done|]. apply NoDup_cons in Nl as [Nk Nl]. rewrite bind_cons query_values_app IH //.
    rewrite query_values_pairs. destruct (decide (k' = k)) as [->|D].
    - rewrite bool_decide_eq_true_2 // bool_decide_eq_false_2 // bool_decide_eq_true_2 ?app_nil_r //. apply list_elem_of_here.
    - rewrite (bool_decide_eq_false_2 (k' = k)) //. cbn [app]. apply (f_equal (fun b : bool => if b then query_values k q else [])).
      apply bool_decide_ext. rewrite elem_of_cons. split; [by right|intros [?|?]; [congruence|done]]. }
  rewrite H //. case_bool_decide as K; [done|]. by rewrite query_values_none // -E.
Qed.

(** Encoding neither adds nor loses a pair. *)
Lemma sorted_pairs_add l a v q : NoDup l -> a ∈ l ->
  length (l ≫= fun k => pair k <$> query_values k ((a, v) :: q)) = S (length (l ≫= fun k => pair k <$> query_values k q)).
Proof.
  assert (forall k, query_values k ((a, v) :: q) = if bool_decide (a = k) then v :: query_values k q else query_values k q) as V.
  { intros k. unfold query_values. cbn [List.filter fst]. by case_bool_decide. }
  assert (forall l, a ∉ l -> length (l ≫= fun k => pair k <$> query_values k ((a, v) :: q)) =
    length (l ≫= fun k => pair k <$> query_values k q)) as Out.
  { induction l0 as [|k l0 IH]; intros N; [done|]. apply not_elem_of_cons in N as [N1 N2].
    rewrite !bind_cons !length_app !(length_fmap (pair k)) IH // V bool_decide_eq_false_2 //. }
  induction l as [|k l IH]; intros N E; [by apply not_elem_of_nil in E|]. apply NoDup_cons in N as [Nk N].
  rewrite !bind_cons !length_app !(length_fmap (pair k)) V. destruct (decide (a = k)) as [->|D].
  - rewrite bool_decide_eq_true_2 // Out //.
  - apply elem_of_cons in E as [?|E]; [congruence|]. rewrite bool_decide_eq_false_2 // IH //.
Qed.

Lemma sorted_pairs_length q : length (sorted_pairs q) = length q.
Proof.
  unfold sorted_pairs. destruct (query_keys_spec q) as [N E].
  assert (forall k, k ∈ fst <$> q -> k ∈ query_keys q) as I by (intros k Hk; by apply E). revert N I. clear E.
  generalize (query_keys q) as l. induction q as [|[a v] q IH]; intros l N I.
  - clear N I. induction l as [|k l IH]; [done|]. by rewrite bind_cons.
  - rewrite sorted_pairs_add //; [|apply I; apply list_elem_of_here]. simpl. f_equal. apply IH; [done|].
    intros k Hk. apply I. by apply list_elem_of_further.
Qed.

(** What is parsed is within the limit. *)
Lemma parse_query_length raw : Z.of_nat (length (fst (parse_query raw))) <= urlmaxqueryparams.
Proof.
  assert (forall l, (length (fst (parse_settings l)) <= length l)%nat) as S.
  { induction l as [|s l IH]; [done|]. cbn [parse_settings]. destruct (parse_settings l) as [q ok]. cbn [fst] in IH.
    destruct (parse_setting s) as [[kv|]|]; simpl; lia. }
  unfold parse_query, urlmaxqueryparams. destruct (_ <? _) eqn:E; [done|]. bool_to_prop. case_bool_decide; [done|].
  destruct (split_parts "&" raw) as [J F]. pose proof (count_join "&" _ F) as C. rewrite J in C.
  specialize (S (split raw "&")). lia.
Qed.

(** An encoded query of at most 10,000 pairs keeps the values of every key... *)
Lemma query_roundtrip q k : Z.of_nat (length q) <= urlmaxqueryparams ->
  query_values k (fst (parse_query (encode_query q))) = query_values k q.
Proof. intros L. rewrite parse_encoded ?sorted_pairs_length //. apply query_values_sorted. Qed.

(** ... and a longer one is lost. *)
Lemma query_oversized q : urlmaxqueryparams < Z.of_nat (length q) -> parse_query (encode_query q) = ([], false).
Proof.
  intros L. unfold parse_query, encode_query. rewrite count_join.
  2: { apply Forall_fmap, Forall_true. intros kv. apply setting_lacks. }
  rewrite length_fmap sorted_pairs_length. unfold urlmaxqueryparams in *. by rewrite (proj2 (Z.ltb_lt _ _)); [|lia].
Qed.

Lemma query_del_length k q : (length (query_del k q) <= length q)%nat.
Proof. apply List.filter_length_le. Qed.

Lemma query_values_del k key q :
  query_values k (query_del key q) = if bool_decide (k = key) then [] else query_values k q.
Proof.
  unfold query_values, query_del. induction q as [|[a v] q IH]; [by case_bool_decide|].
  cbn [List.filter fst]. destruct (decide (a = key)) as [->|N].
  - rewrite (bool_decide_eq_true_2 (key = key)) //. cbn [negb]. rewrite IH.
    destruct (decide (k = key)) as [->|N2]; [by rewrite bool_decide_eq_true_2|].
    rewrite (bool_decide_eq_false_2 _ N2) bool_decide_eq_false_2 //; by apply not_eq_sym.
  - rewrite (bool_decide_eq_false_2 _ N). cbn [negb List.filter fst]. destruct (decide (a = k)) as [->|N2].
    + rewrite (bool_decide_eq_true_2 (k = k)) // !fmap_cons IH. by rewrite bool_decide_eq_false_2.
    + rewrite (bool_decide_eq_false_2 _ N2). apply IH.
Qed.

Lemma query_set_get k v q : query_get k (query_set k v q) = v.
Proof.
  unfold query_get, query_set, query_del, query_values. rewrite List.filter_app. simpl.
  rewrite bool_decide_eq_true_2 //. rewrite fmap_app. simpl.
  assert (List.filter (fun kv : string * string => bool_decide (kv.1 = k))
    (List.filter (fun kv => negb (bool_decide (kv.1 = k))) q) = []) as ->; [|done].
  induction q as [|[a b] q IH]; [done|]. simpl. case_bool_decide as D; simpl; [done|].
  by rewrite bool_decide_eq_false_2.
Qed.

(** A parameter that was set is read back. *)
Lemma query_set_roundtrip k v q : Z.of_nat (length q) < urlmaxqueryparams ->
  query_get k (fst (parse_query (encode_query (query_set k v q)))) = v.
Proof.
  intros L. unfold query_get. rewrite query_roundtrip; [apply query_set_get|]. unfold query_set. rewrite length_app.
  pose proof (query_del_length k q). simpl. lia.
Qed.

(** ** URLs are read back *)

Lemma byte_char (P : ascii -> bool) : forallb (fun b => P (chr b)) (seqZ 0 256) = true -> forall c, P c = true.
Proof. intros H c. rewrite -(chr_code c). apply (byte_enum (fun b => P (chr b)) H), code_range. Qed.

Lemma escape_valid mode s : valid_encoded (escape mode s) mode = true.
Proof.
  assert (forall n, 0 <= n < 16 -> in_chars (upper_hex n) "!$&'()*+,;=:@[]%" || negb (shouldEscape (upper_hex n) mode) = true) as U.
  { intros n Hn. assert (In n (seqZ 0 16)) as I by (apply list_elem_of_In, elem_of_seqZ; lia).
    repeat (destruct I as [<-|I]; [done|]). done. }
  unfold valid_encoded. induction s as [|c s IH]; [done|]. cbn [escape]. destruct (nibbles c).
  destruct (shouldEscape c mode) eqn:Ec; [destruct (_ && _)|]; cbn [sforall]; rewrite IH; [done| |].
  - by rewrite !U.
  - by rewrite Ec orb_true_r.
Qed.

Lemma EscapedPath_ok u : valid_encoded (EscapedPath u) encodePath = true /\ unescape encodePath (EscapedPath u) = Some (Path u).
Proof.
  unfold EscapedPath. cbv zeta. destruct (_ && valid_encoded _ _ && _) eqn:B; [bool_to_prop; by split|].
  clear B. case_bool_decide as S; [by rewrite S|]. split; [apply escape_valid|by apply unescape_escape].
Qed.

(** The characters of an encoded path. *)
Definition path_char (c : ascii) : bool := negb (is_ctl c) && negb (bool_decide (c = "?"%char)) && negb (bool_decide (c = "#"%char)).

Lemma valid_path_char s : valid_encoded s encodePath = true -> sforall path_char s = true.
Proof.
  apply sforall_impl. intros c.
  pose proof (byte_char (fun c => implb (in_chars c "!$&'()*+,;=:@[]%" || negb (shouldEscape c encodePath)) (path_char c))
    ltac:(by vm_compute) c) as H. cbv beta in H. intros E. by rewrite E in H.
Qed.

(** A URL of the form a server receives: a path, and maybe a query. *)
Record origin_form (u : url) : Prop := {
  of_scheme : Scheme u = ""; of_opaque : Opaque u = ""; of_user : User u = None; of_host : Host u = "";
  of_fragment : Fragment u = ""; of_slash : has_prefix (EscapedPath u) "/" = true;
  of_path : has_prefix (EscapedPath u) "//" = false }.

Lemma origin_string u : origin_form u ->
  url_string u = EscapedPath u +:+ if ForceQuery u || negb (bool_decide (RawQuery u = "")) then "?" +:+ RawQuery u else "".
Proof.
  intros [S O U H F P _]. unfold url_string, HasUser. rewrite S O U H F. cbv zeta.
  rewrite !(bool_decide_eq_true_2 ("" = "")) // P. cbn [negb andb]. rewrite !append_nil_l.
  apply has_prefix_spec in P as [r ->]. rewrite (cut_here "/"). rewrite andb_false_r append_nil_r. done.
Qed.

Lemma has_suffix_spec s p : has_suffix s p = true -> exists r, s = r +:+ p.
Proof.
  unfold has_suffix. intros [_ D]%andb_true_iff. apply bool_decide_eq_true in D.
  exists (stake (String.length s - String.length p) s). by rewrite -{2}D stake_sdrop.
Qed.

Lemma split_query_string p q t : lacks "?" p = true -> t = "" /\ q = "" \/ t = "?" +:+ q ->
  exists f, split_query (p +:+ t) = (p, f, q).
Proof.
  intros L [[-> ->]| ->]; unfold split_query.
  - rewrite append_nil_r count_lacks // (proj2 (cut_char_None "?" p) L) andb_false_r. by eexists.
  - rewrite !count_append count_lacks // (cut_skip "?" "" p q L). destruct (_ && _) eqn:B; [|by eexists].
    apply andb_true_iff in B as [S C]. assert (q = "") as ->.
    { apply has_suffix_spec in S as [r E]. apply Nat.eqb_eq in C. cbn [count_char String.append] in C.
      assert (lacks "?" r = true) as Lr.
      { apply count_lacks_iff. apply (f_equal (count_char "?")) in E. rewrite !count_append (count_lacks _ p) // in E.
        cbn [count_char String.append] in E. rewrite bool_decide_eq_true_2 // in C E. lia. }
      apply (f_equal (cut "?")) in E. rewrite (cut_skip "?" "" p q L) in E.
      rewrite -(append_nil_r "?") in E. rewrite (cut_skip "?" "" r "" Lr) in E. by injection E. }
    unfold trim_suffix. rewrite S length_append. cbn [String.length].
    rewrite (_ : String.length p + 1 - 1 = String.length p)%nat; [|lia]. rewrite stake_append. by eexists.
Qed.

Lemma origin_parse u : origin_form u -> lacks "#" (RawQuery u) = true -> sforall (fun c => negb (is_ctl c)) (RawQuery u) = true ->
  exists u', url_parse (url_string u) = Some u' /\ RawQuery u' = RawQuery u /\ Path u' = Path u.
Proof.
  intros O Q C. rewrite origin_string //. destruct (EscapedPath_ok u) as [V U]. pose proof (valid_path_char _ V) as PC.
  set (p := EscapedPath u) in *. set (t := if ForceQuery u || negb (bool_decide (RawQuery u = "")) then "?" +:+ RawQuery u else "").
  assert (sforall (fun c => negb (is_ctl c)) (p +:+ t) = true /\ lacks "#" (p +:+ t) = true /\ lacks "?" p = true) as (Ct & H & Qm).
  { assert (forall f : ascii -> bool, (forall c, path_char c = true -> f c = true) -> sforall f p = true) as Sp.
    { intros f Hf. by eapply sforall_impl. }
    assert (forall c, path_char c = true -> negb (is_ctl c) = true /\ negb (bool_decide (c = "?"%char)) = true /\
      negb (bool_decide (c = "#"%char)) = true) as Pc by (intros c; unfold path_char; rewrite !andb_true_iff; tauto).
    unfold lacks in *. rewrite !sforall_append !Sp; try (intros c Hc; by apply Pc).
    subst t. destruct (ForceQuery u || _); [|done]. rewrite !sforall_append C Q. done. }
  unfold url_parse. rewrite (proj2 (cut_char_None "#" _) H). unfold parse_reference. rewrite Ct. cbn [negb].
  pose proof (of_slash u O) as P1. fold p in P1. apply has_prefix_spec in P1 as [r Er].
  rewrite bool_decide_eq_false_2; [|by rewrite Er]. unfold getScheme.
  assert (scheme_from true (p +:+ t) = None) as -> by (by rewrite Er). cbn [mbind option_bind]. 
  assert (exists f, split_query (p +:+ t) = (p, f, RawQuery u)) as [f ->].
  { apply split_query_string; [done|]. subst t. destruct (RawQuery u) as [|c q]; [|right; by rewrite orb_true_r].
    destruct (ForceQuery u); [right|left]; done. }
  pose proof (of_path u O) as P2. fold p in P2. rewrite (of_slash u O) P2. cbn [to_lower smap negb andb bool_decide].
  rewrite andb_false_r. unfold set_encoded. rewrite U. cbn [mbind option_bind]. by eexists.
Qed.

Lemma origin_request_uri u : origin_form u -> RequestURI u = url_string u.
Proof.
  intros O. rewrite origin_string //. unfold RequestURI. rewrite (of_opaque u O) bool_decide_eq_true_2 //.
  rewrite bool_decide_eq_false_2 //. intros E. pose proof (of_slash u O) as S. by rewrite E in S.
Qed.

Lemma encode_query_chars q :
  lacks "#" (encode_query q) = true /\ sforall (fun c => negb (is_ctl c)) (encode_query q) = true.
Proof.
  assert (forall f : ascii -> bool, f "&"%char = true -> f "="%char = true ->
    (forall c, in_chars c "!$&'()*+,;=:@[]%" || negb (shouldEscape c encodeQueryComponent) = true -> f c = true) ->
    sforall f (encode_query q) = true) as H.
  { intros f A E V. unfold encode_query. rewrite sforall_join; [|simpl; by rewrite A]. apply forallb_forall.
    intros s Hs%list_elem_of_In. apply list_elem_of_fmap in Hs as ([k v] & -> & _). unfold setting. rewrite !sforall_append.
    assert (forall s, sforall f (QueryEscape s) = true) as Q.
    { intros s. eapply sforall_impl; [exact V|]. apply escape_valid. }
    rewrite !Q. simpl. by rewrite E. }
  split; apply H; try done; intros c Hc.
  - pose proof (byte_char (fun c => implb (in_chars c "!$&'()*+,;=:@[]%" || negb (shouldEscape c encodeQueryComponent))
      (negb (bool_decide (c = "#"%char)))) ltac:(by vm_compute) c) as X. cbv beta in X. by rewrite Hc in X.
  - pose proof (byte_char (fun c => implb (in_chars c "!$&'()*+,;=:@[]%" || negb (shouldEscape c encodeQueryComponent))
      (negb (is_ctl c))) ltac:(by vm_compute) c) as X. cbv beta in X. by rewrite Hc in X.
Qed.

(** The URL of another one's path and of an encoded query. *)
Lemma internal_parse u q :
  has_prefix (EscapedPath u) "/" = true -> has_prefix (EscapedPath u) "//" = false ->
  exists u', url_parse (RequestURI (internal_url (Path u) (RawPath u) (encode_query q))) = Some u' /\
    Path u' = Path u /\ RawQuery u' = encode_query q.
Proof.
  intros S N. set (v := internal_url (Path u) (RawPath u) (encode_query q)). assert (origin_form v) as O by done.
  destruct (encode_query_chars q) as [H C]. rewrite origin_request_uri //.
  destruct (origin_parse v O H C) as (u' & E & Q & P). by exists u'.
Qed.

Lemma trim_suffix_cases s p r : trim_suffix s p = r -> s = r \/ s = r +:+ p.
Proof.
  unfold trim_suffix. destruct (has_suffix s p) eqn:E; [|by left]. apply has_suffix_spec in E as [t ->].
  rewrite length_append (_ : String.length t + String.length p - String.length p = String.length t)%nat; [|lia].
  rewrite stake_append. intros ->. by right.
Qed.

(** ** Examples *)

Example url_parse_examples :
  url_parse "wss://proxy:443/v1/exec/?token=a.b.c&x=%20+" =
    Some (mkURL "wss" "" None "proxy:443" "/v1/exec/" "" false false "token=a.b.c&x=%20+" "" "") /\
  url_parse "HTTP://u:p%40@[fe80::1%25eth0]:80/a%2Fb#f%20g" =
    Some (mkURL "http" "" (Some ("u", Some "p@")) "[fe80::1%eth0]:80" "/a/b" "/a%2Fb" false false "" "f g" "") /\
  url_parse "mailto:x@y" = Some (mkURL "mailto" "x@y" None "" "" "" false false "" "" "") /\
  url_parse "file:/etc" = Some (mkURL "file" "" None "" "/etc" "" true false "" "" "") /\
  url_parse "http://h/p?" = Some (mkURL "http" "" None "h" "/p" "" false true "" "" "") /\
  url_parse "http://::1/" = None /\ url_parse "http://[1.2.3.4]/" = None /\ url_parse "http://a[::1]/" = None /\
  url_parse ":x" = None /\ url_parse "1:x" = None /\ url_parse "http://h:x/" = None /\ url_parse "/%zz" = None /\
  url_parse "http://a b/" = None /\ url_parse "*" = Some (path_url "*").
Proof. by vm_compute. Qed.

Example url_string_examples :
  url_string <$> url_parse "HTTP://u:p%40@[fe80::1%25eth0]:80/a%2Fb?q#f%20g" =
    Some "http://u:p%40@[fe80::1%25eth0]:80/a%2Fb?q#f%20g" /\
  url_string <$> url_parse "/a b?x" = Some "/a%20b?x" /\ url_string (path_url "a:b") = "./a:b" /\
  url_string <$> url_parse "file:/etc" = Some "file:/etc".
Proof. by vm_compute. Qed.

(** The references of RFC 3986. *)
Example resolve_examples :
  match url_parse "http://a/b/c/d;p?q" with
  | None => False
  | Some base =>
      (fun r => (fun u => url_string (ResolveReference base u)) <$> url_parse r) <$>
        ["g"; "./g"; "g/"; "/g"; "//g"; "?y"; "g?y"; "#s"; ""; "."; ".."; "../g"; "../../../g"; "g/./h"; "https://x/../y"] =
      Some <$> ["http://a/b/c/g"; "http://a/b/c/g"; "http://a/b/c/g/"; "http://a/g"; "http://g"; "http://a/b/c/d;p?y";
        "http://a/b/c/g?y"; "http://a/b/c/d;p?q#s"; "http://a/b/c/d;p?q"; "http://a/b/c/"; "http://a/b/"; "http://a/b/g";
        "http://a/g"; "http://a/b/c/g/h"; "https://x/y"]
  end.
Proof. by vm_compute. Qed.
