(* ===== verification/GoCookie.v ===== *)
(** * Go's [net/http] cookies

    [readCookies], which [Request.Cookies] and [Request.Cookie] use, [AddCookie] and
    [Cookie.String], for cookies without attributes, as of Go 1.26: a request of more
    than 3,000 cookies is read as one without any ([httpcookiemaxnum]).  No definition
    of this file models repository code. *)

From S2P Require Import Prelude GoString GoUrl.

Record http_cookie := mkCookie { ck_Name : string; ck_Value : string; ck_Quoted : bool }.
#[export] Instance http_cookie_eq_dec : EqDecision http_cookie.
Proof. solve_decision. Defined.

(** ** Reading *)

(** [textproto.TrimString] *)
Definition is_ascii_space (c : ascii) : bool :=
  bool_decide (c = " "%char) || bool_decide (c = chr 9) || bool_decide (c = chr 10) || bool_decide (c = chr 13).
Definition TrimString : string -> string := trim is_ascii_space.

Definition is_token_char (c : ascii) : bool := is_alnum c || in_chars c "!#$%&'*+-.^_`|~".
Definition isToken (s : string) : bool := negb (bool_decide (s = "")) && sforall is_token_char s.

Definition validCookieValueByte (c : ascii) : bool :=
  (32 <=? code c) && (code c <? 127) && negb (bool_decide (c = quote)) && negb (bool_decide (c = ";"%char))
  && negb (bool_decide (c = "\"%char)).

(** [parseCookieValue] with double quotes allowed: the value, and whether it was
    quoted. *)
Definition parseCookieValue (raw : string) : option (string * bool) :=
  let quoted := (1 <? go_len raw) && has_prefix raw (String quote "") && has_suffix raw (String quote "") in
  let raw := if quoted then stake (String.length raw - 2) (sdrop 1 raw) else raw in
  if sforall validCookieValueByte raw then Some (raw, quoted) else None.

Definition read_cookie (part : string) : option http_cookie :=
  let part := TrimString part in
  if bool_decide (part = "") then None
  else
    let '(name, val) := default (part, "") (cut "=" part) in
    let name := TrimString name in
    if isToken name then '(val, quoted) ← parseCookieValue val; Some (mkCookie name val quoted) else None.

Definition defaultCookieMaxNum : nat := Z.to_nat 3000.

Definition readCookies (lines : list string) : list http_cookie :=
  if (defaultCookieMaxNum <? sum_list_with (fun line => S (count_char ";" line)) lines)%nat then []
  else line ← lines; omap read_cookie (split (TrimString line) ";").

(** ** Printing *)

Definition sanitizeCookieName (n : string) : string :=
  smap (fun c => if bool_decide (c = chr 10) || bool_decide (c = chr 13) then "-"%char else c) n.

Definition sanitizeCookieValue (v : string) (quoted : bool) : string :=
  let v := sfilter validCookieValueByte v in
  if bool_decide (v = "") then ""
  else if negb (sforall (fun c => negb (in_chars c " ,")) v) || quoted
       then String quote (v +:+ String quote "") else v.

(** What [AddCookie] writes. *)
Definition cookie_text (c : http_cookie) : string :=
  sanitizeCookieName (ck_Name c) +:+ "=" +:+ sanitizeCookieValue (ck_Value c) (ck_Quoted c).

(** [AddCookie] on the present value of the header. *)
Definition add_cookie (old : string) (c : http_cookie) : string :=
  if bool_decide (old = "") then cookie_text c else old +:+ "; " +:+ cookie_text c.

(** [Cookie.String] *)
Definition cookie_String (c : http_cookie) : string :=
  if isToken (ck_Name c) then ck_Name c +:+ "=" +:+ sanitizeCookieValue (ck_Value c) (ck_Quoted c) else "".

(** ** Examples *)

Definition in_quotes (s : string) : string := String quote (s +:+ String quote "").

Example read_cookies_examples :
  readCookies ["a=1; token = x;b b=2;; c=" +:+ in_quotes "q,r" +:+ "; d= s ; e"; "f=g=h"; "i=" +:+ in_quotes ""; "\=j; k=\"] =
    [mkCookie "a" "1" false; mkCookie "token" " x" false; mkCookie "c" "q,r" true; mkCookie "d" " s" false;
     mkCookie "e" "" false; mkCookie "f" "g=h" false; mkCookie "i" "" true] /\
  cookie_text (mkCookie "d" " s" false) = "d=" +:+ in_quotes " s" /\ cookie_text (mkCookie "i" "" true) = "i=".
Proof. by vm_compute. Qed.

(** ** Reading what was printed *)

(** A text trimming does not touch. *)
Definition tidy (s : string) : Prop :=
  (exists c r, s = String c r /\ is_ascii_space c = false) /\ (exists r c, s = r +:+ String c "" /\ is_ascii_space c = false).

Lemma trim_right_last p s c : p c = false -> trim_right p (s +:+ String c "") = s +:+ String c "".
Proof.
  intros H. induction s as [|d s IH]; simpl; [by rewrite H|]. unfold String.append in IH. rewrite IH.
  by destruct s.
Qed.

Lemma TrimString_tidy s : tidy s -> TrimString s = s /\ TrimString (String " " s) = s.
Proof.
  intros [(c & r & E & Hc) (r' & d & E' & Hd)]. unfold TrimString, trim. simpl. rewrite E. simpl. rewrite Hc -E E'.
  split; by apply trim_right_last.
Qed.

Lemma tidy_join a s b : tidy a -> tidy b -> tidy (a +:+ s +:+ b).
Proof.
  intros [(c & r & -> & Hc) _] [_ (r' & d & -> & Hd)]. split.
  - exists c, (r +:+ s +:+ r' +:+ String d ""). by rewrite !append_cons.
  - exists (String c r +:+ s +:+ r'), d. by rewrite !append_assoc.
Qed.

(** What is read is well formed. *)
Definition cookie_ok (c : http_cookie) : Prop :=
  isToken (ck_Name c) = true /\ sforall validCookieValueByte (ck_Value c) = true.

Lemma read_cookie_ok part c : read_cookie part = Some c -> cookie_ok c.
Proof.
  unfold read_cookie. case_bool_decide; [done|]. destruct (default _ _) as [name val].
  destruct (isToken _) eqn:T; [|done]. intros ([v q] & P & [= <-])%bind_Some. split; [done|].
  unfold parseCookieValue in P. destruct (sforall validCookieValueByte _) eqn:F; [|done]. by injection P as <- _.
Qed.

Lemma readCookies_ok lines : Forall cookie_ok (readCookies lines).
Proof.
  unfold readCookies. destruct (_ <? _)%nat; [constructor|]. apply Forall_forall. intros c.
  intros (line & (part & _ & P)%list_elem_of_omap & _)%list_elem_of_bind. by eapply read_cookie_ok.
Qed.

Lemma split_length x s : length (split s (String x "")) = S (count_char x s).
Proof.
  destruct (split_parts x s) as [J F]. pose proof (count_join x _ F) as C. rewrite J in C.
  pose proof (cuts_nonempty (String.length s) (String x "") s) as N. unfold split in *. destruct (cuts _ _ _); [done|].
  simpl in *. lia.
Qed.

Lemma count_trim x p s : (count_char x (trim p s) <= count_char x s)%nat.
Proof.
  unfold trim. transitivity (count_char x (trim_left p s)).
  - induction (trim_left p s) as [|c t IH]; simpl; [done|].
    destruct (trim_right p t) as [|d u] eqn:E; [destruct (p c)|]; simpl in *; lia.
  - induction s as [|c s IH]; simpl; [done|]. destruct (p c); simpl; lia.
Qed.

Lemma readCookies_length lines : (length (readCookies lines) <= defaultCookieMaxNum)%nat.
Proof.
  unfold readCookies. destruct (_ <? _)%nat eqn:L; [simpl; lia|]. apply Nat.ltb_ge in L.
  etransitivity; [|exact L]. clear L. induction lines as [|line lines IH]; [done|].
  cbn [mbind list_bind sum_list_with]. rewrite length_app.
  assert (length (omap read_cookie (split (TrimString line) ";")) <= S (count_char ";" line))%nat; [|simpl in *; lia].
  assert (forall l, length (omap read_cookie l) <= length l)%nat as O.
  { induction l as [|p l IHl]; [done|]. cbn [omap list_omap]. destruct (read_cookie p); simpl; lia. }
  etransitivity; [apply O|]. rewrite split_length. apply le_n_S, count_trim.
Qed.

(** *** One cookie *)

Lemma token_lacks x s : is_token_char x = false -> sforall is_token_char s = true -> lacks x s = true.
Proof.
  intros Hx. apply sforall_impl. intros c Hc. apply negb_true_iff, bool_decide_eq_false. intros ->. by rewrite Hx in Hc.
Qed.

Lemma value_lacks x s : validCookieValueByte x = false -> sforall validCookieValueByte s = true -> lacks x s = true.
Proof.
  intros Hx. apply sforall_impl. intros c Hc. apply negb_true_iff, bool_decide_eq_false. intros ->. by rewrite Hx in Hc.
Qed.

Lemma sfilter_all p s : sforall p s = true -> sfilter p s = s.
Proof. induction s as [|c s IH]; [done|]. simpl. intros [-> H]%andb_true_iff. by rewrite IH. Qed.

(** A well-formed cookie is printed as it is, in quotes where it needs them. *)
Lemma cookie_text_eq c : cookie_ok c -> exists v,
  cookie_text c = ck_Name c +:+ "=" +:+ v /\
  (v = in_quotes (ck_Value c) \/ v = ck_Value c /\ lacks " " v = true).
Proof.
  intros [T V]. unfold cookie_text. exists (sanitizeCookieValue (ck_Value c) (ck_Quoted c)). split.
  - f_equal. unfold isToken in T. apply andb_true_iff in T as [_ T]. unfold sanitizeCookieName.
    induction (ck_Name c) as [|d n IH]; [done|]. cbn [sforall smap] in *. apply andb_true_iff in T as [Td Tn].
    rewrite IH //. destruct (_ || _) eqn:E; [|done]. exfalso. apply orb_true_iff in E as [E|E];
      apply bool_decide_eq_true in E as ->; by vm_compute in Td.
  - unfold sanitizeCookieValue. rewrite sfilter_all //. case_bool_decide as E; [right; by rewrite E|].
    destruct (sforall (fun c => negb _) _) eqn:S; cbn [negb orb]; [|by left]. destruct (ck_Quoted c); [by left|right]. split; [done|].
    revert S. apply sforall_impl. intros d Hd. apply negb_true_iff, bool_decide_eq_false. intros ->. by vm_compute in Hd.
Qed.

Lemma last_char p s : s <> "" -> sforall p s = true -> exists r c, s = r +:+ String c "" /\ p c = true.
Proof.
  induction s as [|c s IH]; [done|]. intros _. cbn [sforall]. intros [Hc Hs]%andb_true_iff. destruct s as [|d s].
  - by exists "", c.
  - destruct IH as (r & e & -> & He); [done|done|]. exists (String c r), e. by rewrite append_cons.
Qed.

Lemma token_not_space c : is_token_char c = true -> is_ascii_space c = false.
Proof.
  intros H. unfold is_ascii_space. rewrite !orb_false_iff !bool_decide_eq_false. split_and!; by intros ->; vm_compute in H.
Qed.

Lemma token_tidy s : isToken s = true -> tidy s.
Proof.
  unfold isToken. rewrite andb_true_iff negb_true_iff bool_decide_eq_false. intros [N T]. split.
  - destruct s as [|c s]; [done|]. cbn [sforall] in T. apply andb_true_iff in T as [T _]. exists c, s.
    split; [done|by apply token_not_space].
  - destruct (last_char _ _ N T) as (r & c & -> & H). exists r, c. split; [done|by apply token_not_space].
Qed.

Lemma value_not_space c : validCookieValueByte c = true -> c <> " "%char -> is_ascii_space c = false.
Proof.
  intros H N. unfold is_ascii_space. rewrite !orb_false_iff !bool_decide_eq_false. split_and!; try done; by intros ->; vm_compute in H.
Qed.

Lemma cookie_tidy c : cookie_ok c -> tidy (cookie_text c).
Proof.
  intros O. destruct (cookie_text_eq c O) as (v & -> & D). destruct O as [T V].
  assert (forall r d, is_ascii_space d = false -> "=" +:+ v = r +:+ String d "" -> tidy (ck_Name c +:+ "=" +:+ v)) as K.
  { intros r d Hd E. destruct (token_tidy _ T) as [(x & n & -> & Hx) _]. split.
    - exists x, (n +:+ "=" +:+ v). by rewrite append_cons.
    - exists (String x n +:+ r), d. by rewrite E append_assoc. }
  destruct D as [->|[-> L]].
  - apply (K ("=" +:+ String quote (ck_Value c)) quote); [done|]. unfold in_quotes. by rewrite !append_cons.
  - destruct (decide (ck_Value c = "")) as [E|N]; [apply (K "" "="%char); [done|by rewrite E]|].
    destruct (last_char (fun d => validCookieValueByte d && negb (bool_decide (d = " "%char))) (ck_Value c) N) as (r & d & E & Hd).
    { clear -V L. induction (ck_Value c) as [|d s IH]; [done|]. unfold lacks in *. cbn [sforall] in *.
      apply andb_true_iff in V as [-> V]. apply andb_true_iff in L as [-> L]. by rewrite IH. }
    apply andb_true_iff in Hd as [Hv Hn]. apply negb_true_iff, bool_decide_eq_false in Hn.
    apply (K ("=" +:+ r) d); [by apply value_not_space|]. by rewrite {1}E append_assoc.
Qed.

Lemma parseCookieValue_printed v v' : sforall validCookieValueByte v = true -> v' = in_quotes v \/ v' = v ->
  exists q, parseCookieValue v' = Some (v, q).
Proof.
  intros V [-> | ->]; unfold parseCookieValue.
  - exists true. unfold in_quotes.
    assert (has_suffix (String quote (v +:+ String quote "")) (String quote "") = true) as ->.
    { rewrite -append_cons. apply has_suffix_append. }
    assert ((1 <? go_len (String quote (v +:+ String quote ""))) = true) as ->.
    { apply Z.ltb_lt. unfold go_len. simpl. rewrite length_append. simpl. lia. }
    rewrite has_prefix_cons has_prefix_nil bool_decide_eq_true_2 //. cbn [andb String.length sdrop].
    rewrite length_append. cbn [String.length].
    rewrite (_ : S (String.length v + 1) - 2 = String.length v)%nat; [|lia]. by rewrite stake_append V.
  - exists false. assert (has_prefix v (String quote "") = false) as ->.
    { destruct v as [|c v]; [done|]. cbn [sforall] in V. apply andb_true_iff in V as [V _].
      rewrite has_prefix_cons has_prefix_nil andb_true_r. apply bool_decide_eq_false. by intros <-; vm_compute in V. }
    by rewrite andb_false_r V.
Qed.

(** A printed cookie is read back; only its quotes may have been added. *)
Lemma read_cookie_text c : cookie_ok c -> exists q,
  read_cookie (cookie_text c) = Some (mkCookie (ck_Name c) (ck_Value c) q) /\
  read_cookie (String " " (cookie_text c)) = Some (mkCookie (ck_Name c) (ck_Value c) q).
Proof.
  intros O. destruct (TrimString_tidy _ (cookie_tidy c O)) as [T1 T2]. unfold read_cookie. rewrite T1 T2.
  destruct (cookie_text_eq c O) as (v & E & D). destruct O as [T V].
  destruct (parseCookieValue_printed (ck_Value c) v) as [q P]; [done|tauto|]. exists q.
  pose proof (token_tidy _ T) as Tt. destruct (TrimString_tidy _ Tt) as [Tn _].
  rewrite bool_decide_eq_false_2; [|by rewrite E; destruct Tt as [(x & n & -> & _) _]].
  assert (cut "=" (cookie_text c) = Some (ck_Name c, v)) as ->.
  { rewrite E. apply (cut_skip "="%char ""). apply token_lacks; [by vm_compute|].
    unfold isToken in T. by apply andb_true_iff in T as [_ T]. }
  cbn -[TrimString isToken parseCookieValue]. by rewrite Tn T P.
Qed.

(** *** A header of cookies *)

Lemma cookie_text_lacks c : cookie_ok c -> lacks ";" (cookie_text c) = true.
Proof.
  intros O. destruct (cookie_text_eq c O) as (v & -> & D). destruct O as [T V]. unfold lacks. rewrite !sforall_append.
  unfold isToken in T. apply andb_true_iff in T as [_ T]. rewrite !andb_true_iff. split_and!; [by apply token_lacks|done|done|].
  pose proof (value_lacks ";" (ck_Value c) eq_refl V) as L.
  destruct D as [->|[-> _]]; [|done]. unfold in_quotes. rewrite -append_cons sforall_append. apply andb_true_iff.
  split; [|done]. cbn [sforall]. by apply andb_true_iff.
Qed.

Definition spaced (l : list string) : list string := match l with [] => [] | t :: l => t :: (String " " <$> l) end.

Lemma join_spaced l : join "; " l = join ";" (spaced l).
Proof.
  destruct l as [|t l]; [done|]. revert t. induction l as [|u l IH]; intros t; [done|].
  change (join "; " (t :: u :: l)) with (t +:+ "; " +:+ join "; " (u :: l)). rewrite IH.
  change (join ";" (spaced (t :: u :: l))) with (t +:+ ";" +:+ join ";" (String " " u :: (String " " <$> l))). f_equal.
  cbn [spaced]. destruct (String " " <$> l); [done|]. by rewrite !append_cons.
Qed.

Lemma add_cookies l : Forall cookie_ok l -> foldl add_cookie "" l = join "; " (cookie_text <$> l).
Proof.
  assert (forall l old, Forall cookie_ok l -> old <> "" -> foldl add_cookie old l =
    match l with [] => old | _ => old +:+ "; " +:+ join "; " (cookie_text <$> l) end) as G.
  { clear l. induction l as [|c l IH]; intros old F N; [done|]. inversion F as [|? ? Fc Fl]; subst. cbn [foldl].
    unfold add_cookie at 2. rewrite bool_decide_eq_false_2 // IH //; [|by destruct old].
    destruct l as [|d l]; [done|]. by rewrite /= !append_assoc. }
  intros F. destruct l as [|c l]; [done|]. inversion F as [|? ? Fc Fl]; subst. cbn [foldl].
  unfold add_cookie at 2. rewrite bool_decide_eq_true_2 // G //; [by destruct l|].
  by destruct (cookie_tidy c Fc) as [(x & r & -> & _) _].
Qed.

Lemma join_tidy l : l <> [] -> Forall tidy l -> tidy (join "; " l).
Proof.
  intros N F. destruct l as [|t l]; [done|]. clear N. revert t F. induction l as [|u l IH]; intros t F;
    inversion F as [|? ? Ft Fl]; subst; [done|].
  change (join "; " (t :: u :: l)) with (t +:+ "; " +:+ join "; " (u :: l)). apply tidy_join; [done|by apply IH].
Qed.

Definition cookie_pair (c : http_cookie) : string * string := (ck_Name c, ck_Value c).

(** The cookies a request is given are those that are read from it. *)
Lemma cookies_roundtrip l : Forall cookie_ok l -> l <> [] -> (length l <= defaultCookieMaxNum)%nat ->
  cookie_pair <$> readCookies [foldl add_cookie "" l] = cookie_pair <$> l.
Proof.
  intros F N L. rewrite add_cookies //. set (ts := cookie_text <$> l).
  assert (spaced ts <> []) as Ns by by destruct l.
  assert (Forall (fun p => lacks ";" p = true) (spaced ts)) as Fs.
  { assert (Forall (fun p => lacks ";" p = true) ts) as Ft.
    { apply Forall_fmap. eapply Forall_impl; [exact F|]. apply cookie_text_lacks. }
    destruct ts as [|t ts]; [done|]. inversion Ft; subst. constructor; [done|]. by apply Forall_fmap. }
  unfold readCookies. cbn [sum_list_with]. rewrite join_spaced count_join //.
  assert (length (spaced ts) = length l) as Ls.
  { transitivity (length ts); [|apply length_fmap]. destruct ts; [done|]. simpl. by rewrite length_fmap. }
  rewrite Ls (proj2 (Nat.ltb_ge _ _)); [|destruct l; [done|simpl in *; lia]].
  cbn [mbind list_bind]. rewrite app_nil_r -join_spaced (proj1 (TrimString_tidy _ (join_tidy ts _ _))); [|by destruct l|].
  2: { apply Forall_fmap. eapply Forall_impl; [exact F|]. apply cookie_tidy. }
  rewrite join_spaced split_join //.
  assert (forall l, Forall cookie_ok l -> cookie_pair <$> omap read_cookie (String " " <$> (cookie_text <$> l)) = cookie_pair <$> l) as G.
  { clear. induction 1 as [|c l O F IH]; [done|]. destruct (read_cookie_text c O) as (q & _ & E).
    cbn [fmap list_fmap omap list_omap]. rewrite E. cbn [fmap list_fmap]. by f_equal. }
  subst ts. destruct F as [|c l O F]; [done|]. destruct (read_cookie_text c O) as (q & E & _).
  cbn [fmap list_fmap spaced omap list_omap]. rewrite E. cbn [fmap list_fmap]. f_equal. by apply G.
Qed.
