(* ===== verification/GoJson.v ===== *)
(** * Go's [encoding/json]

    JSON texts as trees: the parser behind [Unmarshal] and [Decoder.Decode], the
    printer behind [Marshal], with their treatment of UTF-8, and that parsing
    inverts printing.  No definition of this file models repository code; how a tree
    becomes a Go value is written where the struct is. *)

From Stdlib Require Import DecimalFacts DecimalN SpecFloat.
#[local] Set Warnings "-register-all".
From S2P Require Import Prelude GoString GoNet GoUrl.

(** ** UTF-8 *)

Definition cont (lo hi : Z) (s : string) : bool := match s with String c _ => in_range lo hi c | EmptyString => false end.

(** The length of the well-formed sequence a text starts with, 0 if there is none
    ([utf8.DecodeRune]). *)
Definition utf8_head (s : string) : nat :=
  match s with
  | EmptyString => 0%nat
  | String c t =>
      let b := code c in
      if b <? 128 then 1%nat
      else if in_range 194 223 c then if cont 128 191 t then 2%nat else 0%nat
      else if in_range 224 239 c
      then if cont (if b =? 224 then 160 else 128) (if b =? 237 then 159 else 191) t && cont 128 191 (sdrop 1 t)
           then 3%nat else 0%nat
      else if in_range 240 244 c
      then if cont (if b =? 240 then 144 else 128) (if b =? 244 then 143 else 191) t && cont 128 191 (sdrop 1 t)
              && cont 128 191 (sdrop 2 t) then 4%nat else 0%nat
      else 0%nat
  end.

(** [utf8.ValidString]; [k] bytes of a sequence are still to come. *)
Fixpoint utf8_from (k : nat) (s : string) : bool :=
  match s with
  | EmptyString => true
  | String c t => match k with
                  | S k => utf8_from k t
                  | O => match utf8_head s with O => false | S n => utf8_from n t end
                  end
  end.
Definition utf8_valid : string -> bool := utf8_from 0.

(** [utf8.EncodeRune] *)
Definition encode_rune (r : Z) : string :=
  string_of
    (if r <? 128 then [r]
     else if r <? 2048 then [192 + r / 64; 128 + r mod 64]
     else if r <? 65536 then [224 + r / 4096; 128 + (r / 64) mod 64; 128 + r mod 64]
     else [240 + r / 262144; 128 + (r / 4096) mod 64; 128 + (r / 64) mod 64; 128 + r mod 64]).
Definition replacement : string := encode_rune 65533.

(** ** Strings *)

Definition backslash : ascii := chr 92.
Definition u_escape (s : string) : string := String backslash (String "u" s).

(** One ASCII character as [Marshal] writes it, [<], [>] and [&] escaped. *)
Definition json_char (c : ascii) : string :=
  if bool_decide (c = quote) || bool_decide (c = backslash) then String backslash (String c "")
  else if bool_decide (c = chr 8) then String backslash "b" else if bool_decide (c = chr 12) then String backslash "f"
  else if bool_decide (c = chr 10) then String backslash "n" else if bool_decide (c = chr 13) then String backslash "r"
  else if bool_decide (c = chr 9) then String backslash "t"
  else if (code c <? 32) || in_chars c "<>&" then u_escape ("00" +:+ hex [code c])
  else String c "".

(** The text between the quotes; [copy] and [skip] are the bytes of the present
    sequence still to be copied or left out. *)
Fixpoint json_chars (copy skip : nat) (s : string) : string :=
  match s with
  | EmptyString => ""
  | String c t =>
      match copy, skip with
      | S copy, _ => String c (json_chars copy 0 t)
      | O, S skip => json_chars 0 skip t
      | O, O =>
          if code c <? 128 then json_char c +:+ json_chars 0 0 t
          else if has_prefix s (encode_rune 8232) then u_escape "2028" +:+ json_chars 0 2 t
          else if has_prefix s (encode_rune 8233) then u_escape "2029" +:+ json_chars 0 2 t
          else match utf8_head s with
               | O => u_escape "fffd" +:+ json_chars 0 0 t
               | S n => String c (json_chars n 0 t)
               end
      end
  end.
Definition json_string (s : string) : string := String quote (json_chars 0 0 s +:+ String quote "").

(** [getu4] *)
Definition u4 (a b c d : ascii) : option Z :=
  a ← hex_value a; b ← hex_value b; c ← hex_value c; d ← hex_value d; Some (((a * 16 + b) * 16 + c) * 16 + d).

Definition is_surrogate (r : Z) : bool := (55296 <=? r) && (r <? 57344).

(** [utf16.DecodeRune] of a pair, if it is one. *)
Definition utf16_pair (r r1 : Z) : option Z :=
  if (55296 <=? r) && (r <? 56320) && (56320 <=? r1) && (r1 <? 57344)
  then Some ((r - 55296) * 1024 + (r1 - 56320) + 65536) else None.

Definition simple_escape (c : ascii) : option ascii :=
  if in_chars c "/" || bool_decide (c = quote) || bool_decide (c = backslash) then Some c
  else if bool_decide (c = "b"%char) then Some (chr 8) else if bool_decide (c = "f"%char) then Some (chr 12)
  else if bool_decide (c = "n"%char) then Some (chr 10) else if bool_decide (c = "r"%char) then Some (chr 13)
  else if bool_decide (c = "t"%char) then Some (chr 9) else None.

Definition prepend (p : string) (r : option (string * string)) : option (string * string) :=
  '(t, rest) ← r; Some (p +:+ t, rest).

(** A string from after its opening quote: its value, and what follows the closing
    quote.  Malformed UTF-8 and lone surrogates become the replacement character. *)
Fixpoint parse_chars (copy : nat) (s : string) : option (string * string) :=
  match s with
  | EmptyString => None
  | String c t =>
      match copy with
      | S copy => prepend (String c "") (parse_chars copy t)
      | O =>
          if bool_decide (c = quote) then Some ("", t)
          else if bool_decide (c = backslash) then
            match t with
            | EmptyString => None
            | String e t =>
                if bool_decide (e = "u"%char) then
                  match t with
                  | String a (String b (String c (String d t))) =>
                      r ← u4 a b c d;
                      if is_surrogate r then
                        match t with
                        | String x (String y (String a (String b (String c (String d t1))))) =>
                            match (if bool_decide (x = backslash) && bool_decide (y = "u"%char)
                                   then r1 ← u4 a b c d; utf16_pair r r1 else None) with
                            | Some dec => prepend (encode_rune dec) (parse_chars 0 t1)
                            | None => prepend replacement (parse_chars 0 t)
                            end
                        | _ => prepend replacement (parse_chars 0 t)
                        end
                      else prepend (encode_rune r) (parse_chars 0 t)
                  | _ => None
                  end
                else c ← simple_escape e; prepend (String c "") (parse_chars 0 t)
            end
          else if code c <? 32 then None
          else if code c <? 128 then prepend (String c "") (parse_chars 0 t)
          else match utf8_head s with
               | O => prepend replacement (parse_chars 0 t)
               | S n => prepend (String c "") (parse_chars n t)
               end
      end
  end.

Example json_string_examples :
  json_string ("a<" +:+ String quote (String (chr 10) (String (chr 1) (String (chr 255) "é")))) =
    String quote ("a" +:+ u_escape "003c" +:+ String backslash (String quote (String backslash "n")) +:+ u_escape "0001"
      +:+ u_escape "fffd" +:+ "é" +:+ String quote "") /\
  json_string (encode_rune 8232) = String quote (u_escape "2028" +:+ String quote "") /\
  parse_chars 0 (u_escape "d83d" +:+ u_escape "DE00" +:+ u_escape "d83d" +:+ String backslash ("/" +:+ String quote " x")) =
    Some (encode_rune 128512 +:+ replacement +:+ "/", " x") /\
  encode_rune 128512 = "😀" /\ utf8_valid "é😀" = true /\ utf8_valid (String (chr 237) (String (chr 160) (String (chr 128) ""))) = false.
Proof. by vm_compute. Qed.

Lemma ascii_utf8 s : sforall (fun c => code c <? 128) s = true -> utf8_valid s = true.
Proof.
  unfold utf8_valid. induction s as [|c s IH]; [done|]. cbn [sforall utf8_from utf8_head]. by intros [-> H]%andb_true_iff; apply IH.
Qed.

(** ** Strings are read back *)

Lemma prepend_append p q r : prepend p (prepend q r) = prepend (p +:+ q) r.
Proof. destruct r as [[t rest]|]; [|done]. unfold prepend. cbn. by rewrite append_assoc. Qed.

Lemma json_char_escaped c X : (code c <? 32) = true \/ in_chars c "<>&" = true ->
  parse_chars 0 (u_escape ("00" +:+ hex [code c]) +:+ X) = prepend (String c "") (parse_chars 0 X).
Proof.
  intros H. assert (exists n, c = chr n /\ In n (seqZ 0 32 ++ [60; 62; 38])) as (n & -> & I).
  { exists (code c). split; [by rewrite chr_code|]. apply in_app_iff. destruct H as [H|H].
    - left. apply list_elem_of_In, elem_of_seqZ. pose proof (code_range c). bool_to_prop. lia.
    - right. cbn [in_chars] in H. rewrite !orb_true_iff !bool_decide_eq_true in H.
      destruct H as [->|[->|[->|H]]]; [by left|by right; left|by right; right; left|done]. }
  repeat (destruct I as [<-|I]; [reflexivity|]). done.
Qed.

Lemma json_char_parsed c X : (code c <? 128) = true ->
  parse_chars 0 (json_char c +:+ X) = prepend (String c "") (parse_chars 0 X).
Proof.
  intros A. unfold json_char.
  destruct (bool_decide (c = quote) || bool_decide (c = backslash)) eqn:E1.
  { apply orb_true_iff in E1 as [->%bool_decide_eq_true| ->%bool_decide_eq_true]; reflexivity. }
  do 5 (match goal with |- context [bool_decide (c = chr ?n)] => destruct (bool_decide_reflect (c = chr n)) as [->|_]; [reflexivity|] end).
  destruct (_ || in_chars c "<>&") eqn:E2; [apply json_char_escaped; by apply orb_true_iff|].
  apply orb_false_iff in E1 as [Q B]. apply orb_false_iff in E2 as [L _].
  rewrite append_cons append_nil_l. cbn [parse_chars]. by rewrite Q B L A.
Qed.

(** The bytes of a sequence are copied. *)
Lemma chars_copy w s : json_chars (String.length w) 0 (w +:+ s) = w +:+ json_chars 0 0 s.
Proof. induction w as [|c w IH]; [done|]. rewrite !append_cons. simpl. by rewrite IH. Qed.
Lemma parse_copy w s : parse_chars (String.length w) (w +:+ s) = prepend w (parse_chars 0 s).
Proof.
  induction w as [|c w IH]; [rewrite append_nil_l; cbn [String.length]; by destruct (parse_chars 0 s) as [[]|]|]. rewrite append_cons. cbn [String.length parse_chars].
  by rewrite IH prepend_append.
Qed.
Lemma utf8_copy w s : utf8_from (String.length w) (w +:+ s) = utf8_valid s.
Proof. induction w as [|c w IH]; [done|]. exact IH. Qed.

Lemma cont_take lo hi t r : cont lo hi t = true -> cont lo hi (stake 1 t +:+ r) = true.
Proof. by destruct t. Qed.

(** A sequence is recognised whatever follows it. *)
Lemma utf8_split c t n : utf8_head (String c t) = S n ->
  exists w r, t = w +:+ r /\ String.length w = n /\ forall r', utf8_head (String c (w +:+ r')) = S n.
Proof.
  unfold utf8_head. destruct (code c <? 128); [intros [= <-]; by exists "", t|].
  destruct (in_range 194 223 c).
  { destruct t as [|x t]; [done|]. destruct (cont 128 191 (String x t)) eqn:C; [|done]. intros [= <-].
    exists (String x ""), t. split_and!; [done|done|]. intros r'. by rewrite append_cons; cbn [cont] in *; rewrite C. }
  destruct (in_range 224 239 c).
  { destruct t as [|x [|y t]]; [done|by rewrite andb_false_r|]. destruct (_ && _) eqn:C; [|done]. intros [= <-].
    exists (String x (String y "")), t. split_and!; [done|done|]. intros r'. rewrite !append_cons.
    cbn [cont sdrop] in *. by rewrite C. }
  destruct (in_range 240 244 c); [|done].
  destruct t as [|x [|y [|z t]]]; [done|by rewrite andb_false_r|by rewrite andb_false_r|].
  destruct (_ && _) eqn:C; [|done]. intros [= <-].
  exists (String x (String y (String z ""))), t. split_and!; [done|done|]. intros r'. rewrite !append_cons.
  cbn [cont sdrop] in *. by rewrite C.
Qed.

Lemma json_chars_parsed s rest : utf8_valid s = true ->
  parse_chars 0 (json_chars 0 0 s +:+ String quote rest) = Some (s, rest).
Proof.
  remember (String.length s) as n eqn:Hn. revert s Hn. induction (lt_wf n) as [n _ IH]. intros s -> V.
  assert (forall t, (String.length t < String.length s)%nat -> utf8_valid t = true ->
    parse_chars 0 (json_chars 0 0 t +:+ String quote rest) = Some (t, rest)) as IH' by (intros t L; by eapply IH).
  clear IH. destruct s as [|c t]; [done|]. cbn [json_chars]. destruct (code c <? 128) eqn:A.
  { rewrite append_assoc json_char_parsed // IH'; [done|simpl; lia|].
    unfold utf8_valid in *. cbn [utf8_from utf8_head] in V. by rewrite A in V. }
  assert (forall r, (r = 8232 \/ r = 8233) -> has_prefix (String c t) (encode_rune r) = true ->
    exists u, String c t = encode_rune r +:+ u /\ t = sdrop 1 (encode_rune r) +:+ u /\ utf8_valid u = true) as P.
  { intros r Hr [u E]%has_prefix_spec. exists u. split; [done|]. rewrite E in V.
    destruct Hr as [-> | ->]; (split; [by injection E|by vm_compute in V]). }
  destruct (has_prefix (String c t) (encode_rune 8232)) eqn:P1.
  { destruct (P 8232) as (u & E & Et & Vu); [by left|done|]. rewrite E Et.
    change (json_chars 0 2 (sdrop 1 (encode_rune 8232) +:+ u)) with (json_chars 0 0 u). rewrite append_assoc.
    change (parse_chars 0 (u_escape "2028" +:+ ?x)) with (prepend (encode_rune 8232) (parse_chars 0 x)).
    rewrite IH'; [done| |done]. rewrite E length_append. simpl. lia. }
  destruct (has_prefix (String c t) (encode_rune 8233)) eqn:P2.
  { destruct (P 8233) as (u & E & Et & Vu); [by right|done|]. rewrite E Et.
    change (json_chars 0 2 (sdrop 1 (encode_rune 8233) +:+ u)) with (json_chars 0 0 u). rewrite append_assoc.
    change (parse_chars 0 (u_escape "2029" +:+ ?x)) with (prepend (encode_rune 8233) (parse_chars 0 x)).
    rewrite IH'; [done| |done]. rewrite E length_append. simpl. lia. }
  unfold utf8_valid in V. cbn [utf8_from] in V. destruct (utf8_head (String c t)) as [|k] eqn:U; [done|].
  destruct (utf8_split c t k U) as (w & r & -> & <- & U'). rewrite utf8_copy in V. rewrite chars_copy append_cons append_assoc.
  cbn [parse_chars]. rewrite A U'. rewrite (proj2 (Z.ltb_ge (code c) 32)); [|bool_to_prop; lia].
  rewrite !bool_decide_eq_false_2; [|by intros ->; vm_compute in A..]. rewrite parse_copy prepend_append IH' //.
  rewrite /= length_append. lia.
Qed.

(** ** Values *)

Inductive json :=
| JNull
| JBool (b : bool)
| JNumber (text : string)
| JString (s : string)
| JArray (l : list json)
| JObject (l : list (string * json)).

(** [Marshal] writes no white space. *)
Fixpoint json_print (j : json) : string :=
  match j with
  | JNull => "null"
  | JBool true => "true"
  | JBool false => "false"
  | JNumber text => text
  | JString s => json_string s
  | JArray l => "[" +:+ join "," (json_print <$> l) +:+ "]"
  | JObject l => "{" +:+ join "," ((fun kv => json_string (fst kv) +:+ ":" +:+ json_print (snd kv)) <$> l) +:+ "}"
  end.

Definition is_json_space (c : ascii) : bool :=
  bool_decide (c = " "%char) || bool_decide (c = chr 9) || bool_decide (c = chr 10) || bool_decide (c = chr 13).
Definition skip_space : string -> string := trim_left is_json_space.

Fixpoint digit_run (s : string) : string * string :=
  match s with
  | String c t => if is_digit c then let '(d, r) := digit_run t in (String c d, r) else ("", s)
  | EmptyString => ("", "")
  end.

(** The fraction and the exponent of a number. *)
Definition parse_fraction (s : string) : option (string * string) :=
  match s with
  | String "." t => let '(d, r) := digit_run t in if bool_decide (d = "") then None else Some ("." +:+ d, r)
  | _ => Some ("", s)
  end.
Definition parse_exponent (s : string) : option (string * string) :=
  match s with
  | String c t =>
      if in_chars c "eE" then
        let '(sign, t) := match t with
                          | String x u => if in_chars x "+-" then (String x "", u) else ("", t)
                          | EmptyString => ("", "")
                          end in
        let '(d, r) := digit_run t in if bool_decide (d = "") then None else Some (String c (sign +:+ d), r)
      else Some ("", s)
  | EmptyString => Some ("", "")
  end.
Definition parse_sign (s : string) : string * string :=
  match cut_prefix s "-" with Some t => ("-", t) | None => ("", s) end.
Definition parse_integer (s : string) : option (string * string) :=
  match cut_prefix s "0" with
  | Some t => Some ("0", t)
  | None => let '(d, r) := digit_run s in if bool_decide (d = "") then None else Some (d, r)
  end.
Definition parse_number (s : string) : option (string * string) :=
  let '(sign, s) := parse_sign s in
  '(int, s) ← parse_integer s;
  '(fraction, s) ← parse_fraction s;
  '(exponent, s) ← parse_exponent s;
  Some (sign +:+ int +:+ fraction +:+ exponent, s).

Definition literal (text : string) (j : json) (s : string) : option (json * string) :=
  r ← cut_prefix s text; Some (j, r).

(** One value, and what follows it.  [depth] is how much deeper values may nest. *)
Fixpoint parse_value (fuel depth : nat) (s : string) {struct fuel} : option (json * string) :=
  match fuel with
  | O => None
  | S fuel =>
      match skip_space s with
      | EmptyString => None
      | String c t =>
          if bool_decide (c = quote) then '(x, r) ← parse_chars 0 t; Some (JString x, r)
          else if bool_decide (c = "["%char) then
            match depth with
            | O => None
            | S depth =>
                match cut_prefix (skip_space t) "]" with
                | Some r => Some (JArray [], r)
                | None => '(l, r) ← parse_elements fuel depth t; Some (JArray l, r)
                end
            end
          else if bool_decide (c = "{"%char) then
            match depth with
            | O => None
            | S depth =>
                match cut_prefix (skip_space t) "}" with
                | Some r => Some (JObject [], r)
                | None => '(l, r) ← parse_members fuel depth t; Some (JObject l, r)
                end
            end
          else if bool_decide (c = "t"%char) then literal "rue" (JBool true) t
          else if bool_decide (c = "f"%char) then literal "alse" (JBool false) t
          else if bool_decide (c = "n"%char) then literal "ull" JNull t
          else '(x, r) ← parse_number (String c t); Some (JNumber x, r)
      end
  end
with parse_elements (fuel depth : nat) (s : string) {struct fuel} : option (list json * string) :=
  match fuel with
  | O => None
  | S fuel =>
      '(j, r) ← parse_value fuel depth s;
      match skip_space r with
      | String "," r => '(l, r) ← parse_elements fuel depth r; Some (j :: l, r)
      | String "]" r => Some ([j], r)
      | _ => None
      end
  end
with parse_members (fuel depth : nat) (s : string) {struct fuel} : option (list (string * json) * string) :=
  match fuel with
  | O => None
  | S fuel =>
      t ← cut_prefix (skip_space s) (String quote "");
      '(key, r) ← parse_chars 0 t;
      r ← cut_prefix (skip_space r) ":";
      '(j, r) ← parse_value fuel depth r;
      match skip_space r with
      | String "," r => '(l, r) ← parse_members fuel depth r; Some ((key, j) :: l, r)
      | String "}" r => Some ([(key, j)], r)
      | _ => None
      end
  end.

(** A value takes at most two calls per byte ([json_fuel_enough] below); values nest
    at most 10,000 deep. *)
Definition maxNestingDepth : nat := Z.to_nat 10000.
Definition json_decode (s : string) : option (json * string) :=
  parse_value (S (2 * String.length s)) maxNestingDepth s.
(** The whole text is one value. *)
Definition json_parse (s : string) : option json :=
  '(j, r) ← json_decode s; if bool_decide (skip_space r = "") then Some j else None.

Example json_parse_examples :
  let q s := String quote (s +:+ String quote "") in
  json_parse (" {" +:+ q "a" +:+ " : [1, -2.5e+3 ,true,null,{ }] , " +:+ q "b" +:+ ":" +:+ q "c" +:+ "} ") =
    Some (JObject [("a", JArray [JNumber "1"; JNumber "-2.5e+3"; JBool true; JNull; JObject []]); ("b", JString "c")]) /\
  json_parse "01" = None /\ json_parse "1." = None /\ json_parse "[1,]" = None /\ json_parse "{}x" = None /\
  json_parse "" = None /\ json_parse "[[]" = None /\ json_parse "-" = None /\ json_parse "tru" = None.
Proof. by vm_compute. Qed.

(** ** Values are read back *)

Section JsonInd.
Context (P : json -> Prop) (Hnull : P JNull) (Hbool : forall b, P (JBool b)) (Hnumber : forall t, P (JNumber t))
  (Hstring : forall s, P (JString s)) (Harray : forall l, Forall P l -> P (JArray l))
  (Hobject : forall l, Forall (fun kv => P (snd kv)) l -> P (JObject l)).

Fixpoint json_induction (j : json) : P j.
Proof.
  destruct j as [|b|t|s|l|l]; [done|done|done|done| |].
  - apply Harray. induction l as [|j l IH]; constructor; [apply json_induction|exact IH].
  - apply Hobject. induction l as [|[k j] l IH]; constructor; [apply json_induction|exact IH].
Defined.
End JsonInd.

(** Where a number ends. *)
Definition stops (s : string) : bool := match s with String c _ => in_chars c ",]}" | EmptyString => true end.
Definition number_text (t : string) : Prop :=
  (exists c u, t = String c u /\ (is_digit c || bool_decide (c = "-"%char)) = true) /\
  forall rest, stops rest = true -> parse_number (t +:+ rest) = Some (t, rest).

(** What can be printed and read back: numbers, strings of well-formed UTF-8, and
    values that do not nest too deeply. *)
Fixpoint json_ok (depth : nat) (j : json) : Prop :=
  match j with
  | JNumber t => number_text t
  | JString s => utf8_valid s = true
  | JArray l => match depth with O => False | S depth => Forall (json_ok depth) l end
  | JObject l => match depth with
                 | O => False
                 | S depth => Forall (fun kv => utf8_valid (fst kv) = true /\ json_ok depth (snd kv)) l
                 end
  | _ => True
  end.

Fixpoint json_fuel (j : json) : nat :=
  match j with
  | JArray l => S (sum_list_with (fun j => S (json_fuel j)) l)
  | JObject l => S (sum_list_with (fun kv => S (json_fuel (snd kv))) l)
  | _ => 1%nat
  end.

Lemma skip_space_id c t : is_json_space c = false -> skip_space (String c t) = String c t.
Proof. unfold skip_space. simpl. by intros ->. Qed.

Lemma head_not_special c : (is_digit c || bool_decide (c = "-"%char)) = true ->
  is_json_space c = false /\ c <> quote /\ c <> "["%char /\ c <> "{"%char /\ c <> "t"%char /\ c <> "f"%char /\ c <> "n"%char /\
  c <> "]"%char /\ c <> "}"%char.
Proof.
  intros H. split_and!; try (by intros ->; vm_compute in H). unfold is_json_space.
  rewrite !orb_false_iff !bool_decide_eq_false. split_and!; by intros ->; vm_compute in H.
Qed.

Lemma json_print_head d j : json_ok d j -> exists c t, json_print j = String c t /\ is_json_space c = false /\
  c <> "]"%char /\ c <> "}"%char.
Proof.
  intros O. assert (forall t, number_text t -> exists c u, t = String c u /\ is_json_space c = false /\
    c <> "]"%char /\ c <> "}"%char) as N.
  { intros t [(c & u & -> & H) _]. apply head_not_special in H as (S & _ & _ & _ & _ & _ & _ & A & B). by exists c, u. }
  destruct j as [|[]|t|s|l|l]; cbn [json_print]; rewrite ?append_cons; try by eexists _, _.
  apply N. by destruct d.
Qed.

Lemma skip_printed d j rest : json_ok d j -> skip_space (json_print j +:+ rest) = json_print j +:+ rest /\
  cut_prefix (json_print j +:+ rest) "]" = None.
Proof.
  intros (c & t & -> & S & A & _)%json_print_head. rewrite append_cons. split; [by apply skip_space_id|].
  unfold cut_prefix. rewrite has_prefix_cons. by rewrite bool_decide_eq_false_2 //; apply not_eq_sym.
Qed.

Lemma parse_json_string s rest : utf8_valid s = true ->
  exists t, json_string s +:+ rest = String quote t /\ parse_chars 0 t = Some (s, rest).
Proof.
  intros V. exists (json_chars 0 0 s +:+ String quote rest). split; [|by apply json_chars_parsed].
  unfold json_string. rewrite append_cons append_assoc. done.
Qed.

Lemma parse_elements_printed fuel d l rest :
  Forall (fun j => json_ok d j /\ forall fuel rest, (json_fuel j <= fuel)%nat -> stops rest = true ->
    parse_value fuel d (json_print j +:+ rest) = Some (j, rest)) l ->
  l <> [] -> (sum_list_with (fun j => S (json_fuel j)) l <= fuel)%nat ->
  parse_elements fuel d (join "," (json_print <$> l) +:+ "]" +:+ rest) = Some (l, rest).
Proof.
  intros F. revert fuel. induction F as [|j l [O H] F IH]; [done|]. intros fuel _ L. cbn [sum_list_with] in L.
  destruct fuel as [|fuel]; [lia|]. cbn [fmap list_fmap].
  destruct l as [|k l]; cbn [fmap list_fmap join parse_elements].
  - rewrite H; [done|simpl in L; lia|done].
  - rewrite !append_assoc H; [|simpl in *; lia|done]. cbn [mbind option_bind]. rewrite append_cons append_nil_l.
    change (skip_space (String "," ?x)) with (String "," x). cbv iota. rewrite IH; [done|done|simpl in *; lia].
Qed.

Lemma parse_members_printed fuel d l rest :
  Forall (fun kv => utf8_valid (fst kv) = true /\ forall fuel rest, (json_fuel (snd kv) <= fuel)%nat -> stops rest = true ->
    parse_value fuel d (json_print (snd kv) +:+ rest) = Some (snd kv, rest)) l ->
  l <> [] -> (sum_list_with (fun kv => S (json_fuel (snd kv))) l <= fuel)%nat ->
  parse_members fuel d
    (join "," ((fun kv => json_string (fst kv) +:+ ":" +:+ json_print (snd kv)) <$> l) +:+ "}" +:+ rest) = Some (l, rest).
Proof.
  intros F. revert fuel. induction F as [|[key j] l [V H] F IH]; [done|]. intros fuel _ L. cbn [sum_list_with fst snd] in *.
  destruct fuel as [|fuel]; [lia|].
  set (tail := match l with [] => "}" +:+ rest | _ => "," +:+ join "," ((fun kv => json_string (fst kv) +:+ ":" +:+ json_print (snd kv)) <$> l) +:+ "}" +:+ rest end).
  assert (join "," ((fun kv => json_string (fst kv) +:+ ":" +:+ json_print (snd kv)) <$> (key, j) :: l) +:+ "}" +:+ rest =
    json_string key +:+ String ":" (json_print j +:+ tail)) as ->.
  { subst tail. destruct l; cbn [fmap list_fmap join fst snd]; rewrite !append_assoc !append_cons; done. }
  destruct (parse_json_string key (String ":" (json_print j +:+ tail)) V) as (t & -> & P). cbn [parse_members].
  rewrite skip_space_id // /cut_prefix has_prefix_cons has_prefix_nil bool_decide_eq_true_2 //. cbn [andb mbind option_bind sdrop String.length].
  rewrite P. cbn [mbind option_bind]. rewrite skip_space_id // has_prefix_cons has_prefix_nil bool_decide_eq_true_2 //.
  cbn [andb mbind option_bind sdrop]. rewrite H; [|lia|by subst tail; destruct l]. cbn [mbind option_bind]. subst tail.
  destruct l as [|kv l]; [done|]. rewrite append_cons append_nil_l.
  change (skip_space (String "," ?x)) with (String "," x). cbv iota. rewrite IH; [done|done|simpl in *; lia].
Qed.

Lemma literal_read text j rest : literal text j (text +:+ rest) = Some (j, rest).
Proof. unfold literal. by rewrite (proj2 (cut_prefix_spec _ _ _) eq_refl). Qed.

Lemma parse_value_printed j : forall d fuel rest, json_ok d j -> (json_fuel j <= fuel)%nat -> stops rest = true ->
  parse_value fuel d (json_print j +:+ rest) = Some (j, rest).
Proof.
  induction j as [|b|t|s|l IH|l IH] using json_induction; intros d fuel rest O L St;
    (destruct fuel as [|fuel]; [cbn [json_fuel] in L; lia|]); cbn [json_print].
  - exact (literal_read "ull" JNull rest).
  - destruct b; [exact (literal_read "rue" (JBool true) rest)|exact (literal_read "alse" (JBool false) rest)].
  - assert (number_text t) as N by by destruct d. destruct N as [(c & u & -> & H) N]. cbn [parse_value].
    apply head_not_special in H as (S & Q & B & C & T & F & Nl & _). rewrite append_cons skip_space_id //.
    rewrite !bool_decide_eq_false_2 //. rewrite -append_cons N //.
  - assert (utf8_valid s = true) as V by by destruct d. destruct (parse_json_string s rest V) as (t & -> & P).
    cbn [parse_value]. rewrite skip_space_id // bool_decide_eq_true_2 //. by rewrite P.
  - destruct d as [|d]; [done|]. cbn [json_ok] in O. rewrite !append_cons append_nil_l append_assoc.
    cbn [parse_value]. rewrite skip_space_id //. change (bool_decide ("["%char = quote)) with false.
    change (bool_decide ("["%char = "["%char)) with true. cbv iota. destruct l as [|j l].
    { change (skip_space (join "," (json_print <$> []) +:+ "]" +:+ rest)) with ("]" +:+ rest).
      by rewrite (proj2 (cut_prefix_spec _ _ _) eq_refl). }
    assert (cut_prefix (skip_space (join "," (json_print <$> j :: l) +:+ "]" +:+ rest)) "]" = None) as ->.
    { inversion O as [|? ? Oj _]; subst. cbn [fmap list_fmap]. destruct (json_print <$> l); cbn [join]; rewrite ?append_assoc;
        match goal with |- context [skip_space (json_print j +:+ ?x)] => by destruct (skip_printed d j x Oj) as [-> ->] end. }
    rewrite parse_elements_printed //; [|cbn [json_fuel] in L; lia].
    rewrite -> Forall_forall in *. intros k Hk. split; [by apply O|]. intros f r Lf Sr. apply IH; auto.
  - destruct d as [|d]; [done|]. cbn [json_ok] in O. rewrite !append_cons append_nil_l append_assoc.
    cbn [parse_value]. rewrite skip_space_id //. change (bool_decide ("{"%char = quote)) with false.
    change (bool_decide ("{"%char = "["%char)) with false. change (bool_decide ("{"%char = "{"%char)) with true. cbv iota.
    destruct l as [|[key j] l].
    { change (skip_space (join "," ((fun kv => json_string (fst kv) +:+ ":" +:+ json_print (snd kv)) <$> []) +:+ "}" +:+ rest)) with ("}" +:+ rest).
      by rewrite (proj2 (cut_prefix_spec _ _ _) eq_refl). }
    set (text := join _ _ +:+ _). assert (cut_prefix (skip_space text) "}" = None) as ->.
    { subst text. cbn [fmap list_fmap fst snd]. unfold json_string at 1.
      destruct (_ <$> l); cbn [join]; rewrite !append_cons skip_space_id //. }
    subst text. rewrite parse_members_printed //; [|cbn [json_fuel] in L; lia].
    rewrite -> Forall_forall in *. intros k Hk. split; [by apply O|]. intros f r Lf Sr. apply IH; [done|by apply O|done|done].
Qed.

Lemma join_length l : (sum_list_with String.length l + pred (length l) = String.length (join "," l))%nat.
Proof.
  induction l as [|s l IH]; [done|]. destruct l as [|t l]; [simpl; lia|].
  change (join "," (s :: t :: l)) with (s +:+ "," +:+ join "," (t :: l)). rewrite !length_append -IH. simpl. lia.
Qed.

(** Two calls per byte are enough. *)
Lemma json_fuel_enough j : forall d, json_ok d j -> (json_fuel j <= 2 * String.length (json_print j))%nat.
Proof.
  assert (forall {A} (f : A -> nat) (g : A -> string) (l : list A), Forall (fun x => (f x <= 2 * String.length (g x))%nat) l ->
    (sum_list_with (fun x => S (f x)) l <= 2 * sum_list_with String.length (g <$> l) + length l)%nat) as S.
  { intros A f g l F. induction F as [|x l H F IH]; [done|]. cbn [fmap list_fmap sum_list_with length] in *. lia. }
  induction j as [|b|t|s|l IH|l IH] using json_induction; intros d O; cbn [json_fuel json_print].
  - simpl. lia.
  - destruct b; simpl; lia.
  - assert (number_text t) as [(c & u & -> & _) _] by by destruct d. simpl. lia.
  - unfold json_string. simpl. lia.
  - destruct d as [|d]; [done|]. cbn [json_ok] in O. rewrite !length_append -join_length.
    assert (Forall (fun j => (json_fuel j <= 2 * String.length (json_print j))%nat) l) as F.
    { rewrite -> Forall_forall in *. intros j Hj. eapply IH; [done|by apply O]. }
    apply (S _ json_fuel json_print) in F. rewrite length_fmap. destruct l; simpl in *; lia.
  - destruct d as [|d]; [done|]. cbn [json_ok] in O. rewrite !length_append -join_length.
    set (g := fun kv : string * json => json_string (fst kv) +:+ ":" +:+ json_print (snd kv)).
    assert (Forall (fun kv => (json_fuel (snd kv) <= 2 * String.length (g kv))%nat) l) as F.
    { rewrite -> Forall_forall in *. intros kv Hk. specialize (IH kv Hk d ltac:(by apply O)). unfold g. rewrite !length_append. lia. }
    apply (S _ (fun kv => json_fuel (snd kv)) g) in F. rewrite length_fmap. destruct l; simpl in *; lia.
Qed.

(** A printed value is read back, alone or before more text. *)
Lemma json_parse_printed j : json_ok maxNestingDepth j -> json_parse (json_print j) = Some j.
Proof.
  intros O. unfold json_parse, json_decode. rewrite -{2}(append_nil_r (json_print j)) parse_value_printed //.
  pose proof (json_fuel_enough j _ O). lia.
Qed.

(** *** Numbers *)

Lemma digit_run_all s rest : sforall is_digit s = true -> stops rest = true -> digit_run (s +:+ rest) = (s, rest).
Proof.
  intros D St. induction s as [|c s IH].
  - destruct rest as [|c r]; [done|]. rewrite append_nil_l. cbn [digit_run stops] in *.
    destruct (is_digit c) eqn:Dc; [|done]. exfalso. cbn [in_chars] in St. rewrite !orb_true_iff !bool_decide_eq_true in St.
    destruct St as [->|[->|[->|?]]]; by vm_compute in Dc.
  - cbn [sforall] in D. apply andb_true_iff in D as [Dc D]. rewrite append_cons. cbn [digit_run]. by rewrite Dc IH.
Qed.

Lemma number_stops rest : stops rest = true -> parse_fraction rest = Some ("", rest) /\ parse_exponent rest = Some ("", rest).
Proof.
  destruct rest as [|c r]; [done|]. cbn [stops in_chars]. rewrite !orb_true_iff !bool_decide_eq_true.
  by intros [->|[->|[->|?]]].
Qed.

(** Decimal numbers have no leading zero. *)
Lemma format_uint_zero n u : format_uint n = String "0" u -> u = "".
Proof.
  unfold format_uint. pose proof (DecimalN.Unsigned.to_of (N.to_uint (Z.to_N n))) as E.
  rewrite DecimalN.Unsigned.of_to in E. destruct (N.to_uint (Z.to_N n)) as [|d|d|d|d|d|d|d|d|d|d]; [done| |done..].
  intros [= <-]. unfold Decimal.unorm in E. cbn [Decimal.nzhead] in E.
  destruct (Decimal.nzhead d) eqn:Z; [by injection E as ->| |done..]. by apply DecimalFacts.nzhead_nonzero in Z.
Qed.

Lemma parse_integer_printed n rest : stops rest = true -> parse_integer (format_uint n +:+ rest) = Some (format_uint n, rest).
Proof.
  intros St. pose proof (format_uint_nonempty n) as N. pose proof (digit_run_all _ _ (format_uint_digits n) St) as R.
  pose proof (format_uint_zero n) as Z0. unfold parse_integer. destruct (format_uint n) as [|c u]; [done|].
  destruct (decide (c = "0"%char)) as [->|N0].
  - rewrite (Z0 u eq_refl). by rewrite (proj2 (cut_prefix_spec _ _ _) eq_refl).
  - rewrite R /cut_prefix append_cons has_prefix_cons bool_decide_eq_false_2; [done|by apply not_eq_sym].
Qed.

Lemma number_printed sign n rest : stops rest = true ->
  parse_sign (sign +:+ format_uint n +:+ rest) = (sign, format_uint n +:+ rest) ->
  parse_number (sign +:+ format_uint n +:+ rest) = Some (sign +:+ format_uint n, rest).
Proof.
  intros St S. unfold parse_number. rewrite S parse_integer_printed //. cbn [mbind option_bind].
  destruct (number_stops rest St) as [-> E]. cbn [mbind option_bind]. rewrite E. cbn [mbind option_bind].
  by rewrite !append_nil_r.
Qed.

Lemma itoa_number z : number_text (itoa z).
Proof.
  unfold itoa. destruct (z <? 0).
  - split; [rewrite append_cons; by eexists _, _|]. intros rest St. rewrite append_assoc. apply number_printed; [done|].
    unfold parse_sign. by rewrite (proj2 (cut_prefix_spec _ _ _) eq_refl).
  - pose proof (format_uint_nonempty z) as N. pose proof (format_uint_digits z) as F.
    destruct (format_uint z) as [|c u] eqn:E; [done|]. cbn [sforall] in F. apply andb_true_iff in F as [F _].
    split; [exists c, u; by rewrite F|]. intros rest St. rewrite -E. apply (number_printed "" z rest St).
    rewrite append_nil_l. unfold parse_sign, cut_prefix. rewrite E append_cons has_prefix_cons bool_decide_eq_false_2 //.
    intros <-. by vm_compute in F.
Qed.

(** ** Struct fields *)

(** [foldName]: letters in upper case; the long s and the Kelvin sign count as
    letters. *)
Fixpoint fold_name (s : string) : string :=
  match s with
  | EmptyString => ""
  | String a t =>
      match t with
      | String b u =>
          if bool_decide (code a = 197 /\ code b = 191) then String "S" (fold_name u)
          else match u with
               | String c v => if bool_decide (code a = 226 /\ code b = 132 /\ code c = 170) then String "K" (fold_name v)
                               else String (upper a) (fold_name t)
               | EmptyString => String (upper a) (fold_name t)
               end
      | EmptyString => String (upper a) ""
      end
  end.

(** Whether a member goes to the field of this name. *)
Definition field_is (name key : string) : bool := bool_decide (key = name) || bool_decide (fold_name key = fold_name name).

Example field_is_examples :
  field_is "host" "HOST" = true /\ field_is "host" ("ho" +:+ encode_rune 383 +:+ "t") = true /\ field_is "host" "hosts" = false.
Proof. by vm_compute. Qed.

(** Assignments of a member to a field: [None] is an error, a null leaves the field
    as it is. *)
Definition json_set_bool (j : json) (old : bool) : option bool :=
  match j with JBool b => Some b | JNull => Some old | _ => None end.
Definition json_set_string (j : json) (old : string) : option string :=
  match j with JString s => Some s | JNull => Some old | _ => None end.
Definition json_set_int (j : json) (old : Z) : option Z :=
  match j with JNumber t => parse_int t | JNull => Some old | _ => None end.
(** [[]byte]: base64, or an array of numbers. *)
Definition json_byte (j : json) : option Z :=
  match j with
  | JNumber t => n ← parse_uint t; if n <? 256 then Some n else None
  | JNull => Some 0
  | _ => None
  end.
Definition json_bytes (j : json) : option string :=
  match j with
  | JString s => string_of <$> b64_decode s
  | JArray l => string_of <$> mapM json_byte l
  | JNull => Some ""
  | _ => None
  end.

(** Members into a struct of type [A], in order; [set] assigns one of them. *)
Definition json_fields {A : Type} (set : A -> string -> json -> option A) (l : list (string * json)) (a : A) : option A :=
  foldl (fun a kv => a ← a; set a (fst kv) (snd kv)) (Some a) l.
Definition json_struct {A : Type} (set : A -> string -> json -> option A) (a : A) (j : json) : option A :=
  match j with
  | JObject l => json_fields set l a
  | JNull => Some a
  | _ => None
  end.

Lemma json_fields_app {A : Type} (set : A -> string -> json -> option A) l1 l2 a :
  json_fields set (l1 ++ l2) a = a' ← json_fields set l1 a; json_fields set l2 a'.
Proof.
  unfold json_fields. rewrite foldl_app. destruct (foldl _ (Some a) l1); [done|]. cbn [mbind option_bind].
  induction l2 as [|kv l2 IH]; [done|]. exact IH.
Qed.

(** A slice of structs: the elements the field already has are assigned to, as
    [Unmarshal] does when a member is given twice.  (What is left behind the end of a
    slice that became shorter in between is not modelled.) *)
Fixpoint json_elements {A : Type} (set : A -> json -> option A) (zero : A) (l : list json) (old : list A) : option (list A) :=
  match l with
  | [] => Some []
  | j :: l => a ← set (default zero (head old)) j; rest ← json_elements set zero l (tail old); Some (a :: rest)
  end.
Definition json_slice {A : Type} (set : A -> json -> option A) (zero : A) (j : json) (old : list A) : option (list A) :=
  match j with
  | JArray l => json_elements set zero l old
  | JNull => Some []
  | _ => None
  end.

(** [[]string]; a null element of a fresh slice is the empty string. *)
Definition json_set_list (j : json) (old : list string) : option (list string) :=
  json_slice (fun s j => json_set_string j s) "" j old.

(** [map[string]string]: members are added, null values are empty. *)
Definition json_set_strings (j : json) (old : gmap string string) : option (gmap string string) :=
  match j with
  | JObject l => foldl (fun m kv => m ← m; v ← json_set_string (snd kv) ""; Some (<[fst kv := v]> m)) (Some old) l
  | JNull => Some ∅
  | _ => None
  end.
(** ... and written: the members in the order of their keys. *)
Definition json_string_map (m : gmap string string) : json :=
  JObject ((fun k => (k, JString (default "" (m !! k)))) <$> merge_sort str_le (elements (dom m))).

(** ** Numbers as [float64] *)

#[export] Instance spec_float_eq_dec : EqDecision spec_float.
Proof. solve_decision. Defined.

(** [ParseFloat] on the text of a JSON number: the nearest double, ties to even;
    [None] when it is out of range.  The two bounds on the position of the decimal
    point are those of [strconv].  (Exponents are read exactly, where [strconv] stops
    counting at 10,000.) *)
Definition exponent_value (s : string) : Z :=
  match parse_exponent s with
  | Some (text, _) => default 0 (parse_int (sdrop 1 text))
  | None => 0
  end.
(** The double nearest to [m * 10 ^ e]. *)
Definition decimal_float (neg : bool) (m : positive) (e : Z) : spec_float :=
  if 0 <=? e then binary_normalize 53 1024 ((if neg then -1 else 1) * (Zpos m * 10 ^ e)) 0 neg
  else SFdiv 53 1024 (S754_finite neg m 0) (S754_finite false (Z.to_pos (10 ^ (- e))) 0).
Definition parse_float (t : string) : option spec_float :=
  let '(sign, s) := parse_sign t in
  let neg := bool_decide (sign = "-") in
  let '(int, s) := digit_run s in
  let '(fraction, s) := match cut_prefix s "." with Some s => digit_run s | None => ("", s) end in
  let digits := trim_left (fun c => bool_decide (c = "0"%char)) (int +:+ fraction) in
  let e := exponent_value s - go_len fraction in
  match parse_digits digits with
  | Some (Zpos m) =>
      let dp := go_len digits + e in
      if 310 <? dp then None
      else if dp <? -330 then Some (S754_zero neg)
      else match decimal_float neg m e with S754_infinity _ => None | f => Some f end
  | _ => Some (S754_zero neg)
  end.

Example parse_float_examples :
  parse_float "0.1" = Some (S754_finite false 7205759403792794 (-56)) /\
  parse_float "-25e-1" = Some (S754_finite true 5629499534213120 (-51)) /\
  parse_float "9007199254740993" = Some (S754_finite false 4503599627370496 1) /\
  parse_float "-0.0" = Some (S754_zero true) /\ parse_float "1.7976931348623158e308" =
    Some (S754_finite false 9007199254740991 971) /\
  parse_float "1.7976931348623159e308" = None /\ parse_float "1e-400" = Some (S754_zero false) /\
  parse_float "5E-324" = Some (S754_finite false 1 (-1074)) /\ parse_float "2e-324" = Some (S754_zero false).
Proof. by vm_compute. Qed.

(** How [Marshal] writes a double: the fewest digits that are read back as it, the
    nearest of them if there are two, in plain notation between 1e-6 and 1e21.

    [num / den] is the magnitude, [dp] the position of the decimal point: the
    magnitude is at least a tenth of [10 ^ dp] and below it. *)
Definition float_fraction (m : positive) (e : Z) : Z * Z := (Zpos m * 2 ^ Z.max 0 e, 2 ^ Z.max 0 (- e)).
Definition decimal_point (num den : Z) : Z := go_len (format_uint (num * 10 ^ 400 / den)) - 400.

(** The first [n] digits of the magnitude: rounded down, up, or as is nearer. *)
Definition shortest_at (f : spec_float) (num den dp n : Z) : option Z :=
  let den' := den * 10 ^ Z.max 0 (dp - n) in
  let num' := num * 10 ^ Z.max 0 (n - dp) in
  let lo := num' / den' in
  let reads z := bool_decide (decimal_float false (Z.to_pos z) (dp - n) = f) in
  let twice := 2 * (num' mod den') in
  let up := (den' <? twice) || ((twice =? den') && Z.odd lo) in
  if reads lo && reads (lo + 1) then Some (if up then lo + 1 else lo)
  else if reads lo then Some lo else if reads (lo + 1) then Some (lo + 1) else None.
Fixpoint shortest_from (fuel : nat) (f : spec_float) (num den dp n : Z) : Z * Z :=
  match fuel with
  | O => (num * 10 ^ Z.max 0 (n - dp) / (den * 10 ^ Z.max 0 (dp - n)), n)
  | S fuel => match shortest_at f num den dp n with
              | Some d => (d, n)
              | None => shortest_from fuel f num den dp (n + 1)
              end
  end.

Definition is_zero (c : ascii) : bool := bool_decide (c = "0"%char).
Definition zeros (n : Z) : string := string_of (repeat 48 (Z.to_nat n)).
Definition dotted (int fraction : string) : string := if bool_decide (fraction = "") then int else int +:+ "." +:+ fraction.
(** [0.digits * 10 ^ dp] in plain and in scientific notation. *)
Definition plain_decimal (digits : string) (dp : Z) : string :=
  let k := Z.to_nat dp in
  dotted (if dp <=? 0 then "0" else stake k digits +:+ zeros (dp - go_len digits))
    (if dp <=? 0 then zeros (- dp) +:+ digits else sdrop k digits).
Definition scientific (digits : string) (dp : Z) : string :=
  dotted (stake 1 digits) (sdrop 1 digits) +:+ "e" +:+ (if 0 <? dp then "+" else "-") +:+ format_uint (Z.abs (dp - 1)).

Definition format_float (f : spec_float) : option string :=
  match f with
  | S754_zero neg => Some (if neg then "-0" else "0")
  | S754_finite neg m e =>
      let '(num, den) := float_fraction m e in
      let dp := decimal_point num den in
      let '(d, n) := shortest_from 17 (S754_finite false m e) num den dp 1 in
      let text := format_uint d in
      let dp := dp + (go_len text - n) in
      let digits := trim_right is_zero text in
      let abs := S754_finite false m e in
      let t := if SFltb abs (decimal_float false 1 (-6)) || negb (SFltb abs (decimal_float false 1 21))
               then scientific digits dp else plain_decimal digits dp in
      Some (if neg then "-" +:+ t else t)
  | _ => None
  end.

Definition rewritten (t : string) : option string := parse_float t ≫= format_float.
Example format_float_examples :
  rewritten "0.1" = Some "0.1" /\ rewritten "1e3" = Some "1000" /\ rewritten "-2.50" = Some "-2.5" /\
  rewritten "123456789012345678901" = Some "123456789012345680000" /\ rewritten "1e21" = Some "1e+21" /\
  rewritten "0.000001" = Some "0.000001" /\ rewritten "0.00000012" = Some "1.2e-7" /\
  rewritten "5e-324" = Some "5e-324" /\ rewritten "1.7976931348623157e308" = Some "1.7976931348623157e+308" /\
  rewritten "9.5e-14" = Some "9.5e-14" /\ rewritten "9007199254740993" = Some "9007199254740992" /\
  rewritten "5.684341886080801486968994140625e-14" = Some "5.684341886080802e-14" /\
  rewritten "0.3333333333333333333" = Some "0.3333333333333333" /\ rewritten "-0" = Some "-0".
Proof. by vm_compute. Qed.
