(* ===== verification/Message.v ===== *)
(** * Wire messages, identifiers and log values

    Models [common/common.go] (the [key||type||body] envelope every proxy and
    backend connection exchanges), [common/random_id.go] (message keys and
    session identifiers) and [internal/logsafe/value.go]. *)

From S2P Require Import Prelude GoString.

(** ** [common/common.go] *)

Definition MessageSeparator : string := "||".
Definition MaxWireMessageBytes : Z := Z.shiftl 16 20.
Definition maxMessageKeyBytes : Z := 256.

(** [type MessageType string] and its three constants. *)
Definition MessageType := string.
Definition Connect : MessageType := "0".
Definition Body : MessageType := "1".
Definition Close : MessageType := "2".

Record Message := mkMessage { Key : string; Type_ : MessageType; Body_ : string }.

#[export] Instance Message_eq_dec : EqDecision Message.
Proof. solve_decision. Defined.

Inductive parse_error :=
| MessageTooLong
| InvalidEnvelope
| InvalidType.

#[export] Instance parse_error_eq_dec : EqDecision parse_error.
Proof. solve_decision. Defined.

(** [fmt.Sprintf("%s||%s||%s", msgKey, messageType, body)] *)
Definition FormatMessage (msgKey : string) (messageType : MessageType) (body : string) : string :=
  msgKey +:+ "||" +:+ messageType +:+ "||" +:+ body.

Definition ParseMessageSafe (rawMessage : string) : result parse_error Message :=
  if MaxWireMessageBytes <? go_len rawMessage then Err MessageTooLong
  else match split_n rawMessage MessageSeparator 3 with
       | [key; typ; body] =>
           if (go_len key =? 0) || (maxMessageKeyBytes <? go_len key) then Err InvalidEnvelope
           else if bool_decide (typ <> Connect) && bool_decide (typ <> Body)
                   && bool_decide (typ <> Close) then Err InvalidType
           else Ok (mkMessage key typ body)
       | _ => Err InvalidEnvelope
       end.

(** The historical one-result API: the zero [Message] on malformed input. *)
Definition ParseMessage (rawMessage : string) : Message :=
  match ParseMessageSafe rawMessage with
  | Ok m => m
  | Err _ => mkMessage "" "" ""
  end.

(** ** [common/random_id.go] *)

(** The sixteen bytes [rand.Read] returned; [None] is its error, on which the
    function panics. *)
Definition NewRandomUUID (read : option (list Z)) : option string :=
  match read with
  | None => None
  | Some value =>
      let value := alter (fun b => Z.lor (Z.land b 0x0f) 0x40) 6%nat value in
      let value := alter (fun b => Z.lor (Z.land b 0x3f) 0x80) 8%nat value in
      Some (hex (take 4 value) +:+ "-" +:+ hex (take 2 (drop 4 value)) +:+ "-" +:+
            hex (take 2 (drop 6 value)) +:+ "-" +:+ hex (take 2 (drop 8 value)) +:+ "-" +:+
            hex (take 6 (drop 10 value)))
  end.

(** Sixteen bytes, as an array of [byte]. *)
Definition byte_array (n : nat) (l : list Z) : Prop :=
  length l = n /\ Forall (fun b => 0 <= b < 256) l.

(** [^[0-9a-f]{8}-[0-9a-f]{4}-4[0-9a-f]{3}-[89ab][0-9a-f]{3}-[0-9a-f]{12}$] *)
Definition is_89ab (c : ascii) : bool :=
  bool_decide (c = "8"%char) || bool_decide (c = "9"%char)
  || bool_decide (c = "a"%char) || bool_decide (c = "b"%char).

Definition uuid_v4_classes : list (ascii -> bool) :=
  let dash := lit "-" in
  replicate 8 is_hex ++ [dash] ++ replicate 4 is_hex ++ [dash] ++
  [lit "4"] ++ replicate 3 is_hex ++ [dash] ++
  [is_89ab] ++ replicate 3 is_hex ++ [dash] ++ replicate 12 is_hex.

Definition uuid_v4 (s : string) : bool := match_classes uuid_v4_classes s.

(** ** [internal/logsafe/value.go] *)

Definition cr : string := String (chr 13) "".
Definition lf : string := String (chr 10) "".

(** [Value] after [fmt.Sprint]. *)
Definition Value (text : string) : string :=
  replace_all (replace_all text cr "") lf " ".

(** ** Lemmas *)

(** A key the envelope can carry: bounded, and with no separator starting
    inside it. *)
Definition wire_key (k : string) : Prop :=
  1 <= go_len k <= maxMessageKeyBytes /\ cut "||" (k +:+ "|") = None.

Definition wire_type (t : MessageType) : Prop := t = Connect \/ t = Body \/ t = Close.

Lemma has_prefix_bars_append c k (t : string) :
  has_prefix (String c (k +:+ "||" +:+ t)) "||" = has_prefix (String c (k +:+ "|")) "||".
Proof.
  rewrite !has_prefix_cons. destruct k as [|d k]; [done|].
  by rewrite !append_cons !has_prefix_cons !has_prefix_nil.
Qed.

Lemma cut_bars_intro (k t : string) :
  cut "||" (k +:+ "|") = None -> cut "||" (k +:+ "||" +:+ t) = Some (k, t).
Proof.
  induction k as [|c k IH]; intros H; [apply (cut_here "||")|].
  rewrite append_cons cut_cons in H. rewrite append_cons cut_cons has_prefix_bars_append.
  destruct (has_prefix _ _); [done|].
  destruct (cut "||" (k +:+ "|")) as [[]|]; [done|]. by rewrite IH.
Qed.

Lemma cut_bars_elim (s k t : string) :
  cut "||" s = Some (k, t) -> cut "||" (k +:+ "|") = None.
Proof.
  revert k. induction s as [|c s IH]; intros k H; [done|].
  rewrite cut_cons in H. destruct (has_prefix _ _) eqn:E; [by injection H as <- <-|].
  destruct (cut "||" s) as [[k' t']|] eqn:C; [|done].
  injection H as <- ->. rewrite append_cons cut_cons (IH k' eq_refl).
  apply cut_sound in C as ->. by rewrite has_prefix_bars_append in E; rewrite E.
Qed.

Lemma split_envelope (k t b : string) :
  cut "||" (k +:+ "|") = None -> wire_type t ->
  split_n (FormatMessage k t b) MessageSeparator 3 = [k; t; b].
Proof.
  intros Hk Ht. unfold split_n, FormatMessage, MessageSeparator. cbn [pred cuts].
  rewrite cut_bars_intro //. destruct Ht as [->|[->| ->]];
    unfold Connect, Body, Close; by rewrite cut_skip.
Qed.

Lemma envelope_split (s k t b : string) :
  split_n s MessageSeparator 3 = [k; t; b] ->
  s = FormatMessage k t b /\ cut "||" (k +:+ "|") = None.
Proof.
  unfold split_n, MessageSeparator. cbn [pred cuts]. intros H.
  destruct (cut "||" s) as [[k' r]|] eqn:C1; [|done].
  destruct (cut "||" r) as [[t' b']|] eqn:C2; [|done].
  injection H as <- <- <-. split; [|by eapply cut_bars_elim].
  apply cut_sound in C1 as ->. by apply cut_sound in C2 as ->.
Qed.

Lemma parse_Ok_format (s : string) (m : Message) :
  ParseMessageSafe s = Ok m ->
  s = FormatMessage (Key m) (Type_ m) (Body_ m) /\ go_len s <= MaxWireMessageBytes /\
  wire_key (Key m) /\ wire_type (Type_ m).
Proof.
  unfold ParseMessageSafe. destruct (_ <? _) eqn:L; [done|].
  destruct (split_n s MessageSeparator 3) as [|k [|t [|b [|]]]] eqn:S; try done.
  destruct (_ || _) eqn:K; [done|]. destruct (_ && _) eqn:T; [done|].
  intros [= <-]. simpl. apply envelope_split in S as [-> C].
  bool_to_prop. pose proof (go_len_nonneg k). split_and!; try done.
  { split; [lia|done]. }
  unfold wire_type. destruct T as [T|T]; [apply andb_false_iff in T as [T|T]|];
    apply bool_decide_eq_false, dec_stable in T; auto.
Qed.

Lemma format_parse (k : string) (t : MessageType) (b : string) :
  wire_key k -> wire_type t -> go_len (FormatMessage k t b) <= MaxWireMessageBytes ->
  ParseMessageSafe (FormatMessage k t b) = Ok (mkMessage k t b).
Proof.
  intros [Hk C] T L. unfold ParseMessageSafe.
  rewrite (proj2 (Z.ltb_ge _ _) L) split_envelope //.
  destruct (_ || _) eqn:E.
  { apply orb_true_iff in E as [E|E]; bool_to_prop; lia. }
  destruct (_ && _) eqn:F; [|done]. bool_to_prop. by destruct T as [?|[?|?]].
Qed.

(** *** Identifiers *)

Lemma byte_hex_facts b : 0 <= b < 256 ->
  is_hex (hex_digit (Z.shiftr b 4)) = true /\ is_hex (hex_digit (Z.land b 15)) = true.
Proof.
  intros H. apply andb_true_iff.
  apply (byte_enum (fun b => is_hex (hex_digit (Z.shiftr b 4)) && is_hex (hex_digit (Z.land b 15))));
    [by vm_compute|done].
Qed.

Lemma version_byte_facts b : 0 <= b < 256 ->
  let v := Z.lor (Z.land b 0x0f) 0x40 in
  lit "4" (hex_digit (Z.shiftr v 4)) = true /\ is_hex (hex_digit (Z.land v 15)) = true.
Proof.
  intros H. apply andb_true_iff.
  apply (byte_enum (fun b => lit "4" (hex_digit (Z.shiftr (Z.lor (Z.land b 0x0f) 0x40) 4)) &&
    is_hex (hex_digit (Z.land (Z.lor (Z.land b 0x0f) 0x40) 15)))); [by vm_compute|done].
Qed.

Lemma variant_byte_facts b : 0 <= b < 256 ->
  let v := Z.lor (Z.land b 0x3f) 0x80 in
  is_89ab (hex_digit (Z.shiftr v 4)) = true /\ is_hex (hex_digit (Z.land v 15)) = true.
Proof.
  intros H. apply andb_true_iff.
  apply (byte_enum (fun b => is_89ab (hex_digit (Z.shiftr (Z.lor (Z.land b 0x3f) 0x80) 4)) &&
    is_hex (hex_digit (Z.land (Z.lor (Z.land b 0x3f) 0x80) 15)))); [by vm_compute|done].
Qed.

Lemma NewRandomUUID_v4 value :
  byte_array 16 value -> exists s, NewRandomUUID (Some value) = Some s /\ uuid_v4 s = true.
Proof.
  intros [L F]. do 16 (destruct value as [|? value]; [done|]). destruct value; [|done].
  repeat match goal with H : Forall _ (_ :: _) |- _ => apply Forall_cons in H as [? H] end.
  eexists; split; [reflexivity|].
  cbn -[is_hex hex_digit Z.land Z.lor Z.shiftr is_89ab lit]. cbv [hex_byte String.append].
  repeat match goal with
  | |- context [hex_digit (Z.shiftr (Z.lor (Z.land ?b 15) 64) 4)] =>
      destruct (version_byte_facts b) as [-> ->]; [done|]
  | |- context [hex_digit (Z.shiftr (Z.lor (Z.land ?b 63) 128) 4)] =>
      destruct (variant_byte_facts b) as [-> ->]; [done|]
  | |- context [is_hex (hex_digit (Z.shiftr ?b 4))] =>
      destruct (byte_hex_facts b) as [-> ->]; [done|]
  end.
  done.
Qed.

Definition uuid_char (c : ascii) : bool := is_hex c || bool_decide (c = "-"%char).

Lemma uuid_v4_chars s : uuid_v4 s = true -> sforall uuid_char s = true.
Proof.
  apply match_classes_sforall. unfold uuid_v4_classes.
  repeat first [apply Forall_app; split | apply Forall_replicate | apply Forall_singleton
               | apply Forall_cons; split | apply Forall_nil_2];
    intros c H; unfold uuid_char; try by rewrite H.
  all: try (apply bool_decide_eq_true in H; subst c; done).
  unfold is_89ab in H. bool_to_prop. repeat (destruct H as [H|H]); bool_to_prop;
    repeat match goal with H : _ \/ _ |- _ => destruct H; bool_to_prop end; by subst c.
Qed.

Lemma match_classes_length ps s : match_classes ps s = true -> String.length s = length ps.
Proof.
  revert s. induction ps as [|p ps IH]; intros [|c s]; simpl; try done.
  intros [_ H]%andb_true_iff. by rewrite (IH s H).
Qed.

Lemma no_bar_cut (k : string) :
  sforall (fun c => negb (bool_decide (c = "|"%char))) k = true -> cut "||" (k +:+ "|") = None.
Proof.
  induction k as [|c k IH]; [done|]. intros [Hc Hk]%andb_true_iff.
  rewrite append_cons cut_cons has_prefix_cons (IH Hk).
  rewrite (bool_decide_eq_false_2 ("|"%char = c)) //.
  intros <-. by rewrite bool_decide_eq_true_2 in Hc.
Qed.

Lemma uuid_wire_key s : uuid_v4 s = true -> wire_key s.
Proof.
  intros H. split.
  - apply match_classes_length in H. unfold go_len. rewrite H. by vm_compute.
  - apply no_bar_cut. eapply sforall_impl; [|by apply uuid_v4_chars].
    intros c Hc. apply negb_true_iff, bool_decide_eq_false. by intros ->.
Qed.

(** *** Log values *)

Lemma replace_char_lacks x (s new : string) :
  lacks x new = true -> lacks x (replace_all s (String x "") new) = true.
Proof.
  intros H. unfold replace_all, lacks. rewrite sforall_join //.
  destruct (split_spec s (String x "")) as [_ F]; [done|].
  rewrite forallb_forall. intros p Hp%list_elem_of_In.
  apply cut_char_None. rewrite -> Forall_forall in F. by apply F.
Qed.

Lemma replace_char_keeps x y (s new : string) :
  x <> y -> lacks y new = true -> lacks y s = true ->
  lacks y (replace_all s (String x "") new) = true.
Proof.
  intros N Hn Hs. unfold replace_all, lacks in *. rewrite sforall_join //.
  rewrite -(proj1 (split_spec s (String x "") ltac:(done))) sforall_join in Hs; [done|].
  simpl. by rewrite bool_decide_eq_false_2.
Qed.

Lemma replace_absent x (s new : string) :
  lacks x s = true -> replace_all s (String x "") new = s.
Proof.
  intros H%cut_char_None. unfold replace_all, split.
  destruct (String.length s); simpl; [done|]. by rewrite H.
Qed.

Lemma Value_clean (text : string) : lacks (chr 13) (Value text) = true /\ lacks (chr 10) (Value text) = true.
Proof.
  unfold Value, cr, lf. split.
  - apply replace_char_keeps; [done|done|]. by apply replace_char_lacks.
  - by apply replace_char_lacks.
Qed.

(** ** Properties *)

(** C33: the parser and the printer of the wire envelope are inverse to each
    other on exactly the well-formed messages.  [ParseMessageSafe] accepts a
    text if and only if the text is [FormatMessage] of the message it returns,
    the text is within the 16 MiB bound, the key has 1 to 256 bytes with no
    separator starting in it and the type is one of the three known ones; every
    other text, whatever its bytes, is an error.  A separator inside the body
    is therefore preserved. *)
Theorem ParseMessageSafe_iff (s : string) (m : Message) :
  ParseMessageSafe s = Ok m <->
  s = FormatMessage (Key m) (Type_ m) (Body_ m) /\ go_len s <= MaxWireMessageBytes /\
  wire_key (Key m) /\ wire_type (Type_ m).
Proof.
  split; [apply parse_Ok_format|].
  destruct m as [k t b]; simpl. intros (-> & L & K & T). by apply format_parse.
Qed.

(** every identifier [NewRandomUUID] can return is an RFC 4122 version 4
    UUID of 36 bytes, whatever sixteen bytes the entropy source gives, and such
    an identifier is always a legal key of the wire envelope: a message sent
    under it parses back to the same key, type and body. *)
Theorem NewRandomUUID_message_key (value : list Z) (t : MessageType) (b : string) :
  byte_array 16 value -> wire_type t -> go_len b <= MaxWireMessageBytes - 41 ->
  exists k, NewRandomUUID (Some value) = Some k /\ uuid_v4 k = true /\
    ParseMessageSafe (FormatMessage k t b) = Ok (mkMessage k t b).
Proof.
  intros V T L. destruct (NewRandomUUID_v4 value V) as (k & E & U).
  exists k. split_and!; [done|done|]. apply format_parse; [by apply uuid_wire_key|done|].
  unfold FormatMessage. rewrite !go_len_append.
  apply match_classes_length in U.
  assert (go_len k = 36) as -> by (unfold go_len; rewrite U; by vm_compute).
  assert (go_len t = 1) as -> by (by destruct T as [->|[->| ->]]).
  change (go_len "||") with 2. lia.
Qed.

Lemma NewRandomUUID_message_key_witness :
  exists k, NewRandomUUID (Some (replicate 16 255)) = Some k /\ uuid_v4 k = true /\
    ParseMessageSafe (FormatMessage k Body "left||right") = Ok (mkMessage k Body "left||right").
Proof.
  apply (NewRandomUUID_message_key (replicate 16 255) Body "left||right").
  - split; [reflexivity|]. repeat constructor; lia.
  - right; left; reflexivity.
  - vm_compute. discriminate.
Defined.

(** a value rendered for the log never contains a carriage return or a line
    feed, so one log call writes one physical line; a value with neither byte
    is rendered unchanged. *)
Theorem Value_single_line (text : string) :
  (lacks (chr 13) (Value text) = true /\ lacks (chr 10) (Value text) = true) /\
  (lacks (chr 13) text = true -> lacks (chr 10) text = true -> Value text = text).
Proof.
  split; [apply Value_clean|]. intros R N. unfold Value, cr, lf.
  by rewrite (replace_absent (chr 13)) // replace_absent.
Qed.

Lemma Value_single_line_witness : Value "clean" = "clean".
Proof. apply (proj2 (Value_single_line "clean")); vm_compute; reflexivity. Defined.
