(* ===== verification/Multiplexer.v ===== *)
(** * The backend multiplexer and the backend proxy manager

    Models [proxy/multiplexer.go] and [proxy/backend_proxy_manager.go]: one
    [multiplexer] per backend WebSocket, a map from message keys to the
    unbuffered frontend channels, a bounded queue of frames towards the
    backend, and the manager that maps a host key to its current multiplexer.

    Objects shared between goroutines live in a store ([world]): multiplexers
    are referenced by pointer, so a replaced one that is no longer in the
    manager's map is still an object that its own goroutines shut down.  Closing
    a closed channel and sending on a closed channel are the Go run-time panics
    and set [panicked].

    Every function below is one Go function executed without interruption; the
    step relation [step] has one constructor per critical section, so that its
    runs are all the interleavings the locks allow. *)

From S2P Require Import Prelude GoString Message.
From Stdlib Require Import Relations.

(** ** Data *)

Inductive mux_error :=
| BackendClosed            (* backend connection is closed *)
| NotOwned                 (* client does not belong to the current backend connection *)
| MessageTooBig            (* backend message exceeds 16 MiB *)
| QueueTimeout             (* timed out queueing backend message *)
| NoBackend (key : string) (* No backend for key *)
| BackendAuditCapability   (* errBackendAuditCapability *)
| NilDereference.

#[export] Instance mux_error_eq_dec : EqDecision mux_error.
Proof. solve_decision. Defined.

(** A frontend channel: whether it is closed, and the messages its receiver has
    taken (the channel is unbuffered, so a send that completes is received). *)
Record gochan := mkChan {
  ch_owner : nat * string;
  ch_closed : bool;
  ch_received : list Message }.

(** How far [shutdown] has come: [sync.Once] lets one goroutine through. *)
Inductive shutdown_phase := Running | DoneClosed | Removed | Drained.

#[export] Instance shutdown_phase_eq_dec : EqDecision shutdown_phase.
Proof. solve_decision. Defined.

Record multiplexer := mkMux {
  keyTraceCapable : bool;
  backendToken : string;
  backendSessionID : string;
  backendKey : string;
  messagesToBackend : list string;      (* buffered channel of capacity 10 *)
  accepted : list string;               (* every frame ever queued, oldest first *)
  written : list string;                (* frames handed to the WebSocket, oldest first *)
  writerStopped : bool;                 (* the writing goroutine has returned *)
  frontendChans : gmap string nat;
  connectionClosed : bool;
  done_ : bool;                         (* the done channel is closed *)
  phase : shutdown_phase }.

Record world := mkWorld {
  heap : gmap nat multiplexer;
  multiplexers : gmap string nat;
  chans : gmap nat gochan;
  next_id : nat;
  panicked : bool }.

Definition queue_capacity : nat := 10.

(** *** Record updates *)

Definition push_frame (frame : string) (m : multiplexer) : multiplexer :=
  mkMux (keyTraceCapable m) (backendToken m) (backendSessionID m) (backendKey m)
        (messagesToBackend m ++ [frame]) (accepted m ++ [frame]) (written m) (writerStopped m)
        (frontendChans m) (connectionClosed m) (done_ m) (phase m).
Definition pop_written (frame : string) (rest : list string) (m : multiplexer) : multiplexer :=
  mkMux (keyTraceCapable m) (backendToken m) (backendSessionID m) (backendKey m)
        rest (accepted m) (written m ++ [frame]) (writerStopped m)
        (frontendChans m) (connectionClosed m) (done_ m) (phase m).
Definition pop_lost (rest : list string) (m : multiplexer) : multiplexer :=
  mkMux (keyTraceCapable m) (backendToken m) (backendSessionID m) (backendKey m)
        rest (accepted m) (written m) true
        (frontendChans m) (connectionClosed m) (done_ m) (phase m).
Definition stop_writer (m : multiplexer) : multiplexer :=
  mkMux (keyTraceCapable m) (backendToken m) (backendSessionID m) (backendKey m)
        (messagesToBackend m) (accepted m) (written m) true
        (frontendChans m) (connectionClosed m) (done_ m) (phase m).
Definition set_frontends (f : gmap string nat) (m : multiplexer) : multiplexer :=
  mkMux (keyTraceCapable m) (backendToken m) (backendSessionID m) (backendKey m)
        (messagesToBackend m) (accepted m) (written m) (writerStopped m)
        f (connectionClosed m) (done_ m) (phase m).
Definition set_done (m : multiplexer) : multiplexer :=
  mkMux (keyTraceCapable m) (backendToken m) (backendSessionID m) (backendKey m)
        (messagesToBackend m) (accepted m) (written m) (writerStopped m)
        (frontendChans m) true true DoneClosed.
Definition set_phase (ph : shutdown_phase) (m : multiplexer) : multiplexer :=
  mkMux (keyTraceCapable m) (backendToken m) (backendSessionID m) (backendKey m)
        (messagesToBackend m) (accepted m) (written m) (writerStopped m)
        (frontendChans m) (connectionClosed m) (done_ m) ph.

Definition set_mux (p : nat) (m : multiplexer) (w : world) : world :=
  mkWorld (<[p:=m]> (heap w)) (multiplexers w) (chans w) (next_id w) (panicked w).
Definition set_multiplexers (b : gmap string nat) (w : world) : world :=
  mkWorld (heap w) b (chans w) (next_id w) (panicked w).
Definition set_chan (c : nat) (ch : gochan) (w : world) : world :=
  mkWorld (heap w) (multiplexers w) (<[c:=ch]> (chans w)) (next_id w) (panicked w).
Definition set_panic (w : world) : world :=
  mkWorld (heap w) (multiplexers w) (chans w) (next_id w) true.
Definition bump (w : world) : world :=
  mkWorld (heap w) (multiplexers w) (chans w) (S (next_id w)) (panicked w).

(** [close(c)]: panics on a closed (or nil) channel. *)
Definition close_chan (c : nat) (w : world) : world :=
  match chans w !! c with
  | Some ch => if ch_closed ch then set_panic w
               else set_chan c (mkChan (ch_owner ch) true (ch_received ch)) w
  | None => set_panic w
  end.

(** A completed [c <- msg]: panics on a closed channel. *)
Definition send_chan (c : nat) (msg : Message) (w : world) : world :=
  match chans w !! c with
  | Some ch => if ch_closed ch then set_panic w
               else set_chan c (mkChan (ch_owner ch) false (ch_received ch ++ [msg])) w
  | None => set_panic w
  end.

(** ** [multiplexer.go] *)

(** [initializeClient]; [msgKey] is the identifier [common.NewRandomUUID]
    returned. *)
Definition initializeClient (p : nat) (msgKey : string) (w : world)
  : world * result mux_error (string * nat) :=
  match heap w !! p with
  | None => (set_panic w, Err NilDereference)
  | Some m =>
      if done_ m then (w, Err BackendClosed)
      else let c := next_id w in
           (set_mux p (set_frontends (<[msgKey:=c]> (frontendChans m)) m)
              (set_chan c (mkChan (p, msgKey) false []) (bump w)), Ok (msgKey, c))
  end.

(** The case [select] takes in [enqueue]; the run-time may pick any ready one. *)
Inductive select_case := SelDone | SelSend | SelTimer.

(** [enqueue]; [None] when the chosen case is not ready. *)
Definition enqueue (sel : select_case) (p : nat) (message : string) (w : world)
  : option (world * result mux_error unit) :=
  if MaxWireMessageBytes <? go_len message then Some (w, Err MessageTooBig)
  else match heap w !! p with
       | None => Some (set_panic w, Err NilDereference)
       | Some m =>
           match sel with
           | SelDone => if done_ m then Some (w, Err BackendClosed) else None
           | SelSend =>
               if (length (messagesToBackend m) <? queue_capacity)%nat
               then Some (set_mux p (push_frame message m) w, Ok tt)
               else None
           | SelTimer => Some (w, Err QueueTimeout)
           end
       end.

Definition connect (sel : select_case) (p : nat) (msgKey url : string) (w : world)
  : option (world * result mux_error unit) :=
  match heap w !! p with
  | None => Some (set_panic w, Err NilDereference)
  | Some m =>
      match frontendChans m !! msgKey with
      | None => Some (w, Err NotOwned)
      | Some _ => enqueue sel p (FormatMessage msgKey Connect url) w
      end
  end.

Definition send (sel : select_case) (p : nat) (msgKey msg : string) (w : world) :=
  enqueue sel p (FormatMessage msgKey Body msg) w.

Definition sendClose (sel : select_case) (p : nat) (msgKey : string) (w : world) :=
  enqueue sel p (FormatMessage msgKey Close "") w.

(** The critical section of [closeConnection]. *)
Definition close_locked (p : nat) (msgKey : string) (w : world) : world :=
  match heap w !! p with
  | None => set_panic w
  | Some m =>
      match frontendChans m !! msgKey with
      | Some c => set_mux p (set_frontends (delete msgKey (frontendChans m)) m) (close_chan c w)
      | None => w
      end
  end.

Definition closeConnection (sel : select_case) (p : nat) (msgKey : string)
  (notifyBackend : bool) (w : world) : option (world * result mux_error unit) :=
  if notifyBackend then
    '(w1, sendErr) ← sendClose sel p msgKey w;
    Some (close_locked p msgKey w1, sendErr)
  else Some (close_locked p msgKey w, Ok tt).

(** [removeBackend] of the manager: only the registration with this session. *)
Definition removeBackend (key sessionID : string) (w : world) : world :=
  match multiplexers w !! key with
  | None => w
  | Some p =>
      match heap w !! p with
      | None => set_panic w
      | Some m => if bool_decide (backendSessionID m = sessionID)
                  then set_multiplexers (delete key (multiplexers w)) w else w
      end
  end.

(** The stages of [shutdown]: the body of the [sync.Once]. *)
Definition shutdown_begin (p : nat) (w : world) : world :=
  match heap w !! p with
  | None => set_panic w
  | Some m => set_mux p (set_done m) w
  end.

Definition shutdown_remove (p : nat) (w : world) : world :=
  match heap w !! p with
  | None => set_panic w
  | Some m => let w := removeBackend (backendKey m) (backendSessionID m) w in
              set_mux p (set_phase Removed m) w
  end.

(** [for key, c := range frontendChans { close(c); delete(frontendChans, key) }] *)
Definition close_all (l : list (string * nat)) (w : world) : world :=
  foldr (fun kc w => close_chan (snd kc) w) w l.

Definition shutdown_drain (p : nat) (w : world) : world :=
  match heap w !! p with
  | None => set_panic w
  | Some m => set_mux p (set_phase Drained (set_frontends ∅ m))
                (close_all (map_to_list (frontendChans m)) w)
  end.

Definition shutdown (p : nat) (w : world) : world :=
  match heap w !! p with
  | None => set_panic w
  | Some m => if bool_decide (phase m = Running)
              then shutdown_drain p (shutdown_remove p (shutdown_begin p w)) else w
  end.

(** *** The two goroutines of [routeMessages] *)

(** What [ws.ReadMessage] returns. *)
Inductive read_event :=
| ReadError
| ReadFrame (isText : bool) (raw : string).

Definition mgr_closeConnection (sel : select_case) (key msgKey : string) (w : world)
  : option (world * result mux_error unit) :=
  match multiplexers w !! key with
  | None => Some (w, Err (NoBackend key))
  | Some p => closeConnection sel p msgKey true w
  end.

(** One iteration of the reading goroutine.  [taken] says whether the receiver
    of the frontend channel took the message within ten seconds, [sel] is the
    case of the [enqueue] that follows; the boolean tells whether the goroutine
    goes on reading. *)
Definition read_iteration (sel : select_case) (p : nat) (ev : read_event) (taken : bool) (w : world)
  : option (world * bool) :=
  match heap w !! p with
  | None => Some (set_panic w, false)
  | Some m =>
      match ev with
      | ReadError => Some (shutdown p w, false)
      | ReadFrame false _ => Some (w, true)
      | ReadFrame true raw =>
          match ParseMessageSafe raw with
          | Err _ => Some (shutdown p w, false)
          | Ok message =>
              match frontendChans m !! Key message with
              | Some c =>
                  if taken then Some (send_chan c message w, true)
                  else '(w1, _) ← mgr_closeConnection sel (backendKey m) (Key message) w;
                       Some (w1, true)
              | None =>
                  if bool_decide (Type_ message <> Close)
                  then '(w1, _) ← mgr_closeConnection sel (backendKey m) (Key message) w;
                       Some (w1, true)
                  else Some (w, true)
              end
          end
      end
  end.

(** The case the writing goroutine's [select] takes; the boolean of a write or
    of a ping says whether the WebSocket accepted it. *)
Inductive write_case := WriteMessage (ok : bool) | WriteTick (ok : bool) | WriteDone.

Definition write_iteration (p : nat) (case : write_case) (w : world) : option (world * bool) :=
  match heap w !! p with
  | None => Some (set_panic w, false)
  | Some m =>
      match case with
      | WriteMessage ok =>
          match messagesToBackend m with
          | [] => None
          | message :: rest =>
              if ok then Some (set_mux p (pop_written message rest m) w, true)
              else Some (shutdown p (set_mux p (pop_lost rest m) w), false)
          end
      | WriteTick true => Some (w, true)
      | WriteTick false => Some (shutdown p (set_mux p (stop_writer m) w), false)
      | WriteDone => if done_ m then Some (set_mux p (stop_writer m) w, false) else None
      end
  end.

(** ** [backend_proxy_manager.go] *)

Section Manager.
(** [keyTraceURL] of [key_backend_capability.go]: whether the URL carries a
    token with API-Key claims. *)
Context (keyTraceURL : string -> bool).

Definition mgr_initializeClient (key msgKey : string) (w : world)
  : world * result mux_error (string * nat) :=
  match multiplexers w !! key with
  | None => (w, Err (NoBackend key))
  | Some p => initializeClient p msgKey w
  end.

Definition mgr_connect (sel : select_case) (key msgKey url : string) (w : world)
  : option (world * result mux_error unit) :=
  match multiplexers w !! key with
  | None => Some (w, Err (NoBackend key))
  | Some p =>
      match heap w !! p with
      | None => Some (set_panic w, Err NilDereference)
      | Some m => if keyTraceURL url && negb (keyTraceCapable m)
                  then Some (w, Err BackendAuditCapability)
                  else connect sel p msgKey url w
      end
  end.

Definition mgr_send (sel : select_case) (key msgKey msg : string) (w : world)
  : option (world * result mux_error unit) :=
  match multiplexers w !! key with
  | None => Some (w, Err (NoBackend key))
  | Some p => send sel p msgKey msg w
  end.

Definition mgr_releaseConnection (key msgKey : string) (w : world)
  : option (world * result mux_error unit) :=
  match multiplexers w !! key with
  | None => Some (w, Err (NoBackend key))
  | Some p => closeConnection SelTimer p msgKey false w
  end.

Definition hasBackend (key : string) (w : world) : bool :=
  match multiplexers w !! key with Some _ => true | None => false end.

Definition current_mux (key : string) (w : world) : option multiplexer :=
  multiplexers w !! key ≫= fun p => heap w !! p.

Definition supportsKeyTraces (key : string) (w : world) : bool :=
  match current_mux key w with Some m => keyTraceCapable m | None => false end.

Definition initializeKeyClient (key msgKey : string) (w : world)
  : world * result mux_error (string * nat) :=
  match multiplexers w !! key, current_mux key w with
  | Some p, Some m => if keyTraceCapable m then initializeClient p msgKey w
                      else (w, Err BackendAuditCapability)
  | _, _ => (w, Err BackendAuditCapability)
  end.

Definition backendTicket (key : string) (w : world) : string :=
  match current_mux key w with Some m => backendToken m | None => "" end.

(** The critical section of [addBackendWithKeyCapabilities]: allocate the
    multiplexer and register it; returns the new pointer and the previous one. *)
Definition register_backend (key : string) (capable : bool) (token sessionID : string) (w : world)
  : world * nat * option nat :=
  let p := next_id w in
  let m := mkMux capable token sessionID key [] [] [] false ∅ false false Running in
  (set_multiplexers (<[key:=p]> (multiplexers w)) (set_mux p m (bump w)), p, multiplexers w !! key).

Definition addBackendWithKeyCapabilities (key : string) (capable : bool)
  (token sessionID : string) (w : world) : world :=
  let '(w1, _, previous) := register_backend key capable token sessionID w in
  match previous with Some q => shutdown q w1 | None => w1 end.

Definition addBackend (key sessionID : string) (w : world) : world :=
  addBackendWithKeyCapabilities key false "" sessionID w.

Definition initial_world : world := mkWorld ∅ ∅ ∅ 0 false.
End Manager.

Definition closed_chan (ch : gochan) : gochan := mkChan (ch_owner ch) true (ch_received ch).

(** Closing distinct open channels closes exactly these and panics nowhere. *)
Lemma close_all_spec w l :
  NoDup (l.*2) ->
  (forall c, c ∈ l.*2 -> exists ch, chans w !! c = Some ch /\ ch_closed ch = false) ->
  let w' := close_all l w in
  heap w' = heap w /\ multiplexers w' = multiplexers w /\ next_id w' = next_id w /\
  panicked w' = panicked w /\
  forall c, chans w' !! c =
    if decide (c ∈ l.*2) then closed_chan <$> chans w !! c else chans w !! c.
Proof.
  intros ND HO. induction l as [|[k c] l IH]; simpl in *.
  - by split_and!.
  - apply NoDup_cons in ND as [Nc ND].
    destruct IH as (Hh & Hm & Hn & Hp & Hc); [done|intros d Hd; apply HO; set_solver|].
    destruct (HO c) as (ch & Hch & Ho); [set_solver|].
    assert (chans (close_all l w) !! c = Some ch) as E by (rewrite Hc decide_False //).
    unfold close_chan. rewrite E Ho. simpl. split_and!; try done.
    intros d. rewrite lookup_insert. destruct (decide (c = d)) as [<-|Ncd].
    + rewrite decide_True; [by rewrite Hch|set_solver].
    + rewrite Hc. destruct (decide (d ∈ l.*2)).
      * rewrite decide_True //. set_solver.
      * rewrite decide_False //. set_solver.
Qed.

(** ** Interleavings: one step per critical section *)

Section Steps.
Context (keyTraceURL : string -> bool).

(** The frames that reach the [enqueue] of a multiplexer [m], at [p]: those of
    [connect], [send] and [sendClose].  The message key of a client is a fresh UUID,
    the key of a close notification may also be one the backend sent: either way it
    is a key the envelope can carry.  [connect] makes its checks (of the manager and
    of the multiplexer) before it reaches the [select] of [enqueue], possibly in an
    earlier state [w0]: there, with the [select] taking its timer case, it returns
    with the timeout, and not with the error of a check.  Nothing but the
    (immutable) capability of the connection is the same in both states. *)
Inductive enqueues (p : nat) (m : multiplexer) : string -> Prop :=
| enqueues_connect w0 m0 key msgKey url :
    mgr_connect keyTraceURL SelTimer key msgKey url w0 = Some (w0, Err QueueTimeout) ->
    multiplexers w0 !! key = Some p -> heap w0 !! p = Some m0 -> keyTraceCapable m0 = keyTraceCapable m ->
    wire_key msgKey -> enqueues p m (FormatMessage msgKey Connect url)
| enqueues_send msgKey msg : wire_key msgKey -> enqueues p m (FormatMessage msgKey Body msg)
| enqueues_close msgKey : wire_key msgKey -> enqueues p m (FormatMessage msgKey Close "").

Inductive step : world -> world -> Prop :=
| step_register w key capable token sessionID :
    step w (fst (fst (register_backend key capable token sessionID w)))
| step_initialize w p m msgKey :
    heap w !! p = Some m -> frontendChans m !! msgKey = None ->
    step w (fst (initializeClient p msgKey w))
| step_enqueue w p m frame sel w' r :
    heap w !! p = Some m -> enqueues p m frame ->
    enqueue sel p frame w = Some (w', r) -> step w w'
| step_close w p m msgKey :
    heap w !! p = Some m -> step w (close_locked p msgKey w)
| step_deliver w p m message c :
    heap w !! p = Some m -> frontendChans m !! Key message = Some c ->
    step w (send_chan c message w)
| step_write w p m frame rest :
    heap w !! p = Some m -> writerStopped m = false -> messagesToBackend m = frame :: rest ->
    step w (set_mux p (pop_written frame rest m) w)
| step_write_fail w p m frame rest :
    heap w !! p = Some m -> writerStopped m = false -> messagesToBackend m = frame :: rest ->
    step w (set_mux p (pop_lost rest m) w)
| step_stop_writer w p m :
    heap w !! p = Some m -> step w (set_mux p (stop_writer m) w)
| step_shutdown_begin w p m :
    heap w !! p = Some m -> phase m = Running -> step w (shutdown_begin p w)
| step_shutdown_remove w p m :
    heap w !! p = Some m -> phase m = DoneClosed -> step w (shutdown_remove p w)
| step_shutdown_drain w p m :
    heap w !! p = Some m -> phase m = Removed -> step w (shutdown_drain p w).

Definition reachable : world -> Prop := rtc step initial_world.

(** ** The invariant *)

(** An accepted frame is a message of the wire, and a connection request with an
    API-Key token only on a connection that declared the capabilities. *)
Definition queued_frame (m : multiplexer) (frame : string) : Prop :=
  exists k t b, wire_key k /\ wire_type t /\ frame = FormatMessage k t b /\
    (t = Connect -> keyTraceURL b = true -> keyTraceCapable m = true).

(** The check of the manager is what makes it so. *)
Lemma enqueues_queued p m frame : enqueues p m frame -> queued_frame m frame.
Proof.
  destruct 1 as [w0 m0 key k url E Hk Hp C W|k msg W|k W]; eexists k, _, _; (split_and!; [done| |done|]);
    [by left| |by right; left|done|by right; right|done].
  intros _ T. unfold mgr_connect in E. rewrite Hk Hp T C in E. by destruct (keyTraceCapable m).
Qed.

(** What holds of one multiplexer object. *)
Record mux_ok (m : multiplexer) : Prop := {
  ok_queue : (length (messagesToBackend m) <= queue_capacity)%nat;
  ok_done : done_ m = bool_decide (phase m <> Running);
  ok_drained : phase m = Drained -> frontendChans m = ∅;
  ok_frames : Forall (queued_frame m) (accepted m);
  ok_sizes : Forall (fun f => go_len f <= MaxWireMessageBytes) (accepted m);
  ok_order : if writerStopped m then written m `prefix_of` accepted m
             else accepted m = written m ++ messagesToBackend m }.

Record Inv (w : world) : Prop := {
  inv_panic : panicked w = false;
  inv_mux : forall p m, heap w !! p = Some m -> mux_ok m /\ (p < next_id w)%nat;
  (* a registered channel is open and belongs to this client *)
  inv_open : forall p m k c, heap w !! p = Some m -> frontendChans m !! k = Some c ->
    exists ch, chans w !! c = Some ch /\ ch_closed ch = false /\ ch_owner ch = (p, k);
  (* an open channel is registered *)
  inv_registered : forall c ch, chans w !! c = Some ch -> ch_closed ch = false ->
    exists m, heap w !! fst (ch_owner ch) = Some m /\
      frontendChans m !! snd (ch_owner ch) = Some c;
  inv_chans : forall c ch, chans w !! c = Some ch -> (c < next_id w)%nat;
  inv_manager : forall key p, multiplexers w !! key = Some p ->
    exists m, heap w !! p = Some m /\ backendKey m = key /\
      (phase m = Running \/ phase m = DoneClosed) }.

(** *** Preservation, one lemma per kind of change *)

Ltac mux_simpl := simpl in *; simplify_map_eq.

Lemma Inv_initial : Inv initial_world.
Proof. split; simpl; try done; intros; simplify_map_eq. Qed.

(** Replacing one multiplexer by another one with the same clients. *)
Lemma Inv_set_mux w p m m' :
  Inv w -> heap w !! p = Some m -> mux_ok m' ->
  frontendChans m' = frontendChans m -> backendKey m' = backendKey m ->
  (phase m' = Running \/ phase m' = DoneClosed \/ forall key, multiplexers w !! key <> Some p) ->
  Inv (set_mux p m' w).
Proof.
  intros I Hp Hm Hf Hk Hph. destruct I as [IP IM IO IR IC IB]. split; simpl; try done.
  - intros q n. rewrite lookup_insert_Some. intros [[<- <-]|[_ Hq]]; [|by apply IM].
    split; [done|]. by eapply IM.
  - intros q n k c. rewrite lookup_insert_Some. intros [[<- <-]|[_ Hq]] Hc; [|by eauto].
    rewrite Hf in Hc. by eauto.
  - intros c ch Hc Ho. destruct (IR c ch Hc Ho) as (n & Hn & Hkn).
    destruct (decide (p = fst (ch_owner ch))) as [E|E].
    + exists m'. rewrite -E lookup_insert_eq Hf. split; [done|]. congruence.
    + exists n. by rewrite lookup_insert_ne.
  - intros key q Hq. destruct (IB key q Hq) as (n & Hn & Hkey & Hpn).
    destruct (decide (p = q)) as [<-|E].
    + rewrite Hp in Hn. injection Hn as <-.
      exists m'. rewrite lookup_insert_eq Hk. split_and!; try done.
      destruct Hph as [?|[?|Hph]]; [by left|by right|]. by destruct (Hph key).
    + exists n. by rewrite lookup_insert_ne.
Qed.

Lemma Inv_bump w : Inv w -> Inv (bump w).
Proof.
  intros [IP IM IO IR IC IB]. split; simpl; try done.
  - intros p m Hp. destruct (IM p m Hp). split; [done|lia].
  - intros c ch Hc. specialize (IC c ch Hc). lia.
Qed.

Lemma mux_ok_new capable token sessionID key :
  mux_ok (mkMux capable token sessionID key [] [] [] false ∅ false false Running).
Proof. split; simpl; try done; unfold queue_capacity; lia. Qed.

Lemma Inv_register w key capable token sessionID :
  Inv w -> Inv (fst (fst (register_backend key capable token sessionID w))).
Proof.
  intros [IP IM IO IR IC IB]. simpl.
  assert (heap w !! next_id w = None) as HN.
  { destruct (heap w !! next_id w) eqn:E; [|done]. apply IM in E as [_ E]. lia. }
  split; simpl; try done.
  - intros p m. rewrite lookup_insert_Some. intros [[<- <-]|[_ Hq]].
    + split; [apply mux_ok_new|lia].
    + destruct (IM p m Hq). split; [done|lia].
  - intros p m k c. rewrite lookup_insert_Some. intros [[<- <-]|[_ Hq]] Hc; [|by eauto].
    simplify_map_eq.
  - intros c ch Hc Ho. destruct (IR c ch Hc Ho) as (n & Hn & Hkn).
    exists n. rewrite lookup_insert_ne //. intros E. by rewrite -E HN in Hn.
  - intros c ch Hc. specialize (IC c ch Hc). lia.
  - intros k p. rewrite lookup_insert_Some. intros [[<- <-]|[_ Hq]].
    + eexists. rewrite lookup_insert_eq. split_and!; [done|done|by left].
    + destruct (IB k p Hq) as (n & Hn & ?). exists n.
      rewrite lookup_insert_ne //. intros <-. by rewrite HN in Hn.
Qed.

Lemma mux_ok_frontends m f :
  mux_ok m -> phase m <> Drained -> mux_ok (set_frontends f m).
Proof. intros [] ?. by split. Qed.

Lemma Inv_initialize w p m msgKey :
  Inv w -> heap w !! p = Some m -> frontendChans m !! msgKey = None ->
  Inv (fst (initializeClient p msgKey w)).
Proof.
  intros I Hp Hk. unfold initializeClient. rewrite Hp. destruct (done_ m) eqn:D; [done|].
  destruct I as [IP IM IO IR IC IB]. destruct (IM p m Hp) as [Hok _].
  assert (phase m = Running) as HR.
  { rewrite (ok_done m Hok) in D. by apply bool_decide_eq_false, dec_stable in D. }
  assert (chans w !! next_id w = None) as HN.
  { destruct (chans w !! next_id w) eqn:E; [|done]. apply IC in E. lia. }
  simpl. split; simpl; try done.
  - intros q n. rewrite lookup_insert_Some. intros [[<- <-]|[_ Hq]].
    + split; [apply mux_ok_frontends; [done|by rewrite HR]|]. destruct (IM p m Hp); lia.
    + destruct (IM q n Hq). split; [done|lia].
  - intros q n k c. rewrite lookup_insert_Some. intros [[<- <-]|[E Hq]] Hc.
    + simpl in Hc. rewrite lookup_insert_Some in Hc. destruct Hc as [[<- <-]|[_ Hc]].
      * eexists. by rewrite lookup_insert_eq.
      * destruct (IO p m k c Hp Hc) as (ch & Hch & ?). exists ch.
        rewrite lookup_insert_ne //. intros <-. by rewrite HN in Hch.
    + destruct (IO q n k c Hq Hc) as (ch & Hch & ?). exists ch.
      rewrite lookup_insert_ne //. intros <-. by rewrite HN in Hch.
  - intros c ch. rewrite lookup_insert_Some. intros [[<- <-]|[_ Hc]] Ho; simpl.
    + eexists. rewrite lookup_insert_eq. split; [done|]. simpl. by rewrite lookup_insert_eq.
    + destruct (IR c ch Hc Ho) as (n & Hn & Hkn).
      destruct (decide (p = fst (ch_owner ch))) as [E|E].
      * eexists. rewrite -E lookup_insert_eq. split; [done|]. simpl.
        rewrite -E Hp in Hn. injection Hn as <-. rewrite lookup_insert_ne //. congruence.
      * exists n. by rewrite lookup_insert_ne.
  - intros c ch. rewrite lookup_insert_Some. intros [[<- <-]|[_ Hc]]; [lia|].
    specialize (IC c ch Hc). lia.
  - intros key q Hq. destruct (IB key q Hq) as (n & Hn & Hkey & Hpn).
    destruct (decide (p = q)) as [<-|E].
    + rewrite Hp in Hn. injection Hn as <-. eexists. by rewrite lookup_insert_eq.
    + exists n. by rewrite lookup_insert_ne.
Qed.

(** Closing the channels of some clients and forgetting these clients. *)
Lemma Inv_close_clients w p m m' l :
  Inv w -> heap w !! p = Some m -> mux_ok m' -> backendKey m' = backendKey m ->
  (phase m' = Running \/ phase m' = DoneClosed \/ forall key, multiplexers w !! key <> Some p) ->
  NoDup l -> (forall kc, kc ∈ l -> frontendChans m !! fst kc = Some (snd kc)) ->
  (forall k c, frontendChans m' !! k = Some c <-> frontendChans m !! k = Some c /\ (k, c) ∉ l) ->
  Inv (set_mux p m' (close_all l w)).
Proof.
  intros I Hp Hok Hk Hph ND Hl Hf. destruct I as [IP IM IO IR IC IB].
  destruct (close_all_spec w l) as (Eh & Em & En & Ep & Ec).
  { apply NoDup_fmap_2_strong; [|done]. intros [k c] [k' c'] H1 H2 E. simpl in E. subst c'.
    apply Hl in H1, H2. simpl in *.
    destruct (IO p m k c Hp H1) as (ch & Hc & _ & O).
    destruct (IO p m k' c Hp H2) as (ch' & Hc' & _ & O'). by simplify_eq; rewrite O in O'; simplify_eq. }
  { intros c ([k c'] & -> & H)%list_elem_of_fmap. apply Hl in H.
    destruct (IO p m k c' Hp H) as (ch & ? & ? & _). by exists ch. }
  assert (forall c, c ∈ l.*2 -> exists k, (k, c) ∈ l) as HL.
  { intros c ([k c'] & -> & H)%list_elem_of_fmap. by exists k. }
  split; simpl; rewrite ?Eh ?Em ?En ?Ep; try done.
  - intros q n. rewrite lookup_insert_Some. intros [[<- <-]|[_ Hq]]; [|by apply IM].
    split; [done|]. by eapply IM.
  - intros q n k c Hq Hc.
    assert (exists n', heap w !! q = Some n' /\ frontendChans n' !! k = Some c /\
      (q = p -> (k, c) ∉ l)) as (n' & Hq' & Hc' & Hnl).
    { apply lookup_insert_Some in Hq as [[<- <-]|[N Hq]].
      - exists m. apply Hf in Hc as [? ?]. done.
      - exists n. split_and!; done. }
    destruct (IO q n' k c Hq' Hc') as (ch & Hch & Ho & Hown). exists ch.
    rewrite Ec decide_False //. intros (k' & Hk')%HL. apply Hl in Hk' as Hk2. simpl in Hk2.
    destruct (IO p m k' c Hp Hk2) as (ch' & Hch' & _ & Hown').
    rewrite Hch in Hch'. injection Hch' as <-. rewrite Hown in Hown'.
    injection Hown' as -> ->. by apply Hnl.
  - intros c ch. rewrite Ec. case_decide as D.
    { intros ([? ?] & ? & ->)%fmap_Some Ho. done. }
    intros Hc Ho. destruct (IR c ch Hc Ho) as (n & Hn & Hkn).
    destruct (decide (p = fst (ch_owner ch))) as [E|E].
    + exists m'. rewrite -E lookup_insert_eq. split; [done|]. apply Hf.
      rewrite -E Hp in Hn. injection Hn as <-. split; [done|].
      intros H. apply D, list_elem_of_fmap. by eexists (_, _).
    + exists n. by rewrite lookup_insert_ne.
  - intros c ch. rewrite Ec. case_decide; [|by apply IC].
    intros ([? ?] & Hc & ->)%fmap_Some. by eapply IC.
  - intros key q Hq. destruct (IB key q Hq) as (n & Hn & Hkey & Hpn).
    destruct (decide (p = q)) as [<-|E].
    + rewrite Hp in Hn. injection Hn as <-. exists m'. rewrite lookup_insert_eq Hk.
      split_and!; try done. destruct Hph as [?|[?|Hph]]; [by left|by right|].
      by destruct (Hph key).
    + exists n. by rewrite lookup_insert_ne.
Qed.

Lemma not_managed w p m :
  Inv w -> heap w !! p = Some m -> phase m = Removed \/ phase m = Drained ->
  forall key, multiplexers w !! key <> Some p.
Proof.
  intros I Hp Hph key E. destruct (inv_manager w I key p E) as (n & Hn & _ & Hph').
  rewrite Hp in Hn. injection Hn as <-. by destruct Hph as [H|H], Hph' as [H'|H']; rewrite H in H'.
Qed.

Lemma Inv_close w p m msgKey :
  Inv w -> heap w !! p = Some m -> Inv (close_locked p msgKey w).
Proof.
  intros I Hp. unfold close_locked. rewrite Hp.
  destruct (frontendChans m !! msgKey) as [c|] eqn:Hc; [|done].
  change (close_chan c w) with (close_all [(msgKey, c)] w).
  destruct (inv_mux w I p m Hp) as [Hok _].
  assert (phase m <> Drained) as ND.
  { intros D. by rewrite (ok_drained m Hok D) in Hc. }
  apply Inv_close_clients with m; try done.
  - by apply mux_ok_frontends.
  - destruct (phase m) eqn:P; simpl; rewrite P; auto.
    right; right. eapply not_managed; eauto.
  - apply NoDup_singleton.
  - by intros kc ->%list_elem_of_singleton.
  - intros k d. simpl. rewrite lookup_delete_Some list_elem_of_singleton.
    split; [intros [N ?]; split; [done|congruence]|].
    intros [Hd N]. split; [|done]. intros <-. apply N. congruence.
Qed.

(** A multiplexer that keeps its clients, its key and its phase. *)
Lemma Inv_set_mux_same w p m m' :
  Inv w -> heap w !! p = Some m -> mux_ok m' ->
  frontendChans m' = frontendChans m -> backendKey m' = backendKey m -> phase m' = phase m ->
  Inv (set_mux p m' w).
Proof.
  intros I Hp Hok Hf Hk Hph. apply Inv_set_mux with m; try done. rewrite Hph.
  destruct (phase m) eqn:P; auto; right; right; eapply not_managed; eauto.
Qed.

Lemma Inv_enqueue w p m frame sel w' r :
  Inv w -> heap w !! p = Some m -> enqueues p m frame ->
  enqueue sel p frame w = Some (w', r) -> Inv w'.
Proof.
  intros I Hp Hf%enqueues_queued. unfold enqueue. rewrite Hp. destruct (_ <? _) eqn:L; [by intros [= <- _]|].
  bool_to_prop. destruct sel.
  - destruct (done_ m); [|done]. by intros [= <- _].
  - destruct (_ <? _)%nat eqn:Q; [|done]. intros [= <- _]. apply Nat.ltb_lt in Q.
    destruct (inv_mux w I p m Hp) as [[] _]. apply Inv_set_mux_same with m; try done.
    split; simpl; try done.
    + rewrite length_app /=. lia.
    + by apply Forall_app_2; [|constructor].
    + by apply Forall_app_2; [|constructor].
    + destruct (writerStopped m); [by apply prefix_app_r|].
      by rewrite app_assoc ok_order0.
  - by intros [= <- _].
Qed.

Lemma Inv_deliver w p m message c :
  Inv w -> heap w !! p = Some m -> frontendChans m !! Key message = Some c ->
  Inv (send_chan c message w).
Proof.
  intros I Hp Hc. destruct (inv_open w I p m _ c Hp Hc) as (ch & Hch & Ho & Hown).
  unfold send_chan. rewrite Hch Ho. destruct I as [IP IM IO IR IC IB]. split; simpl; try done.
  - intros q n k d Hq Hd. destruct (IO q n k d Hq Hd) as (ch' & Hch' & Ho' & Hown').
    destruct (decide (c = d)) as [<-|N].
    + rewrite Hch in Hch'. injection Hch' as <-. eexists. by rewrite lookup_insert_eq.
    + exists ch'. by rewrite lookup_insert_ne.
  - intros d ch'. rewrite lookup_insert_Some. intros [[<- <-]|[_ Hd]]; [|by apply IR].
    intros _. by apply (IR c ch).
  - intros d ch'. rewrite lookup_insert_Some. intros [[<- <-]|[_ Hd]]; [|by eapply IC].
    by eapply IC.
Qed.

Lemma Inv_shutdown_begin w p m :
  Inv w -> heap w !! p = Some m -> phase m = Running -> Inv (shutdown_begin p w).
Proof.
  intros I Hp HR. unfold shutdown_begin. rewrite Hp.
  destruct (inv_mux w I p m Hp) as [[] _]. apply Inv_set_mux with m; try done.
  by right; left.
Qed.

Lemma Inv_remove w key sessionID : Inv w -> Inv (removeBackend key sessionID w).
Proof.
  intros I. unfold removeBackend. destruct (multiplexers w !! key) as [p|] eqn:E; [|done].
  destruct (inv_manager w I key p E) as (m & Hm & _). rewrite Hm.
  case_bool_decide; [|done]. destruct I as [IP IM IO IR IC IB]. split; simpl; try done.
  intros k q. rewrite lookup_delete_Some. intros [_ Hq]. by apply IB.
Qed.

Lemma removeBackend_heap w key sessionID :
  Inv w -> heap (removeBackend key sessionID w) = heap w.
Proof.
  intros I. unfold removeBackend. destruct (multiplexers w !! key) as [p|] eqn:E; [|done].
  destruct (inv_manager w I key p E) as (m & Hm & _). rewrite Hm. by case_bool_decide.
Qed.

Lemma removeBackend_self w p m :
  Inv w -> heap w !! p = Some m ->
  forall key, multiplexers (removeBackend (backendKey m) (backendSessionID m) w) !! key <> Some p.
Proof.
  intros I Hp key. unfold removeBackend.
  destruct (multiplexers w !! backendKey m) as [q|] eqn:E.
  - destruct (inv_manager w I _ q E) as (n & Hn & _). rewrite Hn. case_bool_decide as B; simpl.
    + rewrite lookup_delete_Some. intros [N Hk].
      destruct (inv_manager w I key p Hk) as (n' & Hn' & Hkey & _). congruence.
    + intros Hk. destruct (inv_manager w I key p Hk) as (n' & Hn' & Hkey & _). congruence.
  - intros Hk. destruct (inv_manager w I key p Hk) as (n' & Hn' & Hkey & _). congruence.
Qed.

Lemma Inv_shutdown_remove w p m :
  Inv w -> heap w !! p = Some m -> phase m = DoneClosed -> Inv (shutdown_remove p w).
Proof.
  intros I Hp HD. unfold shutdown_remove. rewrite Hp. simpl.
  destruct (inv_mux w I p m Hp) as [[] _].
  apply Inv_set_mux with m; try done.
  - by apply Inv_remove.
  - by rewrite removeBackend_heap.
  - split; try done. simpl. by rewrite ok_done0 HD.
  - right; right. by apply removeBackend_self.
Qed.

Lemma Inv_shutdown_drain w p m :
  Inv w -> heap w !! p = Some m -> phase m = Removed -> Inv (shutdown_drain p w).
Proof.
  intros I Hp HR. unfold shutdown_drain. rewrite Hp.
  destruct (inv_mux w I p m Hp) as [[] _].
  apply Inv_close_clients with m; try done.
  - split; try done. simpl. by rewrite ok_done0 HR.
  - right; right. eapply not_managed; eauto.
  - apply NoDup_map_to_list.
  - intros [k c] ?. by apply elem_of_map_to_list.
  - intros k c. simpl. rewrite lookup_empty elem_of_map_to_list. naive_solver.
Qed.

#[local] Hint Resolve Inv_register Inv_initialize Inv_enqueue Inv_close Inv_deliver
  Inv_shutdown_begin Inv_shutdown_remove Inv_shutdown_drain : proxy.

Lemma Inv_step w w' : Inv w -> step w w' -> Inv w'.
Proof.
  intros I H. destruct H as [| | | | |w p m f rest Hp HS HQ|w p m f rest Hp HS HQ|w p m Hp| | | ];
    eauto with proxy.
  all: destruct (inv_mux w I p m Hp) as [[] _]; apply Inv_set_mux_same with m; try done.
  - split; simpl; try done; rewrite HS HQ in ok_order0; rewrite HQ in ok_queue0.
    + simpl in ok_queue0. lia.
    + by rewrite HS ok_order0 -app_assoc.
  - split; simpl; try done; rewrite HS HQ in ok_order0; rewrite HQ in ok_queue0.
    + simpl in ok_queue0. lia.
    + rewrite ok_order0. by apply prefix_app_r.
  - split; simpl; try done. destruct (writerStopped m); [done|].
    rewrite ok_order0. by apply prefix_app_r.
Qed.

Lemma Inv_steps w w' : Inv w -> rtc step w w' -> Inv w'.
Proof. intros I H. induction H; [done|]. eauto using Inv_step. Qed.

Lemma reachable_Inv w : reachable w -> Inv w.
Proof. apply Inv_steps, Inv_initial. Qed.

(** *** The Go functions are runs of steps *)

Lemma shutdown_steps w p m : heap w !! p = Some m -> Inv w -> rtc step w (shutdown p w).
Proof.
  intros Hp I. unfold shutdown. rewrite Hp. case_bool_decide as HR; [|done].
  pose proof (Inv_shutdown_begin w p m I Hp HR) as I1.
  assert (heap (shutdown_begin p w) !! p = Some (set_done m)) as Hp1.
  { unfold shutdown_begin. rewrite Hp. simpl. by rewrite lookup_insert_eq. }
  assert (heap (shutdown_remove p (shutdown_begin p w)) !! p
    = Some (set_phase Removed (set_done m))) as Hp2.
  { unfold shutdown_remove. rewrite Hp1. simpl. by rewrite lookup_insert_eq. }
  eapply rtc_l; [by eapply step_shutdown_begin|].
  eapply rtc_l; [by eapply step_shutdown_remove|].
  eapply rtc_l; [by eapply step_shutdown_drain|]. done.
Qed.

Lemma closeConnection_steps sel w p m msgKey notify w' r :
  heap w !! p = Some m -> wire_key msgKey ->
  closeConnection sel p msgKey notify w = Some (w', r) -> rtc step w w'.
Proof.
  intros Hp Hk. unfold closeConnection. destruct notify.
  - unfold sendClose. destruct (enqueue sel p _ w) as [[w1 e]|] eqn:E; simpl; [|done].
    intros [= <- <-]. eapply rtc_l.
    + eapply step_enqueue; [done| |done]. by apply enqueues_close.
    + apply rtc_once. unfold enqueue in E. rewrite Hp in E.
      repeat case_match; simplify_eq; eapply step_close; simpl; try done;
        by rewrite lookup_insert_eq.
  - intros [= <- <-]. apply rtc_once. by eapply step_close.
Qed.

Lemma mgr_closeConnection_steps sel w key msgKey w' r :
  Inv w -> wire_key msgKey ->
  mgr_closeConnection sel key msgKey w = Some (w', r) -> rtc step w w'.
Proof.
  intros I Hk. unfold mgr_closeConnection.
  destruct (multiplexers w !! key) as [p|] eqn:E; [|by intros [= <- _]].
  destruct (inv_manager w I key p E) as (m & Hp & _). by eapply closeConnection_steps.
Qed.

Lemma read_iteration_steps sel w p m ev taken w' b :
  Inv w -> heap w !! p = Some m ->
  read_iteration sel p ev taken w = Some (w', b) -> rtc step w w'.
Proof.
  intros I Hp. unfold read_iteration. rewrite Hp.
  destruct ev as [|[] raw]; [by intros [= <- _]; eapply shutdown_steps| |by intros [= <- _]].
  destruct (ParseMessageSafe raw) as [message|e] eqn:P;
    [|by intros [= <- _]; eapply shutdown_steps].
  apply parse_Ok_format in P as (_ & _ & Hk & _).
  assert (forall x, ('(w1, _) ← mgr_closeConnection sel (backendKey m) (Key message) w;
    Some (w1, true)) = Some x -> rtc step w (fst x)) as A.
  { intros x. destruct (mgr_closeConnection _ _ _ _) as [[w1 e]|] eqn:E; simpl; [|done].
    intros [= <-]. by eapply mgr_closeConnection_steps. }
  destruct (frontendChans m !! Key message) as [c|] eqn:Hc.
  - destruct taken; [|by intros Hx; apply A in Hx]. intros [= <- _]. apply rtc_once. by eapply step_deliver.
  - case_bool_decide; [by intros Hx; apply A in Hx|]. by intros [= <- _].
Qed.

Lemma write_iteration_steps w p m case w' b :
  Inv w -> heap w !! p = Some m -> writerStopped m = false ->
  write_iteration p case w = Some (w', b) -> rtc step w w'.
Proof.
  intros I Hp HS. unfold write_iteration. rewrite Hp.
  assert (forall w1 m1, step w w1 -> heap w1 !! p = Some m1 -> rtc step w (shutdown p w1)) as A.
  { intros w1 m1 St H1. eapply rtc_l; [done|]. eapply shutdown_steps; [done|].
    by eapply Inv_step. }
  destruct case as [ok|[]|].
  - destruct (messagesToBackend m) as [|f rest] eqn:Q; [done|]. destruct ok; intros [= <- _].
    + apply rtc_once. by eapply step_write.
    + eapply A; [by eapply step_write_fail|]. simpl. by rewrite lookup_insert_eq.
  - by intros [= <- _].
  - intros [= <- _]. eapply A; [by eapply step_stop_writer|]. simpl. by rewrite lookup_insert_eq.
  - destruct (done_ m); [|done]. intros [= <- _]. apply rtc_once. by eapply step_stop_writer.
Qed.

Lemma connect_steps sel w key msgKey url w' r :
  Inv w -> wire_key msgKey ->
  mgr_connect keyTraceURL sel key msgKey url w = Some (w', r) -> rtc step w w'.
Proof.
  intros I Hk. unfold mgr_connect.
  destruct (multiplexers w !! key) as [p|] eqn:E; [|by intros [= <- _]].
  destruct (inv_manager w I key p E) as (m & Hp & _). rewrite Hp.
  destruct (_ && _) eqn:G; [by intros [= <- _]|]. unfold connect. rewrite Hp.
  destruct (frontendChans m !! msgKey) eqn:F; [|by intros [= <- _]].
  destruct (MaxWireMessageBytes <? go_len (FormatMessage msgKey Connect url)) eqn:L.
  { unfold enqueue. rewrite L. by intros [= <- _]. }
  intros H. apply rtc_once. eapply step_enqueue; [done| |done].
  eapply (enqueues_connect p m w m key); try done.
  unfold mgr_connect, connect, enqueue. by rewrite E Hp G F L.
Qed.

Lemma send_steps sel w key msgKey msg w' r :
  Inv w -> wire_key msgKey -> mgr_send sel key msgKey msg w = Some (w', r) -> rtc step w w'.
Proof.
  intros I Hk. unfold mgr_send.
  destruct (multiplexers w !! key) as [p|] eqn:E; [|by intros [= <- _]].
  destruct (inv_manager w I key p E) as (m & Hp & _). unfold send.
  intros H. apply rtc_once. eapply step_enqueue; [done| |done].
  by apply enqueues_send.
Qed.

(** *** Runs of the manager's API and of the two goroutines *)

Inductive op :=
| OpAdd (key : string) (capable : bool) (token sessionID : string)
| OpInit (key msgKey : string)
| OpInitKey (key msgKey : string)
| OpConnect (sel : select_case) (key msgKey url : string)
| OpSend (sel : select_case) (key msgKey msg : string)
| OpClose (sel : select_case) (key msgKey : string)
| OpRelease (key msgKey : string)
| OpRead (sel : select_case) (p : nat) (ev : read_event) (taken : bool)
| OpWrite (p : nat) (case : write_case).

Definition run_op (o : op) (w : world) : option world :=
  match o with
  | OpAdd key capable token sessionID =>
      Some (addBackendWithKeyCapabilities key capable token sessionID w)
  | OpInit key msgKey => Some (fst (mgr_initializeClient key msgKey w))
  | OpInitKey key msgKey => Some (fst (initializeKeyClient key msgKey w))
  | OpConnect sel key msgKey url => fst <$> mgr_connect keyTraceURL sel key msgKey url w
  | OpSend sel key msgKey msg => fst <$> mgr_send sel key msgKey msg w
  | OpClose sel key msgKey => fst <$> mgr_closeConnection sel key msgKey w
  | OpRelease key msgKey => fst <$> mgr_releaseConnection key msgKey w
  | OpRead sel p ev taken => fst <$> read_iteration sel p ev taken w
  | OpWrite p case => fst <$> write_iteration p case w
  end.

(** What the callers guarantee: identifiers are fresh UUIDs, message keys are
    keys the envelope can carry, and the goroutines belong to a connection. *)
Definition op_ok (o : op) (w : world) : Prop :=
  match o with
  | OpAdd _ _ _ _ => True
  | OpInit key msgKey | OpInitKey key msgKey =>
      forall m, current_mux key w = Some m -> frontendChans m !! msgKey = None
  | OpConnect _ _ msgKey _ | OpSend _ _ msgKey _ | OpClose _ _ msgKey | OpRelease _ msgKey =>
      wire_key msgKey
  | OpRead _ p _ _ => is_Some (heap w !! p)
  | OpWrite p _ => exists m, heap w !! p = Some m /\ writerStopped m = false
  end.

Lemma add_steps w key capable token sessionID :
  Inv w -> rtc step w (addBackendWithKeyCapabilities key capable token sessionID w).
Proof.
  intros I. unfold addBackendWithKeyCapabilities.
  pose proof (step_register w key capable token sessionID) as St.
  pose proof (Inv_register w key capable token sessionID I) as I1.
  destruct (register_backend key capable token sessionID w) as [[w1 p] prev] eqn:E. simpl in *.
  eapply rtc_l; [done|]. destruct prev as [q|]; [|done].
  unfold register_backend in E. injection E as <- <- Hq. simpl in *.
  destruct (inv_manager w I key q Hq) as (m & Hm & _).
  eapply shutdown_steps with m; [|done]. simpl. rewrite lookup_insert_ne //.
  intros <-. apply (inv_mux w I) in Hm as [_ Hm]. lia.
Qed.

Lemma initialize_steps w key p m msgKey :
  multiplexers w !! key = Some p -> heap w !! p = Some m -> frontendChans m !! msgKey = None ->
  rtc step w (fst (initializeClient p msgKey w)).
Proof. intros Hk Hp HN. apply rtc_once. by eapply step_initialize. Qed.

Lemma run_op_steps o w w' :
  Inv w -> op_ok o w -> run_op o w = Some w' -> rtc step w w'.
Proof.
  intros I OK. destruct o; simpl in *.
  - intros [= <-]. by apply add_steps.
  - intros [= <-]. unfold mgr_initializeClient, current_mux in *.
    destruct (multiplexers w !! key) as [p|] eqn:E; [|done].
    destruct (inv_manager w I key p E) as (m & Hp & _).
    eapply initialize_steps; [done..|]. by apply OK.
  - intros [= <-]. unfold initializeKeyClient, current_mux in *.
    destruct (multiplexers w !! key) as [p|] eqn:E; [|done].
    destruct (inv_manager w I key p E) as (m & Hp & _). simpl in *. rewrite Hp in OK |- *.
    destruct (keyTraceCapable m); [|done]. eapply initialize_steps; [done..|]. by apply OK.
  - intros ([w1 r] & E & ->)%fmap_Some. by eapply connect_steps.
  - intros ([w1 r] & E & ->)%fmap_Some. by eapply send_steps.
  - intros ([w1 r] & E & ->)%fmap_Some. by eapply mgr_closeConnection_steps.
  - intros ([w1 r] & E & ->)%fmap_Some. unfold mgr_releaseConnection in E.
    destruct (multiplexers w !! key) as [p|] eqn:K; [|by injection E as <- _].
    destruct (inv_manager w I key p K) as (m & Hp & _). by eapply closeConnection_steps.
  - intros ([w1 r] & E & ->)%fmap_Some. destruct OK as [m Hp]. by eapply read_iteration_steps.
  - intros ([w1 r] & E & ->)%fmap_Some. destruct OK as (m & Hp & HS).
    by eapply write_iteration_steps.
Qed.

(** *** How one multiplexer object evolves *)

Definition phase_rank (ph : shutdown_phase) : nat :=
  match ph with Running => 0 | DoneClosed => 1 | Removed => 2 | Drained => 3 end.

Record evolves (m m' : multiplexer) : Prop := {
  ev_capable : keyTraceCapable m' = keyTraceCapable m;
  ev_token : backendToken m' = backendToken m;
  ev_session : backendSessionID m' = backendSessionID m;
  ev_key : backendKey m' = backendKey m;
  ev_phase : (phase_rank (phase m) <= phase_rank (phase m'))%nat;
  ev_accepted : accepted m `prefix_of` accepted m';
  ev_written : written m `prefix_of` written m' }.

#[local] Instance evolves_preorder : PreOrder evolves.
Proof.
  split.
  - intros m. by split.
  - intros m1 m2 m3 [] []. split; try congruence; try lia; by etrans.
Qed.

Lemma insert_evolves w (h : gmap nat multiplexer) q n n' p m :
  heap w !! q = Some n -> evolves n n' -> h = heap w -> heap w !! p = Some m ->
  exists m', <[q:=n']> h !! p = Some m' /\ evolves m m'.
Proof.
  intros Hq He -> Hp. rewrite lookup_insert. case_decide as D; [|by exists m].
  subst q. rewrite Hp in Hq. injection Hq as <-. by exists n'.
Qed.

Lemma close_chan_heap c v : heap (close_chan c v) = heap v.
Proof. unfold close_chan. by repeat case_match. Qed.

Lemma close_all_heap l v : heap (close_all l v) = heap v.
Proof. induction l as [|kc l IH]; [done|]. simpl. by rewrite close_chan_heap. Qed.

Lemma step_evolves w w' p m :
  Inv w -> step w w' -> heap w !! p = Some m ->
  exists m', heap w' !! p = Some m' /\ evolves m m'.
Proof.
  intros I St Hp.
  destruct St as [w key cap tok sess|w q n k Hq Hk|w q n f sel w' r Hq Hf E|w q n k Hq
    |w q n msg c Hq Hc|w q n f rest Hq HS HQ|w q n f rest Hq HS HQ|w q n Hq
    |w q n Hq HR|w q n Hq HR|w q n Hq HR].
  - exists m. split; [|done]. simpl. rewrite lookup_insert_ne //.
    intros <-. apply (inv_mux w I) in Hp as [_ Hp]. lia.
  - unfold initializeClient. rewrite Hq. destruct (done_ n); [by exists m|].
    eapply insert_evolves; [done| |done|done]. by split.
  - unfold enqueue in E. rewrite Hq in E. repeat case_match; simplify_eq; try by exists m.
    eapply insert_evolves; [done| |done|done]. split; try done. by apply prefix_app_r.
  - unfold close_locked. rewrite Hq. destruct (frontendChans n !! k); [|by exists m].
    eapply insert_evolves; [done| |apply close_chan_heap|done]. by split.
  - unfold send_chan. by repeat case_match; exists m.
  - eapply insert_evolves; [done| |done|done]. split; try done. by apply prefix_app_r.
  - eapply insert_evolves; [done| |done|done]. by split.
  - eapply insert_evolves; [done| |done|done]. by split.
  - unfold shutdown_begin. rewrite Hq. eapply insert_evolves; [done| |done|done].
    split; try done. rewrite HR. simpl. lia.
  - unfold shutdown_remove. rewrite Hq. eapply insert_evolves; [done| |by apply removeBackend_heap|done].
    split; try done. rewrite HR. simpl. lia.
  - unfold shutdown_drain. rewrite Hq. eapply insert_evolves; [done| |apply close_all_heap|done].
    split; try done. rewrite HR. simpl. lia.
Qed.

Lemma steps_evolves w w' p m :
  Inv w -> rtc step w w' -> heap w !! p = Some m ->
  exists m', heap w' !! p = Some m' /\ evolves m m'.
Proof.
  intros I H. revert m. induction H as [|w w1 w2 St _ IH]; intros m Hp; [by exists m|].
  destruct (step_evolves w w1 p m I St Hp) as (m1 & Hp1 & E1).
  destruct (IH (Inv_step w w1 I St) m1 Hp1) as (m2 & Hp2 & E2).
  exists m2. split; [done|]. by etrans.
Qed.

Lemma drained_closed w p m c ch :
  Inv w -> heap w !! p = Some m -> phase m = Drained ->
  chans w !! c = Some ch -> fst (ch_owner ch) = p -> ch_closed ch = true.
Proof.
  intros I Hp HD Hc Ho. destruct (ch_closed ch) eqn:E; [done|].
  destruct (inv_registered w I c ch Hc E) as (n & Hn & Hk). rewrite Ho Hp in Hn.
  injection Hn as <-. destruct (inv_mux w I p m Hp) as [[] _]. by rewrite ok_drained0 in Hk.
Qed.

(** ** Properties *)

(** C14: no interleaving of the multiplexer's goroutines, of the manager and of
    its clients reaches a Go run-time panic: whatever the order in which the
    critical sections of [initializeClient], [connect], [send],
    [closeConnection], [routeMessages] and [shutdown] run, no frontend channel
    is closed twice and nothing is sent on a closed one.  A registered client's
    channel is open, an open channel is registered with the client it was made
    for, and the queue to the backend never exceeds its ten slots. *)
Theorem multiplexer_never_panics (w : world) :
  reachable w ->
  panicked w = false /\
  (forall p m k c, heap w !! p = Some m -> frontendChans m !! k = Some c ->
     exists ch, chans w !! c = Some ch /\ ch_closed ch = false /\ ch_owner ch = (p, k)) /\
  (forall c ch, chans w !! c = Some ch -> ch_closed ch = false ->
     exists m, heap w !! fst (ch_owner ch) = Some m /\ frontendChans m !! snd (ch_owner ch) = Some c) /\
  (forall p m, heap w !! p = Some m -> (length (messagesToBackend m) <= queue_capacity)%nat).
Proof.
  intros I%reachable_Inv. split_and!.
  - apply I.
  - by apply inv_open.
  - by apply inv_registered.
  - intros p m Hp. by apply (inv_mux w I p m Hp).
Qed.

(** C18: [shutdown] is final and leaves no client waiting.  Once it has run for
    a multiplexer, then in every later state each channel [initializeClient]
    ever handed out for that connection is closed (its reader sees the end of
    the stream), [initializeClient] on it fails, and the manager does not map
    any host to it again. *)
Theorem shutdown_releases_all_clients (w w' : world) (p : nat) (m : multiplexer) :
  reachable w -> heap w !! p = Some m -> phase m = Drained -> rtc step w w' ->
  (forall c ch, chans w' !! c = Some ch -> fst (ch_owner ch) = p -> ch_closed ch = true) /\
  (forall k, initializeClient p k w' = (w', Err BackendClosed)) /\
  (forall key, multiplexers w' !! key <> Some p).
Proof.
  intros I%reachable_Inv Hp HD H.
  destruct (steps_evolves w w' p m I H Hp) as (m' & Hp' & Ev).
  pose proof (Inv_steps w w' I H) as I'.
  assert (phase m' = Drained) as HD'.
  { pose proof (ev_phase m m' Ev) as R. rewrite HD in R. destruct (phase m'); simpl in R; lia || done. }
  split_and!.
  - intros c ch. by eapply drained_closed.
  - intros k. unfold initializeClient. rewrite Hp'.
    destruct (inv_mux w' I' p m' Hp') as [[] _]. by rewrite ok_done0 HD'.
  - eapply not_managed; eauto.
Qed.

(** C17: frames reach the backend in the order in which they were queued, each
    at most once: in every reachable state what has been written to the
    WebSocket is a prefix of what was accepted into the queue, and, as long as
    the writing goroutine runs, the rest is exactly what is still queued; both
    histories only grow.  No queued frame exceeds the wire limit. *)
Theorem frames_in_order (w w' : world) (p : nat) (m : multiplexer) :
  reachable w -> rtc step w w' -> heap w !! p = Some m ->
  exists m', heap w' !! p = Some m' /\
    accepted m `prefix_of` accepted m' /\ written m `prefix_of` written m' /\
    written m' `prefix_of` accepted m' /\
    (writerStopped m' = false -> accepted m' = written m' ++ messagesToBackend m') /\
    Forall (fun f => go_len f <= MaxWireMessageBytes) (accepted m').
Proof.
  intros I%reachable_Inv H Hp.
  destruct (steps_evolves w w' p m I H Hp) as (m' & Hp' & []).
  destruct (inv_mux w' (Inv_steps w w' I H) p m' Hp') as [[] _].
  exists m'. split_and!; try done.
  - destruct (writerStopped m'); [done|]. rewrite ok_order0. by apply prefix_app_r.
  - intros HS. by rewrite HS in ok_order0.
Qed.

(** C19: the API-Key capability gate.  In every reachable state, any frame of a
    backend connection that parses as a connection request whose URL carries an
    API-Key token was queued on a connection that declared the key
    capabilities; a connection without them never receives such a request. *)
Theorem key_trace_gate (w : world) (p : nat) (m : multiplexer) (frame : string) (msg : Message) :
  reachable w -> heap w !! p = Some m -> frame ∈ accepted m ->
  ParseMessageSafe frame = Ok msg -> Type_ msg = Connect -> keyTraceURL (Body_ msg) = true ->
  keyTraceCapable m = true.
Proof.
  intros I%reachable_Inv Hp Hf HP HT HU. destruct (inv_mux w I p m Hp) as [[] _].
  rewrite -> Forall_forall in ok_frames0, ok_sizes0.
  destruct (ok_frames0 frame Hf) as (k & t & b & Hk & Ht & -> & G).
  rewrite (format_parse k t b Hk Ht (ok_sizes0 _ Hf)) in HP.
  injection HP as <-. by apply G.
Qed.

(** every operation of the manager and every iteration of the two
    goroutines of [routeMessages] is a run of the interleaving semantics: from
    a reachable state, with fresh identifiers and well-formed keys, the state it
    returns is reachable again. *)
Theorem api_refines_steps (o : op) (w w' : world) :
  reachable w -> op_ok o w -> run_op o w = Some w' -> reachable w'.
Proof.
  intros R OK H. pose proof (reachable_Inv w R) as I. unfold reachable in *.
  etrans; [exact R|]. by eapply run_op_steps.
Qed.

Lemma reachable_trans w w' : reachable w -> rtc step w w' -> reachable w'.
Proof. unfold reachable. intros H1 H2. by etrans. Qed.

Lemma close_all_multiplexers l v : multiplexers (close_all l v) = multiplexers v.
Proof.
  induction l as [|kc l IH]; [done|]. simpl. rewrite -IH. unfold close_chan. by repeat case_match.
Qed.

(** The whole of [shutdown] on a running multiplexer that the manager has
    already replaced: its own object is drained, the map is untouched. *)
Lemma shutdown_replaced w q n p m :
  heap w !! q = Some n -> phase n = Running -> p <> q ->
  multiplexers w !! backendKey n = Some p -> heap w !! p = Some m ->
  backendSessionID m <> backendSessionID n ->
  multiplexers (shutdown q w) = multiplexers w /\ heap (shutdown q w) !! p = Some m /\
  heap (shutdown q w) !! q = Some (set_phase Drained (set_frontends ∅ (set_phase Removed (set_done n)))).
Proof.
  intros Hq HR Npq Hk Hp Hs. unfold shutdown. rewrite Hq bool_decide_eq_true_2 //.
  unfold shutdown_begin. rewrite Hq. unfold shutdown_remove. simpl. rewrite lookup_insert_eq. simpl.
  unfold removeBackend. simpl. rewrite Hk lookup_insert_ne // Hp bool_decide_eq_false_2 //.
  unfold shutdown_drain. simpl. rewrite lookup_insert_eq. simpl.
  rewrite close_all_multiplexers close_all_heap. simpl.
  split_and!; [done| |by rewrite lookup_insert_eq].
  by rewrite !lookup_insert_ne.
Qed.

(** a reconnecting backend takes over its host key.  After
    [addBackendWithKeyCapabilities] for a host that has a running connection,
    the manager maps the host to the new connection (with the capability and
    the ticket of the new handshake) and every other host as before; the
    replaced connection is shut down, all its clients' channels are closed, and
    its late [removeBackend] does not remove the new registration. *)
Theorem addBackend_replaces (w : world) (key : string) (q : nat) (n : multiplexer)
  (capable : bool) (token sessionID : string) :
  reachable w -> multiplexers w !! key = Some q -> heap w !! q = Some n -> phase n = Running ->
  backendSessionID n <> sessionID ->
  let w' := addBackendWithKeyCapabilities key capable token sessionID w in
  multiplexers w' = <[key:=next_id w]> (multiplexers w) /\
  supportsKeyTraces key w' = capable /\ backendTicket key w' = token /\
  (exists n', heap w' !! q = Some n' /\ phase n' = Drained /\ connectionClosed n' = true) /\
  (forall c ch, chans w' !! c = Some ch -> fst (ch_owner ch) = q -> ch_closed ch = true).
Proof.
  intros I%reachable_Inv Hk Hq HR Hs w'.
  pose proof (Inv_steps _ _ I (add_steps w key capable token sessionID I)) as I'. fold w' in I'.
  assert (q <> next_id w) as Nq.
  { intros ->. apply (inv_mux w I) in Hq as [_ Hq]. lia. }
  destruct (inv_manager w I key q Hk) as (n1 & Hn1 & Hkey & _).
  rewrite Hq in Hn1. injection Hn1 as <-.
  edestruct (shutdown_replaced (fst (fst (register_backend key capable token sessionID w)))
    q n (next_id w)) as (Em & Ep & Eq); simpl.
  { by rewrite lookup_insert_ne. } { done. } { done. }
  { by rewrite Hkey lookup_insert_eq. } { by rewrite lookup_insert_eq. } { done. }
  assert (w' = shutdown q (fst (fst (register_backend key capable token sessionID w)))) as Ew.
  { unfold w', addBackendWithKeyCapabilities. simpl. by rewrite Hk. }
  rewrite -Ew in Em, Ep, Eq. simpl in Em.
  unfold supportsKeyTraces, backendTicket, current_mux. rewrite Em lookup_insert_eq. simpl.
  rewrite Ep. split_and!; [done..| |].
  - eexists. split; [exact Eq|done].
  - intros c ch. by eapply drained_closed.
Qed.
End Steps.

(** ** Witnesses *)

Module Demo.
(** One backend [host], one client [k1], one queued connection request; URLs
    that start with [key] carry an API-Key token. *)
Definition keyURL (u : string) : bool := has_prefix u "key".
Definition w1 : world := addBackendWithKeyCapabilities "host" true "ticket" "s1" initial_world.
Definition w2 : world := fst (mgr_initializeClient "host" "k1" w1).
Definition w3 : world := default w2 (fst <$> mgr_connect keyURL SelSend "host" "k1" "key/v1/exec" w2).
Definition w4 : world := shutdown 0 w3.

Definition mux0 (w : world) : multiplexer :=
  default (mkMux false "" "" "" [] [] [] false ∅ false false Running) (heap w !! 0%nat).

Lemma k1_wire : wire_key "k1".
Proof. split; [vm_compute; split; discriminate|reflexivity]. Qed.

Lemma w1_reachable : reachable keyURL w1.
Proof. apply (add_steps keyURL), Inv_initial. Qed.

Lemma w2_reachable : reachable keyURL w2.
Proof.
  eapply reachable_trans; [apply w1_reachable|]. apply (run_op_steps keyURL (OpInit "host" "k1")); [| |done].
  - apply reachable_Inv, w1_reachable.
  - intros m [= <-]. reflexivity.
Qed.

Lemma w3_reachable : reachable keyURL w3.
Proof.
  eapply reachable_trans; [apply w2_reachable|].
  apply (run_op_steps keyURL (OpConnect SelSend "host" "k1" "key/v1/exec")); [| |reflexivity].
  - apply reachable_Inv, w2_reachable.
  - apply k1_wire.
Qed.

Lemma w4_reachable : reachable keyURL w4.
Proof.
  eapply reachable_trans; [apply w3_reachable|]. eapply shutdown_steps; [reflexivity|].
  apply reachable_Inv, w3_reachable.
Qed.
End Demo.

Lemma multiplexer_never_panics_witness : panicked Demo.w4 = false.
Proof. apply (proj1 (multiplexer_never_panics Demo.keyURL Demo.w4 Demo.w4_reachable)). Defined.

Lemma shutdown_releases_all_clients_witness :
  chans Demo.w4 !! 1%nat = Some (mkChan (0%nat, "k1") true []) /\
  initializeClient 0 "k2" Demo.w4 = (Demo.w4, Err BackendClosed).
Proof.
  split; [vm_compute; reflexivity|].
  eapply (shutdown_releases_all_clients Demo.keyURL Demo.w4 Demo.w4 0).
  - apply Demo.w4_reachable.
  - reflexivity.
  - reflexivity.
  - apply rtc_refl.
Defined.

Lemma frames_in_order_witness :
  exists m', heap Demo.w4 !! 0%nat = Some m' /\ written m' `prefix_of` accepted m'.
Proof.
  destruct (frames_in_order Demo.keyURL Demo.w4 Demo.w4 0 (Demo.mux0 Demo.w4))
    as (m' & H & _ & _ & P & _).
  - apply Demo.w4_reachable.
  - apply rtc_refl.
  - reflexivity.
  - exists m'. split; [exact H|exact P].
Defined.

Lemma key_trace_gate_witness : keyTraceCapable (Demo.mux0 Demo.w3) = true.
Proof.
  apply (key_trace_gate Demo.keyURL Demo.w3 0
    (Demo.mux0 Demo.w3)
    "k1||0||key/v1/exec" (mkMessage "k1" Connect "key/v1/exec")).
  - apply Demo.w3_reachable.
  - reflexivity.
  - vm_compute. left.
  - vm_compute. reflexivity.
  - reflexivity.
  - reflexivity.
Defined.

Lemma api_refines_steps_witness :
  reachable Demo.keyURL (default Demo.w3 (fst <$> write_iteration 0 (WriteMessage true) Demo.w3)).
Proof.
  apply (api_refines_steps Demo.keyURL (OpWrite 0 (WriteMessage true)) Demo.w3).
  - apply Demo.w3_reachable.
  - eexists. split; [reflexivity|]. reflexivity.
  - reflexivity.
Defined.

Lemma addBackend_replaces_witness :
  let w' := addBackendWithKeyCapabilities "host" false "ticket2" "s2" Demo.w3 in
  supportsKeyTraces "host" w' = false /\ backendTicket "host" w' = "ticket2".
Proof.
  destruct (addBackend_replaces Demo.keyURL Demo.w3 "host" 0
    (Demo.mux0 Demo.w3)
    false "ticket2" "s2") as (_ & H1 & H2 & _).
  - apply Demo.w3_reachable.
  - reflexivity.
  - reflexivity.
  - reflexivity.
  - vm_compute. discriminate.
  - split; [exact H1|exact H2].
Defined.
