(* ===== verification/Backend.v ===== *)
(** * The [backendProxy] interface

    [proxy/backend_proxy_manager.go] declares the interface the frontend
    handlers, the statistics handler and the persistent sessions use to talk to
    a host.  Here it is a class: its operations, and the laws its clients rely
    on.  The class is implemented by the backend proxy manager of
    [Multiplexer]; the select statements of the implementation are resolved by
    the policy [pick_case] (take a ready queue slot first). *)

From S2P Require Import Prelude GoString Message Multiplexer.

(** ** The interface *)

Class backendProxy (B : Type) := {
  (* the response channel of this client is still open *)
  bp_open : B -> string -> string -> bool;
  (* register a client for this host *)
  bp_initializeClient : B -> string -> string -> B * result mux_error string;
  (* [initializeForURL]: register a client for this host; the last argument is
     the identifier [common.NewRandomUUID] returned *)
  bp_initializeForURL : B -> string -> string -> string -> B * result mux_error string;
  bp_connect : B -> string -> string -> string -> B * result mux_error unit;
  bp_send : B -> string -> string -> string -> B * bool;
  bp_closeConnection : B -> string -> string -> B * bool;
  bp_releaseConnection : B -> string -> string -> B * bool;
  bp_hasBackend : B -> string -> bool;
  bp_supportsKeyTraces : B -> string -> bool;
  bp_backendTicket : B -> string -> string;
  (* laws *)
  bp_initializeClient_law : forall b host uuid b' key,
    bp_initializeClient b host uuid = (b', Ok key) -> bp_open b' host key = true;
  bp_initialize_law : forall b host url uuid b' key,
    bp_initializeForURL b host url uuid = (b', Ok key) -> bp_open b' host key = true;
  bp_close_law : forall b host key b' ok,
    bp_closeConnection b host key = (b', ok) -> bp_open b' host key = false;
  bp_close_mono : forall b host key b' ok,
    bp_closeConnection b host key = (b', ok) ->
    forall h k, bp_open b' h k = true -> bp_open b h k = true;
  bp_release_law : forall b host key b' ok,
    bp_releaseConnection b host key = (b', ok) -> bp_open b' host key = false;
  bp_send_law : forall b host key data b' ok,
    bp_send b host key data = (b', ok) ->
    forall h k, bp_open b' h k = bp_open b h k }.

(** ** The manager implements it *)

(** The select case taken: a free slot of the queue, then the closed [done]
    channel, then the timer. *)
Definition pick_case (p : nat) (w : world) : select_case :=
  match heap w !! p with
  | Some m => if (length (messagesToBackend m) <? queue_capacity)%nat then SelSend
              else if done_ m then SelDone else SelTimer
  | None => SelTimer
  end.

Definition pick_case_for (key : string) (w : world) : select_case :=
  match multiplexers w !! key with Some p => pick_case p w | None => SelTimer end.

Definition finish (w : world) (o : option (world * result mux_error unit)) : world * bool :=
  match o with Some (w', r) => (w', is_Ok r) | None => (w, false) end.

Section Manager.
Context (keyTraceURL : string -> bool).

Definition mgr_open (w : world) (host key : string) : bool :=
  match current_mux host w with
  | Some m => match frontendChans m !! key with Some _ => true | None => false end
  | None => false
  end.

(** What an operation that only queues frames leaves alone. *)
Definition same_clients (w w' : world) : Prop :=
  multiplexers w' = multiplexers w /\
  forall p, (frontendChans <$> heap w' !! p) = (frontendChans <$> heap w !! p).

Lemma same_clients_open w w' : same_clients w w' -> forall h k, mgr_open w' h k = mgr_open w h k.
Proof.
  intros [E H] h k. unfold mgr_open, current_mux. rewrite E.
  destruct (multiplexers w !! h) as [p|]; [|done]. simpl. specialize (H p).
  destruct (heap w' !! p), (heap w !! p); simpl in *; simplify_eq; [|done].
  by rewrite H.
Qed.

Lemma enqueue_same_clients sel p f w w' r :
  enqueue sel p f w = Some (w', r) -> same_clients w w'.
Proof.
  unfold enqueue. intros H. repeat case_match; simplify_eq; try by split.
  split; [done|]. intros q. simpl. rewrite lookup_insert. case_decide as D; [|done].
  subst q. by rewrite H1.
Qed.

Lemma close_locked_open w key p msgKey :
  multiplexers w !! key = Some p -> mgr_open (close_locked p msgKey w) key msgKey = false.
Proof.
  intros Hk. unfold close_locked, mgr_open, current_mux.
  destruct (heap w !! p) as [m|] eqn:Hp; simpl; [|by rewrite Hk /= Hp].
  destruct (frontendChans m !! msgKey) as [c|] eqn:Hc; simpl.
  - assert (multiplexers (close_chan c w) = multiplexers w) as -> by
      (unfold close_chan; by repeat case_match).
    rewrite Hk /= lookup_insert_eq /= lookup_delete_eq //.
  - by rewrite Hk /= Hp Hc.
Qed.

(** The chosen case is always ready, so the operation does not block. *)
Lemma pick_case_ready p f w : is_Some (enqueue (pick_case p w) p f w).
Proof.
  unfold enqueue, pick_case. destruct (_ <? _); [by eexists|].
  destruct (heap w !! p) as [m|]; [|by eexists].
  destruct (_ <? _)%nat; [by eexists|]. destruct (done_ m); by eexists.
Qed.

Lemma mgr_close_spec w host key :
  exists w' r, mgr_closeConnection (pick_case_for host w) host key w = Some (w', r) /\
    mgr_open w' host key = false.
Proof.
  unfold mgr_closeConnection, pick_case_for.
  destruct (multiplexers w !! host) as [p|] eqn:Hk.
  - destruct (pick_case_ready p (FormatMessage key Close "") w) as [[w1 r] E].
    exists (close_locked p key w1), r. unfold closeConnection, sendClose. rewrite E. split; [done|].
    apply close_locked_open. apply enqueue_same_clients in E as [-> _]. done.
  - exists w, (Err (NoBackend host)). split; [done|]. unfold mgr_open, current_mux. by rewrite Hk.
Qed.

(** [initializeForURL] of [key_backend_capability.go] on the manager, which
    implements [keyTraceInitializer]. *)
Definition initializeForURL (w : world) (host target uuid : string)
  : world * result mux_error (string * nat) :=
  if keyTraceURL target then initializeKeyClient host uuid w
  else mgr_initializeClient host uuid w.

Definition bm_initializeClient (w : world) (host uuid : string) : world * result mux_error string :=
  let '(w', r) := mgr_initializeClient host uuid w in (w', r ≫= fun kc => Ok (fst kc)).

Definition bm_initialize (w : world) (host target uuid : string) : world * result mux_error string :=
  let '(w', r) := initializeForURL w host target uuid in (w', r ≫= fun kc => Ok (fst kc)).

Lemma initializeClient_open w host p uuid w' k c :
  multiplexers w !! host = Some p -> initializeClient p uuid w = (w', Ok (k, c)) ->
  mgr_open w' host k = true.
Proof.
  intros Hk. unfold initializeClient. destruct (heap w !! p) as [m|] eqn:Hp; [|done].
  destruct (done_ m); [done|]. intros [= <- <- <-]. unfold mgr_open, current_mux. simpl.
  by rewrite Hk /= lookup_insert_eq /= lookup_insert_eq.
Qed.

Lemma bm_initializeClient_law w host uuid w' key :
  bm_initializeClient w host uuid = (w', Ok key) -> mgr_open w' host key = true.
Proof.
  unfold bm_initializeClient, mgr_initializeClient.
  destruct (multiplexers w !! host) as [p|] eqn:Hk; [|done].
  destruct (initializeClient p uuid w) as [w1 [[k c]|e]] eqn:E; simpl; intros [= <- ->].
  by eapply initializeClient_open.
Qed.

Lemma bm_initialize_law w host url uuid w' key :
  bm_initialize w host url uuid = (w', Ok key) -> mgr_open w' host key = true.
Proof.
  unfold bm_initialize. destruct (initializeForURL w host url uuid) as [w1 r] eqn:E.
  destruct r as [[k c]|e]; simpl; intros [= <- ->].
  unfold initializeForURL, initializeKeyClient, mgr_initializeClient in E.
  destruct (multiplexers w !! host) as [p|] eqn:Hk; repeat case_match; simplify_eq;
    by eapply initializeClient_open.
Qed.

Definition bm_connect (w : world) (host key url : string) : world * result mux_error unit :=
  default (w, Err QueueTimeout) (mgr_connect keyTraceURL (pick_case_for host w) host key url w).
Definition bm_send (w : world) (host key data : string) : world * bool :=
  finish w (mgr_send (pick_case_for host w) host key data w).
Definition bm_close (w : world) (host key : string) : world * bool :=
  finish w (mgr_closeConnection (pick_case_for host w) host key w).
Definition bm_release (w : world) (host key : string) : world * bool :=
  finish w (mgr_releaseConnection host key w).

Lemma bm_close_law w host key w' ok : bm_close w host key = (w', ok) -> mgr_open w' host key = false.
Proof.
  unfold bm_close. destruct (mgr_close_spec w host key) as (w1 & r & -> & O). by intros [= <- _].
Qed.

Lemma close_locked_mono w p msgKey h k :
  mgr_open (close_locked p msgKey w) h k = true -> mgr_open w h k = true.
Proof.
  unfold close_locked, mgr_open, current_mux. destruct (heap w !! p) as [m|] eqn:Hp; [|done]. simpl.
  destruct (frontendChans m !! msgKey) as [c|]; [|done]. simpl.
  assert (multiplexers (close_chan c w) = multiplexers w) as -> by (unfold close_chan; by repeat case_match).
  assert (heap (close_chan c w) = heap w) as -> by (unfold close_chan; by repeat case_match).
  destruct (multiplexers w !! h) as [q|]; [|done]. simpl. rewrite lookup_insert. case_decide as D; [subst q|done].
  rewrite Hp /=. rewrite lookup_delete. by case_decide.
Qed.

Lemma bm_close_mono w host key w' ok :
  bm_close w host key = (w', ok) -> forall h k, mgr_open w' h k = true -> mgr_open w h k = true.
Proof.
  unfold bm_close, mgr_closeConnection, pick_case_for. intros E h k O.
  destruct (multiplexers w !! host) as [p|] eqn:Hk; simpl in E; [|by injection E as <- _].
  unfold closeConnection, sendClose in E.
  destruct (pick_case_ready p (FormatMessage key Close "") w) as [[w1 r] Eq]. rewrite Eq /= in E.
  injection E as <- _. apply close_locked_mono in O. apply enqueue_same_clients in Eq.
  by rewrite -(same_clients_open _ _ Eq).
Qed.

Lemma bm_release_law w host key w' ok :
  bm_release w host key = (w', ok) -> mgr_open w' host key = false.
Proof.
  unfold bm_release, mgr_releaseConnection.
  destruct (multiplexers w !! host) as [p|] eqn:Hk; simpl; intros [= <- _].
  - by apply close_locked_open.
  - unfold mgr_open, current_mux. by rewrite Hk.
Qed.

Lemma bm_send_law w host key data w' ok :
  bm_send w host key data = (w', ok) -> forall h k, mgr_open w' h k = mgr_open w h k.
Proof.
  unfold bm_send, mgr_send, send.
  destruct (multiplexers w !! host) as [p|] eqn:Hk; simpl; [|by intros [= <- _]].
  destruct (enqueue _ _ _ _) as [[w1 r]|] eqn:E; simpl; intros [= <- _]; [|done].
  intros h k. apply same_clients_open. by eapply enqueue_same_clients.
Qed.

Definition manager_backendProxy : backendProxy world := {|
  bp_open := mgr_open;
  bp_initializeClient := bm_initializeClient;
  bp_initializeForURL := bm_initialize;
  bp_connect := bm_connect;
  bp_send := bm_send;
  bp_closeConnection := bm_close;
  bp_releaseConnection := bm_release;
  bp_hasBackend w host := hasBackend host w;
  bp_supportsKeyTraces w host := supportsKeyTraces host w;
  bp_backendTicket w host := backendTicket host w;
  bp_initializeClient_law := bm_initializeClient_law;
  bp_initialize_law := bm_initialize_law;
  bp_close_law := bm_close_law;
  bp_close_mono := bm_close_mono;
  bp_release_law := bm_release_law;
  bp_send_law := bm_send_law |}.
End Manager.
