(* ===== verification/Session.v ===== *)
(** * A persistent console session

    Models the session object of [proxy/persistent_session_handler.go]: its
    status machine, the bounded replay buffer, the attached browser tabs and
    which of them controls the terminal, the revocation of a delegated ticket,
    and the traffic to the backend through the [backendProxy] interface.

    A session [p] of the store is handled through [sys], the session together
    with the client objects it points to, the backend, and the calls it made.
    Each operation is one method run under [session.mu] (or a sequence of such
    critical sections, in the order of the source); [now] is the [time.Now()]
    the method reads, in nanoseconds.  [writeInput] and [resize] check their guard
    under the lock and send after releasing it: what has passed its guard and is
    not sent yet is kept in the ghost field [inflight], so that histories can put
    other operations in between. *)

From S2P Require Import Prelude GoString Message Multiplexer Backend.

(** ** Data *)

Definition workspaceMaxClientFrame : Z := 96 * 1024.
Definition workspaceClientQueueSize : nat := 256.

Inductive session_status := Connecting | Connected | Closing | Ended | Errored.

#[export] Instance session_status_eq_dec : EqDecision session_status.
Proof. solve_decision. Defined.

Definition status_string (st : session_status) : string :=
  match st with
  | Connecting => "connecting" | Connected => "connected" | Closing => "closing"
  | Ended => "ended" | Errored => "error"
  end.

Record workspaceReplayEntry := mkEntry { Sequence : Z; Data : string }.

#[export] Instance workspaceReplayEntry_eq_dec : EqDecision workspaceReplayEntry.
Proof. solve_decision. Defined.

(** The fields of [workspaceServerFrame] a frame sets; times are instants, not
    their RFC 3339 rendering. *)
Record workspaceServerFrame := mkFrame {
  f_Type : string;
  f_Code : string;
  f_Message : string;
  f_SessionID : string;
  f_Kind : string;
  f_Status : string;
  f_ControllerID : string;
  f_Sequence : Z;
  f_Data : string;
  f_CreatedAt : option Z;
  f_LastActivity : option Z;
  f_Replay : list workspaceReplayEntry }.

#[export] Instance workspaceServerFrame_eq_dec : EqDecision workspaceServerFrame.
Proof. solve_decision. Defined.

Record workspaceClientFrame := mkClientFrame {
  cf_Type : string; cf_Data : string; cf_Cols : Z; cf_Rows : Z }.

(** A browser tab: the pending frames of its [send] channel, whether [close] has
    run, the close control frames (code, reason) and the text messages written
    to its WebSocket. *)
Record workspaceClient := mkClient {
  clientID : string;
  sendQueue : list workspaceServerFrame;
  cl_done : bool;
  closeFrames : list (Z * string);
  written : list workspaceServerFrame }.

Definition CloseNormalClosure : Z := 1000.
Definition CloseTryAgainLater : Z := 1013.
Definition backendAuditCapabilityCode : string := "BackendAuditCapabilityUnavailable".

(** [closeForBackendOutcome]: the close frame a backend outcome asks for. *)
Definition closeForBackendOutcome (body : string) : list (Z * string) :=
  (if bool_decide (body = "AuditUnavailable:503")
   then [(CloseTryAgainLater, "AuditUnavailable (503)")] else []) ++
  (if bool_decide (body = backendAuditCapabilityCode +:+ ":503")
   then [(CloseTryAgainLater, backendAuditCapabilityCode +:+ " (503)")] else []).

(** A send of [writeInput] or [resize] that passed its guard: the client object,
    the data, and the error frame it is answered with if the send fails. *)
Record pending_send := mkPending {
  ps_client : nat; ps_data : string; ps_code : string; ps_message : string }.

Record persistentSession := mkSession {
  s_id : string;
  kind : string;
  hostKey : string;
  msgKey : string;
  secretHash : string;
  status : session_status;
  controller : string;
  createdAt : Z;
  lastActivity : Z;
  endedAt : option Z;
  closeOnce : bool;
  nextSequence : Z;                  (* uint64 *)
  replayBytes : Z;
  maxReplayBytes : Z;
  replay : list workspaceReplayEntry;
  clients : gmap string nat;
  delegationCheck : bool;            (* a live check is installed *)
  delegationStop : bool;             (* the watcher's cancel function is installed *)
  delegationRevoked : bool;
  watching : bool;                   (* the watcher of [verifier.Watch] is running *)
  inflight : list pending_send }.    (* goroutines between guard and send, see [SGuard] *)

(** Calls to the backend made by the session, oldest first. *)
Inductive backend_call :=
| CallSend (host key data : string)
| CallClose (host key : string)
| CallRelease (host key : string).

#[export] Instance backend_call_eq_dec : EqDecision backend_call.
Proof. solve_decision. Defined.

(** *** Field updates *)

(** [if stop != nil { stop() }] *)
Definition stopped (s : persistentSession) : bool := watching s && negb (delegationStop s).
Definition upd_status st now (s : persistentSession) : persistentSession :=
  mkSession (s_id s) (kind s) (hostKey s) (msgKey s) (secretHash s) st (controller s) (createdAt s)
    now (endedAt s) (closeOnce s) (nextSequence s) (replayBytes s) (maxReplayBytes s)
    (replay s) (clients s) (delegationCheck s) (delegationStop s) (delegationRevoked s) (watching s) (inflight s).
Definition upd_once (s : persistentSession) : persistentSession :=
  mkSession (s_id s) (kind s) (hostKey s) (msgKey s) (secretHash s) (status s) (controller s)
    (createdAt s) (lastActivity s) (endedAt s) true (nextSequence s) (replayBytes s)
    (maxReplayBytes s) (replay s) (clients s) (delegationCheck s) (delegationStop s)
    (delegationRevoked s) (watching s) (inflight s).
Definition upd_ended now (s : persistentSession) : persistentSession :=
  mkSession (s_id s) (kind s) (hostKey s) (msgKey s) (secretHash s) Ended "" (createdAt s)
    now (Some now) (closeOnce s) (nextSequence s) (replayBytes s) (maxReplayBytes s)
    (replay s) (clients s) (delegationCheck s) (delegationStop s) (delegationRevoked s)
    (stopped s) (inflight s).
Definition upd_clients cl ctl (s : persistentSession) : persistentSession :=
  mkSession (s_id s) (kind s) (hostKey s) (msgKey s) (secretHash s) (status s) ctl (createdAt s)
    (lastActivity s) (endedAt s) (closeOnce s) (nextSequence s) (replayBytes s) (maxReplayBytes s)
    (replay s) cl (delegationCheck s) (delegationStop s) (delegationRevoked s) (watching s) (inflight s).
Definition upd_activity now (s : persistentSession) : persistentSession := upd_status (status s) now s.
Definition upd_replay seq bytes entries (s : persistentSession) : persistentSession :=
  mkSession (s_id s) (kind s) (hostKey s) (msgKey s) (secretHash s) (status s) (controller s)
    (createdAt s) (lastActivity s) (endedAt s) (closeOnce s) seq bytes (maxReplayBytes s)
    entries (clients s) (delegationCheck s) (delegationStop s) (delegationRevoked s) (watching s) (inflight s).
Definition upd_revoked (s : persistentSession) : persistentSession :=
  mkSession (s_id s) (kind s) (hostKey s) (msgKey s) (secretHash s) (status s) (controller s)
    (createdAt s) (lastActivity s) (endedAt s) (closeOnce s) (nextSequence s) 0
    (maxReplayBytes s) [] (clients s) (delegationCheck s) (delegationStop s) true (stopped s) (inflight s).
Definition upd_delegation chk stop watch (s : persistentSession) : persistentSession :=
  mkSession (s_id s) (kind s) (hostKey s) (msgKey s) (secretHash s) (status s) (controller s)
    (createdAt s) (lastActivity s) (endedAt s) (closeOnce s) (nextSequence s) (replayBytes s)
    (maxReplayBytes s) (replay s) (clients s) chk stop (delegationRevoked s) watch (inflight s).
Definition upd_inflight l (s : persistentSession) : persistentSession :=
  mkSession (s_id s) (kind s) (hostKey s) (msgKey s) (secretHash s) (status s) (controller s)
    (createdAt s) (lastActivity s) (endedAt s) (closeOnce s) (nextSequence s) (replayBytes s)
    (maxReplayBytes s) (replay s) (clients s) (delegationCheck s) (delegationStop s)
    (delegationRevoked s) (watching s) l.

(** *** Frames *)

Definition status_frame (s : persistentSession) (ctl : string) : workspaceServerFrame :=
  mkFrame "status" "" "" "" "" (status_string (status s)) ctl 0 "" None (Some (lastActivity s)) [].
Definition controlFrameLocked (s : persistentSession) : workspaceServerFrame :=
  mkFrame "control" "" "" (s_id s) "" (status_string (status s)) (controller s) 0 "" None None [].
Definition output_frame (s : persistentSession) (e : workspaceReplayEntry) : workspaceServerFrame :=
  mkFrame "output" "" "" (s_id s) "" (status_string (status s)) "" (Sequence e) (Data e) None None [].
Definition hello_frame (s : persistentSession) : workspaceServerFrame :=
  mkFrame "hello" "" "" (s_id s) (kind s) (status_string (status s)) (controller s) 0 ""
    (Some (createdAt s)) (Some (lastActivity s)) [].
Definition replay_frame (s : persistentSession) : workspaceServerFrame :=
  mkFrame "replay" "" "" (s_id s) "" "" "" 0 "" None None (replay s).
Definition error_frame (code_ message : string) : workspaceServerFrame :=
  mkFrame "error" code_ message "" "" "" "" 0 "" None None [].
Definition pong_frame : workspaceServerFrame :=
  mkFrame "pong" "" "" "" "" "" "" 0 "" None None [].

(** ** Client objects *)

(** [enqueue]: false when the client is closed or its queue is full. *)
Definition enqueue_client (c : nat) (f : workspaceServerFrame) (h : gmap nat workspaceClient)
  : gmap nat workspaceClient * bool :=
  match h !! c with
  | None => (h, false)
  | Some cl =>
      if cl_done cl then (h, false)
      else if (length (sendQueue cl) <? workspaceClientQueueSize)%nat
           then (<[c:=mkClient (clientID cl) (sendQueue cl ++ [f]) false (closeFrames cl) (written cl)]> h, true)
           else (h, false)
  end.

(** [close], under its [sync.Once]. *)
Definition close_client (c : nat) (h : gmap nat workspaceClient) : gmap nat workspaceClient :=
  alter (fun cl => if cl_done cl then cl
                   else mkClient (clientID cl) (sendQueue cl) true
                          (closeFrames cl ++ [(CloseNormalClosure, "")]) (written cl)) c h.

Definition outcome_client (body : string) (c : nat) (h : gmap nat workspaceClient)
  : gmap nat workspaceClient :=
  alter (fun cl => mkClient (clientID cl) (sendQueue cl) (cl_done cl)
                     (closeFrames cl ++ closeForBackendOutcome body) (written cl)) c h.

(** The body of the loop of [broadcastLocked]. *)
Definition deliver (f : workspaceServerFrame) (c : nat) (h : gmap nat workspaceClient)
  : gmap nat workspaceClient :=
  let '(h', ok) := enqueue_client c f h in if ok then h' else close_client c h'.

Definition broadcastLocked (s : persistentSession) (f : workspaceServerFrame)
  (h : gmap nat workspaceClient) : gmap nat workspaceClient :=
  foldr (fun idc h => deliver f (snd idc) h) h (map_to_list (clients s)).

(** ** The replay buffer *)

Definition entry_size (e : workspaceReplayEntry) : Z := go_len (Data e) + 32.

(** [for s.replayBytes > s.maxReplayBytes && len(s.replay) > 0] of
    [appendOutput]. *)
Fixpoint trim_replay (max bytes : Z) (l : list workspaceReplayEntry)
  : Z * list workspaceReplayEntry :=
  match l with
  | [] => (bytes, [])
  | removed :: rest =>
      if max <? bytes then trim_replay max (bytes - entry_size removed) rest else (bytes, l)
  end.

Definition push_replay (e : workspaceReplayEntry) (s : persistentSession)
  : Z * list workspaceReplayEntry :=
  if entry_size e <=? maxReplayBytes s
  then trim_replay (maxReplayBytes s) (replayBytes s + entry_size e) (replay s ++ [e])
  else (replayBytes s, replay s).

Definition uint64 (z : Z) : Z := z mod 2 ^ 64.

(** ** The methods of the session *)

Section Session.
Context {B : Type} `{BP : backendProxy B}.

Record sys := mkSys {
  ses : persistentSession;
  tabs : gmap nat workspaceClient;
  be : B;
  calls : list backend_call }.

Definition set_ses (s : persistentSession) (y : sys) : sys := mkSys s (tabs y) (be y) (calls y).
Definition set_tabs (h : gmap nat workspaceClient) (y : sys) : sys :=
  mkSys (ses y) h (be y) (calls y).
Definition broadcast (f : workspaceServerFrame) (y : sys) : sys :=
  set_tabs (broadcastLocked (ses y) f (tabs y)) y.
Definition enqueueJSON (c : nat) (f : workspaceServerFrame) (y : sys) : sys :=
  set_tabs (fst (enqueue_client c f (tabs y))) y.

Definition inactive (st : session_status) : bool :=
  bool_decide (st = Ended) || bool_decide (st = Errored).

Definition appendOutput (now : Z) (data : string) (y : sys) : sys :=
  let s := ses y in
  if inactive (status s) || bool_decide (status s = Closing) || delegationRevoked s then y
  else
    let s := upd_status Connected now s in
    let seq := uint64 (nextSequence s + 1) in
    let entry := mkEntry seq data in
    let '(bytes, entries) := push_replay entry s in
    let s := upd_replay seq bytes entries s in
    broadcast (output_frame s entry) (set_ses s y).

(** [addClient]; [c] is the new client object, whose identifier is [id]. *)
Definition addClient (now : Z) (c : nat) (id : string) (y : sys) : sys :=
  let s := ses y in
  if delegationRevoked s then set_tabs (close_client c (tabs y)) y
  else
    let y := match clients s !! id with
             | Some previous => set_tabs (close_client previous (tabs y)) y
             | None => y
             end in
    let s := upd_activity now (upd_clients (<[id:=c]> (clients s)) (controller s) s) in
    let s := if bool_decide (kind s = "terminal") && bool_decide (controller s = "")
                && negb (inactive (status s))
             then upd_clients (clients s) id s else s in
    let y := set_ses s y in
    let y := enqueueJSON c (hello_frame s) y in
    let y := enqueueJSON c (replay_frame s) y in
    broadcast (controlFrameLocked s) y.

(** The first key a [range] over the clients yields: any of them ([hint] names
    the run-time's choice). *)
Definition range_first (hint : string) (m : gmap string nat) : string :=
  match m !! hint with
  | Some _ => hint
  | None => match map_to_list m with [] => "" | (id, _) :: _ => id end
  end.

Definition removeClient (hint : string) (c : nat) (id : string) (y : sys) : sys :=
  let s := ses y in
  let cl := if bool_decide (clients s !! id = Some c) then delete id (clients s) else clients s in
  let y := if bool_decide (controller s = id)
           then let s := upd_clients cl (range_first hint cl) s in
                broadcast (controlFrameLocked s) (set_ses s y)
           else set_ses (upd_clients cl (controller s) s) y in
  set_tabs (close_client c (tabs y)) y.

Definition claimControl (now : Z) (c : nat) (id : string) (y : sys) : sys :=
  let s := ses y in
  if bool_decide (kind s = "terminal") && negb (inactive (status s))
     && bool_decide (clients s !! id = Some c)
  then let s := upd_activity now (upd_clients (clients s) id s) in
       broadcast (controlFrameLocked s) (set_ses s y)
  else y.

Definition touch (now : Z) (y : sys) : sys :=
  if bool_decide (status (ses y) = Connected) then set_ses (upd_activity now (ses y)) y else y.

Definition markEnded (now : Z) (y : sys) : sys :=
  if bool_decide (status (ses y) = Ended) then y
  else let s := upd_ended now (ses y) in
       broadcast (status_frame s "") (set_ses s y).

Definition call (k : backend_call) (b : B) (y : sys) : sys :=
  mkSys (ses y) (tabs y) b (calls y ++ [k]).

(** [terminate], under its [sync.Once]. *)
Definition terminate (now : Z) (y : sys) : sys :=
  if closeOnce (ses y) then y
  else
    let y := set_ses (upd_once (ses y)) y in
    if inactive (status (ses y)) then y
    else
      let s := upd_status Closing now (ses y) in
      let y := broadcast (status_frame s (controller s)) (set_ses s y) in
      let '(b, ok) := bp_closeConnection (be y) (hostKey s) (msgKey s) in
      let y := call (CallClose (hostKey s) (msgKey s)) b y in
      if ok then y else markEnded now y.

Definition closeClients (y : sys) : sys :=
  let s := ses y in
  set_tabs (foldr (fun idc h => close_client (snd idc) h) (tabs y) (map_to_list (clients s)))
    (set_ses (upd_clients ∅ "" s) y).

Definition revokeDelegation (now : Z) (y : sys) : sys :=
  closeClients (terminate now (set_ses (upd_revoked (ses y)) y)).

(** The guard of [writeInput] and [resize]. *)
Definition may_write (c : nat) (id : string) (s : persistentSession) : bool :=
  bool_decide (kind s = "terminal") && bool_decide (status s = Connected)
  && bool_decide (controller s = id) && bool_decide (clients s !! id = Some c).

Definition send_backend (now : Z) (c : nat) (data code_ message : string) (y : sys) : sys :=
  let s := ses y in
  let '(b, ok) := bp_send (be y) (hostKey s) (msgKey s) data in
  let y := call (CallSend (hostKey s) (msgKey s) data) b y in
  if ok then y else terminate now (enqueueJSON c (error_frame code_ message) y).

(** [writeInput] up to the release of the lock and the checks after it: the send
    it goes on with, if any. *)
Definition checkInput (c : nat) (id data : string) (y : sys) : sys * option pending_send :=
  if negb (may_write c id (ses y)) || (go_len data =? 0) || (workspaceMaxClientFrame <? go_len data)
  then (y, None)
  else match b64_decode data with
       | None => 
           (enqueueJSON c (error_frame "invalid_input" "Terminal input was not valid base64 data") y, None)
       | Some _ => (y, Some (mkPending c data "input_failed" "Unable to send terminal input"))
       end.

Definition checkResize (c : nat) (id : string) (cols rows : Z) (y : sys) : sys * option pending_send :=
  if negb (may_write c id (ses y)) || (cols <? 2) || (1000 <? cols) || (rows <? 2) || (1000 <? rows)
  then (y, None)
  else (y, Some (mkPending c (":resizeTTY:" +:+ itoa cols +:+ "," +:+ itoa rows)
                   "resize_failed" "Unable to resize terminal")).

(** The rest of [writeInput] and [resize]. *)
Definition sendPending (now : Z) (p : pending_send) (y : sys) : sys :=
  send_backend now (ps_client p) (ps_data p) (ps_code p) (ps_message p) (touch now y).

Definition sendChecked (now : Z) (r : sys * option pending_send) : sys :=
  match r with (y, Some p) => sendPending now p y | (y, None) => y end.

Definition writeInput (now : Z) (c : nat) (id data : string) (y : sys) : sys :=
  sendChecked now (checkInput c id data y).

Definition resize (now : Z) (c : nat) (id : string) (cols rows : Z) (y : sys) : sys :=
  sendChecked now (checkResize c id cols rows y).

Definition handleClientFrame (now : Z) (c : nat) (id : string) (f : workspaceClientFrame) (y : sys)
  : sys :=
  if bool_decide (cf_Type f = "claim") then claimControl now c id y
  else if bool_decide (cf_Type f = "input") then writeInput now c id (cf_Data f) y
  else if bool_decide (cf_Type f = "resize") then resize now c id (cf_Cols f) (cf_Rows f) y
  else if bool_decide (cf_Type f = "ping") then enqueueJSON c pong_frame y
  else y.

(** [handleClientFrame] on a frame of type input or resize, up to its send. *)
Definition checkFrame (c : nat) (id : string) (f : workspaceClientFrame) (y : sys)
  : sys * option pending_send :=
  if bool_decide (cf_Type f = "input") then checkInput c id (cf_Data f) y
  else if bool_decide (cf_Type f = "resize") then checkResize c id (cf_Cols f) (cf_Rows f) y
  else (y, None).

(** One iteration of [readLoop] whose message is not a JSON client frame. *)
Definition invalidFrame (c : nat) (y : sys) : sys :=
  enqueueJSON c (error_frame "invalid_frame" "Invalid console client frame") y.

(** One iteration of [writeLoop]: the select case taken, and whether the write
    succeeded; every return runs the deferred [close]. *)
Inductive write_event := WSend (ok : bool) | WTick (ok : bool) | WDone.

Definition writeLoop (c : nat) (ev : write_event) (y : sys) : sys :=
  let fail := set_tabs (close_client c (tabs y)) y in
  match tabs y !! c, ev with
  | Some cl, WSend ok =>
      match sendQueue cl with
      | [] => y
      | f :: q =>
          let cl' := mkClient (clientID cl) q (cl_done cl) (closeFrames cl)
                       (if ok then written cl ++ [f] else written cl) in
          let y := set_tabs (<[c:=cl']> (tabs y)) y in
          if ok then y else set_tabs (close_client c (tabs y)) y
      end
  | Some cl, WTick ok => if ok then y else fail
  | Some cl, WDone => if cl_done cl then fail else y
  | None, _ => y
  end.

(** [expired]: whether to remove, and whether the session was still active. *)
Definition expired (now activeRetention endedRetention : Z) (s : persistentSession) : bool * bool :=
  if inactive (status s)
  then (match endedAt s with Some t => endedRetention <=? now - t | None => false end, false)
  else (activeRetention <=? now - lastActivity s, true).

(** [matchesSecretHash]; [live] is the answer of the installed live check. *)
Definition matchesSecretHash (now : Z) (candidate : string) (live : bool) (y : sys) : sys * bool :=
  if negb (bool_decide (candidate = secretHash (ses y))) then (y, false)
  else if delegationRevoked (ses y) then (y, false)
  else if delegationCheck (ses y) && negb live then (revokeDelegation now y, false)
  else (y, true).

(** [bindDelegation]: the live check is installed and the watcher started; then
    its cancel function is installed, and called at once if the session ended or
    was revoked in between. *)
Definition bind_begin (s : persistentSession) : persistentSession :=
  upd_delegation true (delegationStop s) true s.
Definition bind_finish (s : persistentSession) : persistentSession :=
  upd_delegation (delegationCheck s) true
    (watching s && negb (inactive (status s) || delegationRevoked s)) s.
Definition bindDelegation (y : sys) : sys :=
  let y := set_ses (bind_begin (ses y)) y in set_ses (bind_finish (ses y)) y.

(** [closeForBackendOutcome] for every attached client. *)
Definition closeWithOutcome (body : string) (y : sys) : sys :=
  set_tabs (foldr (fun idc h => outcome_client body (snd idc) h) (tabs y)
              (map_to_list (clients (ses y)))) y.

(** [pump] on the messages the response channel yields before it is closed. *)
Fixpoint pump_loop (now : Z) (l : list Message) (y : sys) : sys :=
  match l with
  | [] => y
  | m :: l =>
      if bool_decide (Type_ m = Body) then pump_loop now l (appendOutput now (Body_ m) y)
      else if bool_decide (Type_ m = Close) then
        if bool_decide (Body_ m = "AuditUnavailable:503")
        then closeWithOutcome (Body_ m) y
        else y
      else pump_loop now l y
  end.

Definition pump (now : Z) (l : list Message) (y : sys) : sys :=
  let y := markEnded now (pump_loop now l y) in
  let '(b, _) := bp_releaseConnection (be y) (hostKey (ses y)) (msgKey (ses y)) in
  call (CallRelease (hostKey (ses y)) (msgKey (ses y))) b y.

(** The session object [createWithAuthorization] builds. *)
Definition newSession (id kind_ host key hash : string) (now max : Z) : persistentSession :=
  mkSession id kind_ host key hash Connecting "" now now None false 0 0 max [] ∅ false false false false [].

(** *** Histories: what can happen to one session *)

Inductive sop :=
| SOutput (now : Z) (data : string)                       (* [appendOutput] *)
| SAttach (now : Z) (c : nat) (id : string)               (* a new client object, [addClient] *)
| SDetach (hint : string) (c : nat) (id : string)         (* [removeClient] *)
| SFrame (now : Z) (c : nat) (id : string) (f : workspaceClientFrame) (* [handleClientFrame] *)
| SGuard (c : nat) (id : string) (f : workspaceClientFrame) (* ... up to its send, which stays pending *)
| SSend (now : Z) (n : nat)                               (* the [n]-th pending send *)
| SInvalid (c : nat)                                      (* a message [readLoop] rejects *)
| SWriter (c : nat) (ev : write_event)                    (* [writeLoop] *)
| STerminate (now : Z)                                    (* [terminate] *)
| SRevoke (now : Z)                                       (* [revokeDelegation] *)
| SRevokeMark                                             (* its first critical section *)
| SBindBegin                                              (* [bindDelegation] *)
| SBindFinish
| SConnected (now : Z)                                    (* the end of [createWithAuthorization] *)
| SOutcome (body : string)                                (* an audit outcome in [pump] *)
| SEnd (now : Z)                                          (* the end of [pump] *)
| SCloseClients.                                          (* [closeClients] *)

Definition run_sop (o : sop) (y : sys) : sys :=
  match o with
  | SOutput now data => appendOutput now data y
  | SAttach now c id => addClient now c id (set_tabs (<[c:=mkClient id [] false [] []]> (tabs y)) y)
  | SDetach hint c id => removeClient hint c id y
  | SFrame now c id f => handleClientFrame now c id f y
  | SGuard c id f =>
      match checkFrame c id f y with
      | (y, Some p) => set_ses (upd_inflight (inflight (ses y) ++ [p]) (ses y)) y
      | (y, None) => y
      end
  | SSend now n =>
      match inflight (ses y) !! n with
      | Some p => sendPending now p (set_ses (upd_inflight (delete n (inflight (ses y))) (ses y)) y)
      | None => y
      end
  | SInvalid c => invalidFrame c y
  | SWriter c ev => writeLoop c ev y
  | STerminate now => terminate now y
  | SRevoke now => revokeDelegation now y
  | SRevokeMark => set_ses (upd_revoked (ses y)) y
  | SBindBegin => set_ses (bind_begin (ses y)) y
  | SBindFinish => set_ses (bind_finish (ses y)) y
  | SConnected now => set_ses (upd_status Connected now (ses y)) y
  | SOutcome body => closeWithOutcome body y
  | SEnd now => pump now [] y
  | SCloseClients => closeClients y
  end.

(** Client objects are fresh when they attach and keep their identifier, which
    the pattern [^tab_[A-Za-z0-9_-]{20,96}$] makes non-empty; a delegation is bound
    to a live session, once; and [createWithAuthorization], which writes the status
    without the lock, is not overtaken by a revocation (see
    [connected_overwrites_revocation] for what happens when it is). *)
Definition sop_ok (o : sop) (y : sys) : Prop :=
  match o with
  | SAttach _ c id => tabs y !! c = None /\ id <> ""
  | SBindBegin => delegationStop (ses y) = false /\ delegationRevoked (ses y) = false /\
                  inactive (status (ses y)) = false
  | SConnected _ => status (ses y) = Connecting
  | SDetach _ c id | SFrame _ c id _ | SGuard c id _ => clientID <$> tabs y !! c = Some id /\ id <> ""
  | _ => True
  end.

Inductive history : sys -> list sop -> sys -> Prop :=
| history_nil y : history y [] y
| history_cons y o l y' : sop_ok o y -> history (run_sop o y) l y' -> history y (o :: l) y'.
End Session.
Arguments sys : clear implicits.

(** ** Lemmas: client objects *)

Definition tabs_bounded (h : gmap nat workspaceClient) : Prop :=
  forall c cl, h !! c = Some cl -> (length (sendQueue cl) <= workspaceClientQueueSize)%nat.

(** [h'] has the same client objects as [h], with possibly more frames. *)
Definition tabs_le (h h' : gmap nat workspaceClient) : Prop :=
  (forall c, clientID <$> h' !! c = clientID <$> h !! c) /\
  (tabs_bounded h -> tabs_bounded h').

#[export] Instance tabs_le_preorder : PreOrder tabs_le.
Proof.
  split.
  - by intros h.
  - intros h1 h2 h3 [E1 B1] [E2 B2]. split; [|auto]. intros c. by rewrite E2.
Qed.

Lemma enqueue_client_le c f h : tabs_le h (fst (enqueue_client c f h)).
Proof.
  unfold enqueue_client. destruct (h !! c) as [cl|] eqn:E; [|done].
  destruct (cl_done cl); [done|]. destruct (_ <? _)%nat eqn:L; [|done]. simpl. split.
  - intros d. rewrite lookup_insert. case_decide; [subst; by rewrite E|done].
  - intros Bd d cl'. rewrite lookup_insert_Some. intros [[<- <-]|[_ Hd]]; [|by eapply Bd].
    apply Nat.ltb_lt in L. simpl. rewrite length_app /=. lia.
Qed.

Lemma alter_le (g : workspaceClient -> workspaceClient) c h :
  (forall cl, clientID (g cl) = clientID cl /\ sendQueue (g cl) = sendQueue cl) ->
  tabs_le h (alter g c h).
Proof.
  intros Hg. split.
  - intros d. rewrite lookup_alter. case_decide; [|done]. subst.
    destruct (h !! d) as [cl|]; [|done]. simpl. by rewrite (proj1 (Hg cl)).
  - intros Bd d cl'. rewrite lookup_alter_Some.
    intros [(<- & cl & Hc & ->)|[_ Hd]]; [|by eapply Bd].
    rewrite (proj2 (Hg cl)). by eapply Bd.
Qed.

Lemma close_client_le c h : tabs_le h (close_client c h).
Proof. apply alter_le. intros cl. by destruct (cl_done cl). Qed.

Lemma deliver_le f c h : tabs_le h (deliver f c h).
Proof.
  unfold deliver. destruct (enqueue_client c f h) as [h' ok] eqn:E.
  pose proof (enqueue_client_le c f h) as L. rewrite E in L. simpl in L.
  destruct ok; [done|]. etrans; [done|]. apply close_client_le.
Qed.

Lemma foldr_le {A} (g : A -> gmap nat workspaceClient -> gmap nat workspaceClient) l h :
  (forall a h, tabs_le h (g a h)) -> tabs_le h (foldr g h l).
Proof. intros Hg. induction l as [|a l IH]; simpl; [done|]. by etrans. Qed.

Lemma broadcast_le s f h : tabs_le h (broadcastLocked s f h).
Proof. apply foldr_le. intros a h'. apply deliver_le. Qed.

(** ** Lemmas: the replay buffer *)

Definition replay_size (l : list workspaceReplayEntry) : Z :=
  foldr (fun e z => entry_size e + z) 0 l.

(** Reference: the longest suffix whose total size fits. *)
Fixpoint longest_fit (max : Z) (l : list workspaceReplayEntry) : list workspaceReplayEntry :=
  match l with
  | [] => []
  | e :: rest => if max <? replay_size l then longest_fit max rest else l
  end.

Lemma entry_size_pos e : 32 <= entry_size e.
Proof. unfold entry_size. pose proof (go_len_nonneg (Data e)). lia. Qed.

Lemma replay_size_nonneg l : 0 <= replay_size l.
Proof. induction l as [|e l IH]; simpl; [lia|]. pose proof (entry_size_pos e). lia. Qed.

Lemma replay_size_app l l' : replay_size (l ++ l') = replay_size l + replay_size l'.
Proof. induction l as [|e l IH]; simpl; lia. Qed.

Lemma trim_replay_spec max l :
  trim_replay max (replay_size l) l = (replay_size (longest_fit max l), longest_fit max l).
Proof.
  induction l as [|e l IH]; [done|]. cbn [trim_replay longest_fit].
  destruct (max <? replay_size (e :: l)); [|done]. rewrite -IH. f_equal. simpl. lia.
Qed.

Lemma longest_fit_size max l : 0 <= max -> replay_size (longest_fit max l) <= max.
Proof.
  intros Hm. induction l as [|e l IH]; [done|]. cbn [longest_fit].
  destruct (max <? replay_size (e :: l)) eqn:E; [done|]. bool_to_prop. lia.
Qed.

Lemma longest_fit_suffix max l : longest_fit max l `suffix_of` l.
Proof.
  induction l as [|e l IH]; [done|]. cbn [longest_fit].
  destruct (max <? replay_size (e :: l)); [|done]. by apply suffix_cons_r.
Qed.

Lemma longest_fit_snoc max l e :
  longest_fit max (longest_fit max l ++ [e]) = longest_fit max (l ++ [e]).
Proof.
  induction l as [|x l IH]; [done|]. cbn [longest_fit].
  destruct (max <? replay_size (x :: l)) eqn:E; [|done].
  rewrite IH. cbn [app longest_fit]. rewrite app_comm_cons replay_size_app.
  destruct (max <? replay_size (x :: l) + replay_size [e]) eqn:F; [done|].
  bool_to_prop. pose proof (replay_size_nonneg [e]). lia.
Qed.

(** ** The invariant of a session *)

Record session_ok (s : persistentSession) (h : gmap nat workspaceClient) : Prop := {
  so_bytes : replayBytes s = replay_size (replay s);
  so_max : 0 <= replayBytes s <= maxReplayBytes s;
  so_controller : controller s <> "" ->
    is_Some (clients s !! controller s) /\ kind s = "terminal" /\ inactive (status s) = false;
  so_revoked : delegationRevoked s = true -> replay s = [];
  so_ended : if decide (status s = Ended) then is_Some (endedAt s) else endedAt s = None;
  so_errored : status s <> Errored;
  so_watcher : delegationStop s = true -> inactive (status s) = true \/ delegationRevoked s = true ->
    watching s = false;
  so_clients : forall id c, clients s !! id = Some c -> id <> "" /\ clientID <$> h !! c = Some id;
  so_queues : tabs_bounded h }.

Lemma session_ok_tabs s h h' : session_ok s h -> tabs_le h h' -> session_ok s h'.
Proof.
  intros [] [E Bd]. split; try done; [|by apply Bd].
  intros id c Hc. rewrite E. by apply so_clients0.
Qed.

Section SessionInv.
Context {B : Type} `{BP : backendProxy B}.
Implicit Types y : sys B.

Definition sys_ok y : Prop := session_ok (ses y) (tabs y).

Lemma sys_ok_broadcast f y : sys_ok y -> sys_ok (broadcast f y).
Proof. intros I. eapply session_ok_tabs; [exact I|]. apply broadcast_le. Qed.

Lemma sys_ok_enqueue c f y : sys_ok y -> sys_ok (enqueueJSON c f y).
Proof. intros I. eapply session_ok_tabs; [exact I|]. apply enqueue_client_le. Qed.

Lemma sys_ok_close c y : sys_ok y -> sys_ok (set_tabs (close_client c (tabs y)) y).
Proof. intros I. eapply session_ok_tabs; [exact I|]. apply close_client_le. Qed.

Lemma push_replay_spec e s :
  replayBytes s = replay_size (replay s) ->
  push_replay e s = if entry_size e <=? maxReplayBytes s
    then (replay_size (longest_fit (maxReplayBytes s) (replay s ++ [e])),
          longest_fit (maxReplayBytes s) (replay s ++ [e]))
    else (replayBytes s, replay s).
Proof.
  intros Hb. unfold push_replay. destruct (_ <=? _); [|done].
  rewrite -trim_replay_spec Hb replay_size_app. simpl. do 2 f_equal. lia.
Qed.

Lemma appendOutput_ok now data y : sys_ok y -> sys_ok (appendOutput now data y).
Proof.
  intros I. unfold appendOutput.
  destruct (inactive (status (ses y))) eqn:A; [done|].
  destruct (bool_decide (status (ses y) = Closing)) eqn:C; [done|].
  destruct (delegationRevoked (ses y)) eqn:R; [done|]. cbn [orb].
  set (s := upd_status Connected now (ses y)). set (e := mkEntry _ data).
  destruct I. rewrite push_replay_spec //.
  assert (endedAt (ses y) = None) as E.
  { case_decide as D; [|done]. by rewrite D in A. }
  destruct (entry_size e <=? maxReplayBytes s) eqn:Z; apply sys_ok_broadcast;
    split; simpl; try done;
    try (intros Hn; destruct (so_controller0 Hn) as (? & ? & _); by split_and!);
    try (rewrite R; by intros _ [|]).
  - split; [apply replay_size_nonneg|apply longest_fit_size; lia].
  - by rewrite R.
Qed.

(** Registering the client object [c] under [id]; [ctl] stays or becomes [id]. *)
Lemma session_ok_add now s h c id ctl :
  session_ok s h -> id <> "" -> clientID <$> h !! c = Some id ->
  (ctl = controller s \/ ctl = id /\ kind s = "terminal" /\ inactive (status s) = false) ->
  session_ok (upd_activity now (upd_clients (<[id:=c]> (clients s)) ctl s)) h.
Proof.
  intros [] Hid Hc Hctl. split; simpl; try done.
  - destruct Hctl as [->|(-> & Hk & Ha)].
    + intros Hn. destruct (so_controller0 Hn) as ([d Hd] & ? & ?). split_and!; try done.
      apply lookup_insert_is_Some. destruct (decide (id = controller s)); eauto.
    + intros _. rewrite lookup_insert_eq. by split_and!.
  - intros id' c'. rewrite lookup_insert_Some. intros [[<- <-]|[_ H]]; [done|]. by apply so_clients0.
Qed.

Lemma addClient_ok now c id y :
  sys_ok y -> id <> "" -> clientID <$> tabs y !! c = Some id -> sys_ok (addClient now c id y).
Proof.
  intros I Hid Hc. unfold addClient.
  destruct (delegationRevoked (ses y)); [by apply sys_ok_close|].
  apply sys_ok_broadcast. do 2 apply sys_ok_enqueue.
  set (y1 := match clients (ses y) !! id with Some _ => _ | None => y end).
  assert (sys_ok y1 /\ ses y1 = ses y /\ clientID <$> tabs y1 !! c = Some id) as (I1 & E1 & Hc1).
  { unfold y1. destruct (clients (ses y) !! id); [|done]. split_and!; [by apply sys_ok_close|done|].
    simpl. by rewrite (proj1 (close_client_le _ _)). }
  unfold sys_ok in *. simpl. rewrite -E1.
  destruct (_ && _ && _) eqn:G.
  - bool_to_prop. simpl in *. apply session_ok_add with (ctl := id) (now := now); auto.
  - apply session_ok_add; auto.
Qed.

Lemma range_first_spec hint (m : gmap string nat) :
  range_first hint m <> "" -> is_Some (m !! range_first hint m).
Proof.
  unfold range_first. destruct (m !! hint) eqn:E; [by rewrite E|].
  destruct (map_to_list m) as [|[id c] l] eqn:L; [done|]. intros _. exists c.
  apply elem_of_map_to_list. rewrite L. left.
Qed.

Lemma removeClient_ok hint c id y :
  sys_ok y -> id <> "" -> sys_ok (removeClient hint c id y).
Proof.
  intros I Hid. unfold removeClient. apply sys_ok_close.
  set (cl := if bool_decide (clients (ses y) !! id = Some c) then delete id (clients (ses y)) else clients (ses y)).
  assert (forall k d, cl !! k = Some d -> clients (ses y) !! k = Some d) as Hsub.
  { intros k d. unfold cl. case_bool_decide; [|done]. rewrite lookup_delete_Some. by intros [_ ?]. }
  destruct I. case_bool_decide as G; [apply sys_ok_broadcast|]; split; simpl; try done.
  - intros Hn. split; [by apply range_first_spec|].
    apply so_controller0. by rewrite G.
  - intros k d Hk. by apply so_clients0, Hsub.
  - intros Hn. destruct (so_controller0 Hn) as ([d Hd] & ? & ?). split_and!; try done.
    exists d. unfold cl. case_bool_decide; [|done]. by rewrite lookup_delete_ne.
  - intros k d Hk. by apply so_clients0, Hsub.
Qed.

(** A change of the session alone. *)
Lemma sys_ok_set_ses s y : session_ok s (tabs y) -> sys_ok (set_ses s y).
Proof. done. Qed.

Lemma claimControl_ok now c id y : sys_ok y -> sys_ok (claimControl now c id y).
Proof.
  intros I. unfold claimControl. destruct (_ && _ && _) eqn:G; [|done].
  bool_to_prop. apply sys_ok_broadcast. destruct I. split; simpl; try done.
Qed.

Lemma touch_ok now y : sys_ok y -> sys_ok (touch now y).
Proof. intros I. unfold touch. case_bool_decide; [|done]. destruct I. by split. Qed.

Lemma stopped_off s : delegationStop s = true -> stopped s = false.
Proof. unfold stopped. intros ->. by rewrite andb_false_r. Qed.

Lemma markEnded_ok now y : sys_ok y -> sys_ok (markEnded now y).
Proof.
  intros I. unfold markEnded. case_bool_decide; [done|]. apply sys_ok_broadcast.
  destruct I. split; simpl; try done. intros Hs _. by apply stopped_off.
Qed.

Lemma sys_ok_call k b y : sys_ok y -> sys_ok (call k b y).
Proof. done. Qed.

Lemma upd_once_ok y : sys_ok y -> sys_ok (set_ses (upd_once (ses y)) y).
Proof. intros []. by split. Qed.

Lemma terminate_ok now y : sys_ok y -> sys_ok (terminate now y).
Proof.
  intros I. unfold terminate. destruct (closeOnce (ses y)); [done|].
  pose proof (upd_once_ok y I) as I1.
  destruct (inactive (status (ses (set_ses (upd_once (ses y)) y)))) eqn:A; [done|].
  set (y1 := broadcast _ _).
  assert (sys_ok y1) as I2.
  { apply sys_ok_broadcast. destruct I1. split; simpl in *; try done.
    - intros Hn. destruct (so_controller0 Hn) as (? & ? & _). by split_and!.
    - case_decide as D; [by rewrite D in A|done].
    - intros Hs [|]; [done|]. apply so_watcher0; auto. }
  destruct (bp_closeConnection _ _ _) as [b [|]]; [done|]. by apply markEnded_ok.
Qed.

Lemma closeClients_ok y : sys_ok y -> sys_ok (closeClients y).
Proof.
  intros []. eapply session_ok_tabs with (h := tabs y).
  - by split; simpl; try done; intros ? ?; rewrite lookup_empty.
  - apply foldr_le. intros a h. apply close_client_le.
Qed.

Lemma upd_revoked_ok y : sys_ok y -> sys_ok (set_ses (upd_revoked (ses y)) y).
Proof. intros []. split; simpl; try done; [lia|]. intros Hs _. by apply stopped_off. Qed.

Lemma revokeDelegation_ok now y : sys_ok y -> sys_ok (revokeDelegation now y).
Proof. intros I. by apply closeClients_ok, terminate_ok, upd_revoked_ok. Qed.

Lemma send_backend_ok now c data code_ msg y : sys_ok y -> sys_ok (send_backend now c data code_ msg y).
Proof.
  intros I. unfold send_backend. destruct (bp_send _ _ _ _) as [b [|]]; [done|].
  apply terminate_ok, sys_ok_enqueue. done.
Qed.

Lemma writeLoop_le c ev y : tabs_le (tabs y) (tabs (writeLoop c ev y)).
Proof.
  unfold writeLoop. destruct (tabs y !! c) as [cl|] eqn:E; [|by destruct ev].
  destruct ev as [ok|ok|]; [|by destruct ok; [|apply close_client_le]|
    by destruct (cl_done cl); [apply close_client_le|]].
  destruct (sendQueue cl) as [|f q] eqn:Q; [done|].
  assert (forall w, tabs_le (tabs y)
    (<[c:=mkClient (clientID cl) q (cl_done cl) (closeFrames cl) w]> (tabs y))) as L.
  { intros w. split.
    - intros d. rewrite lookup_insert. case_decide; [subst; by rewrite E|done].
    - intros Bd d cl'. rewrite lookup_insert_Some. intros [[<- <-]|[_ Hd]]; [|by eapply Bd].
      specialize (Bd _ _ E). rewrite Q in Bd. simpl in *. lia. }
  destruct ok; simpl; [done|]. etrans; [apply L|]. apply close_client_le.
Qed.

Lemma outcome_le body y : tabs_le (tabs y) (tabs (closeWithOutcome body y)).
Proof. apply foldr_le. intros a h. by apply alter_le. Qed.

Lemma checkInput_ok c id data y : sys_ok y -> sys_ok (fst (checkInput c id data y)).
Proof.
  intros I. unfold checkInput. destruct (_ || _ || _); [done|].
  destruct (b64_decode _); [done|by apply sys_ok_enqueue].
Qed.

Lemma checkResize_ok c id cols rows y : sys_ok y -> sys_ok (fst (checkResize c id cols rows y)).
Proof. intros I. unfold checkResize. by destruct (_ || _ || _ || _ || _). Qed.

Lemma sendPending_ok now p y : sys_ok y -> sys_ok (sendPending now p y).
Proof. intros I. by apply send_backend_ok, touch_ok. Qed.

Lemma sendChecked_ok now r : sys_ok (fst r) -> sys_ok (sendChecked now r).
Proof. destruct r as [y [p|]]; [apply sendPending_ok|done]. Qed.

Lemma upd_inflight_ok l y : sys_ok y -> sys_ok (set_ses (upd_inflight l (ses y)) y).
Proof. intros []. by split. Qed.

Lemma handleClientFrame_ok now c id f y : sys_ok y -> sys_ok (handleClientFrame now c id f y).
Proof.
  intros I. unfold handleClientFrame.
  repeat case_bool_decide; auto using claimControl_ok, sys_ok_enqueue.
  - by apply sendChecked_ok, checkInput_ok.
  - by apply sendChecked_ok, checkResize_ok.
Qed.

Lemma checkFrame_ok c id f y : sys_ok y -> sys_ok (fst (checkFrame c id f y)).
Proof.
  intros I. unfold checkFrame. repeat case_bool_decide; auto using checkInput_ok, checkResize_ok.
Qed.

Lemma pump_nil now y :
  pump now [] y =
  call (CallRelease (hostKey (ses (markEnded now y))) (msgKey (ses (markEnded now y))))
    (fst (bp_releaseConnection (be (markEnded now y)) (hostKey (ses (markEnded now y)))
            (msgKey (ses (markEnded now y))))) (markEnded now y).
Proof. unfold pump. simpl. by destruct (bp_releaseConnection _ _ _). Qed.

#[local] Hint Resolve appendOutput_ok removeClient_ok handleClientFrame_ok terminate_ok revokeDelegation_ok
  upd_revoked_ok closeClients_ok : proxy.

Lemma run_sop_ok o y : sys_ok y -> sop_ok o y -> sys_ok (run_sop o y).
Proof.
  intros I OK. destruct o; simpl in *;
    try match type of OK with _ /\ _ => destruct OK as [OK1 OK2] end;
    auto with proxy.
  - apply addClient_ok; [|done|simpl; by rewrite lookup_insert_eq].
    destruct I. split; simpl; try done.
    + intros id' c' H. destruct (so_clients0 id' c' H) as [? E]. split; [done|].
      rewrite lookup_insert_ne //. intros <-. by rewrite OK1 in E.
    + intros d cl. rewrite lookup_insert_Some. intros [[<- <-]|[_ H]]; [simpl; lia|by eapply so_queues0].
  - pose proof (checkFrame_ok c id f y I) as J. destruct (checkFrame c id f y) as [y' [p|]]; [|done].
    by apply upd_inflight_ok.
  - destruct (inflight (ses y) !! n); [|done]. by apply sendPending_ok, upd_inflight_ok.
  - by apply sys_ok_enqueue.
  - eapply session_ok_tabs; [|apply writeLoop_le]. unfold writeLoop.
    repeat case_match; done.
  - destruct OK2 as [R A]. destruct I. split; simpl; try done. by rewrite OK1.
  - destruct I. split; simpl; try done. intros _ [->| ->]; by rewrite ?orb_true_r andb_false_r.
  - destruct I. split; simpl; try done.
    + intros Hn. destruct (so_controller0 Hn) as (? & ? & _). by split_and!.
    + case_decide as D; [by rewrite OK in D|done].
    + intros Hs [|]; [done|]. apply so_watcher0; auto.
  - eapply session_ok_tabs; [|apply outcome_le]. done.
  - rewrite pump_nil. by apply sys_ok_call, markEnded_ok.
Qed.

Lemma history_ok y l y' : sys_ok y -> history y l y' -> sys_ok y'.
Proof. intros I H. induction H; auto using run_sop_ok. Qed.
End SessionInv.

(** ** How a session evolves *)

Definition status_rank (st : session_status) : nat :=
  match st with Connecting => 0 | Connected => 1 | Closing => 2 | Ended => 3 | Errored => 4 end.

Record ses_le (s s' : persistentSession) : Prop := {
  le_status : (status_rank (status s) <= status_rank (status s'))%nat;
  le_once : closeOnce s = true -> closeOnce s' = true;
  le_revoked : delegationRevoked s = true -> delegationRevoked s' = true /\ clients s' ⊆ clients s;
  le_fixed : s_id s' = s_id s /\ kind s' = kind s /\ hostKey s' = hostKey s /\
    msgKey s' = msgKey s /\ secretHash s' = secretHash s /\ maxReplayBytes s' = maxReplayBytes s /\
    createdAt s' = createdAt s }.

#[export] Instance ses_le_preorder : PreOrder ses_le.
Proof.
  split.
  - intros s. by split.
  - intros s1 s2 s3 [] []. split; [lia|auto| |intuition congruence].
    intros R. destruct (le_revoked0 R) as [R2 C2]. destruct (le_revoked1 R2) as [R3 C3].
    split; [done|]. by etrans.
Qed.

Section SessionEvolution.
Context {B : Type} `{BP : backendProxy B}.
Implicit Types y : sys B.

Lemma appendOutput_le now data y : ses_le (ses y) (ses (appendOutput now data y)).
Proof.
  unfold appendOutput. destruct (_ || _ || _) eqn:G; [done|]. bool_to_prop.
  destruct (push_replay _ _) as [bytes entries]. simpl. split; simpl; try done.
  destruct (status (ses y)); simpl; try lia; done.
Qed.

Lemma addClient_le now c id y : ses_le (ses y) (ses (addClient now c id y)).
Proof.
  unfold addClient. destruct (delegationRevoked (ses y)) eqn:R; [done|]. simpl.
  destruct (_ && _ && _); (split; simpl; [done|done|by rewrite R|done]).
Qed.

Lemma removeClient_le hint c id y : ses_le (ses y) (ses (removeClient hint c id y)).
Proof.
  unfold removeClient. simpl.
  assert ((if bool_decide (clients (ses y) !! id = Some c)
    then delete id (clients (ses y)) else clients (ses y)) ⊆ clients (ses y)) as Hs.
  { case_bool_decide; [apply delete_subseteq|done]. }
  destruct (bool_decide (controller (ses y) = id)); by split.
Qed.

Lemma markEnded_le now y :
  sys_ok y -> ses_le (ses y) (ses (markEnded now y)).
Proof.
  intros I. unfold markEnded. case_bool_decide; [done|]. split; simpl; try done.
  destruct I. destruct (status (ses y)); simpl; lia || done.
Qed.

Lemma claimControl_le now c id y : ses_le (ses y) (ses (claimControl now c id y)).
Proof. unfold claimControl. destruct (_ && _ && _); [|done]. by split. Qed.

Lemma touch_le now y : ses_le (ses y) (ses (touch now y)).
Proof. unfold touch. destruct (bool_decide _); [|done]. by split. Qed.

Lemma terminate_le now y : sys_ok y -> ses_le (ses y) (ses (terminate now y)).
Proof.
  intros I. pose proof (terminate_ok now y I) as IT. unfold terminate in *.
  destruct (closeOnce (ses y)); [done|].
  destruct (inactive (status (ses (set_ses (upd_once (ses y)) y)))) eqn:A; [by split|].
  destruct (bp_closeConnection _ _ _) as [b [|]].
  - split; simpl; try done. simpl in A. destruct (status (ses y)); simpl; lia || done.
  - unfold markEnded. rewrite bool_decide_eq_false_2 //. split; simpl; try done.
    destruct I. destruct (status (ses y)); simpl; lia || done.
Qed.

Lemma closeClients_le y : ses_le (ses y) (ses (closeClients y)).
Proof. split; simpl; try done. intros R. split; [done|]. apply map_empty_subseteq. Qed.

Lemma revokeDelegation_le now y : sys_ok y -> ses_le (ses y) (ses (revokeDelegation now y)).
Proof.
  intros I. unfold revokeDelegation.
  etrans; [|apply closeClients_le]. etrans; [|by apply terminate_le, upd_revoked_ok]. by split.
Qed.

Lemma send_backend_le now c data code_ msg y : sys_ok y -> ses_le (ses y) (ses (send_backend now c data code_ msg y)).
Proof.
  intros I. unfold send_backend. destruct (bp_send _ _ _ _) as [b [|]]; [done|].
  assert (sys_ok (enqueueJSON c (error_frame code_ msg) (call (CallSend (hostKey (ses y)) (msgKey (ses y)) data) b y)))
    as I1 by by apply sys_ok_enqueue.
  apply (terminate_le now _ I1).
Qed.

Lemma sendPending_le now p y : sys_ok y -> ses_le (ses y) (ses (sendPending now p y)).
Proof. intros I. etrans; [apply touch_le|]. by apply send_backend_le, touch_ok. Qed.

(** The guard changes neither the session nor the backend. *)
Lemma checkFrame_facts c id f y :
  ses (fst (checkFrame c id f y)) = ses y /\ calls (fst (checkFrame c id f y)) = calls y.
Proof.
  unfold checkFrame, checkInput, checkResize. repeat case_bool_decide; try done.
  - destruct (_ || _ || _); [done|]. by destruct (b64_decode _).
  - by destruct (_ || _ || _ || _ || _).
Qed.

Lemma handleClientFrame_le now c id f y : sys_ok y -> ses_le (ses y) (ses (handleClientFrame now c id f y)).
Proof.
  intros I. unfold handleClientFrame. repeat case_bool_decide; try done; [apply claimControl_le| |].
  - unfold writeInput, checkInput. destruct (_ || _ || _); [done|]. destruct (b64_decode _); [|done].
    by apply sendPending_le.
  - unfold resize, checkResize. destruct (_ || _ || _ || _ || _); [done|]. by apply sendPending_le.
Qed.

#[local] Hint Resolve appendOutput_le removeClient_le handleClientFrame_le terminate_le revokeDelegation_le
  closeClients_le : proxy.

Lemma run_sop_le o y : sys_ok y -> sop_ok o y -> ses_le (ses y) (ses (run_sop o y)).
Proof.
  intros I OK. destruct o; cbn [run_sop];
    auto with proxy.
  - etrans; [|apply addClient_le]. by destruct I.
  - destruct (checkFrame_facts c id f y) as [E _].
    destruct (checkFrame c id f y) as [y' [p|]]; simpl in *; rewrite E //.
  - destruct (inflight (ses y) !! n); [|done].
    etrans; [|by apply sendPending_le, upd_inflight_ok]. by split.
  - done.
  - unfold writeLoop. by repeat case_match.
  - by split.
  - by split.
  - by split.
  - split; simpl; try done. simpl in OK. rewrite OK. simpl. lia.
  - done.
  - rewrite pump_nil. simpl. by apply markEnded_le.
Qed.

Lemma history_le y l y' : sys_ok y -> history y l y' -> ses_le (ses y) (ses y').
Proof.
  intros I H. induction H as [|y o l y' OK H IH]; [done|].
  etrans; [by apply run_sop_le|]. by apply IH, run_sop_ok.
Qed.

(** A frame handled without interruption is its guard followed by its send. *)
Lemma handleClientFrame_steps now c id f y :
  cf_Type f = "input" \/ cf_Type f = "resize" -> inflight (ses y) = [] ->
  handleClientFrame now c id f y = run_sop (SSend now 0) (run_sop (SGuard c id f) y).
Proof.
  intros T E. unfold run_sop at 2. destruct (checkFrame_facts c id f y) as [Es _].
  assert (handleClientFrame now c id f y = sendChecked now (checkFrame c id f y)) as ->.
  { unfold handleClientFrame, checkFrame. by destruct T as [-> | ->]. }
  destruct (checkFrame c id f y) as [y' [p|]]; simpl in *; rewrite Es E; [|done].
  simpl. f_equal. destruct y' as [s' ? ? ?]. simpl in *. subst s'. unfold set_ses. simpl. f_equal.
  unfold upd_inflight. simpl. rewrite -E. by destruct (ses y).
Qed.

(** [revokeDelegation] is its three critical sections. *)
Lemma revokeDelegation_steps now y :
  revokeDelegation now y = run_sop SCloseClients (run_sop (STerminate now) (run_sop SRevokeMark y)).
Proof. done. Qed.

Lemma history_app y l1 l2 y' :
  history y (l1 ++ l2) y' <-> exists y1, history y l1 y1 /\ history y1 l2 y'.
Proof.
  split.
  - revert y. induction l1 as [|o l1 IH]; intros y H.
    + exists y. split; [constructor|done].
    + inversion H as [|? ? ? ? OK Hr]; subst. destruct (IH _ Hr) as (y1 & H1 & H2).
      exists y1. split; [|done]. by constructor.
  - intros (y1 & H1 & H2). induction H1; [done|]. constructor; auto.
Qed.
End SessionEvolution.
