(* ===== verification/SessionProps.v ===== *)
(** * Properties of the persistent console session

    The theorems about [Session]: the invariant over every history, the status
    machine, revocation, who may write to the terminal, the contents of the
    replay buffer, what an attaching tab receives, and how a session ends. *)

From stdpp Require Import pretty.
From S2P Require Import Prelude GoString Message Multiplexer Backend Session.

Section Props.
Context {B : Type} `{BP : backendProxy B}.
Implicit Types y : sys B.

(** ** Lemmas: calls to the backend *)

Definition is_close (k : backend_call) : bool :=
  match k with CallClose _ _ => true | _ => false end.
Definition closes (l : list backend_call) : list backend_call := List.filter is_close l.

(** Nothing closed yet, or the [sync.Once] has fired. *)
Definition close_once_ok y : Prop :=
  (length (closes (calls y)) <= 1)%nat /\ (closeOnce (ses y) = false -> closes (calls y) = []).

Lemma markEnded_calls now y : calls (markEnded now y) = calls y.
Proof. unfold markEnded. by destruct (bool_decide _). Qed.

Lemma markEnded_once now y : closeOnce (ses (markEnded now y)) = closeOnce (ses y).
Proof. unfold markEnded. by destruct (bool_decide _). Qed.

(** [terminate] makes at most one call, a close, and only if none was made. *)
Lemma terminate_calls now y :
  closeOnce (ses (terminate now y)) = true /\
  (calls (terminate now y) = calls y \/
   calls (terminate now y) = calls y ++ [CallClose (hostKey (ses y)) (msgKey (ses y))] /\
   closeOnce (ses y) = false).
Proof.
  unfold terminate. destruct (closeOnce (ses y)) eqn:O; [by split; [|left]|].
  destruct (inactive _); [by split; [|left]|].
  destruct (bp_closeConnection _ _ _) as [b [|]].
  - split; [done|]. by right.
  - rewrite markEnded_calls markEnded_once. split; [done|]. by right.
Qed.

Lemma terminate_close_once now y : close_once_ok y -> close_once_ok (terminate now y).
Proof.
  intros [L N]. destruct (terminate_calls now y) as [O [E|[E F]]].
  - split; [by rewrite E|by rewrite O].
  - split; [|by rewrite O]. rewrite E /closes List.filter_app /=.
    rewrite length_app. change (length (closes (calls y)) + 1 <= 1)%nat. rewrite (N F). simpl. lia.
Qed.

Lemma send_backend_close_once now c data code_ msg y :
  close_once_ok y -> close_once_ok (send_backend now c data code_ msg y).
Proof.
  intros [L N]. unfold send_backend. destruct (bp_send _ _ _ _) as [b ok].
  assert (close_once_ok (call (CallSend (hostKey (ses y)) (msgKey (ses y)) data) b y)) as I.
  { unfold close_once_ok, closes. simpl. rewrite List.filter_app app_nil_r. by split. }
  destruct ok; [done|]. by apply terminate_close_once.
Qed.

Lemma sendPending_close_once now p y : close_once_ok y -> close_once_ok (sendPending now p y).
Proof. intros I. apply send_backend_close_once. unfold touch. by destruct (bool_decide _). Qed.

Lemma handleClientFrame_close_once now c id f y :
  close_once_ok y -> close_once_ok (handleClientFrame now c id f y).
Proof.
  intros I. unfold handleClientFrame. repeat case_bool_decide; try done.
  - unfold claimControl. by destruct (_ && _ && _).
  - unfold writeInput, checkInput. destruct (_ || _ || _); [done|]. destruct (b64_decode _); [|done].
    by apply sendPending_close_once.
  - unfold resize, checkResize. destruct (_ || _ || _ || _ || _); [done|]. by apply sendPending_close_once.
Qed.

(** Operations that neither call the backend nor fire the [sync.Once]. *)
Definition quiet (o : sop) : bool :=
  match o with
  | SFrame _ _ _ _ | SSend _ _ | STerminate _ | SRevoke _ | SEnd _ => false
  | _ => true
  end.

Lemma run_sop_quiet o y :
  quiet o = true -> calls (run_sop o y) = calls y /\ closeOnce (ses (run_sop o y)) = closeOnce (ses y).
Proof.
  intros Q. destruct o; try done; cbn [run_sop].
  - unfold appendOutput. destruct (_ || _ || _); [done|]. by destruct (push_replay _ _).
  - unfold addClient. simpl. destruct (delegationRevoked (ses y)); [done|].
    destruct (_ && _ && _); by destruct (clients (ses y) !! id).
  - unfold removeClient. by destruct (bool_decide (controller (ses y) = id)).
  - destruct (checkFrame_facts c id f y) as [E1 E2].
    destruct (checkFrame c id f y) as [y' [p|]]; simpl in *; by rewrite E2 E1.
  - unfold writeLoop. by repeat case_match.
Qed.

Lemma run_sop_close_once o y : close_once_ok y -> close_once_ok (run_sop o y).
Proof.
  intros I. destruct (quiet o) eqn:Q.
  { destruct (run_sop_quiet o y Q) as [E1 E2]. unfold close_once_ok. by rewrite E1 E2. }
  destruct o; try done; cbn [run_sop]; auto using handleClientFrame_close_once, terminate_close_once.
  - destruct (inflight (ses y) !! n); [|done]. by apply sendPending_close_once.
  - unfold revokeDelegation.
    assert (close_once_ok (terminate now (set_ses (upd_revoked (ses y)) y))) as T
      by by apply terminate_close_once.
    done.
  - rewrite pump_nil. destruct I as [L N]. unfold close_once_ok, closes. simpl.
    rewrite markEnded_calls markEnded_once List.filter_app app_nil_r. by split.
Qed.

(** What is sent to the backend, and by whom: [o] is the handling of a frame of
    the controlling tab (or its guard), and [k] the call it is good for. *)
Definition authorised_send y (o : sop) (k : backend_call) : Prop :=
  exists c id f data, ((exists now, o = SFrame now c id f) \/ o = SGuard c id f) /\
    k = CallSend (hostKey (ses y)) (msgKey (ses y)) data /\ may_write c id (ses y) = true /\
    (cf_Type f = "input" /\ data = cf_Data f /\ 0 < go_len data <= workspaceMaxClientFrame /\
       is_Some (b64_decode data) \/
     cf_Type f = "resize" /\ 2 <= cf_Cols f <= 1000 /\ 2 <= cf_Rows f <= 1000 /\
       data = ":resizeTTY:" +:+ itoa (cf_Cols f) +:+ "," +:+ itoa (cf_Rows f)).

Definition is_send (k : backend_call) : bool :=
  match k with CallSend _ _ _ => true | _ => false end.
Definition sends (l : list backend_call) : list backend_call := List.filter is_send l.

(** The calls the pending sends will make. *)
Definition inflight_calls y : list backend_call :=
  (fun p => CallSend (hostKey (ses y)) (msgKey (ses y)) (ps_data p)) <$> inflight (ses y).

(** Everything sent, or past its guard. *)
Definition outgoing y : list backend_call := sends (calls y) ++ inflight_calls y.

Lemma terminate_sends now y : sends (calls (terminate now y)) = sends (calls y).
Proof.
  destruct (terminate_calls now y) as [_ [->|[-> _]]]; [done|].
  unfold sends. by rewrite List.filter_app app_nil_r.
Qed.

Lemma terminate_inflight now y : inflight_calls (terminate now y) = inflight_calls y.
Proof.
  unfold terminate. destruct (closeOnce _); [done|]. destruct (inactive _); [done|].
  destruct (bp_closeConnection _ _ _) as [b [|]]; [done|]. unfold markEnded. by destruct (bool_decide _).
Qed.

Lemma sendPending_outgoing now p y :
  sends (calls (sendPending now p y)) =
    sends (calls y) ++ [CallSend (hostKey (ses y)) (msgKey (ses y)) (ps_data p)] /\
  inflight_calls (sendPending now p y) = inflight_calls y.
Proof.
  assert (calls (touch now y) = calls y /\ hostKey (ses (touch now y)) = hostKey (ses y) /\
    msgKey (ses (touch now y)) = msgKey (ses y) /\ inflight_calls (touch now y) = inflight_calls y)
    as (E1 & E2 & E3 & E4) by (unfold touch; by destruct (bool_decide _)).
  unfold sendPending, send_backend. rewrite E2 E3. destruct (bp_send _ _ _ _) as [b ok].
  unfold sends. destruct ok; [|rewrite terminate_inflight -/(sends _) terminate_sends]; simpl;
    unfold sends; rewrite List.filter_app E1 -E4; by split.
Qed.

(** A guard lets only an authorised send pass. *)
Lemma checkFrame_authorised c id f y o :
  (exists now, o = SFrame now c id f) \/ o = SGuard c id f ->
  match snd (checkFrame c id f y) with
  | Some p => authorised_send y o (CallSend (hostKey (ses y)) (msgKey (ses y)) (ps_data p))
  | None => True
  end.
Proof.
  intros O. unfold checkFrame. case_bool_decide as TI.
  { unfold checkInput. destruct (_ || _ || _) eqn:G; [done|]. destruct (b64_decode (cf_Data f)) eqn:D; [|done].
    bool_to_prop. pose proof (go_len_nonneg (cf_Data f)). exists c, id, f, (cf_Data f).
    split_and!; [done..|]. left. rewrite D. by split_and!; [| |lia..|]. }
  case_bool_decide as TR; [|done]. unfold checkResize. destruct (_ || _ || _ || _ || _) eqn:G; [done|].
  bool_to_prop. eexists c, id, f, _. split_and!; [done..|]. right. by split_and!; [|lia..|].
Qed.

(** The other operations neither send nor change what is pending. *)
Definition writes (o : sop) : bool :=
  match o with SFrame _ _ _ _ | SGuard _ _ _ | SSend _ _ => true | _ => false end.

Lemma run_sop_silent o y :
  writes o = false ->
  sends (calls (run_sop o y)) = sends (calls y) /\ inflight_calls (run_sop o y) = inflight_calls y.
Proof.
  intros W. split.
  - destruct (quiet o) eqn:Q; [by rewrite (proj1 (run_sop_quiet o y Q))|].
    destruct o; try done; cbn [run_sop].
    + apply terminate_sends.
    + unfold revokeDelegation. simpl. by rewrite terminate_sends.
    + rewrite pump_nil. simpl. unfold sends. by rewrite List.filter_app app_nil_r markEnded_calls.
  - destruct o; try done; cbn [run_sop].
    + unfold appendOutput. destruct (_ || _ || _); [done|]. by destruct (push_replay _ _).
    + unfold addClient, inflight_calls. simpl. destruct (delegationRevoked (ses y)); [done|]. by destruct (_ && _ && _).
    + unfold removeClient. by destruct (bool_decide (controller (ses y) = id)).
    + unfold writeLoop. by repeat case_match.
    + apply terminate_inflight.
    + unfold revokeDelegation. change (inflight_calls (terminate now (set_ses (upd_revoked (ses y)) y)) = inflight_calls y).
      by rewrite terminate_inflight.
    + rewrite pump_nil. unfold inflight_calls. simpl. unfold markEnded. by destruct (bool_decide _).
Qed.

(** One operation: what was sent stays, and what is sent or pending grows by
    authorised sends only. *)
Lemma run_sop_outgoing o y :
  sends (calls y) `prefix_of` sends (calls (run_sop o y)) /\
  exists new, outgoing (run_sop o y) ≡ₚ outgoing y ++ new /\ Forall (authorised_send y o) new.
Proof.
  assert (forall z : sys B, sends (calls z) = sends (calls y) -> inflight_calls z = inflight_calls y ->
    sends (calls y) `prefix_of` sends (calls z) /\
    exists new, outgoing z ≡ₚ outgoing y ++ new /\ Forall (authorised_send y o) new) as A.
  { intros z E1 E2. split; [by rewrite E1|]. exists []. unfold outgoing. by rewrite E1 E2 app_nil_r. }
  destruct (writes o) eqn:W; [|by destruct (run_sop_silent o y W); apply A].
  destruct o; try done; cbn [run_sop].
  - pose proof (checkFrame_authorised c id f y (SFrame now c id f)) as H.
    destruct (checkFrame_facts c id f y) as [E1 E2].
    unfold handleClientFrame. case_bool_decide.
    { apply A; unfold claimControl; by destruct (_ && _ && _). }
    assert (forall r, checkFrame c id f y = r ->
      sends (calls y) `prefix_of` sends (calls (sendChecked now r)) /\
      exists new, outgoing (sendChecked now r) ≡ₚ outgoing y ++ new /\
        Forall (authorised_send y (SFrame now c id f)) new) as S.
    { intros [y' [p|]] E; rewrite E in H E1 E2; simpl in *.
      - unfold outgoing. destruct (sendPending_outgoing now p y') as [-> ->].
        unfold inflight_calls. rewrite E1 E2. split; [by eexists|]. eexists [_].
        split; [by rewrite -!app_assoc (Permutation_app_comm [_])|]. apply Forall_singleton, H. eauto.
      - apply A; unfold inflight_calls; by rewrite ?E1 ?E2. }
    unfold checkFrame in S. unfold writeInput, resize.
    case_bool_decide; [by apply S|]. case_bool_decide; [by apply S|]. by case_bool_decide; apply A.
  - pose proof (checkFrame_authorised c id f y (SGuard c id f) (or_intror eq_refl)) as H.
    destruct (checkFrame_facts c id f y) as [E1 E2].
    destruct (checkFrame c id f y) as [y' [p|]]; simpl in *; [|apply A; unfold inflight_calls; by rewrite ?E1 ?E2].
    unfold outgoing, inflight_calls. simpl. rewrite E1 E2. split; [done|].
    exists [CallSend (hostKey (ses y)) (msgKey (ses y)) (ps_data p)].
    split; [by rewrite fmap_app app_assoc|by apply Forall_singleton].
  - destruct (inflight (ses y) !! n) as [p|] eqn:E; [|by apply A].
    unfold outgoing. destruct (sendPending_outgoing now p (set_ses (upd_inflight (delete n (inflight (ses y))) (ses y)) y))
      as [-> ->]. split; [by eexists|]. exists []. split; [|done].
    unfold inflight_calls. simpl. rewrite app_nil_r -app_assoc. f_equiv.
    rewrite {2}(delete_Permutation _ _ _ E) //.
Qed.

(** A session as [createWithAuthorization] builds it. *)
Definition fresh_session y : Prop :=
  exists id kind_ host key hash now max,
    ses y = newSession id kind_ host key hash now max /\ 0 <= max /\ tabs y = ∅ /\ calls y = [].

Lemma fresh_session_ok y : fresh_session y -> sys_ok y.
Proof.
  intros (id & kd & host & key & hash & now & max & E & Hm & T & _).
  unfold sys_ok. rewrite E T. split; simpl; try done.
Qed.

Lemma fresh_history_ok y0 l y : fresh_session y0 -> history y0 l y -> sys_ok y.
Proof. intros F. apply history_ok. by apply fresh_session_ok. Qed.

Lemma history_close_once y l y' : close_once_ok y -> history y l y' -> close_once_ok y'.
Proof. intros I H. induction H; auto using run_sop_close_once. Qed.

Lemma history_outgoing y l y' k :
  history y l y' -> k ∈ outgoing y' ->
  k ∈ outgoing y \/
  exists l1 o l2 y1, l = l1 ++ o :: l2 /\ history y l1 y1 /\ authorised_send y1 o k.
Proof.
  intros H. induction H as [y|y o l y' OK H IH]; [by left|]. intros Hk.
  destruct (IH Hk) as [Hk'|(l1 & o' & l2 & y1 & -> & H1 & A)].
  - destruct (run_sop_outgoing o y) as (_ & new & E & N). rewrite E in Hk'.
    apply elem_of_app in Hk' as [Hk'|Hk']; [by left|]. right.
    exists [], o, l, y. rewrite -> Forall_forall in N. split_and!; [done|constructor|by apply N].
  - right. exists (o :: l1), o', l2, y1. split_and!; [done|by constructor|done].
Qed.

(** *** Revocation *)

Lemma cl_done_close c h d cl :
  close_client c h !! d = Some cl -> (c = d -> cl_done cl = true) /\
  (forall cl0, h !! d = Some cl0 -> cl_done cl0 = true -> cl_done cl = true).
Proof.
  unfold close_client. rewrite lookup_alter. case_decide as D; [subst d|].
  - destruct (h !! c) as [cl0|]; simpl; [|done]. intros [= <-].
    split; [by destruct (cl_done cl0) eqn:E|]. intros ? [= <-] E. by rewrite E.
  - intros H. split; [done|]. intros cl0. rewrite H. by intros [= ->].
Qed.

Lemma close_all_done (l : list (string * nat)) h c cl :
  c ∈ l.*2 -> foldr (fun idc h => close_client (snd idc) h) h l !! c = Some cl -> cl_done cl = true.
Proof.
  revert cl. induction l as [|[id d] l IH]; intros cl; simpl; [by intros ?%elem_of_nil|].
  rewrite elem_of_cons. intros [->|Hc] H; [by apply cl_done_close in H as [-> _]|].
  destruct (foldr _ h l !! c) as [cl0|] eqn:E.
  - apply cl_done_close in H as [_ H]. eapply H; [done|]. by apply IH.
  - unfold close_client in H. rewrite lookup_alter in H. by case_decide; simplify_eq; rewrite E in H.
Qed.

Lemma closeClients_done y id c cl :
  clients (ses y) !! id = Some c -> tabs (closeClients y) !! c = Some cl -> cl_done cl = true.
Proof.
  intros Hc. unfold closeClients. simpl. apply close_all_done.
  apply list_elem_of_fmap. exists (id, c). split; [done|]. by apply elem_of_map_to_list.
Qed.

Lemma terminate_clients now y : clients (ses (terminate now y)) = clients (ses y).
Proof.
  unfold terminate. destruct (closeOnce _); [done|]. destruct (inactive _); [done|].
  destruct (bp_closeConnection _ _ _) as [b [|]]; [done|]. unfold markEnded. by destruct (bool_decide _).
Qed.

(** What revocation establishes, and every later operation keeps. *)
Definition dead (s : persistentSession) : Prop :=
  delegationRevoked s = true /\ replay s = [] /\ clients s = ∅ /\ controller s = "".

Lemma history_dead y l y' :
  sys_ok y -> dead (ses y) -> history y l y' ->
  dead (ses y') /\ sends (calls y) `prefix_of` sends (calls y') /\ outgoing y' ≡ₚ outgoing y.
Proof.
  intros I D H. induction H as [y|y o l y' OK H IH]; [done|].
  pose proof (run_sop_ok o y I OK) as I'. destruct D as (R & _ & C & _).
  destruct (run_sop_le o y I OK) as [_ _ LR _]. destruct (LR R) as [R' C'].
  assert (clients (ses (run_sop o y)) = ∅) as CE.
  { apply (anti_symm (⊆)); [by rewrite -C|apply map_empty_subseteq]. }
  assert (dead (ses (run_sop o y))) as D'.
  { destruct I' as [_ _ Ictl Irev _ _ _ _ _]. split_and!; auto.
    destruct (decide (controller (ses (run_sop o y)) = "")) as [|N]; [done|].
    destruct (Ictl N) as ([? X] & _). by rewrite CE in X. }
  destruct (IH I' D') as (D'' & P & S). destruct (run_sop_outgoing o y) as (P1 & new & E & N).
  split_and!; [done|by etrans|]. rewrite S E. destruct new as [|k new]; [by rewrite app_nil_r|].
  exfalso. apply Forall_cons in N as [(c & id & ? & ? & _ & _ & W & _) _].
  unfold may_write in W. rewrite C lookup_empty in W. bool_to_prop. done.
Qed.

Lemma revoke_dead now y : dead (ses (revokeDelegation now y)).
Proof.
  unfold revokeDelegation, dead. simpl. split_and!; try done;
  unfold terminate; destruct (closeOnce _); try done; destruct (inactive _); try done;
  destruct (bp_closeConnection _ _ _) as [b [|]]; try done; unfold markEnded; by destruct (bool_decide _).
Qed.

(** Revocation cannot be undone. *)
Lemma marked_stays y0 l1 lr y :
  fresh_session y0 -> history y0 (l1 ++ SRevokeMark :: lr) y -> delegationRevoked (ses y) = true.
Proof.
  intros F (ym & Hm & Hr)%history_app. inversion Hr as [|? ? ? ? OK Hr']; subst.
  pose proof (fresh_history_ok _ _ _ F Hm) as I.
  by apply (history_le _ _ _ (upd_revoked_ok _ I) Hr').
Qed.

(** *** The end of a session *)

Lemma pump_loop_ok now msgs y :
  sys_ok y -> sys_ok (pump_loop now msgs y) /\ ses_le (ses y) (ses (pump_loop now msgs y)).
Proof.
  revert y. induction msgs as [|m msgs IH]; intros y I; simpl; [done|].
  destruct (bool_decide (Type_ m = Body)).
  - destruct (IH _ (appendOutput_ok now (Body_ m) y I)) as [I' L]. split; [done|].
    etrans; [apply appendOutput_le|done].
  - destruct (bool_decide (Type_ m = Close)); [|by apply IH].
    destruct (bool_decide _); [|done]. split; [|done].
    eapply session_ok_tabs; [exact I|apply outcome_le].
Qed.

Lemma pump_spec now msgs y :
  sys_ok y -> status (ses (pump now msgs y)) = Ended /\ controller (ses (pump now msgs y)) = "" /\
  is_Some (endedAt (ses (pump now msgs y))) /\
  bp_open (be (pump now msgs y)) (hostKey (ses y)) (msgKey (ses y)) = false.
Proof.
  intros I. destruct (pump_loop_ok now msgs y I) as [I1 L1]. unfold pump.
  pose proof (markEnded_ok now _ I1) as I2. pose proof (markEnded_le now _ I1) as L2.
  destruct (le_fixed _ _ (transitivity L1 L2)) as (_ & _ & Eh & Ek & _).
  destruct (bp_releaseConnection _ _ _) as [b ok] eqn:E. apply bp_release_law in E.
  assert (status (ses (markEnded now (pump_loop now msgs y))) = Ended) as S
    by (unfold markEnded; by case_bool_decide).
  rewrite Eh Ek in E. cbn [ses be call]. destruct I2 as [_ _ Ic _ Ie _ _ _ _].
  split_and!; [done| | |done].
  - destruct (decide (controller (ses (markEnded now (pump_loop now msgs y))) = "")) as [|N]; [done|].
    destruct (Ic N) as (_ & _ & X). by rewrite S in X.
  - by rewrite decide_True in Ie.
Qed.

(** *** Attaching many tabs *)

Lemma addClient_clients now c id y :
  delegationRevoked (ses y) = false ->
  clients (ses (run_sop (SAttach now c id) y)) = <[id:=c]> (clients (ses y)) /\
  delegationRevoked (ses (run_sop (SAttach now c id) y)) = false.
Proof.
  intros R. cbn [run_sop]. unfold addClient. simpl. rewrite R. simpl. by destruct (_ && _ && _).
Qed.

Lemma addClient_tabs now c id y d :
  d <> c -> clientID <$> tabs (run_sop (SAttach now c id) y) !! d = clientID <$> tabs y !! d.
Proof.
  intros N. cbn [run_sop]. set (h := <[c:=_]> (tabs y)).
  transitivity (clientID <$> h !! d); [|unfold h; by rewrite lookup_insert_ne].
  unfold addClient. simpl. destruct (delegationRevoked (ses y)); [apply close_client_le|]. simpl.
  rewrite (proj1 (broadcast_le _ _ _)) (proj1 (enqueue_client_le _ _ _)) (proj1 (enqueue_client_le _ _ _)).
  destruct (clients (ses y) !! id); [apply close_client_le|done].
Qed.

Definition tab_name (n : nat) : string := "tab_" +:+ pretty (Z.of_nat n).

Lemma attach_many n y :
  sys_ok y -> delegationRevoked (ses y) = false -> clients (ses y) = ∅ -> tabs y = ∅ ->
  exists l y', history y l y' /\ size (clients (ses y')) = n /\ delegationRevoked (ses y') = false /\
    (forall d, (n <= d)%nat -> tabs y' !! d = None /\ clients (ses y') !! tab_name d = None).
Proof.
  intros I R C T. induction n as [|n (l & y' & H & S & R' & Fr)].
  - exists [], y. split_and!; [constructor|by rewrite C|done|]. intros d _. by rewrite T C.
  - destruct (Fr n (le_n n)) as [Ft Fc]. destruct (addClient_clients 0 n (tab_name n) y' R') as [Ec Er].
    exists (l ++ [SAttach 0 n (tab_name n)]), (run_sop (SAttach 0 n (tab_name n)) y'). split_and!.
    + apply history_app. exists y'. split; [done|]. constructor; [by split|constructor].
    + rewrite Ec map_size_insert_None //. lia.
    + done.
    + intros d Hd. destruct (Fr d) as [Gt Gc]; [lia|]. split.
      * pose proof (addClient_tabs 0 n (tab_name n) y' d) as N. rewrite Gt in N.
        eapply fmap_None, N. lia.
      * rewrite Ec lookup_insert_ne //. unfold tab_name.
        intros E%(inj (String.append "tab_"))%(inj pretty). lia.
Qed.

(** ** Properties of every history *)

(** C2: Whatever the interleaving of output, attaching, detaching and writing tabs,
    input, termination and revocation, the accounting of the replay buffer is
    exact and within its limit, the controlling tab is attached to a live
    terminal session, no tab has more than 256 frames pending, the identifiers in
    the client table are those of the objects they name, and the delegation
    watcher of a session that ended or was revoked is stopped. *)
Theorem session_invariant y0 l y :
  fresh_session y0 -> history y0 l y ->
  replayBytes (ses y) = replay_size (replay (ses y)) /\
  0 <= replayBytes (ses y) <= maxReplayBytes (ses y0) /\
  (controller (ses y) <> "" -> is_Some (clients (ses y) !! controller (ses y)) /\
     kind (ses y) = "terminal" /\ inactive (status (ses y)) = false) /\
  (forall c cl, tabs y !! c = Some cl -> (length (sendQueue cl) <= workspaceClientQueueSize)%nat) /\
  (forall id c, clients (ses y) !! id = Some c -> clientID <$> tabs y !! c = Some id) /\
  (delegationStop (ses y) = true ->
     inactive (status (ses y)) = true \/ delegationRevoked (ses y) = true ->
     watching (ses y) = false).
Proof.
  intros F H. pose proof (fresh_session_ok _ F) as I0.
  destruct (history_le _ _ _ I0 H) as [_ _ _ (_ & _ & _ & _ & _ & M & _)].
  destruct (fresh_history_ok _ _ _ F H) as [Eb Em Ec _ _ _ Ew Et Eq]. rewrite -M.
  split_and!; auto; [lia..|]. intros id c Hc. by apply Et.
Qed.

(** The status of a session only moves forward, connecting to connected to
    closing to ended; an ended session stays ended, and its identity, owner and
    secret never change. *)
Theorem session_status_forward y0 l1 y1 l2 y2 :
  fresh_session y0 -> history y0 l1 y1 -> history y1 l2 y2 ->
  (status_rank (status (ses y1)) <= status_rank (status (ses y2)) <= status_rank Ended)%nat /\
  (status (ses y1) = Ended -> status (ses y2) = Ended) /\
  s_id (ses y2) = s_id (ses y1) /\ kind (ses y2) = kind (ses y1) /\
  hostKey (ses y2) = hostKey (ses y1) /\ msgKey (ses y2) = msgKey (ses y1) /\
  secretHash (ses y2) = secretHash (ses y1).
Proof.
  intros F H1 H2. pose proof (fresh_history_ok _ _ _ F H1) as I1.
  pose proof (history_ok _ _ _ I1 H2) as I2.
  destruct (history_le _ _ _ I1 H2) as [L _ _ (E1 & E2 & E3 & E4 & E5 & _)].
  assert (status_rank (status (ses y2)) <= 3)%nat as R.
  { destruct I2. destruct (status (ses y2)); simpl; lia || done. }
  split_and!; auto. intros E. rewrite E in L.
  destruct (status (ses y2)); simpl in *; lia || done.
Qed.

(** C3: Terminal data and resizes reach the backend only from the tab that holds
    control: every message a session sent to its host, or is about to send, came
    from a frame of the client object registered under the controlling identifier
    of a connected terminal session at the moment its guard ran, and is either its
    input, non-empty, at most 96 KiB and valid base64, unchanged, or a resize
    command with both dimensions in [2, 1000]. *)
Theorem only_controller_writes y0 l y k :
  fresh_session y0 -> history y0 l y -> k ∈ outgoing y ->
  exists l1 o l2 y1, l = l1 ++ o :: l2 /\ history y0 l1 y1 /\ authorised_send y1 o k.
Proof.
  intros (? & ? & ? & ? & ? & ? & ? & Es & _ & _ & E) H Hk.
  destruct (history_outgoing _ _ _ _ H Hk) as [Hk'|]; [|done].
  unfold outgoing, inflight_calls in Hk'. rewrite E Es in Hk'. by apply not_elem_of_nil in Hk'.
Qed.

(** The stream of a session is closed at most once on its host, whatever
    combination of user requests, failed writes, expiry and revocation asks for
    it. *)
Theorem backend_closed_at_most_once y0 l y :
  fresh_session y0 -> history y0 l y -> (length (closes (calls y)) <= 1)%nat.
Proof.
  intros (? & ? & ? & ? & ? & ? & ? & _ & _ & _ & E) H.
  refine (proj1 (history_close_once y0 l y _ H)). unfold close_once_ok. rewrite E. simpl. split; [lia|done].
Qed.

(** C4: Revoking the delegation of a session is final, however the three critical
    sections of [revokeDelegation] (marking, terminating, closing the tabs) are
    interleaved with other operations: every attached tab is closed at its end, and
    in every later state the retained output is gone, no tab is attached or in
    control, the secret no longer opens the session, and nothing is sent to the
    host any more except input that had already passed its guard when the tabs
    were closed. *)
Theorem revocation_is_final y0 l1 lr y1 l2 y2 :
  fresh_session y0 -> history y0 (l1 ++ SRevokeMark :: lr) y1 ->
  history (run_sop SCloseClients y1) l2 y2 ->
  (forall id c cl, clients (ses y1) !! id = Some c ->
     tabs (run_sop SCloseClients y1) !! c = Some cl -> cl_done cl = true) /\
  delegationRevoked (ses y2) = true /\ replay (ses y2) = [] /\ clients (ses y2) = ∅ /\
  controller (ses y2) = "" /\
  (forall now' candidate live, matchesSecretHash now' candidate live y2 = (y2, false)) /\
  exists late, sends (calls y2) = sends (calls y1) ++ late /\
    late ++ inflight_calls y2 ≡ₚ inflight_calls y1.
Proof.
  intros F H1 H2. pose proof (fresh_history_ok _ _ _ F H1) as I1.
  assert (delegationRevoked (ses y1) = true) as R1 by by eapply marked_stays.
  assert (dead (ses (closeClients y1))) as D1.
  { destruct I1 as [_ _ _ Irev _ _ _ _ _]. split_and!; simpl; auto. }
  destruct (history_dead _ _ _ (closeClients_ok _ I1) D1 H2) as ((R & P & C & K) & [late S] & O).
  split_and!; try done.
  - intros id c cl Hc. by apply closeClients_done with (id := id).
  - intros now' cand live. unfold matchesSecretHash. destruct (negb _); [done|]. by rewrite R.
  - exists late. split; [done|]. unfold outgoing in O. rewrite S -app_assoc in O.
    by apply (inj (app _)) in O.
Qed.

(** C35: A user's request to end a live session closes its stream on the host and
    stops its output at once; and [pump], however many messages are still
    pending, returns with the session ended, nobody in control and the stream
    released. *)
Theorem session_ends y0 l y now now' msgs :
  fresh_session y0 -> history y0 l y -> closeOnce (ses y) = false -> inactive (status (ses y)) = false ->
  let y1 := terminate now y in
  bp_open (be y1) (hostKey (ses y)) (msgKey (ses y)) = false /\
  (status (ses y1) = Closing \/ status (ses y1) = Ended) /\
  (forall t data, appendOutput t data y1 = y1) /\
  let y2 := pump now' msgs y1 in
  status (ses y2) = Ended /\ controller (ses y2) = "" /\ is_Some (endedAt (ses y2)) /\
  bp_open (be y2) (hostKey (ses y)) (msgKey (ses y)) = false.
Proof.
  intros F H O A y1. pose proof (fresh_history_ok _ _ _ F H) as I.
  pose proof (terminate_ok now y I) as I1. pose proof (terminate_le now y I) as L1. fold y1 in I1, L1.
  assert (bp_open (be y1) (hostKey (ses y)) (msgKey (ses y)) = false /\
    (status (ses y1) = Closing \/ status (ses y1) = Ended)) as [C S].
  { unfold y1, terminate. rewrite O. cbn [ses set_ses upd_once status]. rewrite A. simpl.
    destruct (bp_closeConnection _ _ _) as [b ok] eqn:E. apply bp_close_law in E.
    destruct ok; [by split; [|left]|]. unfold markEnded. simpl. by split; [|right]. }
  split_and!; [done|done| |].
  { intros t data. unfold appendOutput. by destruct S as [-> | ->]. }
  destruct (pump_spec now' msgs y1 I1) as (E1 & E2 & E3 & E4).
  destruct (le_fixed _ _ L1) as (_ & _ & Eh & Ek & _). rewrite Eh Ek in E4. by split_and!.
Qed.

(** When a tab reconnects (the same identifier on a new connection), the end of
    the reader of its replaced connection takes the control it had away and gives
    it to some other attached tab, although the reconnected tab is still
    attached; [removeClient] compares the identifier, not the connection. *)
Theorem replaced_connection_takes_control hint c id y :
  controller (ses y) = id -> clients (ses y) !! id <> Some c -> is_Some (clients (ses y) !! hint) ->
  clients (ses (removeClient hint c id y)) = clients (ses y) /\
  controller (ses (removeClient hint c id y)) = hint.
Proof.
  intros E N [d Hd]. unfold removeClient. rewrite (bool_decide_eq_true_2 _ E) bool_decide_eq_false_2 //.
  simpl. unfold range_first. by rewrite Hd.
Qed.

(** A revocation that arrives while [createWithAuthorization] is still
    connecting is overwritten: the session ends up revoked but connected, and
    since its [sync.Once] has fired, no later request can terminate it. *)
Theorem connected_overwrites_revocation y now t t' :
  let y' := run_sop (SConnected t) (revokeDelegation now y) in
  delegationRevoked (ses y') = true /\ status (ses y') = Connected /\ terminate t' y' = y'.
Proof.
  assert (closeOnce (ses (revokeDelegation now y)) = true) as O.
  { unfold revokeDelegation. simpl. apply terminate_calls. }
  split_and!; [apply (revoke_dead now y)|done|]. unfold terminate. cbn [run_sop ses set_ses upd_status closeOnce].
  by rewrite O.
Qed.

(** No operation bounds the number of tabs attached to one session: any number
    of them can be attached at the same time. *)
Theorem attached_tabs_unbounded y n :
  sys_ok y -> delegationRevoked (ses y) = false -> clients (ses y) = ∅ -> tabs y = ∅ ->
  exists l y', history y l y' /\ size (clients (ses y')) = n.
Proof.
  intros I R C T. destruct (attach_many n y I R C T) as (l & y' & H & S & _). eauto.
Qed.
End Props.

(** ** Witnesses: a terminal session on the multiplexer *)

Module SessionDemo.
#[export] Instance demo_backend : backendProxy world := manager_backendProxy Demo.keyURL.

(** Stream [k1] of [Demo.w3]; 100 bytes of replay. *)
Definition y0 : sys world :=
  mkSys (newSession "psw_1" "terminal" "host" "k1" "hash" 0 100) ∅ Demo.w3 [].

Definition input (data : string) : workspaceClientFrame := mkClientFrame "input" data 0 0.

(** A delegated session connects; tabs [a] and [b] attach, [a] has control and
    types; output appears; [a] reconnects on a new connection. *)
Definition ops1 : list sop :=
  [SBindBegin; SBindFinish; SConnected 1; SAttach 2 0 "a"; SAttach 3 1 "b"; SOutput 4 "aGVsbG8=";
   SFrame 5 0 "a" (input "bHM="); SFrame 6 1 "b" (input "cm0="); SWriter 0 (WSend true)].
Definition ops2 : list sop := [SAttach 7 2 "a"; SOutput 8 "d29ybGQ="; SOutput 9 "IQ=="].

Definition runs (l : list sop) (y : sys world) : sys world := fold_left (fun y o => run_sop o y) l y.

Fixpoint runs_ok (l : list sop) (y : sys world) : Prop :=
  match l with [] => True | o :: l => sop_ok o y /\ runs_ok l (run_sop o y) end.

Lemma history_runs l y : runs_ok l y -> history y l (runs l y).
Proof.
  revert y. induction l as [|o l IH]; intros y H; [constructor|]. destruct H as [H1 H2].
  constructor; [done|]. by apply IH.
Qed.

Definition y1 : sys world := runs ops1 y0.
Definition y2 : sys world := runs ops2 y1.

Lemma y0_fresh : fresh_session y0.
Proof. repeat eexists. lia. Qed.

Lemma y1_history : history y0 ops1 y1.
Proof. apply history_runs. vm_compute. by split_and!. Qed.

Lemma y2_history : history y1 ops2 y2.
Proof. apply history_runs. vm_compute. by split_and!. Qed.

Lemma y02_history : history y0 (ops1 ++ ops2) y2.
Proof. apply history_app. exists y1. split; [apply y1_history|apply y2_history]. Qed.
End SessionDemo.
Import SessionDemo.

Lemma session_invariant_witness :
  controller (ses y2) = "a" /\ replayBytes (ses y2) = 76 /\ 0 <= replayBytes (ses y2) <= 100.
Proof.
  split_and!; [by vm_compute|by vm_compute|..];
    apply (session_invariant y0 (ops1 ++ ops2) y2 y0_fresh y02_history).
Defined.

Lemma session_status_forward_witness : (1 <= status_rank (status (ses y2)) <= 3)%nat.
Proof.
  destruct (session_status_forward y0 ops1 y1 ops2 y2 y0_fresh y1_history y2_history) as [H _].
  exact H.
Defined.

(** The input of [a] was sent, that of [b] was not. *)
Lemma only_controller_writes_witness :
  sends (calls y2) = [CallSend "host" "k1" "bHM="] /\
  exists l1 o l2 z, ops1 ++ ops2 = l1 ++ o :: l2 /\ history y0 l1 z /\
    authorised_send z o (CallSend "host" "k1" "bHM=").
Proof.
  split; [by vm_compute|].
  apply (only_controller_writes y0 (ops1 ++ ops2) y2 _ y0_fresh y02_history).
  assert (outgoing y2 = [CallSend "host" "k1" "bHM="]) as -> by by vm_compute. left.
Defined.

Lemma backend_closed_at_most_once_witness :
  (length (closes (calls (runs [STerminate 10; STerminate 20] y2))) <= 1)%nat.
Proof.
  apply (backend_closed_at_most_once y0 ((ops1 ++ ops2) ++ [STerminate 10; STerminate 20])).
  - apply y0_fresh.
  - apply history_app. exists y2. split; [apply y02_history|].
    apply (history_runs [STerminate 10; STerminate 20]). exact (conj Logic.I (conj Logic.I Logic.I)).
Defined.

(** [a] types; the session is revoked while the input is past its guard, and it is
    sent after the tabs were closed. *)
Definition ops_revoke : list sop := [SGuard 2 "a" (input "bHM="); SRevokeMark; STerminate 10].
Definition yr : sys world := runs ops_revoke y2.
Definition yl : sys world := runs [SSend 11 0; SGuard 2 "a" (input "cm0=")] (run_sop SCloseClients yr).

Lemma yr_history : history y0 (((ops1 ++ ops2) ++ [SGuard 2 "a" (input "bHM=")]) ++ [SRevokeMark; STerminate 10]) yr.
Proof.
  rewrite -app_assoc. apply history_app. exists y2. split; [apply y02_history|].
  apply history_runs. vm_compute. by split_and!.
Qed.

Lemma yl_history : history (run_sop SCloseClients yr) [SSend 11 0; SGuard 2 "a" (input "cm0=")] yl.
Proof. apply history_runs. vm_compute. by split_and!. Qed.

Lemma revocation_is_final_witness :
  size (clients (ses yr)) = 2%nat /\ replay (ses yl) = [] /\
  matchesSecretHash 11 "hash" true yl = (yl, false) /\
  exists late, sends (calls yl) = sends (calls yr) ++ late /\
    late ++ inflight_calls yl ≡ₚ [CallSend "host" "k1" "bHM="].
Proof.
  destruct (revocation_is_final y0 ((ops1 ++ ops2) ++ [SGuard 2 "a" (input "bHM=")]) [STerminate 10] yr
    [SSend 11 0; SGuard 2 "a" (input "cm0=")] yl y0_fresh yr_history yl_history)
    as (_ & _ & R & _ & _ & M & late & S & P).
  split_and!; [by vm_compute|exact R|apply M|]. exists late. split; [exact S|].
  replace [CallSend "host" "k1" "bHM="] with (inflight_calls yr) by by vm_compute. exact P.
Defined.

(** Input that passed its guard is sent to the host although the delegation has
    been revoked and every tab closed in the meantime. *)
Example input_sent_after_revocation :
  delegationRevoked (ses (run_sop SCloseClients yr)) = true /\ clients (ses (run_sop SCloseClients yr)) = ∅ /\
  sends (calls yl) = sends (calls (run_sop SCloseClients yr)) ++ [CallSend "host" "k1" "bHM="].
Proof. by vm_compute. Qed.

Lemma session_ends_witness :
  status (ses (pump 12 [mkMessage "k1" Body "bGFzdA=="; mkMessage "k1" Close ""] (terminate 11 y2))) = Ended.
Proof.
  apply (session_ends y0 (ops1 ++ ops2) y2 11 12 [mkMessage "k1" Body "bGFzdA=="; mkMessage "k1" Close ""]
    y0_fresh y02_history); by vm_compute.
Defined.

(** Connection 0 of tab [a] was replaced by connection 2; its reader returns. *)
Lemma replaced_connection_takes_control_witness :
  clients (ses y2) !! "a" = Some 2%nat /\ controller (ses y2) = "a" /\
  controller (ses (run_sop (SDetach "b" 0 "a") y2)) = "b" /\ sop_ok (SDetach "b" 0 "a") y2.
Proof.
  split_and!; [by vm_compute|by vm_compute| |by vm_compute].
  apply (replaced_connection_takes_control "b" 0 "a" y2); [by vm_compute|by vm_compute|].
  vm_compute. by eexists.
Defined.

Lemma attached_tabs_unbounded_witness :
  exists l y', history y0 l y' /\ size (clients (ses y')) = 1000%nat.
Proof. apply (attached_tabs_unbounded y0 1000); [apply fresh_session_ok, y0_fresh|done..]. Defined.
