(* ===== verification/SessionStream.v ===== *)
(** * What a console tab receives

    The contents of the replay buffer against a reference definition, and the
    frames an attached tab is sent: greeting, replay, and then every later output
    of the terminal, in order and without a gap. *)

From S2P Require Import Prelude GoString Message Multiplexer Backend Session SessionProps.

(** ** Outputs *)

Lemma longest_fit_id max l : replay_size l <= max -> longest_fit max l = l.
Proof.
  destruct l as [|e l]; [done|]. cbn [longest_fit]. intros H.
  destruct (max <? replay_size (e :: l)) eqn:E; [bool_to_prop; lia|done].
Qed.

Lemma longest_fit_app max l l' :
  longest_fit max (longest_fit max l ++ l') = longest_fit max (l ++ l').
Proof.
  induction l' as [|e l' IH] using rev_ind.
  - rewrite !app_nil_r. induction l as [|x l IH]; [done|]. cbn [longest_fit].
    destruct (max <? replay_size (x :: l)) eqn:E; [done|]. cbn [longest_fit]. by rewrite E.
  - rewrite !app_assoc -longest_fit_snoc IH longest_fit_snoc //.
Qed.

(** ** The frames of one tab *)

(** Everything a tab was sent: written to its WebSocket, or still pending. *)
Definition stream (cl : workspaceClient) : list workspaceServerFrame := written cl ++ sendQueue cl.

Section Grow.
Context {X : Type} (view : workspaceServerFrame -> list X).

(** From [h] to [h'], client object [c] keeps its identifier, and either is closed
    in [h'] or was open all along and its stream grew by frames whose view is
    [outs]. *)
Definition grows (c : nat) (outs : list X) (h h' : gmap nat workspaceClient) : Prop :=
  clientID <$> h' !! c = clientID <$> h !! c /\
  forall cl', h' !! c = Some cl' -> cl_done cl' = false ->
  exists cl new, h !! c = Some cl /\ cl_done cl = false /\ stream cl' = stream cl ++ new /\
    new ≫= view = outs.

Lemma grows_refl c h : grows c [] h h.
Proof. split; [done|]. intros cl H D. exists cl, []. by rewrite app_nil_r. Qed.

Lemma grows_trans c o1 o2 h1 h2 h3 :
  grows c o1 h1 h2 -> grows c o2 h2 h3 -> grows c (o1 ++ o2) h1 h3.
Proof.
  intros [N1 G1] [N2 G2]. split; [by rewrite N2|]. intros cl3 H3 D3. destruct (G2 _ H3 D3) as (cl2 & n2 & H2 & D2 & E2 & O2).
  destruct (G1 _ H2 D2) as (cl1 & n1 & H1 & D1 & E1 & O1). exists cl1, (n1 ++ n2).
  by rewrite E2 E1 app_assoc bind_app O1 O2.
Qed.

Lemma grows_trans_nil c o h1 h2 h3 : grows c o h1 h2 -> grows c [] h2 h3 -> grows c o h1 h3.
Proof. intros G1 G2. rewrite -(app_nil_r o). by eapply grows_trans. Qed.

Lemma grows_close c d h : grows c [] h (close_client d h).
Proof.
  split; [apply close_client_le|].
  intros cl' H D. unfold close_client in H. rewrite lookup_alter in H. case_decide; [subst|].
  - destruct (h !! c) as [cl|] eqn:E; simpl in H; [|done]. injection H as <-.
    destruct (cl_done cl) eqn:Dn; [by rewrite Dn in D|done].
  - exists cl', []. by rewrite app_nil_r.
Qed.

Lemma close_client_closes c h : forall cl, close_client c h !! c = Some cl -> cl_done cl = true.
Proof. intros cl H. by apply cl_done_close in H as [-> _]. Qed.

Lemma grows_enqueue c d f h :
  grows c (if bool_decide (c = d) && snd (enqueue_client d f h) then view f else [])
    h (fst (enqueue_client d f h)).
Proof.
  split; [apply enqueue_client_le|].
  unfold enqueue_client. destruct (h !! d) as [cl|] eqn:E; simpl; [|rewrite andb_false_r; apply grows_refl].
  destruct (cl_done cl) eqn:D; simpl; [rewrite andb_false_r; apply grows_refl|].
  destruct (_ <? _)%nat; simpl; [|rewrite andb_false_r; apply grows_refl].
  rewrite andb_true_r. intros cl' H D'. rewrite lookup_insert in H. case_decide as N.
  - subst. injection H as <-. exists cl, [f]. rewrite bool_decide_eq_true_2 //.
    split_and!; try done; [|by rewrite /= app_nil_r].
    unfold stream. simpl. by rewrite app_assoc.
  - rewrite bool_decide_eq_false_2 //. exists cl', []. by rewrite app_nil_r.
Qed.

Lemma grows_enqueue_quiet c d f h : view f = [] -> grows c [] h (fst (enqueue_client d f h)).
Proof.
  intros F. pose proof (grows_enqueue c d f h) as G. 
  rewrite F in G. by destruct (bool_decide (c = d) && _).
Qed.

Lemma grows_deliver c d f h :
  grows c (if bool_decide (c = d) then view f else []) h (deliver f d h).
Proof.
  unfold deliver. pose proof (grows_enqueue c d f h) as G.
  destruct (enqueue_client d f h) as [h' [|]]; simpl in G; [by rewrite andb_true_r in G|].
  rewrite andb_false_r in G. case_bool_decide as N.
  - subst. split; [by rewrite (proj1 (close_client_le d h') d) (proj1 G)|].
    intros cl' H D. by rewrite (close_client_closes _ _ _ H) in D.
  - eapply grows_trans_nil; [done|apply grows_close].
Qed.

(** A broadcast reaches a tab once if it is registered, and not otherwise. *)
Lemma grows_broadcast_list c f (l : list (string * nat)) h :
  NoDup (l.*2) ->
  grows c (if bool_decide (c ∈ l.*2) then view f else [])
    h (foldr (fun idc h => deliver f (snd idc) h) h l).
Proof.
  induction l as [|[id d] l IH]; simpl; intros ND; [apply grows_refl|].
  apply NoDup_cons in ND as [Nin ND]. specialize (IH ND).
  pose proof (grows_deliver c d f (foldr (fun idc h => deliver f (snd idc) h) h l)) as G.
  destruct (decide (c = d)) as [->|N].
  - rewrite (bool_decide_eq_false_2 _ Nin) in IH. rewrite bool_decide_eq_true_2 in G; [|done].
    rewrite bool_decide_eq_true_2; [|left]. by eapply (grows_trans d []).
  - rewrite (bool_decide_eq_false_2 (c = d)) in G; [|done].
    rewrite (bool_decide_ext (c ∈ d :: l.*2) (c ∈ l.*2)); [by eapply grows_trans_nil|].
    rewrite elem_of_cons. naive_solver.
Qed.

Lemma clients_NoDup s h : session_ok s h -> NoDup ((map_to_list (clients s)).*2).
Proof.
  intros I. apply NoDup_fmap_2_strong; [|apply NoDup_map_to_list].
  intros [i1 c1] [i2 c2] H1%elem_of_map_to_list H2%elem_of_map_to_list. simpl. intros <-.
  destruct I as [_ _ _ _ _ _ _ C _]. destruct (C _ _ H1) as [_ E1]. destruct (C _ _ H2) as [_ E2].
  congruence.
Qed.

Lemma registered_iff s h c id :
  session_ok s h -> clientID <$> h !! c = Some id ->
  c ∈ (map_to_list (clients s)).*2 <-> clients s !! id = Some c.
Proof.
  intros [_ _ _ _ _ _ _ C _] Hid. rewrite list_elem_of_fmap. split.
  - intros ([id' c'] & -> & H%elem_of_map_to_list). simpl in *.
    destruct (C _ _ H) as [_ E]. congruence.
  - intros H. exists (id, c). split; [done|]. by apply elem_of_map_to_list.
Qed.

Lemma grows_foldr {A} (g : A -> gmap nat workspaceClient -> gmap nat workspaceClient) c l h :
  (forall a h, grows c [] h (g a h)) -> grows c [] h (foldr g h l).
Proof.
  intros G. induction l as [|a l IH]; simpl; [apply grows_refl|]. by eapply grows_trans_nil.
Qed.

Lemma grows_broadcast s f h c : view f = [] -> grows c [] h (broadcastLocked s f h).
Proof.
  intros F. apply grows_foldr. intros [id d] h'. pose proof (grows_deliver c d f h') as G.
  rewrite F in G. by destruct (bool_decide _).
Qed.

End Grow.

(** The output entry a frame carries, if it is an output frame. *)
Definition out_view (f : workspaceServerFrame) : list workspaceReplayEntry :=
  if bool_decide (f_Type f = "output") then [mkEntry (f_Sequence f) (f_Data f)] else [].
Definition output_entries (l : list workspaceServerFrame) : list workspaceReplayEntry := l ≫= out_view.

Section Stream.
Context {B : Type} `{BP : backendProxy B}.
Implicit Types y : sys B.
Abbreviation grows := (grows out_view).

(** The output an operation produces: one entry, unless the session no longer
    accepts output. *)
Definition emitted (o : sop) y : list workspaceReplayEntry :=
  match o with
  | SOutput _ data =>
      if inactive (status (ses y)) || bool_decide (status (ses y) = Closing) || delegationRevoked (ses y)
      then [] else [mkEntry (uint64 (nextSequence (ses y) + 1)) data]
  | _ => []
  end.

(** All outputs of a run, in order. *)
Fixpoint outputs (l : list sop) y : list workspaceReplayEntry :=
  match l with [] => [] | o :: l => emitted o y ++ outputs l (run_sop o y) end.

(** Those small enough to be retained at all. *)
Definition retainable (max : Z) (l : list workspaceReplayEntry) : list workspaceReplayEntry :=
  List.filter (fun e => entry_size e <=? max) l.

(** ** The replay buffer *)

Lemma terminate_replay now y : replay (ses (terminate now y)) = replay (ses y).
Proof.
  unfold terminate. destruct (closeOnce _); [done|]. destruct (inactive _); [done|].
  destruct (bp_closeConnection _ _ _) as [b [|]]; [done|]. unfold markEnded. by destruct (bool_decide _).
Qed.

Lemma sendPending_replay now p y : replay (ses (sendPending now p y)) = replay (ses y).
Proof.
  unfold sendPending, send_backend. destruct (bp_send _ _ _ _) as [b [|]]; [|rewrite terminate_replay]; simpl;
    unfold touch; by destruct (bool_decide _).
Qed.

Lemma handleClientFrame_replay now c id f y :
  replay (ses (handleClientFrame now c id f y)) = replay (ses y).
Proof.
  unfold handleClientFrame. repeat case_bool_decide; try done.
  - unfold claimControl. by destruct (_ && _ && _).
  - unfold writeInput, checkInput. destruct (_ || _ || _); [done|]. destruct (b64_decode _); [|done].
    apply sendPending_replay.
  - unfold resize, checkResize. destruct (_ || _ || _ || _ || _); [done|]. apply sendPending_replay.
Qed.

Lemma run_sop_replay o y :
  sys_ok y -> delegationRevoked (ses (run_sop o y)) = false ->
  replay (ses (run_sop o y)) =
  longest_fit (maxReplayBytes (ses y)) (replay (ses y) ++ retainable (maxReplayBytes (ses y)) (emitted o y)).
Proof.
  intros I. pose proof I as [Eb Em _ _ _ _ _ _ _].
  assert (longest_fit (maxReplayBytes (ses y)) (replay (ses y)) = replay (ses y)) as Id
    by (apply longest_fit_id; lia).
  destruct o; cbn [run_sop emitted retainable List.filter]; rewrite ?app_nil_r ?Id;
    rewrite ?handleClientFrame_replay ?terminate_replay; try done.
  - unfold appendOutput. destruct (_ || _ || _); cbn [List.filter]; [by rewrite app_nil_r Id|].
    rewrite push_replay_spec //. intros _. simpl.
    destruct (_ <=? _); simpl; [done|by rewrite app_nil_r Id].
  - unfold addClient. simpl. destruct (delegationRevoked (ses y)); [done|]. simpl.
    by destruct (_ && _ && _).
  - unfold removeClient. by destruct (bool_decide (controller (ses y) = id)).
  - destruct (checkFrame_facts c id f y) as [E _]. destruct (checkFrame c id f y) as [y' [p|]]; simpl in *; by rewrite E.
  - destruct (inflight (ses y) !! n); [|done]. by rewrite sendPending_replay.
  - unfold writeLoop. by repeat case_match.
  - by rewrite (proj1 (revoke_dead now y)).
  - rewrite pump_nil. simpl. unfold markEnded. by destruct (bool_decide _).
Qed.

Lemma history_replay y l y' :
  sys_ok y -> history y l y' -> delegationRevoked (ses y') = false ->
  replay (ses y') =
  longest_fit (maxReplayBytes (ses y)) (replay (ses y) ++ retainable (maxReplayBytes (ses y)) (outputs l y)).
Proof.
  intros I H. induction H as [y|y o l y' OK H IH]; intros R.
  - simpl. rewrite app_nil_r longest_fit_id //. destruct I. lia.
  - pose proof (run_sop_ok o y I OK) as I'.
    destruct (run_sop_le o y I OK) as [_ _ _ (_ & _ & _ & _ & _ & M & _)].
    destruct (history_le _ _ _ I' H) as [_ _ LR _].
    rewrite IH // run_sop_replay //.
    + rewrite M longest_fit_app. cbn [outputs]. unfold retainable.
      by rewrite List.filter_app app_assoc.
    + destruct (delegationRevoked (ses (run_sop o y))); [|done].
      destruct (LR eq_refl) as [R' _]. by rewrite R' in R.
Qed.

(** ** What each operation sends to a tab *)

Lemma markEnded_grows now c y : grows c [] (tabs y) (tabs (markEnded now y)).
Proof. unfold markEnded. destruct (bool_decide _); [apply grows_refl|]. by apply grows_broadcast. Qed.

Lemma terminate_grows now c y : grows c [] (tabs y) (tabs (terminate now y)).
Proof.
  unfold terminate. destruct (closeOnce _); [apply grows_refl|]. destruct (inactive _); [apply grows_refl|].
  destruct (bp_closeConnection _ _ _) as [b [|]]; [by apply grows_broadcast|].
  eapply grows_trans_nil; [|apply markEnded_grows]. by apply grows_broadcast.
Qed.

Lemma sendPending_grows now c p y : grows c [] (tabs y) (tabs (sendPending now p y)).
Proof.
  assert (tabs (touch now y) = tabs y) as <- by (unfold touch; by destruct (bool_decide _)).
  unfold sendPending, send_backend. destruct (bp_send _ _ _ _) as [b [|]]; [apply grows_refl|].
  eapply grows_trans_nil; [|apply terminate_grows]. by apply grows_enqueue_quiet.
Qed.

Lemma checkInput_grows c d id data y : grows c [] (tabs y) (tabs (fst (checkInput d id data y))).
Proof.
  unfold checkInput. destruct (_ || _ || _); [apply grows_refl|].
  destruct (b64_decode _); [apply grows_refl|by apply grows_enqueue_quiet].
Qed.

Lemma checkResize_tabs d id cols rows y : tabs (fst (checkResize d id cols rows y)) = tabs y.
Proof. unfold checkResize. by destruct (_ || _ || _ || _ || _). Qed.

Lemma sendChecked_grows now c r y :
  grows c [] (tabs y) (tabs (fst r)) -> grows c [] (tabs y) (tabs (sendChecked now r)).
Proof.
  destruct r as [y' [p|]]; simpl; [|done]. intros G. eapply grows_trans_nil; [done|apply sendPending_grows].
Qed.

Lemma checkFrame_grows c d id f y : grows c [] (tabs y) (tabs (fst (checkFrame d id f y))).
Proof.
  unfold checkFrame. repeat case_bool_decide; rewrite ?checkResize_tabs; try apply grows_refl.
  apply checkInput_grows.
Qed.

Lemma handleClientFrame_grows now c d id f y :
  grows c [] (tabs y) (tabs (handleClientFrame now d id f y)).
Proof.
  unfold handleClientFrame. repeat case_bool_decide; try apply grows_refl.
  - unfold claimControl. destruct (_ && _ && _); [|apply grows_refl]. by apply grows_broadcast.
  - apply sendChecked_grows, checkInput_grows.
  - apply sendChecked_grows. rewrite checkResize_tabs. apply grows_refl.
  - by apply grows_enqueue_quiet.
Qed.

Lemma sendPending_clients now p y : clients (ses (sendPending now p y)) = clients (ses y).
Proof.
  unfold sendPending, send_backend. destruct (bp_send _ _ _ _) as [b [|]]; [|rewrite terminate_clients]; simpl;
    unfold touch; by destruct (bool_decide _).
Qed.

Lemma handleClientFrame_clients now d id f y :
  clients (ses (handleClientFrame now d id f y)) = clients (ses y).
Proof.
  unfold handleClientFrame. repeat case_bool_decide; try done.
  - unfold claimControl. by destruct (_ && _ && _).
  - unfold writeInput, checkInput. destruct (_ || _ || _); [done|].
    destruct (b64_decode _); [apply sendPending_clients|done].
  - unfold resize, checkResize. destruct (_ || _ || _ || _ || _); [done|apply sendPending_clients].
Qed.

Lemma appendOutput_grows now data c id y :
  sys_ok y -> clientID <$> tabs y !! c = Some id ->
  grows c (if bool_decide (clients (ses y) !! id = Some c) then emitted (SOutput now data) y else [])
    (tabs y) (tabs (appendOutput now data y)).
Proof.
  intros I Hid. unfold appendOutput, emitted.
  destruct (_ || _ || _); [destruct (bool_decide _); apply grows_refl|].
  set (e := mkEntry (uint64 (nextSequence (ses y) + 1)) data).
  change (mkEntry (uint64 (nextSequence (upd_status Connected now (ses y)) + 1)) data) with e.
  destruct (push_replay _ _) as [bytes entries]. simpl.
  pose proof (grows_broadcast_list out_view c (output_frame (upd_status Connected now (ses y)) e)
    (map_to_list (clients (ses y))) (tabs y) (clients_NoDup _ _ I)) as G.
  by rewrite (bool_decide_ext _ _ (registered_iff _ _ _ id I Hid)) in G.
Qed.

Lemma addClient_grows now c d id y : grows c [] (tabs y) (tabs (addClient now d id y)).
Proof.
  unfold addClient. destruct (delegationRevoked (ses y)); [apply grows_close|].
  eapply grows_trans_nil; [|by apply grows_broadcast].
  eapply grows_trans_nil; [|by apply grows_enqueue_quiet].
  eapply grows_trans_nil; [|by apply grows_enqueue_quiet].
  destruct (clients (ses y) !! id); [apply grows_close|apply grows_refl].
Qed.

Lemma writeLoop_grows c d ev y : grows c [] (tabs y) (tabs (writeLoop d ev y)).
Proof.
  unfold writeLoop. destruct (tabs y !! d) as [cl|] eqn:E; [|destruct ev; apply grows_refl].
  destruct ev as [ok|ok|]; [|destruct ok; [apply grows_refl|apply grows_close]|
    destruct (cl_done cl); [apply grows_close|apply grows_refl]].
  destruct (sendQueue cl) as [|f q] eqn:Q; [apply grows_refl|].
  split; [pose proof (writeLoop_le d (WSend ok) y) as [N _]; unfold writeLoop in N; rewrite E Q in N; apply N|].
  destruct ok; simpl.
  - intros cl' H D. rewrite lookup_insert in H. case_decide as N; [subst|].
    + injection H as <-. exists cl, []. split_and!; try done. unfold stream. simpl.
      by rewrite Q app_nil_r -app_assoc.
    + exists cl', []. by rewrite app_nil_r.
  - intros cl' H D. destruct (decide (d = c)) as [->|N].
    + by rewrite (close_client_closes _ _ _ H) in D.
    + unfold close_client in H. rewrite lookup_alter_ne // lookup_insert_ne // in H.
      exists cl', []. by rewrite app_nil_r.
Qed.

Lemma run_sop_grows_quiet o c y :
  sop_ok o y -> is_Some (tabs y !! c) -> (forall now data, o <> SOutput now data) ->
  grows c [] (tabs y) (tabs (run_sop o y)).
Proof.
  intros OK [cl0 Hin] N. destruct o; cbn [run_sop]; try apply grows_refl;
    auto using terminate_grows, handleClientFrame_grows, writeLoop_grows.
  - by edestruct N.
  - destruct OK as [Fr _]. assert (c0 <> c) by (intros ->; by rewrite Fr in Hin).
    eapply (grows_trans_nil _ _ _ _ (<[c0:=mkClient id [] false [] []]> (tabs y)));
      [|apply addClient_grows].
    split; [by rewrite lookup_insert_ne|].
    intros cl' H' D. rewrite lookup_insert_ne // in H'. exists cl', []. by rewrite app_nil_r.
  - unfold removeClient. eapply grows_trans_nil; [|apply grows_close].
    destruct (bool_decide (controller (ses y) = id)); [by apply grows_broadcast|apply grows_refl].
  - pose proof (checkFrame_grows c c0 id f y). by destruct (checkFrame c0 id f y) as [y' [p|]].
  - destruct (inflight (ses y) !! n) as [p|]; [|apply grows_refl]. apply (sendPending_grows now c p (set_ses _ y)).
  - by apply grows_enqueue_quiet.
  - unfold revokeDelegation.
    eapply grows_trans_nil; [apply (terminate_grows now c (set_ses (upd_revoked (ses y)) y))|].
    apply grows_foldr. intros a h. apply grows_close.
  - apply grows_foldr. intros a h. split; [by apply alter_le|].
    intros cl' H D. unfold outcome_client in H. rewrite lookup_alter in H.
    case_decide; [subst|exists cl', []; by rewrite app_nil_r].
    destruct (h !! snd a) as [cl|]; [|done]. injection H as <-. exists cl, []. by rewrite app_nil_r.
  - rewrite pump_nil. apply markEnded_grows.
  - apply grows_foldr. intros a h. apply grows_close.
Qed.

Lemma run_sop_grows o c id y :
  sys_ok y -> sop_ok o y -> clientID <$> tabs y !! c = Some id ->
  grows c (if bool_decide (clients (ses y) !! id = Some c) then emitted o y else [])
    (tabs y) (tabs (run_sop o y)).
Proof.
  intros I OK Hid. assert (is_Some (tabs y !! c)) as Hin by (destruct (tabs y !! c); done).
  destruct o; [by apply appendOutput_grows| ..]; cbn [emitted];
    (destruct (bool_decide _); by apply run_sop_grows_quiet).
Qed.

(** A registered tab that was not closed is still registered. *)
Lemma run_sop_registered o c id y cl :
  sys_ok y -> sop_ok o y -> clients (ses y) !! id = Some c ->
  tabs (run_sop o y) !! c = Some cl -> cl_done cl = false ->
  clients (ses (run_sop o y)) !! id = Some c.
Proof.
  intros I OK Hc H D.
  destruct o; cbn [run_sop] in *; try done; rewrite ?handleClientFrame_clients ?terminate_clients; try done.
  - unfold appendOutput. destruct (_ || _ || _); [done|]. by destruct (push_replay _ _).
  - unfold addClient in *. simpl in *. destruct (delegationRevoked (ses y)); [done|].
    assert (id0 <> id) as N.
    { intros ->. rewrite Hc in H. cbn [clients ses set_ses upd_activity upd_status upd_clients] in H.
      eapply (grows_broadcast out_view) in H as (cl1 & ? & H & D1 & _); [|done|done].
      eapply (grows_enqueue_quiet out_view) in H as (cl2 & ? & H & D2 & _); [|done|done].
      eapply (grows_enqueue_quiet out_view) in H as (cl3 & ? & H & D3 & _); [|done|done].
      simpl in H. by rewrite (close_client_closes _ _ _ H) in D3. }
    destruct (_ && _ && _); simpl; by rewrite lookup_insert_ne.
  - destruct (decide (c0 = c)) as [->|N].
    { unfold removeClient in H. by rewrite (close_client_closes _ _ _ H) in D. }
    assert (clients (ses (removeClient hint c0 id0 y)) =
      if bool_decide (clients (ses y) !! id0 = Some c0) then delete id0 (clients (ses y)) else clients (ses y)) as ->.
    { unfold removeClient. by destruct (bool_decide (controller (ses y) = id0)). }
    case_bool_decide as G; [|done]. rewrite lookup_delete_ne //. congruence.
  - destruct (checkFrame_facts c0 id0 f y) as [E _].
    destruct (checkFrame c0 id0 f y) as [y' [p|]]; simpl in *; by rewrite E.
  - destruct (inflight (ses y) !! n); [by rewrite sendPending_clients|done].
  - unfold writeLoop. by repeat case_match.
  - unfold revokeDelegation in H. apply closeClients_done with (id := id) in H; [congruence|].
    by rewrite terminate_clients.
  - rewrite pump_nil. simpl. unfold markEnded. by destruct (bool_decide _).
  - apply closeClients_done with (id := id) in H; [congruence|done].
Qed.

(** A closed tab stays closed. *)
Lemma history_closed y l y' c id :
  sys_ok y -> history y l y' -> clientID <$> tabs y !! c = Some id ->
  (forall cl, tabs y !! c = Some cl -> cl_done cl = true) ->
  clientID <$> tabs y' !! c = Some id /\ (forall cl, tabs y' !! c = Some cl -> cl_done cl = true).
Proof.
  intros I H. induction H as [y|y o l y' OK H IH]; intros Hid Hd; [done|].
  destruct (run_sop_grows o c id y I OK Hid) as [N G].
  apply IH; [by apply run_sop_ok|by rewrite N|]. intros cl Hcl.
  destruct (cl_done cl) eqn:D; [done|]. destruct (G _ Hcl D) as (cl0 & _ & H0 & D0 & _).
  by rewrite (Hd _ H0) in D0.
Qed.

Lemma history_grows y l y' c id :
  sys_ok y -> history y l y' -> clientID <$> tabs y !! c = Some id ->
  clients (ses y) !! id = Some c ->
  grows c (outputs l y) (tabs y) (tabs y').
Proof.
  intros I H. induction H as [y|y o l y' OK H IH]; intros Hid Hc; [apply grows_refl|]. cbn [outputs].
  pose proof (run_sop_ok o y I OK) as I'. pose proof (run_sop_grows o c id y I OK Hid) as G.
  rewrite bool_decide_eq_true_2 // in G.
  assert (clientID <$> tabs (run_sop o y) !! c = Some id) as Hid' by by rewrite (proj1 G).
  destruct (tabs (run_sop o y) !! c) as [cl|] eqn:E; [|done].
  destruct (cl_done cl) eqn:D.
  - destruct (history_closed _ _ _ c id I' H) as [N Hd];
      [by rewrite E|intros ? ?; simplify_eq; congruence|].
    split; [by rewrite N Hid|]. intros cl' H' D'. by rewrite (Hd _ H') in D'.
  - eapply grows_trans; [done|]. apply IH; [done|done|]. by eapply run_sop_registered.
Qed.

Lemma addClient_present now c id y :
  exists cl, tabs (run_sop (SAttach now c id) y) !! c = Some cl /\ clientID cl = id.
Proof.
  destruct (addClient_grows now c c id (set_tabs (<[c:=mkClient id [] false [] []]> (tabs y)) y)) as [N _].
  simpl in N. rewrite lookup_insert_eq in N. cbn [run_sop].
  destruct (tabs (addClient _ _ _ _) !! c) as [cl|]; [|done]. injection N as N. eauto.
Qed.

(** What [addClient] puts into the queue of the new tab. *)
Lemma addClient_greets now c id y cl :
  sys_ok y -> sop_ok (SAttach now c id) y -> delegationRevoked (ses y) = false ->
  tabs (run_sop (SAttach now c id) y) !! c = Some cl -> cl_done cl = false ->
  let s := ses (run_sop (SAttach now c id) y) in
  clients s !! id = Some c /\ replay s = replay (ses y) /\
  stream cl = [hello_frame s; replay_frame s; controlFrameLocked s].
Proof.
  intros I [Fr Hid] R.
  generalize (clients_NoDup _ _ (run_sop_ok (SAttach now c id) y I (conj Fr Hid))).
  cbn [run_sop]. unfold addClient. simpl. rewrite R.
  set (h0 := <[c:=mkClient id [] false [] []]> (tabs y)).
  set (s1 := if _ && _ && _ then _ else _). simpl.
  set (h1 := tabs (match clients (ses y) !! id with Some _ => _ | None => _ end)).
  assert (clients s1 = <[id:=c]> (clients (ses y)) /\ replay s1 = replay (ses y)) as [Cl Rp].
  { unfold s1. by destruct (_ && _ && _). }
  assert (h1 !! c = Some (mkClient id [] false [] [])) as H1.
  { unfold h1, h0. destruct (clients (ses y) !! id) as [p|] eqn:E; simpl; [|by rewrite lookup_insert_eq].
    unfold close_client. rewrite lookup_alter_ne; [by rewrite lookup_insert_eq|]. intros ->.
    destruct I as [_ _ _ _ _ _ _ C _]. destruct (C _ _ E) as [_ X]. by rewrite Fr in X. }
  intros ND H D. rewrite Cl lookup_insert_eq. split_and!; [done|by rewrite Rp|].
  set (h2 := fst (enqueue_client c (replay_frame s1) (fst (enqueue_client c (hello_frame s1) h1)))).
  assert (h2 !! c = Some (mkClient id [hello_frame s1; replay_frame s1] false [] [])) as H2.
  { unfold h2, enqueue_client at 2. rewrite H1. simpl. unfold enqueue_client.
    rewrite lookup_insert_eq. simpl. by rewrite lookup_insert_eq. }
  destruct (grows_broadcast_list (fun f => [f]) c (controlFrameLocked s1) _ h2 ND) as [_ G].
  destruct (G _ H D) as (cl2 & new & E & _ & S & O). rewrite H2 in E. injection E as <-.
  rewrite bool_decide_eq_true_2 in O; [|apply list_elem_of_fmap; exists (id, c); split; [done|];
    apply elem_of_map_to_list; by rewrite Cl lookup_insert_eq].
  rewrite S. unfold stream. simpl.
  assert (new = [controlFrameLocked s1]) as -> by 
    (rewrite -O; clear; induction new as [|f new IH]; [done|]; cbn; f_equal; apply IH).
  done.
Qed.

(** ** Properties *)

(** C6: The replay buffer of a session that was not revoked holds exactly the
    longest suffix of its output history that fits the limit (an output that
    does not fit on its own is skipped): the trimming loop never drops more than
    it must, never leaves a gap, and never reorders. *)
Theorem replay_is_longest_suffix y0 l y :
  fresh_session y0 -> history y0 l y -> delegationRevoked (ses y) = false ->
  replay (ses y) =
    longest_fit (maxReplayBytes (ses y0)) (retainable (maxReplayBytes (ses y0)) (outputs l y0)) /\
  replay (ses y) `suffix_of` retainable (maxReplayBytes (ses y0)) (outputs l y0).
Proof.
  intros F H R. pose proof (history_replay _ _ _ (fresh_session_ok _ F) H R) as E.
  destruct F as (? & ? & ? & ? & ? & ? & ? & Es & _).
  assert (replay (ses y0) = []) as E0 by by rewrite Es.
  rewrite E0 app_nil_l in E. rewrite E. split; [done|apply longest_fit_suffix].
Qed.

(** C5: A tab that attaches is greeted with the state of the session, then the
    whole replay buffer, then who is in control; from then on, as long as it is
    not closed, it receives every output of the session, in order and exactly
    once, whatever else happens.  Together with the replay it sees the output of
    the session without a gap. *)
Theorem attached_tab_sees_every_output y0 l1 y1 now c id l2 y2 cl :
  fresh_session y0 -> history y0 l1 y1 -> delegationRevoked (ses y1) = false ->
  sop_ok (SAttach now c id) y1 -> history (run_sop (SAttach now c id) y1) l2 y2 ->
  tabs y2 !! c = Some cl -> cl_done cl = false ->
  let s := ses (run_sop (SAttach now c id) y1) in
  replay s = replay (ses y1) /\
  exists rest, stream cl = hello_frame s :: replay_frame s :: controlFrameLocked s :: rest /\
    output_entries rest = outputs l2 (run_sop (SAttach now c id) y1).
Proof.
  intros F H1 R OK H2 Hcl D s. pose proof (fresh_history_ok _ _ _ F H1) as I1.
  pose proof (run_sop_ok _ _ I1 OK) as I1'.
  assert (exists cl1, tabs (run_sop (SAttach now c id) y1) !! c = Some cl1 /\ clientID cl1 = id)
    as (cl1 & E1 & Eid) by by apply addClient_present.
  assert (clientID <$> tabs (run_sop (SAttach now c id) y1) !! c = Some id) as Hid by by rewrite E1 /= Eid.
  destruct (cl_done cl1) eqn:D1.
  { destruct (history_closed _ _ _ c id I1' H2 Hid) as [_ X]; [|by rewrite (X _ Hcl) in D].
    intros ? ?. simplify_eq. congruence. }
  destruct (addClient_greets now c id y1 cl1 I1 OK R E1 D1) as (Reg & Rp & S1).
  destruct (history_grows _ _ _ c id I1' H2 Hid Reg) as [_ G].
  destruct (G _ Hcl D) as (cl1' & new & E1' & _ & S & O). rewrite E1 in E1'. injection E1' as <-.
  split; [done|]. exists new. by rewrite S S1.
Qed.
End Stream.

(** ** Witnesses *)
Import SessionDemo.

(** Three outputs of 40, 40 and 36 bytes against a limit of 100: the first is
    dropped. *)
Lemma replay_is_longest_suffix_witness :
  replay (ses y2) = [mkEntry 2 "d29ybGQ="; mkEntry 3 "IQ=="] /\
  replay (ses y2) = longest_fit 100 (retainable 100 (outputs (ops1 ++ ops2) y0)).
Proof.
  split; [by vm_compute|].
  apply (replay_is_longest_suffix y0 (ops1 ++ ops2) y2 y0_fresh y02_history). by vm_compute.
Defined.

Definition ops3 : list sop := [SOutput 8 "d29ybGQ="; SWriter 2 (WSend true); SOutput 9 "IQ=="].
Definition y3 : sys world := runs ops3 (run_sop (SAttach 7 2 "a") y1).

Lemma y3_history : history (run_sop (SAttach 7 2 "a") y1) ops3 y3.
Proof. apply history_runs. vm_compute. by split_and!. Qed.

Definition tab2 : workspaceClient := default (mkClient "" [] false [] []) (tabs y3 !! 2%nat).

Lemma attached_tab_sees_every_output_witness :
  exists rest,
    stream tab2 = hello_frame (ses (run_sop (SAttach 7 2 "a") y1))
      :: replay_frame (ses (run_sop (SAttach 7 2 "a") y1))
      :: controlFrameLocked (ses (run_sop (SAttach 7 2 "a") y1)) :: rest /\
    output_entries rest = [mkEntry 2 "d29ybGQ="; mkEntry 3 "IQ=="].
Proof.
  assert (outputs ops3 (run_sop (SAttach 7 2 "a") y1) = [mkEntry 2 "d29ybGQ="; mkEntry 3 "IQ=="]) as <-
    by by vm_compute.
  refine (proj2 (attached_tab_sees_every_output y0 ops1 y1 7 2 "a" ops3 y3 tab2 y0_fresh y1_history
    _ _ y3_history _ _)); by vm_compute.
Defined.
