(* ===== verification/SessionManager.v ===== *)
(** * The manager of persistent console sessions

    Models [persistentSessionManager] of [proxy/persistent_session_handler.go]:
    the table of sessions, [createWithAuthorization], the limit on active
    sessions and the periodic [cleanup].  The manager owns the store its
    sessions live in: the session objects, the client objects they share, the
    backend, and the calls made to it. *)

From S2P Require Import Prelude GoString Message Multiplexer Backend Session SessionProps SessionStream.

Inductive create_error :=
| SessionConflict                     (* [errWorkspaceSessionConflict] *)
| SessionLimit                        (* [errWorkspaceSessionLimit] *)
| InitError (e : mux_error)           (* from [initializeForURL] *)
| ConnectError (e : mux_error).       (* from [backend.connect] *)

Section Manager.
Context {B : Type} `{BP : backendProxy B}.

Record manager := mkManager {
  m_backend : B;
  maxSessions : nat;
  mgr_maxReplayBytes : Z;
  activeRetention : Z;
  endedRetention : Z;
  sessions : gmap string nat;
  objects : gmap nat persistentSession;
  m_tabs : gmap nat workspaceClient;
  m_calls : list backend_call }.

Definition set_sessions (t : gmap string nat) (m : manager) : manager :=
  mkManager (m_backend m) (maxSessions m) (mgr_maxReplayBytes m) (activeRetention m)
    (endedRetention m) t (objects m) (m_tabs m) (m_calls m).
Definition set_backend (b : B) (m : manager) : manager :=
  mkManager b (maxSessions m) (mgr_maxReplayBytes m) (activeRetention m)
    (endedRetention m) (sessions m) (objects m) (m_tabs m) (m_calls m).

(** A session object with what it shares, and back. *)
Definition view_session (s : persistentSession) (m : manager) : sys B :=
  mkSys s (m_tabs m) (m_backend m) (m_calls m).
Definition put_session (p : nat) (y : sys B) (m : manager) : manager :=
  mkManager (be y) (maxSessions m) (mgr_maxReplayBytes m) (activeRetention m)
    (endedRetention m) (sessions m) (<[p:=ses y]> (objects m)) (tabs y) (calls y).
Definition on_session (p : nat) (f : sys B -> sys B) (m : manager) : manager :=
  match objects m !! p with
  | Some s => put_session p (f (view_session s m)) m
  | None => m
  end.

(** [get] *)
Definition get_session (id : string) (m : manager) : option nat := sessions m !! id.

Definition is_active (m : manager) (p : nat) : bool :=
  match objects m !! p with Some s => negb (inactive (status s)) | None => false end.

Definition activeSessionCountLocked (m : manager) : nat :=
  size (filter (fun ip => is_active m (snd ip) = true) (sessions m)).

(** [matchesSecretHash] on the session [p]. *)
Definition matches (now : Z) (p : nat) (hash : string) (live : bool) (m : manager) : manager * bool :=
  match objects m !! p with
  | Some s => let '(y, ok) := matchesSecretHash now hash live (view_session s m) in (put_session p y m, ok)
  | None => (m, false)
  end.

(** [createWithAuthorization]; [uuid] is the stream identifier drawn,
    [delegated] whether [bind] is not nil, [live] the answer of the live check of
    an existing session, [fresh (dom (objects m))] the new object. *)
Definition createWithAuthorization (now : Z) (id kind_ hash host url uuid : string)
  (delegated live : bool) (m : manager) : manager * result create_error (nat * bool) :=
  match sessions m !! id with
  | Some p =>
      let '(m, ok) := matches now p hash live m in
      let kind_ok := match objects m !! p with Some s => bool_decide (kind s = kind_) | None => false end in
      if negb ok || negb kind_ok then (m, Err SessionConflict) else (m, Ok (p, false))
  | None =>
      if (maxSessions m <=? activeSessionCountLocked m)%nat then (m, Err SessionLimit)
      else
        let '(b, r) := bp_initializeForURL (m_backend m) host url uuid in
        let m := set_backend b m in
        match r with
        | Err e => (m, Err (InitError e))
        | Ok msgKey =>
            let p := fresh (dom (objects m)) in
            let s := newSession id kind_ host msgKey hash now (mgr_maxReplayBytes m) in
            let s := if delegated then bind_finish (bind_begin s) else s in
            let m := put_session p (view_session s m) (set_sessions (<[id:=p]> (sessions m)) m) in
            let '(b, r) := bp_connect (m_backend m) host msgKey url in
            let m := set_backend b m in
            match r with
            | Ok _ =>
                (on_session p (fun y => set_ses (upd_status Connected now (ses y)) y) m, Ok (p, true))
            | Err e =>
              let '(b, _) := bp_releaseConnection (m_backend m) host msgKey in
              (set_backend b (set_sessions (delete id (sessions m)) m), Err (ConnectError e))
            end
        end
  end.

Definition create (now : Z) (id kind_ hash host url uuid : string) (live : bool) (m : manager)
  : manager * result create_error (nat * bool) :=
  createWithAuthorization now id kind_ hash host url uuid false live m.

(** [cleanup]: drop every expired session, then terminate those still active and
    close their tabs. *)
Definition session_expired (now : Z) (m : manager) (p : nat) : bool * bool :=
  match objects m !! p with
  | Some s => expired now (activeRetention m) (endedRetention m) s
  | None => (false, false)
  end.

Definition discard (now : Z) (p : nat) (active : bool) (m : manager) : manager :=
  on_session p (fun y => closeClients (if active then terminate now y else y)) m.

Definition cleanup (now : Z) (m : manager) : manager :=
  let expired_ := List.filter (fun ip => fst (session_expired now m (snd ip))) (map_to_list (sessions m)) in
  let kept := filter (fun ip => fst (session_expired now m (snd ip)) = false) (sessions m) in
  foldr (fun ip m' => discard now (snd ip) (snd (session_expired now m (snd ip))) m')
    (set_sessions kept m) expired_.

(** [cleanupLoop]: one [cleanup] per tick until the manager is stopped; whether the
    loop has returned, which closes [done]. *)
Inductive cleaner_event := Tick (now : Z) | Stop.
Fixpoint cleanupLoop (l : list cleaner_event) (m : manager) : manager * bool :=
  match l with
  | [] => (m, false)
  | Tick now :: l => cleanupLoop l (cleanup now m)
  | Stop :: _ => (m, true)
  end.

(** What can happen to the manager and its sessions. *)
Inductive mop :=
| MCreate (now : Z) (id kind_ hash host url uuid : string) (delegated live : bool)
| MSession (p : nat) (o : sop)
| MMatch (now : Z) (p : nat) (hash : string) (live : bool)
| MCleanup (now : Z).

Definition run_mop (o : mop) (m : manager) : manager :=
  match o with
  | MCreate now id kd hash host url uuid delegated live =>
      fst (createWithAuthorization now id kd hash host url uuid delegated live m)
  | MSession p o => on_session p (run_sop o) m
  | MMatch now p hash live => fst (matches now p hash live m)
  | MCleanup now => cleanup now m
  end.

Definition mop_ok (o : mop) (m : manager) : Prop :=
  match o with
  | MSession p o => match objects m !! p with Some s => sop_ok o (view_session s m) | None => True end
  | _ => True
  end.

Inductive mhistory : manager -> list mop -> manager -> Prop :=
| mhistory_nil m : mhistory m [] m
| mhistory_cons m o l m' : mop_ok o m -> mhistory (run_mop o m) l m' -> mhistory m (o :: l) m'.
End Manager.
Arguments manager : clear implicits.

(** ** Invariant *)

Section ManagerInv.
Context {B : Type} `{BP : backendProxy B}.
Implicit Types m : manager B.

Record mgr_ok m : Prop := {
  mo_replay : 0 <= mgr_maxReplayBytes m;
  mo_table : forall id p, sessions m !! id = Some p ->
    exists s, objects m !! p = Some s /\ s_id s = id;
  mo_objects : forall p s, objects m !! p = Some s -> session_ok s (m_tabs m);
  mo_tabs : tabs_bounded (m_tabs m) }.

(** No session was added, and none became active again. *)
Record mgr_le m m' : Prop := {
  ml_config : maxSessions m' = maxSessions m /\ mgr_maxReplayBytes m' = mgr_maxReplayBytes m /\
    activeRetention m' = activeRetention m /\ endedRetention m' = endedRetention m;
  ml_sessions : sessions m' ⊆ sessions m;
  ml_active : forall p, is_active m' p = true -> is_active m p = true;
  ml_objects : forall p s, objects m !! p = Some s -> exists s', objects m' !! p = Some s' /\ ses_le s s' }.

#[export] Instance mgr_le_preorder : PreOrder mgr_le.
Proof.
  split.
  - intros m. split; auto. intros p s H. by exists s.
  - intros m1 m2 m3 [C1 S1 A1 O1] [C2 S2 A2 O2]. split; [intuition congruence|by etrans|auto|].
    intros p s H. destruct (O1 _ _ H) as (s2 & H2 & L2). destruct (O2 _ _ H2) as (s3 & H3 & L3).
    exists s3. split; [done|]. by etrans.
Qed.

Lemma mgr_le_count m m' : mgr_le m m' -> (activeSessionCountLocked m' <= activeSessionCountLocked m)%nat.
Proof.
  intros [_ S A _]. apply map_subseteq_size, map_subseteq_spec. intros id p.
  rewrite !map_lookup_filter_Some. intros [H1 H2]. split; [|by apply A].
  by eapply lookup_weaken.
Qed.

(** A transformation of one session that respects its invariant, its evolution
    and the client objects of the others. *)
Definition good (f : sys B -> sys B) (y : sys B) : Prop :=
  sys_ok (f y) /\ ses_le (ses y) (ses (f y)) /\
  forall c id, clientID <$> tabs y !! c = Some id -> clientID <$> tabs (f y) !! c = Some id.

Lemma run_sop_good o y : sys_ok y -> sop_ok o y -> good (run_sop o) y.
Proof.
  intros I OK. split_and!; [by apply run_sop_ok|by apply run_sop_le|].
  intros c id H. by rewrite (proj1 (run_sop_grows o c id y I OK H)).
Qed.

Lemma good_compose f g y : good f y -> good g (f y) -> good (fun y => g (f y)) y.
Proof. intros (A1 & L1 & T1) (A2 & L2 & T2). split_and!; [done|by etrans|auto]. Qed.

Lemma matchesSecretHash_good now hash live y :
  sys_ok y -> good (fun y => fst (matchesSecretHash now hash live y)) y.
Proof.
  intros I. assert (good (fun y => y) y) as Id by by split_and!. unfold good, matchesSecretHash in *.
  destruct (negb _); [done|]. destruct (delegationRevoked (ses y)); [done|].
  destruct (_ && _); [|done]. by apply (run_sop_good (SRevoke now)).
Qed.

Lemma discard_good now (active : bool) y :
  sys_ok y -> good (fun y => closeClients (if active then terminate now y else y)) y.
Proof.
  intros I. destruct active.
  - apply (good_compose (terminate now) closeClients).
    + by apply (run_sop_good (STerminate now)).
    + apply (run_sop_good SCloseClients); [|done]. by apply terminate_ok.
  - by apply (run_sop_good SCloseClients).
Qed.

Lemma ses_le_active s s' : ses_le s s' -> inactive (status s') = false -> inactive (status s) = false.
Proof. intros [L _ _ _]. destruct (status s), (status s'); simpl in *; try done; lia. Qed.

Lemma put_session_ok p s (y : sys B) m :
  mgr_ok m -> objects m !! p = Some s -> sys_ok y -> ses_le s (ses y) ->
  (forall c id, clientID <$> m_tabs m !! c = Some id -> clientID <$> tabs y !! c = Some id) ->
  mgr_ok (put_session p y m) /\ mgr_le m (put_session p y m).
Proof.
  intros [Mr Mt Mo Mb] Hp I L T. split.
  - split; simpl; [done| | |by destruct I].
    + intros id q Hq. destruct (Mt _ _ Hq) as (s' & Hs' & Eid). destruct (decide (p = q)) as [->|N].
      * exists (ses y). rewrite lookup_insert_eq. split; [done|]. simplify_eq.
        by destruct (le_fixed _ _ L) as (-> & _).
      * exists s'. by rewrite lookup_insert_ne.
    + intros q s' Hq. rewrite lookup_insert_Some in Hq. destruct Hq as [[<- <-]|[_ Hq]]; [done|].
      destruct (Mo _ _ Hq) as [? ? ? ? ? ? ? Cl ?]. split; try done; [|by destruct I].
      intros id c Hc. destruct (Cl _ _ Hc). split; [done|]. by apply T.
  - split; simpl; [done|done| |].
    + intros q. unfold is_active. simpl. rewrite lookup_insert. case_decide as D; [subst q|done].
      rewrite Hp. rewrite !negb_true_iff. by apply ses_le_active.
    + intros q s' Hq. destruct (decide (p = q)) as [->|N].
      * exists (ses y). rewrite lookup_insert_eq. by simplify_eq.
      * exists s'. by rewrite lookup_insert_ne.
Qed.

Lemma on_session_ok p f m :
  mgr_ok m ->
  (forall s, objects m !! p = Some s -> sys_ok (view_session s m) -> good f (view_session s m)) ->
  mgr_ok (on_session p f m) /\ mgr_le m (on_session p f m).
Proof.
  intros M G. unfold on_session. destruct (objects m !! p) as [s|] eqn:Hp; [|done].
  destruct (G s eq_refl) as (I & L & T); [by destruct M as [_ _ Mo _]; apply (Mo p)|].
  by eapply put_session_ok.
Qed.

Lemma matches_ok now p hash live m :
  mgr_ok m -> mgr_ok (fst (matches now p hash live m)) /\ mgr_le m (fst (matches now p hash live m)).
Proof.
  intros M.
  assert (fst (matches now p hash live m) =
    on_session p (fun y => fst (matchesSecretHash now hash live y)) m) as ->.
  { unfold matches, on_session. destruct (objects m !! p); [|done]. by destruct (matchesSecretHash _ _ _ _). }
  apply on_session_ok; [done|]. intros s _ I. by apply matchesSecretHash_good.
Qed.

Lemma discard_ok now p active m :
  mgr_ok m -> mgr_ok (discard now p active m) /\ mgr_le m (discard now p active m).
Proof. intros M. apply on_session_ok; [done|]. intros s _ I. by apply discard_good. Qed.

Lemma set_sessions_ok t m :
  mgr_ok m -> t ⊆ sessions m -> mgr_ok (set_sessions t m) /\ mgr_le m (set_sessions t m).
Proof.
  intros [] S. split; split; simpl; auto.
  - intros id p H. apply mo_table0. by eapply lookup_weaken.
  - intros p s H. by exists s.
Qed.

Lemma cleanup_ok now m : mgr_ok m -> mgr_ok (cleanup now m) /\ mgr_le m (cleanup now m).
Proof.
  intros M. unfold cleanup.
  set (kept := filter _ (sessions m)).
  destruct (set_sessions_ok kept m M) as [M0 L0]; [apply map_filter_subseteq|].
  set (g := fun (ip : string * nat) m' => discard now ip.2 (snd (session_expired now m ip.2)) m').
  assert (forall l, mgr_ok (foldr g (set_sessions kept m) l) /\ mgr_le m (foldr g (set_sessions kept m) l))
    as H; [|apply H].
  induction l as [|ip l [IH1 IH2]]; [done|]. simpl. destruct (discard_ok now ip.2
    (snd (session_expired now m ip.2)) _ IH1) as [D1 D2]. split; [done|]. by etrans.
Qed.

(** However long the cleaner runs, it adds no session and revives none. *)
Lemma cleanupLoop_ok l m : mgr_ok m -> mgr_ok (fst (cleanupLoop l m)) /\ mgr_le m (fst (cleanupLoop l m)).
Proof.
  revert m. induction l as [|[now|] l IH]; intros m M; [done| |done]. cbn [cleanupLoop].
  destruct (cleanup_ok now m M) as [M1 L1]. destruct (IH _ M1) as [M2 L2]. split; [done|]. by etrans.
Qed.

(** The manager after a session object was added and possibly registered. *)
Definition added (p : nat) (s : persistentSession) (b : B) (t : gmap string nat) m : manager B :=
  mkManager b (maxSessions m) (mgr_maxReplayBytes m) (activeRetention m) (endedRetention m) t
    (<[p:=s]> (objects m)) (m_tabs m) (m_calls m).

(** The session [createWithAuthorization] builds, before and after connecting. *)
Definition built (delegated : bool) (id kind_ host key hash : string) (now max : Z) : persistentSession :=
  let s := newSession id kind_ host key hash now max in
  if delegated then bind_finish (bind_begin s) else s.

(** The four outcomes for an identifier that is not in use. *)
Inductive created now id kind_ hash host url uuid delegated m
  : manager B * result create_error (nat * bool) -> Prop :=
| created_limit :
    (maxSessions m <= activeSessionCountLocked m)%nat ->
    created now id kind_ hash host url uuid delegated m (m, Err SessionLimit)
| created_init b e :
    (activeSessionCountLocked m < maxSessions m)%nat ->
    bp_initializeForURL (m_backend m) host url uuid = (b, Err e) ->
    created now id kind_ hash host url uuid delegated m (set_backend b m, Err (InitError e))
| created_connect b1 b2 b3 e ok key :
    (activeSessionCountLocked m < maxSessions m)%nat ->
    bp_initializeForURL (m_backend m) host url uuid = (b1, Ok key) ->
    bp_connect b1 host key url = (b2, Err e) ->
    bp_releaseConnection b2 host key = (b3, ok) ->
    created now id kind_ hash host url uuid delegated m
      (added (fresh (dom (objects m))) (built delegated id kind_ host key hash now (mgr_maxReplayBytes m))
         b3 (sessions m) m, Err (ConnectError e))
| created_new b1 b2 key :
    (activeSessionCountLocked m < maxSessions m)%nat ->
    bp_initializeForURL (m_backend m) host url uuid = (b1, Ok key) ->
    bp_connect b1 host key url = (b2, Ok tt) ->
    created now id kind_ hash host url uuid delegated m
      (added (fresh (dom (objects m)))
         (upd_status Connected now (built delegated id kind_ host key hash now (mgr_maxReplayBytes m)))
         b2 (<[id:=fresh (dom (objects m))]> (sessions m)) m, Ok (fresh (dom (objects m)), true)).

Lemma create_created now id kind_ hash host url uuid delegated live m :
  sessions m !! id = None ->
  created now id kind_ hash host url uuid delegated m
    (createWithAuthorization now id kind_ hash host url uuid delegated live m).
Proof.
  intros N. unfold createWithAuthorization. rewrite N.
  destruct (Nat.leb_spec (maxSessions m) (activeSessionCountLocked m)); [by constructor|].
  destruct (bp_initializeForURL _ _ _ _) as [b1 [key|e]] eqn:Ei; [|by constructor]. simpl.
  destruct (bp_connect _ _ _ _) as [b2 [[]|e]] eqn:Ec.
  - unfold on_session. simpl. rewrite lookup_insert_eq. unfold put_session, view_session, set_ses. simpl.
    rewrite insert_insert_eq. by eapply created_new.
  - simpl. destruct (bp_releaseConnection _ _ _) as [b3 ok] eqn:Er. unfold set_sessions, set_backend. simpl.
    rewrite delete_insert_id //. by eapply created_connect.
Qed.

Lemma built_ok delegated id kind_ host key hash now max h :
  0 <= max -> tabs_bounded h ->
  session_ok (built delegated id kind_ host key hash now max) h /\
  session_ok (upd_status Connected now (built delegated id kind_ host key hash now max)) h.
Proof. intros Hm T. unfold built. destruct delegated; split; split; simpl; try done; by intros _ [|]. Qed.

Lemma added_ok p s b t m :
  mgr_ok m -> objects m !! p = None -> session_ok s (m_tabs m) ->
  (t = sessions m \/ t = <[s_id s:=p]> (sessions m)) -> mgr_ok (added p s b t m).
Proof.
  intros [Mr Mt Mo Mb] Fr I Ht. split; simpl; try done.
  - intros id q Hq. destruct Ht as [->| ->]; [|rewrite lookup_insert_Some in Hq; destruct Hq as [[<- <-]|[_ Hq]]].
    1, 3: (destruct (Mt _ _ Hq) as (s' & Hs & E); exists s'; rewrite lookup_insert_ne; [done|congruence]).
    exists s. by rewrite lookup_insert_eq.
  - intros q s' Hq. rewrite lookup_insert_Some in Hq. destruct Hq as [[<- <-]|[_ Hq]]; [done|]. by apply (Mo q).
Qed.

Lemma fresh_object m : objects m !! fresh (dom (objects m)) = None.
Proof. apply not_elem_of_dom, is_fresh. Qed.

Lemma built_id delegated id kind_ host key hash now max :
  s_id (built delegated id kind_ host key hash now max) = id.
Proof. by destruct delegated. Qed.

Lemma created_ok now id kind_ hash host url uuid delegated m r :
  mgr_ok m -> created now id kind_ hash host url uuid delegated m r -> mgr_ok (fst r).
Proof.
  intros M H. pose proof M as [Mr Mt Mo Mb]. destruct H; simpl; try done.
  - apply added_ok; [done|apply fresh_object| |by left]. by apply built_ok.
  - apply added_ok; [done|apply fresh_object|by apply built_ok|]. right. simpl. by rewrite built_id.
Qed.

Lemma added_active p s b t m q :
  objects m !! p = None -> is_active (added p s b t m) q = true -> q = p \/ is_active m q = true.
Proof.
  intros Fr. unfold is_active. simpl. rewrite lookup_insert. case_decide; [by left|by right].
Qed.

Lemma created_count now id kind_ hash host url uuid delegated m r :
  mgr_ok m -> sessions m !! id = None -> created now id kind_ hash host url uuid delegated m r ->
  (activeSessionCountLocked m <= maxSessions m)%nat ->
  maxSessions (fst r) = maxSessions m /\ (activeSessionCountLocked (fst r) <= maxSessions m)%nat.
Proof.
  intros M N H Hle. pose proof M as [_ Mt _ _]. split; [by destruct H|]. destruct H as [L|b e L I|b1 b2 b3 e ok key L I C R|b1 b2 key L I C]; simpl.
  - done.
  - etrans; [|exact Hle]. by apply Nat.eq_le_incl.
  - etrans; [|exact Hle]. apply map_subseteq_size, map_subseteq_spec. intros i q.
    rewrite !map_lookup_filter_Some. simpl. intros [Hq A]. split; [done|].
    apply added_active in A as [->|A]; [|done|apply fresh_object].
    destruct (Mt _ _ Hq) as (s & Hs & _). by rewrite fresh_object in Hs.
  - apply (Nat.le_trans _ (S (activeSessionCountLocked m))); [|lia].
    unfold activeSessionCountLocked at 2. rewrite -(map_size_insert_None id (fresh (dom (objects m))));
      [|apply map_lookup_filter_None; by left].
    apply map_subseteq_size, map_subseteq_spec. intros i q.
    rewrite !map_lookup_filter_Some. simpl. intros [Hq A].
    rewrite lookup_insert_Some in Hq. destruct Hq as [[<- <-]|[Ni Hq]]; [by rewrite lookup_insert_eq|].
    rewrite lookup_insert_ne // map_lookup_filter_Some. split; [done|].
    apply added_active in A as [->|A]; [|done|apply fresh_object].
    destruct (Mt _ _ Hq) as (s & Hs & _). by rewrite fresh_object in Hs.
Qed.

Lemma create_existing now id kind_ hash host url uuid delegated live m p :
  sessions m !! id = Some p ->
  fst (createWithAuthorization now id kind_ hash host url uuid delegated live m) =
  fst (matches now p hash live m).
Proof.
  intros H. unfold createWithAuthorization. rewrite H. destruct (matches _ _ _ _ _) as [m' ok]. simpl.
  by destruct (negb ok || _).
Qed.

Lemma run_mop_ok o m :
  mgr_ok m -> mop_ok o m -> (activeSessionCountLocked m <= maxSessions m)%nat ->
  mgr_ok (run_mop o m) /\ maxSessions (run_mop o m) = maxSessions m /\
  (activeSessionCountLocked (run_mop o m) <= maxSessions m)%nat.
Proof.
  intros M OK Hc.
  assert (forall m', mgr_ok m' /\ mgr_le m m' -> mgr_ok m' /\ maxSessions m' = maxSessions m /\
    (activeSessionCountLocked m' <= maxSessions m)%nat) as K.
  { intros m' [M' L]. split_and!; [done|by destruct (ml_config _ _ L)|].
    etrans; [by apply mgr_le_count|done]. }
  destruct o as [now id kd hash host url uuid dl live|p o|now p hash live|now]; simpl in *.
  - destruct (sessions m !! id) as [p|] eqn:E.
    + rewrite (create_existing _ _ _ _ _ _ _ _ _ _ _ E). by apply K, matches_ok.
    + pose proof (create_created now id kd hash host url uuid dl live m E) as Cr.
      destruct (created_count _ _ _ _ _ _ _ _ _ _ M E Cr Hc). split_and!; try done.
      by eapply created_ok.
  - apply K, on_session_ok; [done|]. intros s Hs I. rewrite Hs in OK. by apply run_sop_good.
  - by apply K, matches_ok.
  - by apply K, cleanup_ok.
Qed.

Lemma mhistory_ok m l m' :
  mgr_ok m -> (activeSessionCountLocked m <= maxSessions m)%nat -> mhistory m l m' ->
  mgr_ok m' /\ maxSessions m' = maxSessions m /\ (activeSessionCountLocked m' <= maxSessions m)%nat.
Proof.
  intros M Hc H. induction H as [m|m o l m' OK H IH]; [done|].
  destruct (run_mop_ok o m M OK Hc) as (M1 & E1 & C1). rewrite -E1. apply IH; [done|]. by rewrite E1.
Qed.

(** The manager as [NewPersistentSessionHandler] builds it. *)
Definition initial_manager (b : B) (max : nat) (replay_ active_ ended_ : Z) : manager B :=
  mkManager b max replay_ active_ ended_ ∅ ∅ ∅ [].

Lemma initial_ok b max replay_ active_ ended_ :
  0 <= replay_ -> mgr_ok (initial_manager b max replay_ active_ ended_).
Proof. intros. split; simpl; done. Qed.

(** *** Cleanup *)

Lemma discard_other now p q active m : p <> q -> objects (discard now q active m) !! p = objects m !! p.
Proof.
  intros N. unfold discard, on_session. destruct (objects m !! q); [|done]. simpl. by rewrite lookup_insert_ne.
Qed.

Lemma discard_sessions now p active m : sessions (discard now p active m) = sessions m.
Proof. unfold discard, on_session. by destruct (objects m !! p). Qed.

Lemma discard_self now p (active : bool) m s :
  objects m !! p = Some s ->
  exists s', objects (discard now p active m) !! p = Some s' /\ clients s' = ∅ /\
    (active = true \/ closeOnce s = true -> closeOnce s' = true).
Proof.
  intros H. unfold discard, on_session. rewrite H. simpl. rewrite lookup_insert_eq. eexists. split; [done|].
  split; [done|]. intros C. simpl. destruct active; [apply terminate_calls|]. by destruct C.
Qed.

Lemma discard_all now (act : nat -> bool) (l : list (string * nat)) m p s :
  objects m !! p = Some s ->
  let m' := foldr (fun ip m' => discard now (snd ip) (act (snd ip)) m') m l in
  if decide (p ∈ l.*2)
  then exists s', objects m' !! p = Some s' /\ clients s' = ∅ /\ (act p = true -> closeOnce s' = true)
  else objects m' !! p = Some s.
Proof.
  intros H. induction l as [|[id q] l IH]; [done|].
  cbn [foldr snd fst fmap list_fmap]. set (m1 := foldr _ m l) in *. simpl in IH |- *.
  destruct (decide (p = q)) as [->|N].
  - rewrite decide_True; [|left].
    assert (exists s1, objects m1 !! q = Some s1) as [s1 H1].
    { case_decide as D; [destruct IH as (s1 & ? & _)|]; eauto. }
    destruct (discard_self now q (act q) m1 s1 H1) as (s' & ? & ? & C). exists s'. auto.
  - rewrite discard_other //. case_decide as D; case_decide as D'; try done; exfalso.
    + apply D'. by right.
    + apply elem_of_cons in D' as [|]; auto.
Qed.

(** ** Properties *)

(** C7: However sessions are created, used, matched and cleaned up, the number of
    active sessions never exceeds the configured maximum, every entry of the
    table names a session object with that identifier, and every session object,
    those that left the table included, satisfies the session invariant in the store
    all sessions share. *)
Theorem active_sessions_bounded b max replay_ active_ ended_ l m :
  0 <= replay_ -> mhistory (initial_manager b max replay_ active_ ended_) l m ->
  (activeSessionCountLocked m <= max)%nat /\
  (forall id p, sessions m !! id = Some p ->
     exists s, objects m !! p = Some s /\ s_id s = id /\ session_ok s (m_tabs m)) /\
  (forall p s, objects m !! p = Some s -> session_ok s (m_tabs m)).
Proof.
  intros Hr H. destruct (mhistory_ok _ _ _ (initial_ok b max replay_ active_ ended_ Hr) (Nat.le_0_l _) H)
    as (M & _ & C). destruct M as [_ Mt Mo _]. split_and!; [done| |exact Mo]. intros id p Hp.
  destruct (Mt _ _ Hp) as (s & Hs & E). exists s. split_and!; [done|done|]. by apply (Mo p).
Qed.

(** C8: Creating a session under an unused identifier is all or nothing.  On
    success the table gains exactly that session, connected, with the caller's
    secret and kind, on the stream that was registered for it; on any error the
    table and every client object are as before, and if the host could not be
    reached the very stream that had been registered (and was open) is closed
    again. *)
Theorem create_all_or_nothing now id kind_ hash host url uuid delegated live m m' r :
  sessions m !! id = None ->
  createWithAuthorization now id kind_ hash host url uuid delegated live m = (m', r) ->
  m_tabs m' = m_tabs m /\
  match r with
  | Ok (p, isnew) =>
      isnew = true /\ objects m !! p = None /\ sessions m' = <[id:=p]> (sessions m) /\
      exists s, objects m' = <[p:=s]> (objects m) /\ s_id s = id /\ kind s = kind_ /\ hostKey s = host /\
        secretHash s = hash /\ status s = Connected /\ clients s = ∅ /\ replay s = [] /\
        delegationCheck s = delegated /\
        exists b, bp_initializeForURL (m_backend m) host url uuid = (b, Ok (msgKey s)) /\
          bp_connect b host (msgKey s) url = (m_backend m', Ok tt)
  | Err e =>
      sessions m' = sessions m /\
      (forall ce, e = ConnectError ce -> exists b key,
         bp_initializeForURL (m_backend m) host url uuid = (b, Ok key) /\ bp_open b host key = true /\
         bp_open (m_backend m') host key = false) /\
      (e = SessionLimit -> m' = m /\ (maxSessions m <= activeSessionCountLocked m)%nat)
  end.
Proof.
  intros N E. pose proof (create_created now id kind_ hash host url uuid delegated live m N) as C.
  rewrite E in C. inversion C; subst; simpl; split_and!; try done.
  - intros _ _. exists b1, key. split_and!; [done|by eapply bp_initialize_law|by eapply bp_release_law].
  - apply fresh_object.
  - eexists. split; [done|]. unfold built. destruct delegated; split_and!; try done; by eexists.
Qed.

(** Asking again for an existing session succeeds only with its secret, its
    kind, and, for a delegated session, a delegation that is still live; then the
    same session is returned, nothing changes, and no second stream is opened. *)
Theorem create_existing_guarded now id kind_ hash host url uuid delegated live m m' p q isnew s :
  sessions m !! id = Some p -> objects m !! p = Some s ->
  createWithAuthorization now id kind_ hash host url uuid delegated live m = (m', Ok (q, isnew)) ->
  m' = m /\ q = p /\ isnew = false /\ secretHash s = hash /\ kind s = kind_ /\
  delegationRevoked s = false /\ (delegationCheck s = true -> live = true).
Proof.
  intros Hid Hp. unfold createWithAuthorization, matches, matchesSecretHash. rewrite Hid Hp. simpl.
  assert (put_session p (view_session s m) m = m) as Id.
  { unfold put_session, view_session. simpl. rewrite insert_id //. by destruct m. }
  case_bool_decide as Eh; simpl; [|done]. destruct (delegationRevoked s) eqn:R; simpl; [done|].
  destruct (delegationCheck s && negb live) eqn:L; simpl; [done|]. rewrite lookup_insert_eq Id.
  case_bool_decide as Ek; simpl; [|done]. intros [= <- <- <-]. split_and!; try done.
  intros C. rewrite C in L. by destruct live.
Qed.

(** Cleanup removes exactly the sessions whose retention is over: a session that
    ended longer ago than the ended retention, or a live one idle longer than the
    active retention.  Every removed session loses its tabs and, if it was live,
    is terminated; the object of a session that stays is not touched. *)
Theorem cleanup_exact now m id p s :
  sessions m !! id = Some p -> objects m !! p = Some s ->
  let '(remove, active) := expired now (activeRetention m) (endedRetention m) s in
  if remove
  then sessions (cleanup now m) !! id = None /\
    exists s', objects (cleanup now m) !! p = Some s' /\ clients s' = ∅ /\
      (active = true -> closeOnce s' = true)
  else sessions (cleanup now m) !! id = Some p /\ objects (cleanup now m) !! p = Some s.
Proof.
  intros Hid Hp. unfold cleanup.
  set (l := List.filter _ _). set (kept := filter _ (sessions m)).
  assert (forall l' : list (string * nat), sessions (foldr (fun ip m' => discard now ip.2 (snd (session_expired now m ip.2)) m')
    (set_sessions kept m) l') = kept) as Sk.
  { induction l' as [|ip l' IH]; [done|]. cbn [foldr]. by rewrite discard_sessions. }
  rewrite Sk.
  pose proof (discard_all now (fun q => snd (session_expired now m q)) l (set_sessions kept m) p s Hp) as D.
  simpl in D.
  destruct (expired _ _ _ s) as [remove active] eqn:E.
  assert (p ∈ l.*2 <-> remove = true) as Hin.
  { rewrite list_elem_of_fmap. split.
    - intros ([i q] & -> & Hl%list_elem_of_In). apply List.filter_In in Hl as [_ F]. simpl in *.
      unfold session_expired in F. by rewrite Hp E in F.
    - intros ->. exists (id, p). split; [done|]. apply list_elem_of_In, List.filter_In. split.
      + by apply list_elem_of_In, elem_of_map_to_list.
      + simpl. unfold session_expired. by rewrite Hp E. }
  destruct remove.
  - rewrite decide_True in D; [|by apply Hin]. destruct D as (s' & ? & ? & C). split.
    + apply map_lookup_filter_None. right. intros q Hq. simplify_eq. simpl.
      unfold session_expired. by rewrite Hp E.
    + exists s'. split_and!; try done. unfold session_expired in C. by rewrite Hp E in C.
  - rewrite decide_False in D; [|by rewrite Hin]. split; [|done].
    apply map_lookup_filter_Some. split; [done|]. simpl. unfold session_expired. by rewrite Hp E.
Qed.
End ManagerInv.

(** ** Witnesses *)

Module ManagerDemo.
Import SessionDemo.

(** One active session allowed; idle sessions live 100 ns, ended ones 50 ns. *)
Definition m0 : manager world := initial_manager Demo.w1 1 100 100 50.
Definition make (now : Z) (id uuid : string) : mop :=
  MCreate now id "terminal" "hash" "host" "/v1/exec" uuid true true.

(** A session is created, ends, and another is created. *)
Definition mops : list mop :=
  [make 1 "psw_1" "k1"; make 2 "psw_2" "k2"; MSession 0 (SEnd 3); make 4 "psw_2" "k2"].

Fixpoint mruns (l : list mop) (m : manager world) : manager world :=
  match l with [] => m | o :: l => mruns l (run_mop o m) end.
Fixpoint mruns_ok (l : list mop) (m : manager world) : Prop :=
  match l with [] => True | o :: l => mop_ok o m /\ mruns_ok l (run_mop o m) end.

Lemma mhistory_mruns l m : mruns_ok l m -> mhistory m l (mruns l m).
Proof.
  revert m. induction l as [|o l IH]; intros m H; [constructor|]. destruct H as [H1 H2].
  constructor; [done|]. by apply IH.
Qed.

Definition m1 : manager world := mruns mops m0.
Definition s0 : persistentSession :=
  default (newSession "" "" "" "" "" 0 0) (objects m1 !! 0%nat).
End ManagerDemo.
Import SessionDemo ManagerDemo.

(** The limit counts active sessions only: with a limit of one, two sessions are
    in the table. *)
Lemma active_sessions_bounded_witness :
  size (sessions m1) = 2%nat /\ (activeSessionCountLocked m1 <= 1)%nat.
Proof.
  split; [by vm_compute|]. refine (proj1 (active_sessions_bounded Demo.w1 1 100 100 50 mops m1 _ _)); [lia|].
  apply mhistory_mruns. vm_compute. by split_and!.
Defined.

Lemma create_all_or_nothing_witness :
  exists p s, sessions (run_mop (make 1 "psw_1" "k1") m0) = <["psw_1":=p]> ∅ /\
    objects (run_mop (make 1 "psw_1" "k1") m0) = <[p:=s]> ∅ /\ status s = Connected.
Proof.
  pose proof (create_all_or_nothing 1 "psw_1" "terminal" "hash" "host" "/v1/exec" "k1" true true m0
    _ _ eq_refl (surjective_pairing _)) as [_ H].
  destruct (snd (createWithAuthorization _ _ _ _ _ _ _ _ _ m0)) as [[p isnew]|e] eqn:E;
    [|by vm_compute in E].
  destruct H as (_ & _ & H1 & s & H2 & _ & _ & _ & _ & H3 & _). exists p, s. by split_and!.
Defined.

Lemma create_existing_guarded_witness :
  fst (createWithAuthorization 5 "psw_2" "terminal" "hash" "host" "/v1/exec" "k3" true true m1) = m1 /\
  secretHash (default s0 (objects m1 !! 1%nat)) = "hash".
Proof.
  assert (exists s, objects m1 !! 1%nat = Some s) as [s Hs] by (vm_compute; by eexists).
  assert (snd (createWithAuthorization 5 "psw_2" "terminal" "hash" "host" "/v1/exec" "k3" true true m1)
    = Ok (1%nat, false)) as E by by vm_compute.
  pose proof (surjective_pairing
    (createWithAuthorization 5 "psw_2" "terminal" "hash" "host" "/v1/exec" "k3" true true m1)) as P.
  rewrite E in P.
  assert (sessions m1 !! "psw_2" = Some 1%nat) as Hp by by vm_compute.
  destruct (create_existing_guarded 5 "psw_2" "terminal" "hash" "host" "/v1/exec" "k3" true true m1
    _ 1 1 false s Hp Hs P) as (H1 & _ & _ & H2 & _).
  rewrite Hs. by split.
Defined.

Lemma cleanup_exact_witness :
  sessions (cleanup 60 m1) !! "psw_1" = None /\ size (sessions (cleanup 60 m1)) = 1%nat.
Proof.
  split; [|by vm_compute].
  assert (objects m1 !! 0%nat = Some s0) as Hs by by vm_compute.
  assert (sessions m1 !! "psw_1" = Some 0%nat) as Hp by by vm_compute.
  pose proof (cleanup_exact 60 m1 "psw_1" 0 s0 Hp Hs) as H.
  assert (expired 60 (activeRetention m1) (endedRetention m1) s0 = (true, false)) as E by by vm_compute.
  rewrite E in H. apply H.
Defined.
