(* ===== verification/Delegation.v ===== *)
(** * Delegated API Key tickets

    Models [delegation/delegation.go] and [delegation/failure.go]: reading a
    delegation grant out of the claims of a ticket, the paths a grant allows, the
    live check against the engine, its repetition, and the failure reports.
    Dynamic values ([interface{}]) are [any].  The HTTP exchange is a parameter of the
    sections that use it: what the engine answers to a JSON text. *)

From Stdlib Require Import SpecFloat.
#[local] Set Warnings "-register-all".
From S2P Require Import Prelude GoString GoHash GoNet GoUrl GoJson Message.

(** ** Dynamic values *)

(** [interface{}] values that can occur in claims and decoded JSON. *)
Inductive any :=
| ANil
| ABool (b : bool)
| ANumber (s : string)            (* [json.Number] *)
| AInt64 (z : Z)
| AInt (z : Z)
| AFloat64 (f : spec_float)
| AString (s : string)
| AArray (l : list any)
| AObject (m : gmap string any).

#[export] Instance any_eq_dec : EqDecision any.
Proof.
  refine (fix go (x y : any) : Decision (x = y) :=
    let _ : EqDecision any := go in
    match x, y with
    | ANil, ANil => left eq_refl
    | ABool a, ABool b => cast_if (decide (a = b))
    | ANumber a, ANumber b => cast_if (decide (a = b))
    | AInt64 a, AInt64 b => cast_if (decide (a = b))
    | AInt a, AInt b => cast_if (decide (a = b))
    | AFloat64 a, AFloat64 b => cast_if (decide (a = b))
    | AString a, AString b => cast_if (decide (a = b))
    | AArray a, AArray b => cast_if (decide (a = b))
    | AObject a, AObject b => cast_if (decide (a = b))
    | _, _ => right _
    end); congruence.
Defined.

Abbreviation object := (gmap string any).

(** [m[key]] on a map of dynamic values: nil when absent. *)
Definition field (m : object) (key : string) : any := default ANil (m !! key).

(** Type assertions [v.(string)], [v.(map[string]interface{})],
    [v.([]interface{})]. *)
Definition as_string (v : any) : option string := match v with AString s => Some s | _ => None end.
Definition as_object (v : any) : option object := match v with AObject m => Some m | _ => None end.
Definition as_array (v : any) : option (list any) := match v with AArray l => Some l | _ => None end.

(** JSON into an [interface{}]; [number] is [json.Number] or a [float64].  Of two
    members with one key the later one stays. *)
Fixpoint json_any (number : string -> option any) (j : json) : option any :=
  match j with
  | JNull => Some ANil
  | JBool b => Some (ABool b)
  | JNumber t => number t
  | JString s => Some (AString s)
  | JArray l => AArray <$> mapM (json_any number) l
  | JObject l => AObject <$> foldl (fun m kv => m ← m; v ← json_any number (snd kv); Some (<[fst kv := v]> m)) (Some ∅) l
  end.
Definition use_number (t : string) : option any := Some (ANumber t).
Definition float_number (t : string) : option any := AFloat64 <$> parse_float t.

(** ... and into a [map[string]interface{}], whose members stay; [None] is nil. *)
Definition json_set_object (number : string -> option any) (j : json) (old : option object) : option (option object) :=
  match j with
  | JNull => Some None
  | JObject l => Some <$> foldl (fun m kv => m ← m; v ← json_any number (snd kv); Some (<[fst kv := v]> m)) (Some (default ∅ old)) l
  | _ => None
  end.
Definition json_object (number : string -> option any) (j : json) : option object :=
  default ∅ <$> json_set_object number j None.

(** [json.Marshal] of dynamic values: an error for numbers JSON has not; members in
    the order of their keys. *)
Fixpoint any_json (v : any) : option json :=
  match v with
  | ANil => Some JNull
  | ABool b => Some (JBool b)
  | ANumber "" => Some (JNumber "0")
  | ANumber t => if bool_decide (parse_number t = Some (t, "")) then Some (JNumber t) else None
  | AInt64 z | AInt z => Some (JNumber (itoa z))
  | AFloat64 f => JNumber <$> format_float f
  | AString s => Some (JString s)
  | AArray l => JArray <$> mapM any_json l
  | AObject m =>
      let values := any_json <$> m in
      JObject <$> mapM (fun k => pair k <$> mjoin (values !! k)) (merge_sort str_le (elements (dom values)))
  end.

(** ** [Integer] *)

(** The integer a float64 denotes, if it denotes one. *)
Definition float_integer (f : spec_float) : option Z :=
  match f with
  | S754_zero _ => Some 0
  | S754_finite s m e =>
      let z := if 0 <=? e then Some (Zpos m * 2 ^ e)
               else if Zpos m mod 2 ^ (- e) =? 0 then Some (Zpos m / 2 ^ (- e)) else None in
      (fun z => if s then - z else z) <$> z
  | S754_infinity _ | S754_nan => None
  end.

Definition Integer (v : any) : option Z :=
  match v with
  | ANumber n => parse_int n
  | AInt64 n | AInt n => Some n
  | AFloat64 n =>
      match float_integer n with
      | Some z => if (z <? min_int64) || (2 ^ 63 <=? z) then None else Some z
      | None => None
      end
  | _ => None
  end.

(** ** Grants *)

Definition Claim : string := "apiKeyDelegation".
Definition MaxTokenBytes : Z := Z.shiftl 16 10.

Record Grant := mkGrant {
  KeyID : Z; Revision : Z; TargetType : string; TargetID : string;
  Operation : string; ExpiresAt : Z; Payload : object }.

#[export] Instance Grant_eq_dec : EqDecision Grant.
Proof. solve_decision. Defined.

Inductive denied := ErrDenied.

Definition legacy_claims : list string :=
  ["hostUuid"; "exec"; "logs"; "resourceId"; "containerIds"; "project"; "service"].

Definition has_key (m : object) (key : string) : bool :=
  match m !! key with Some _ => true | None => false end.

(** [Ok None] is the [nil, nil] of a legacy token. *)
Definition Parse (claims : object) : result denied (option Grant) :=
  match claims !! Claim with
  | None => Ok None
  | Some raw =>
      if existsb (has_key claims) legacy_claims then Err ErrDenied
      else match as_object raw with
      | None => Err ErrDenied
      | Some data =>
          if negb (bool_decide (Integer (field data "version") = Some 1)) then Err ErrDenied
          else match Integer (field data "keyId"), Integer (field data "revision"),
                     Integer (field data "expiresAt"), Integer (field claims "exp"),
                     as_string (field data "targetType"), as_string (field data "targetId"),
                     as_string (field data "operation"), as_object (field data "payload") with
          | Some key, Some revision, Some expiry, Some jwtExpiry, Some typ, Some id, Some operation,
            Some payload =>
              if (key <=? 0) || (revision <=? 0) || negb (expiry =? jwtExpiry)
                 || bool_decide (typ = "") || (256 <? go_len typ)
                 || bool_decide (id = "") || (256 <? go_len id)
                 || (size payload =? 0)%nat || (256 <? size payload)%nat
              then Err ErrDenied
              else if negb (bool_decide (operation = "read")) && negb (bool_decide (operation = "exec"))
                      && negb (bool_decide (operation = "logs"))
                   then Err ErrDenied
                   else Ok (Some (mkGrant key revision typ id operation expiry payload))
          | _, _, _, _, _, _, _, _ => Err ErrDenied
          end
      end
  end.

Definition is_slash (c : ascii) : bool := bool_decide (c = "/"%char).

Definition api_version (v : string) : bool :=
  bool_decide (v = "v1") || bool_decide (v = "v2-beta") || bool_decide (v = "v2").

Definition allows_parts (g : Grant) (parts : list string) : bool :=
  match parts with
  | v :: part :: more =>
      if negb (api_version v) then false
      else if bool_decide (Operation g = "exec") then
        has_key (Payload g) "exec" && bool_decide (part = "exec") && bool_decide (more = [])
      else if bool_decide (Operation g = "logs") then
        has_key (Payload g) "logs" && bool_decide (part = "logs") && bool_decide (more = [])
      else if bool_decide (Operation g = "read") then
        if has_key (Payload g) "resourceId" then
          (bool_decide (part = "hoststats") || bool_decide (part = "stats")) && bool_decide (more = [])
        else if has_key (Payload g) "containerIds" then
          (bool_decide (part = "containerstats") || bool_decide (part = "stats"))
          && (bool_decide (more = []) || (length more =? 1)%nat)
        else if has_key (Payload g) "project" then
          bool_decide (part = "hoststats") && bool_decide (more = ["project"])
        else if has_key (Payload g) "service" then
          bool_decide (part = "containerstats") && bool_decide (more = ["service"])
        else false
      else false
  | _ => false
  end.

Definition AllowsPath (g : Grant) (path : string) : bool :=
  allows_parts g (split (trim is_slash path) "/").

(** ** The live check *)

(** An HTTP response; [None] for its body is a read error. *)
Record response := mkResponse { StatusCode : Z; resp_body : option string }.

Section Verifier.
Context (post : string -> string -> option response).

Record Verifier := mkVerifier { Endpoint : string; has_client : bool; has_clock : bool }.

(** The request of [Check], and its answer: the first value of the text, what
    follows it is not read. *)
Definition introspection (token : string) : string := json_print (json_string_map {["token" := token]}).
Definition decode_answer (data : string) : option object := '(j, _) ← json_decode data; json_object use_number j.

(** The response, read through a limit of 4,097 bytes. *)
Definition limited (body : option string) (limit : nat) : option string := stake limit <$> body.

(** [Check]: true for a nil error; [now1], [now2] are the two clock readings, in
    seconds.  [None] is a nil verifier. *)
Definition Check (v : option Verifier) (now1 now2 : Z) (token : string) (g : option Grant) : bool :=
  match g with
  | None => true
  | Some g =>
      match v with
      | None => false
      | Some v =>
          if bool_decide (Endpoint v = "") || negb (has_client v) || negb (has_clock v)
             || bool_decide (token = "") || (MaxTokenBytes <? go_len token) || (ExpiresAt g <=? now1)
          then false
          else match post (Endpoint v) (introspection token) with
          | None => false
          | Some resp =>
              if negb (StatusCode resp =? 200) then false
              else match limited (resp_body resp) 4097 with
              | None => false
              | Some data =>
                  if 4096 <? go_len data then false
                  else match decode_answer data with
                  | None => false
                  | Some result =>
                      bool_decide (field result "allowed" = ABool true)
                      && bool_decide (Integer (field result "keyId") = Some (KeyID g))
                      && bool_decide (Integer (field result "revision") = Some (Revision g))
                      && bool_decide (Integer (field result "expiresAt") = Some (ExpiresAt g))
                      && bool_decide (field result "targetType" = AString (TargetType g))
                      && bool_decide (field result "targetId" = AString (TargetID g))
                      && bool_decide (field result "operation" = AString (Operation g))
                      && bool_decide (field result "tokenDigest" = AString (hex (sha256 token)))
                      && (now2 <? ExpiresAt g)
                  end
              end
          end
      end
  end.

(** [Run]: the sequence of ready select cases; a tick carries the result of its
    check.  The result says whether [deny] was called, and what was not read. *)
Inductive run_event := CtxDone | Expiry | Tick (ok : bool).

Fixpoint Run (l : list run_event) : option (bool * list run_event) :=
  match l with
  | [] => None
  | CtxDone :: l => Some (false, l)
  | Expiry :: l => Some (true, l)
  | Tick ok :: l => if ok then Run l else Some (true, l)
  end.

(** [Watch]: the lifetime of the expiry timer, not negative. *)
Definition watch_lifetime (g : Grant) (now : Z) : Z := Z.max 0 (ExpiresAt g - now).

(** *** Failure reports *)

(** [report]; the endpoint of the reporter, [None] for a nil reporter. *)
Definition report (reporter : option Verifier) (token backendToken attemptID failureCode : string) : bool :=
  match reporter with
  | None => false
  | Some r =>
      if bool_decide (Endpoint r = "") || negb (has_client r) || bool_decide (token = "")
         || bool_decide (backendToken = "") || (MaxTokenBytes <? go_len token)
         || (MaxTokenBytes <? go_len backendToken)
      then false
      else
        let proof := <["token" := token]> {["backendToken" := backendToken]} in
        let proof := if bool_decide (attemptID = "") then proof
                     else <["failureCode" := failureCode]> (<["attemptId" := attemptID]> proof) in
        match post (Endpoint r) (json_print (json_string_map proof)) with
        | None => false
        | Some resp =>
            match limited (resp_body resp) 4097 with
            | None => false
            | Some content =>
                if (4096 <? go_len content) || negb (StatusCode resp =? 200) then false
                else match json_parse content ≫= json_object float_number with
                     | None => false
                     | Some result => bool_decide (field result "accepted" = ABool true)
                     end
            end
        end
  end.

Definition Report (reporter : option Verifier) (token backendToken : string) : bool :=
  report reporter token backendToken "" "".
Definition ReportRouteDenied (reporter : option Verifier) (token backendToken attemptID : string) : bool :=
  if negb (uuid_v4 attemptID) then false
  else report reporter token backendToken attemptID "DelegationRouteDenied".
Definition ReportExpired (reporter : option Verifier) (token backendToken attemptID : string) : bool :=
  if negb (uuid_v4 attemptID) then false
  else report reporter token backendToken attemptID "ApiKeyExpired".
End Verifier.

(** *** The endpoints *)

(** The endpoint of [New] and [NewFailureReporter]: empty unless the engine URL is
    a plain http(s) origin. *)
Definition engine_endpoint (path engine : string) : string :=
  match url_parse engine with
  | Some u =>
      if (bool_decide (Scheme u = "http") || bool_decide (Scheme u = "https"))
         && negb (bool_decide (Host u = "")) && negb (HasUser u)
         && bool_decide (RawQuery u = "") && bool_decide (Fragment u = "")
      then url_string (with_path path u) else ""
  | None => ""
  end.

Definition New (platformURL : string) : Verifier :=
  mkVerifier (engine_endpoint "/v2-beta/apiKeyDelegation/introspect" platformURL) true true.
Definition NewFailureReporter (engine : string) : Verifier :=
  mkVerifier (engine_endpoint "/v2-beta/apiKeyDelegationFailure/report" engine) true true.

(** ** Lemmas *)

Lemma Integer_range v z : Integer v = Some z ->
  match v with AInt64 n | AInt n => z = n | _ => min_int64 <= z <= max_int64 end.
Proof.
  destruct v; simpl; try done.
  - apply parse_int_range.
  - by intros [= ->].
  - by intros [= ->].
  - destruct (float_integer f) as [n|]; [|done]. destruct (_ || _) eqn:G; [done|]. intros [= ->].
    bool_to_prop. unfold max_int64. lia.
Qed.

Lemma float_integer_finite s m e z :
  float_integer (S754_finite s m e) = Some z <->
  z * 2 ^ Z.max 0 (- e) = (if s then - Zpos m else Zpos m) * 2 ^ Z.max 0 e.
Proof.
  simpl. destruct (0 <=? e) eqn:E; bool_to_prop.
  - rewrite Z.max_l; [|lia]. rewrite Z.max_r; [|lia]. simpl. split.
    + intros [= <-]. destruct s; lia.
    + intros H. f_equal. destruct s; lia.
  - rewrite Z.max_r; [|lia]. rewrite (Z.max_l 0 e); [|lia].
    assert (0 < 2 ^ (- e)) as P by (apply Z.pow_pos_nonneg; lia).
    pose proof (Z_div_mod_eq_full (Zpos m) (2 ^ (- e))) as D.
    destruct (Zpos m mod 2 ^ (- e) =? 0) eqn:M; bool_to_prop; simpl.
    + rewrite M in D. split.
      * intros [= <-]. destruct s; lia.
      * intros H. f_equal. apply (Z.mul_cancel_r _ _ (2 ^ (- e))); [lia|]. destruct s; lia.
    + split; [done|]. intros H. exfalso. apply M.
      assert (Zpos m = (if s then - z else z) * 2 ^ (- e)) as -> by (destruct s; lia).
      by apply Z.mod_mul; lia.
Qed.

(** What may follow the API version for a grant. *)
Definition allowed_tail (g : Grant) (t : string) : Prop :=
  (Operation g = "exec" /\ has_key (Payload g) "exec" = true /\ t = "exec") \/
  (Operation g = "logs" /\ has_key (Payload g) "logs" = true /\ t = "logs") \/
  (Operation g = "read" /\
   if has_key (Payload g) "resourceId" then t = "hoststats" \/ t = "stats"
   else if has_key (Payload g) "containerIds" then
     exists k, (k = "containerstats" \/ k = "stats") /\
       (t = k \/ exists x, lacks "/" x = true /\ t = k +:+ "/" +:+ x)
   else if has_key (Payload g) "project" then t = "hoststats/project"
   else if has_key (Payload g) "service" then t = "containerstats/service"
   else False).

Lemma api_version_lacks v : api_version v = true -> lacks "/" v = true.
Proof. unfold api_version. intros H. repeat (bool_to_prop; destruct H as [H|H]); bool_to_prop; by subst. Qed.

(** Two path elements and their joined form. *)
Lemma tail_eq part more (l : list string) (t : string) :
  Forall (fun p => lacks "/" p = true) (part :: more) -> l <> [] ->
  Forall (fun p => lacks "/" p = true) l -> t = join "/" l ->
  join "/" (part :: more) = t <-> part :: more = l.
Proof. intros F N F' ->. split; [by apply join_inj|by intros ->]. Qed.

Ltac tail_fact F l t T :=
  pose proof (tail_eq _ _ l t F ltac:(done) ltac:(by repeat constructor) ltac:(reflexivity)) as T.

Lemma containers_tail part more :
  Forall (fun p => lacks "/" p = true) (part :: more) ->
  (bool_decide (part = "containerstats") || bool_decide (part = "stats"))
    && (bool_decide (more = []) || (length more =? 1)%nat) = true <->
  exists k, (k = "containerstats" \/ k = "stats") /\
    (join "/" (part :: more) = k \/ exists x, lacks "/" x = true /\ join "/" (part :: more) = k +:+ "/" +:+ x).
Proof.
  intros F. rewrite andb_true_iff !orb_true_iff !bool_decide_eq_true. split.
  - intros [Hk Hm]. exists part. split; [done|]. apply Forall_cons in F as [_ F].
    destruct more as [|x [|]]; [by left| |destruct Hm; done].
    right. exists x. apply Forall_cons in F as [Hx _]. done.
  - intros (k & Hk & Ht). assert (lacks "/" k = true) as Lk by by destruct Hk as [-> | ->].
    destruct Ht as [Ht|(x & Lx & Ht)].
    + change k with (join "/" [k]) in Ht. apply join_inj in Ht; [|done..|by repeat constructor].
      injection Ht as -> ->. split; [done|by left].
    + change (k +:+ "/" +:+ x) with (join "/" [k; x]) in Ht.
      apply join_inj in Ht; [|done..|by repeat constructor].
      injection Ht as -> ->. split; [done|by right].
Qed.

Lemma allows_parts_tail g v part more :
  api_version v = true -> Forall (fun p => lacks "/" p = true) (part :: more) ->
  allows_parts g (v :: part :: more) = true <-> allowed_tail g (join "/" (part :: more)).
Proof.
  intros Hv F. unfold allows_parts, allowed_tail. rewrite Hv. cbn [negb].
  tail_fact F ["exec"] "exec" T1. tail_fact F ["logs"] "logs" T2.
  tail_fact F ["hoststats"] "hoststats" T3. tail_fact F ["stats"] "stats" T4.
  tail_fact F ["hoststats"; "project"] "hoststats/project" T5.
  tail_fact F ["containerstats"; "service"] "containerstats/service" T6.
  tail_fact F ["containerstats"] "containerstats" T7.
  remember (join "/" (part :: more)) as t eqn:Et.
  destruct (bool_decide (Operation g = "exec")) eqn:E1; bool_to_prop.
  { rewrite E1 !andb_true_iff !bool_decide_eq_true. naive_solver. }
  destruct (bool_decide (Operation g = "logs")) eqn:E2; bool_to_prop.
  { rewrite E2 !andb_true_iff !bool_decide_eq_true. naive_solver. }
  destruct (bool_decide (Operation g = "read")) eqn:E3; bool_to_prop; [|naive_solver].
  rewrite E3. destruct (has_key (Payload g) "resourceId").
  { rewrite andb_true_iff orb_true_iff !bool_decide_eq_true. naive_solver. }
  destruct (has_key (Payload g) "containerIds"); [|destruct (has_key (Payload g) "project");
    [|destruct (has_key (Payload g) "service")]].
  2-4: rewrite ?andb_true_iff ?bool_decide_eq_true; naive_solver.
  subst t. rewrite (containers_tail _ _ F). split; [by right; right|].
  by intros [(? & _)|[(? & _)|(_ & ?)]].
Qed.

Lemma as_string_Some v s : as_string v = Some s <-> v = AString s.
Proof. destruct v; naive_solver. Qed.

Lemma as_object_Some v m : as_object v = Some m <-> v = AObject m.
Proof. destruct v; naive_solver. Qed.

Lemma go_len_pos s : s <> "" -> 0 < go_len s.
Proof.
  intros N. pose proof (go_len_nonneg s). destruct (decide (go_len s = 0)) as [E|]; [|lia].
  by apply go_len_0 in E.
Qed.

Lemma operation_cases op :
  negb (bool_decide (op = "read")) && negb (bool_decide (op = "exec")) && negb (bool_decide (op = "logs")) = false
  <-> op = "read" \/ op = "exec" \/ op = "logs".
Proof. repeat case_bool_decide; simpl; naive_solver. Qed.

Lemma no_legacy claims :
  existsb (has_key claims) legacy_claims = false <->
  (forall old, In old legacy_claims -> claims !! old = None).
Proof.
  rewrite -not_true_iff_false existsb_exists. unfold has_key. split.
  - intros H old Hin. destruct (claims !! old) eqn:E; [|done]. destruct H. exists old. by rewrite E.
  - intros H (old & Hin & Hk). by rewrite H in Hk.
Qed.

(** ** Properties *)

(** A float claim is read as an integer exactly when the number it denotes,
    [±m * 2^e], is an integer of the int64 range, and then as that integer: no
    rounding and no wrap-around (in particular [2^63] itself, which
    [math.MaxInt64] becomes as a float64, is refused). *)
Theorem Integer_float_exact s m e z :
  Integer (AFloat64 (S754_finite s m e)) = Some z <->
  min_int64 <= z <= max_int64 /\
  z * 2 ^ Z.max 0 (- e) = (if s then - Zpos m else Zpos m) * 2 ^ Z.max 0 e.
Proof.
  rewrite -float_integer_finite. cbn [Integer].
  destruct (float_integer (S754_finite s m e)) as [n|]; [|naive_solver].
  unfold max_int64. destruct (_ || _) eqn:G; bool_to_prop.
  - split; [done|]. intros [R [= ->]]. destruct G; bool_to_prop; lia.
  - split; [intros [= ->]; split; [lia|done]|by intros [_ ?]].
Qed.

(** The paths a grant allows are exactly those of its operation: after the API
    version, [exec] for an exec grant and [logs] for a logs grant, and for a read
    grant the statistics routes of the one resource its payload names.  Slashes
    around the path do not matter; anything else is refused. *)
Theorem AllowsPath_iff g path :
  AllowsPath g path = true <->
  exists v t, api_version v = true /\ trim is_slash path = v +:+ "/" +:+ t /\ allowed_tail g t.
Proof.
  unfold AllowsPath. destruct (split_parts "/" (trim is_slash path)) as [J F].
  remember (split (trim is_slash path) "/") as parts eqn:Ep. split.
  - destruct parts as [|v [|part more]]; [done..|]. intros H.
    destruct (api_version v) eqn:Hv; [|by unfold allows_parts in H; rewrite Hv in H].
    exists v, (join "/" (part :: more)). split_and!; [done|by rewrite -J|].
    apply Forall_cons in F as [_ F]. by apply (allows_parts_tail g v).
  - intros (v & t & Hv & Et & A). destruct (split_parts "/" t) as [Jt Ft].
    assert (parts = v :: split t "/") as ->.
    { rewrite Ep Et -(split_join "/" (v :: split t "/")) //.
      - f_equal. destruct (split t "/") as [|p l] eqn:E; [by destruct (cuts_nonempty (String.length t) "/" t)|].
        cbn [join]. by rewrite -{1}Jt.
      - constructor; [by apply api_version_lacks|done]. }
    destruct (split t "/") as [|part more] eqn:E; [by destruct (cuts_nonempty (String.length t) "/" t)|].
    rewrite -Jt in A. by apply allows_parts_tail.
Qed.

(** Parsing the claims of a ticket never takes a malformed new ticket for a
    legacy one: without the delegation claim the result is the legacy marker, and
    with it the result is a grant or a refusal.  A grant is returned exactly when
    the ticket carries none of the legacy identity claims, is of version 1, has
    positive key and revision, the same expiry as the ticket itself, non-empty
    target fields of at most 256 bytes, one of the three operations, and a
    payload of 1 to 256 entries; and it holds those values. *)
Theorem Parse_grant_iff claims g :
  (Parse claims = Ok None <-> claims !! Claim = None) /\
  (Parse claims = Ok (Some g) <->
   exists data, claims !! Claim = Some (AObject data) /\
     (forall old, In old legacy_claims -> claims !! old = None) /\
     Integer (field data "version") = Some 1 /\
     Integer (field data "keyId") = Some (KeyID g) /\ 0 < KeyID g /\
     Integer (field data "revision") = Some (Revision g) /\ 0 < Revision g /\
     Integer (field data "expiresAt") = Some (ExpiresAt g) /\
     Integer (field claims "exp") = Some (ExpiresAt g) /\
     field data "targetType" = AString (TargetType g) /\ 0 < go_len (TargetType g) <= 256 /\
     field data "targetId" = AString (TargetID g) /\ 0 < go_len (TargetID g) <= 256 /\
     field data "operation" = AString (Operation g) /\
     (Operation g = "read" \/ Operation g = "exec" \/ Operation g = "logs") /\
     field data "payload" = AObject (Payload g) /\ (0 < size (Payload g) <= 256)%nat).
Proof.
  unfold Parse. destruct (claims !! Claim) as [raw|] eqn:E; [|naive_solver].
  split; [split; [|done]; repeat case_match; done|]. split.
  - intros H. destruct (existsb _ _) eqn:Old; [done|]. pose proof (proj1 (no_legacy claims) Old) as NL.
    destruct (as_object raw) as [data|] eqn:D; [|done]. apply as_object_Some in D as ->.
    destruct (negb _) eqn:V; [done|]. repeat case_match; try done.
    repeat match goal with
    | H : as_string _ = Some _ |- _ => apply as_string_Some in H
    | H : as_object _ = Some _ |- _ => apply as_object_Some in H
    | H : _ && _ && _ = false |- _ => pose proof (proj1 (operation_cases _) H); clear H
    end.
    injection H as <-. exists data. bool_to_prop.
    repeat match goal with
    | H : (_ =? _)%nat = false |- _ => apply Nat.eqb_neq in H
    | H : (_ <? _)%nat = false |- _ => apply Nat.ltb_ge in H
    | H : ?s <> "" |- _ => apply go_len_pos in H
    end.
    split_and!; try done; cbn [KeyID Revision TargetType TargetID Operation ExpiresAt Payload]; try lia.
    congruence.
  - intros (data & D & Old & V & K & Kp & R & Rp & X & J & T & Tl & I & Il & O & Ol & P & Pl).
    simplify_eq. rewrite (proj2 (no_legacy claims) Old). cbn [as_object].
    rewrite (bool_decide_eq_true_2 _ V) K R X J T I O P. cbn [negb as_string as_object].
    destruct (_ || _) eqn:G; [exfalso|].
    + repeat (bool_to_prop; destruct G as [G|G]); bool_to_prop;
        try apply Nat.eqb_eq in G; try apply Nat.ltb_lt in G; try lia;
        first [rewrite G /= in Tl | rewrite G /= in Il]; change (go_len "") with 0 in *; lia.
    + rewrite (proj2 (operation_cases (Operation g)) Ol). by destruct g.
Qed.

Lemma hex_digit_inj a b : 0 <= a < 16 -> 0 <= b < 16 -> hex_digit a = hex_digit b -> a = b.
Proof.
  intros Ha Hb E. apply (f_equal code) in E. unfold hex_digit in E.
  rewrite !code_chr in E; [|by repeat case_match; bool_to_prop; lia..].
  repeat case_match; bool_to_prop; lia.
Qed.

Lemma hex_inj (l l' : list Z) :
  Forall (fun b => 0 <= b < 256) l -> Forall (fun b => 0 <= b < 256) l' -> hex l = hex l' -> l = l'.
Proof.
  intros F. revert l'. induction F as [|b l Hb F IH]; intros [|b' l'] F'; try done.
  apply Forall_cons in F' as [Hb' F']. simpl. unfold hex_byte. rewrite !append_cons !append_nil_l.
  intros [= E1 E2 E3]. f_equal; [|by apply IH].
  assert (forall x, 0 <= x < 256 -> 0 <= Z.shiftr x 4 < 16 /\ 0 <= Z.land x 15 < 16 /\
    x = Z.shiftr x 4 * 16 + Z.land x 15) as S.
  { intros x Hx. rewrite Z.shiftr_div_pow2; [|lia]. change 15 with (Z.ones 4). rewrite Z.land_ones; [|lia].
    change (2 ^ 4) with 16. pose proof (Z_div_mod_eq_full x 16). pose proof (Z.mod_pos_bound x 16). lia. }
  destruct (S b Hb) as (A1 & A2 & ->). destruct (S b' Hb') as (B1 & B2 & ->).
  apply hex_digit_inj in E1; [|done..]. apply hex_digit_inj in E2; [|done..]. lia.
Qed.

Lemma sha256_bytes s : byte_array 32 (sha256 s).
Proof. split; [apply sha256_length|apply sha256_range]. Qed.

Lemma stake_short n s z : go_len (stake n s) <= z -> z < Z.of_nat n -> stake n s = s /\ go_len s <= z.
Proof.
  unfold go_len. intros H L. enough (stake n s = s) as E by by rewrite E in H.
  assert (Z.of_nat (String.length (stake n s)) < Z.of_nat n) as H' by lia. clear H L z.
  revert s H'. induction n as [|n IH]; intros s; simpl; [lia|]. destruct s as [|c s]; simpl; [done|].
  intros H. rewrite IH //. lia.
Qed.

Section VerifierProps.
Context (post : string -> string -> option response).

(** The answer of the engine to one introspection request. *)
Definition engine_answer (v : Verifier) (token : string) : option object :=
  resp ← post (Endpoint v) (introspection token);
  data ← limited (resp_body resp) 4097;
  decode_answer data.

(** The engine answered the introspection of the ticket with status 200 and a text of
    at most 4,096 bytes that decodes to [result], which confirms the grant and the
    digest of the ticket. *)
Definition confirmed (v : Verifier) (token : string) (g : Grant) (result : object) : Prop :=
  exists resp text, post (Endpoint v) (introspection token) = Some resp /\ StatusCode resp = 200 /\
    resp_body resp = Some text /\ go_len text <= 4096 /\ decode_answer text = Some result /\
    field result "allowed" = ABool true /\
    Integer (field result "keyId") = Some (KeyID g) /\
    Integer (field result "revision") = Some (Revision g) /\
    Integer (field result "expiresAt") = Some (ExpiresAt g) /\
    field result "targetType" = AString (TargetType g) /\
    field result "targetId" = AString (TargetID g) /\
    field result "operation" = AString (Operation g) /\
    field result "tokenDigest" = AString (hex (sha256 token)).

Lemma Check_accepts v now1 now2 token g :
  Check post (Some v) now1 now2 token (Some g) = true ->
  exists result, engine_answer v token = Some result /\ confirmed v token g result /\
    0 < go_len token <= MaxTokenBytes /\ now1 < ExpiresAt g /\ now2 < ExpiresAt g.
Proof.
  unfold Check, engine_answer, confirmed. intros H. destruct (_ || _) eqn:G in H; [done|].
  assert (0 < go_len token <= MaxTokenBytes) as L.
  { bool_to_prop. destruct token; [done|]. unfold go_len in *. simpl in *. lia. }
  bool_to_prop. destruct (post _ _) as [resp|]; [|done]. simpl. destruct (StatusCode resp =? 200) eqn:St; [|done]. cbn [negb] in H.
  destruct (resp_body resp) as [text|] eqn:Bd; [|done]. cbn [limited fmap option_fmap option_map mbind option_bind] in *.
  destruct (4096 <? go_len (stake 4097 text)) eqn:Sz; [done|].
  assert (stake 4097 text = text /\ go_len text <= 4096) as [Es Sz'] by (apply stake_short; [by apply Z.ltb_ge in Sz|reflexivity]).
  rewrite Es in H |- *.
  destruct (decode_answer text) as [result|] eqn:D; [|done]. exists result. split; [done|]. bool_to_prop.
  split_and!; try lia. exists resp, text. by split_and!.
Qed.

(** C32: The live check is bound to the ticket.  It accepts only when the engine's
    answer arrived with status 200 in at most 4,096 bytes, decodes, and confirms
    the grant and the digest of this ticket; transport errors, other statuses,
    oversized and undecodable answers are refusals.  If the engine's answers to
    two introspection requests are the same and both make the check accept, then
    the two tickets have the same SHA-256 digest and the grants agree on key,
    revision, target, operation and expiry: an answer for one ticket can never
    be replayed for another; and neither grant had expired, before or after the
    request. *)
Theorem Check_not_replayable v now1 now2 now1' now2' token token' g g' :
  engine_answer v token = engine_answer v token' ->
  Check post (Some v) now1 now2 token (Some g) = true ->
  Check post (Some v) now1' now2' token' (Some g') = true ->
  (exists result, confirmed v token g result /\ confirmed v token' g' result) /\
  0 < go_len token <= MaxTokenBytes /\ 0 < go_len token' <= MaxTokenBytes /\
  sha256 token = sha256 token' /\ KeyID g = KeyID g' /\ Revision g = Revision g' /\
  TargetType g = TargetType g' /\ TargetID g = TargetID g' /\ Operation g = Operation g' /\
  ExpiresAt g = ExpiresAt g' /\ Z.max now1 now2 < ExpiresAt g /\ Z.max now1' now2' < ExpiresAt g'.
Proof.
  intros E H1 H2.
  destruct (Check_accepts _ _ _ _ _ H1) as (r & A1 & C1 & L1 & N1 & M1).
  destruct (Check_accepts _ _ _ _ _ H2) as (r' & A2 & C2 & L2 & N2 & M2).
  rewrite E A2 in A1. injection A1 as ->. split; [by exists r|].
  destruct C1 as (? & ? & _ & _ & _ & _ & _ & _ & K1 & R1 & X1 & T1 & I1 & O1 & D1).
  destruct C2 as (? & ? & _ & _ & _ & _ & _ & _ & K2 & R2 & X2 & T2 & I2 & O2 & D2).
  split_and!; try congruence; try lia.
  apply hex_inj; [apply sha256_bytes..|]. congruence.
Qed.
End VerifierProps.

(** The watcher of a live stream denies access exactly when the first event that
    is not a successful check is the expiry of the grant or a failed check; a
    cancelled watcher never denies. *)
Theorem Run_denies_iff l :
  (exists rest, Run l = Some (true, rest)) <->
  exists l1 e l2, l = l1 ++ e :: l2 /\ Forall (fun x => x = Tick true) l1 /\ (e = Expiry \/ e = Tick false).
Proof.
  split.
  - intros [rest H]. induction l as [|x l IH]; [done|]. destruct x as [| |[]]; simpl in H.
    + done.
    + exists [], Expiry, l. auto.
    + destruct (IH H) as (l1 & e & l2 & -> & F & C). exists (Tick true :: l1), e, l2. auto.
    + exists [], (Tick false), l. auto.
  - intros (l1 & e & l2 & -> & F & C). exists l2. induction F as [|x l1 -> F IH]; [|done].
    by destruct C as [-> | ->].
Qed.

(** ** Witnesses *)

Module DelegationDemo.
Definition data : object :=
  <["version":=ANumber "1"]> (<["keyId":=ANumber "7"]> (<["revision":=ANumber "3"]>
  (<["expiresAt":=ANumber "1000"]> (<["targetType":=AString "container"]> (<["targetId":=AString "1i5"]>
  (<["operation":=AString "exec"]> (<["payload":=AObject {["exec":=ANil]}]> ∅))))))).
Definition claims : object := <["apiKeyDelegation":=AObject data]> {["exp":=ANumber "1000"]}.
Definition grant : Grant := mkGrant 7 3 "container" "1i5" "exec" 1000 {["exec":=ANil]}.

(** An engine that knows one ticket; it answers in the text of [answer]. *)
Definition answer (token : string) : json :=
  JObject [("allowed", JBool true); ("keyId", JNumber "7"); ("revision", JNumber "3"); ("expiresAt", JNumber "1000");
           ("targetType", JString "container"); ("targetId", JString "1i5"); ("operation", JString "exec");
           ("tokenDigest", JString (hex (sha256 token)))].
Definition engine (endpoint : string) (body : string) : option response :=
  if bool_decide (body = introspection "ticket")
  then Some (mkResponse 200 (Some (json_print (answer "ticket") +:+ " more"))) else Some (mkResponse 404 (Some "")).
Definition verifier : Verifier := mkVerifier "http://engine/introspect" true true.
End DelegationDemo.
Import DelegationDemo.

Lemma Check_not_replayable_witness :
  Check engine (Some verifier) 10 11 "ticket" (Some grant) = true /\
  sha256 "ticket" = sha256 "ticket" /\ KeyID grant = 7.
Proof.
  split_and!; [by vm_compute| |done].
  refine (proj1 (proj2 (proj2 (proj2 (Check_not_replayable engine verifier 10 11 12 13
    "ticket" "ticket" grant grant eq_refl _ _))))); vm_compute; reflexivity.
Defined.
