(* ===== verification/Capability.v ===== *)
(** * Ticket claims, audit capability and denial receipts

    Models [proxy/auth_safety.go], [proxy/key_backend_capability.go] and
    [proxy/expired_handshake.go]: reading claims of a verified ticket, the
    capability handshake of backends, the route check of delegated tickets, the
    audit evidence of expired tickets, and the receipts reported for denials.
    Parsing a ticket ([jwt.Parse], [jwt.ParseUnverified]), random bytes and the
    HTTP exchange are parameters. *)

From S2P Require Import Prelude GoString GoNet GoUrl Message Delegation.

(** ** Tickets *)

(** [jwt.Token]: [Claims] is [None] when the claims are not a [jwt.MapClaims]. *)
Record jwtToken := mkToken { Raw : string; Valid : bool; Claims : option object }.

Inductive jwt_error := TokenExpired | TokenInvalid.

(** The [interface{}] holding the verification key. *)
Inductive public_key := RSAPublicKey (bits : Z) | OtherKey.

Definition maxJWTBytes : Z := Z.shiftl 16 10.
Definition minRSAKeyBits : Z := 2048.
Definition maxStatsTargets : nat := 256.

Definition mapClaims (token : option jwtToken) : option object :=
  match token with None => None | Some t => Claims t end.

Definition claimValue (token : option jwtToken) (key : string) : option any :=
  match mapClaims token with None => None | Some claims => claims !! key end.
Definition stringClaim (token : option jwtToken) (key : string) : option string :=
  claimValue token key ≫= as_string.
Definition boolClaim (token : option jwtToken) (key : string) : option bool :=
  claimValue token key ≫= fun v => match v with ABool b => Some b | _ => None end.
Definition objectClaim (token : option jwtToken) (key : string) : option object :=
  claimValue token key ≫= as_object.

Definition redactSecretForLog (value : string) : string :=
  if bool_decide (value = "") then "" else "[redacted]".

(** [streamGrant] of [frontend_handler.go]. *)
Definition streamGrant (token : option jwtToken) : result denied (option Grant) :=
  match mapClaims token with None => Err ErrDenied | Some claims => Parse claims end.

Section Tickets.
(** [jwt.Parse] restricted to RS256 with this key; the flag is false when claims
    validation is switched off. *)
Context (jwt_parse : bool -> string -> Z -> result jwt_error jwtToken).

Definition parseJWTSignature (tokenString : string) (key : public_key) (validate : bool)
  : result jwt_error jwtToken :=
  if bool_decide (tokenString = "") then Err TokenInvalid
  else if maxJWTBytes <? go_len tokenString then Err TokenInvalid
  else match key with
       | OtherKey => Err TokenInvalid
       | RSAPublicKey bits =>
           if bits <? minRSAKeyBits then Err TokenInvalid else jwt_parse validate tokenString bits
       end.

Definition parseSignedJWT (tokenString : string) (key : public_key) : result jwt_error jwtToken :=
  parseJWTSignature tokenString key true.
Definition parseAuditSignatureJWT (tokenString : string) (key : public_key) : result jwt_error jwtToken :=
  parseJWTSignature tokenString key false.

(** [parseRequestToken] of [stats_handler.go]. *)
Definition parseRequestToken (tokenString : string) (key : public_key) : result jwt_error jwtToken :=
  if bool_decide (tokenString = "") then Err TokenInvalid else parseSignedJWT tokenString key.

(** ** Attempt identifiers *)

(** [nonce] is what [rand.Read] filled; the identifier is cut out of its
    hexadecimal form. *)
Definition attempt_id (nonce : list Z) : string :=
  let nonce := alter (fun b => Z.lor (Z.land b 0x0f) 0x40) 6%nat nonce in
  let nonce := alter (fun b => Z.lor (Z.land b 0x3f) 0x80) 8%nat nonce in
  let encoded := hex nonce in
  stake 8 encoded +:+ "-" +:+ stake 4 (sdrop 8 encoded) +:+ "-" +:+ stake 4 (sdrop 12 encoded) +:+ "-"
  +:+ stake 4 (sdrop 16 encoded) +:+ "-" +:+ sdrop 20 encoded.

Record routeDenialTarget := mkTarget { target_token : string; target_host : string }.

#[export] Instance routeDenialTarget_eq_dec : EqDecision routeDenialTarget.
Proof. solve_decision. Defined.

(** [routeDenialFailure] and [expiredDelegationFailure]. *)
Record denialFailure := mkFailure { targets : list routeDenialTarget; attemptID : string }.

Definition no_failure : denialFailure := mkFailure [] "".

Definition hosts (l : list routeDenialTarget) : list string := target_host <$> l.

(** [if !seen[host] { targets = append(targets, ...) }] *)
Definition add_target (t : routeDenialTarget) (l : list routeDenialTarget) : list routeDenialTarget :=
  if bool_decide (target_host t ∈ hosts l) then l else l ++ [t].

(** ** The route check *)

Definition same_grant (inner grant : Grant) : bool :=
  bool_decide (KeyID inner = KeyID grant) && bool_decide (Revision inner = Revision grant)
  && bool_decide (TargetType inner = TargetType grant) && bool_decide (TargetID inner = TargetID grant)
  && bool_decide (Operation inner = Operation grant).

(** The host of one entry of an aggregate ticket; [None] makes the whole check
    fail without targets. *)
Definition inner_target (key : public_key) (grant : Grant) (entry : any) : option routeDenialTarget :=
  data ← as_object entry;
  rawToken ← as_string (field data "token");
  match parseRequestToken rawToken key with
  | Err _ => None
  | Ok innerToken =>
      if negb (Valid innerToken) then None
      else match streamGrant (Some innerToken) with
           | Ok (Some inner) =>
               if negb (same_grant inner grant) then None
               else innerHost ← as_string (field (Payload inner) "hostUuid");
                    if bool_decide (innerHost = "") then None else Some (mkTarget rawToken innerHost)
           | _ => None
           end
  end.

Fixpoint collect (f : any -> option routeDenialTarget) (l : list any) (acc : list routeDenialTarget)
  : option (list routeDenialTarget) :=
  match l with
  | [] => Some acc
  | entry :: l => t ← f entry; collect f l (add_target t acc)
  end.

Definition checkStreamRoute (nonce : option (list Z)) (token : jwtToken) (grant : option Grant)
  (path : string) (key : public_key) : option denialFailure :=
  match grant with
  | None => None
  | Some grant =>
      if AllowsPath grant path then None
      else match nonce with
      | None => Some no_failure
      | Some nonce =>
          let attempt := attempt_id nonce in
          let host := default "" (as_string (field (Payload grant) "hostUuid")) in
          if negb (bool_decide (host = ""))
          then Some (mkFailure [mkTarget (Raw token) host] attempt)
          else if negb (bool_decide (Operation grant = "read")) || negb (size (Payload grant) =? 1)%nat
          then Some no_failure
          else
            let raw := match Payload grant !! "project" with
                       | Some raw => raw
                       | None => field (Payload grant) "service"
                       end in
            match as_array raw with
            | None => Some no_failure
            | Some entries =>
                if (length entries =? 0)%nat || (maxStatsTargets <? length entries)%nat
                then Some no_failure
                else match collect (inner_target key grant) entries [] with
                     | None => Some no_failure
                     | Some targets => Some (mkFailure targets attempt)
                     end
            end
      end
  end.

(** ** Expired tickets *)

(** [expiredAuditMetadata]: metadata, payload and whether the ticket is scoped;
    [now] is the clock in seconds. *)
Definition positive_field (m : object) (f : string) : bool :=
  match Integer (field m f) with Some v => 0 <? v | None => false end.
Definition short_field (m : object) (f : string) : bool :=
  match as_string (field m f) with
  | Some v => negb (bool_decide (v = "")) && (go_len v <=? 256)
  | None => false
  end.

Definition expiredAuditMetadata (now : Z) (token : option jwtToken) : option (object * object * bool) :=
  claims ← mapClaims token;
  expiry ← Integer (field claims "exp");
  if (expiry <=? 0) || (now <? expiry) then None
  else match streamGrant token with
  | Err _ => None
  | Ok grant =>
      mp ← match grant with
           | Some g =>
               if bool_decide (field claims "apiKeyAudit" = ANil)
               then m ← objectClaim token Claim; Some (m, Payload g, true) else None
           | None =>
               m ← objectClaim token "apiKeyAudit";
               Some (m, delete "apiKeyAudit" (delete "exp" (delete "iat" claims)), false)
           end;
      let '(metadata, payload, scoped) := mp in
      version ← Integer (field metadata "version");
      revision ← Integer (field metadata "revision");
      issued ← Integer (field metadata "issuedAt");
      if negb (version =? 1) || (revision <? 0) || (issued <=? 0) || (expiry <=? issued)
         || (now + 30 <? issued) then None
      else if negb (forallb (positive_field metadata) ["keyId"; "principalId"; "accountId"]) then None
      else if negb (forallb (short_field metadata) ["targetType"; "targetId"; "requestId"; "requestMethod"])
      then None
      else if negb (bool_decide (field metadata "operation" = AString "logs"))
              && negb (bool_decide (field metadata "operation" = AString "exec"))
              && negb (bool_decide (field metadata "operation" = AString "read")) then None
      else Some (metadata, payload, scoped)
  end.

Definition bound_fields : list string :=
  ["keyId"; "revision"; "targetType"; "targetId"; "operation"; "principalId"; "accountId";
   "requestId"; "requestMethod"; "requestAction"; "requestLink"].

Definition sameExpiredAuditBindings (outer inner : object) : bool :=
  forallb (positive_field outer) ["principalId"; "accountId"]
  && forallb (fun f => match as_string (field outer f) with
                       | Some v => negb (bool_decide (v = "")) | None => false end)
       ["requestId"; "requestMethod"]
  && forallb (fun f => bool_decide (field outer f = field inner f)) bound_fields.

Definition expired_target (now : Z) (key : public_key) (metadata : object) (scoped : bool) (entry : any)
  : option routeDenialTarget :=
  entry ← as_object entry;
  let innerRaw := default "" (as_string (field entry "token")) in
  match parseAuditSignatureJWT innerRaw key with
  | Err _ => None
  | Ok innerToken =>
      if negb (Valid innerToken) then None
      else
        mp ← expiredAuditMetadata now (Some innerToken);
        let '(innerEvidence, innerPayload, innerScoped) := mp in
        if negb (bool_decide (innerScoped = scoped)) || negb (sameExpiredAuditBindings metadata innerEvidence)
        then None
        else
          let host := default "" (as_string (field innerPayload "hostUuid")) in
          if bool_decide (host = "") then None else Some (mkTarget innerRaw host)
  end.

(** [expiredDelegationAudit]: [None] when there is no evidence to report. *)
Definition expiredDelegationAudit (now : Z) (nonce : option (list Z)) (raw : string) (key : public_key)
  : option denialFailure :=
  match parseAuditSignatureJWT raw key with
  | Err _ => None
  | Ok token =>
      if negb (Valid token) then None
      else match expiredAuditMetadata now (Some token) with
      | None => None
      | Some (metadata, payload, scoped) =>
          match nonce with
          | None => Some no_failure
          | Some nonce =>
              let failed := mkFailure [] (attempt_id nonce) in
              let host := default "" (as_string (field payload "hostUuid")) in
              if negb (bool_decide (host = "")) then Some (mkFailure [mkTarget raw host] (attempt_id nonce))
              else if negb (bool_decide (field metadata "operation" = AString "read"))
                      || negb (size payload =? 1)%nat then Some failed
              else
                let entries := match as_array (field payload "project") with
                               | Some l => Some l
                               | None => as_array (field payload "service")
                               end in
                match entries with
                | None => Some failed
                | Some entries =>
                    if (length entries =? 0)%nat || (maxStatsTargets <? length entries)%nat then Some failed
                    else match collect (expired_target now key metadata scoped) entries [] with
                         | None => Some failed
                         | Some targets => Some (mkFailure targets (attempt_id nonce))
                         end
                end
          end
      end
  end.
End Tickets.

(** ** Receipts *)

Definition five_seconds : Z := 5 * 10 ^ 9.

(** The loop of [reportRouteDenial] and [reportExpiredDenial]; [clock i] is the
    [i]-th reading of the clock in the loop. *)
Fixpoint report_all (send : routeDenialTarget -> bool) (deadline : Z) (clock : nat -> Z) (i : nat)
  (l : list routeDenialTarget) : bool :=
  match l with
  | [] => true
  | t :: l =>
      if (deadline <? clock i) || negb (send t) then false else report_all send deadline clock (S i) l
  end.

Section Receipts.
Context (post : string -> string -> option response)
  (backendTicket : option (string -> string)) (* the backend as a [backendTicketSource] *)
  (reporter : option Verifier).

Definition report_denial (send : string -> string -> string -> bool) (start : Z) (clock : nat -> Z)
  (failure : option denialFailure) (denied_ : Z * string) : Z * string :=
  match failure, backendTicket with
  | Some f, Some ticket =>
      if (length (targets f) =? 0)%nat || (maxStatsTargets <? length (targets f))%nat
      then (503, "AuditUnavailable")
      else if report_all (fun t => send (target_token t) (ticket (target_host t)) (attemptID f))
                (start + five_seconds) clock 0 (targets f)
           then denied_ else (503, "AuditUnavailable")
  | _, _ => (503, "AuditUnavailable")
  end.

Definition reportRouteDenial (start : Z) (clock : nat -> Z) (failure : option denialFailure) : Z * string :=
  report_denial (ReportRouteDenied post reporter) start clock failure (403, "DelegationRouteDenied").
Definition reportExpiredDenial (start : Z) (clock : nat -> Z) (failure : option denialFailure) : Z * string :=
  report_denial (ReportExpired post reporter) start clock failure (401, "ApiKeyExpired").

(** *** Capability failures *)

Definition backendAuditCapabilityCode_ : string := "BackendAuditCapabilityUnavailable".

Record backendCapabilityFailure := mkCapFailure { cap_token : string; cap_host : string }.

Definition reportBackendFailure (token host : string) : string :=
  match backendTicket with
  | Some ticket => if Report post reporter token (ticket host)
                   then backendAuditCapabilityCode_ else "AuditUnavailable"
  | None => "AuditUnavailable"
  end.

Definition reportCapabilityError (failure : option backendCapabilityFailure) : string :=
  match failure with
  | Some f => reportBackendFailure (cap_token f) (cap_host f)
  | None => "AuditUnavailable"
  end.
End Receipts.

(** ** Backend capabilities *)

Definition compatibleKeyBackendVersion (version : string) : bool :=
  match cut_prefix version "0.38." with
  | None => false
  | Some patch =>
      match parse_uint patch with
      | Some number => (5 <=? number) && bool_decide (format_uint number = patch)
      | None => false
      end
  end.

Definition isKeyTrace (token : option jwtToken) : bool :=
  match mapClaims token with
  | None => false
  | Some claims => has_key claims "apiKeyDelegation" || has_key claims "apiKeyAudit"
  end.

(** [requireKeyBackend]; [capable] is [supportsKeyTraces], if the backend has it. *)
Definition requireKeyBackend (capable : option (string -> bool)) (token : jwtToken) (host : string)
  : option backendCapabilityFailure :=
  if negb (isKeyTrace (Some token)) then None
  else match capable with
       | Some f => if f host then None else Some (mkCapFailure (Raw token) host)
       | None => Some (mkCapFailure (Raw token) host)
       end.

Section Queries.
(** [jwt.ParseUnverified] *)
Context (parse_unverified : string -> option jwtToken).

Definition declaredKeyCapabilities (rawQuery : string) : bool :=
  let '(query, ok) := parse_query rawQuery in
  ok && (length (query_values "hostApiVersion" query) =? 1)%nat
      && compatibleKeyBackendVersion (query_get "hostApiVersion" query)
      && (length (query_values "hostApiCapabilities" query) =? 1)%nat
      && bool_decide (query_get "hostApiCapabilities" query = "key-audit-v1,key-delegation-v1").

Definition keyTraceURL (raw : string) : bool :=
  match url_parse raw with
  | None => true
  | Some target =>
      let rawToken := query_get "token" (url_query target) in
      if bool_decide (rawToken = "") then false
      else if maxJWTBytes <? go_len rawToken then true
      else match parse_unverified rawToken with
           | None => true
           | Some token => isKeyTrace (Some token)
           end
  end.

Definition keyRequestURL (u : url) (token : jwtToken) : string :=
  if negb (isKeyTrace (Some token)) then url_string u
  else url_string (with_query (encode_query (query_set "token" (Raw token) (url_query u))) u).
End Queries.

(** ** Lemmas *)

Lemma attempt_id_uuid nonce :
  byte_array 16 nonce -> NewRandomUUID (Some nonce) = Some (attempt_id nonce).
Proof.
  intros [L _]. do 16 (destruct nonce as [|? nonce]; [done|]). destruct nonce; [|done].
  reflexivity.
Qed.

Lemma attempt_id_v4 nonce : byte_array 16 nonce -> uuid_v4 (attempt_id nonce) = true.
Proof.
  intros B. destruct (NewRandomUUID_v4 nonce B) as (s & E & H). rewrite attempt_id_uuid // in E.
  by injection E as <-.
Qed.

Lemma add_target_NoDup t l : NoDup (hosts l) -> NoDup (hosts (add_target t l)).
Proof.
  intros N. unfold add_target. case_bool_decide as D; [done|]. unfold hosts in *. rewrite fmap_app.
  apply NoDup_app. split_and!; [done| |apply NoDup_singleton].
  intros x Hx Hy%list_elem_of_singleton. by subst.
Qed.

Lemma collect_spec f entries acc l :
  collect f entries acc = Some l -> NoDup (hosts acc) ->
  NoDup (hosts l) /\ (length l <= length acc + length entries)%nat /\
  (entries <> [] -> l <> []) /\
  forall t, t ∈ l -> t ∈ acc \/ exists e, e ∈ entries /\ f e = Some t.
Proof.
  revert acc. induction entries as [|e entries IH]; intros acc H N.
  - injection H as ->. split_and!; [done|simpl; lia|done|]. intros t Ht. by left.
  - cbn [collect] in H. destruct (f e) as [t0|] eqn:E; [|done]. cbn in H.
    destruct (IH _ H (add_target_NoDup t0 acc N)) as (N' & Len & Ne & Sub).
    assert (length (add_target t0 acc) <= S (length acc))%nat as La.
    { unfold add_target. case_bool_decide; rewrite ?length_app /=; lia. }
    split_and!; [done|simpl; lia| |].
    + intros _. destruct entries as [|e' entries]; [|by apply Ne]. injection H as <-.
      unfold add_target. case_bool_decide as D; [|by destruct acc].
      destruct acc; [by apply not_elem_of_nil in D|done].
    + intros t Ht. destruct (Sub t Ht) as [Ha|(e' & He & Hf)].
      * unfold add_target in Ha. case_bool_decide; [by left|].
        apply elem_of_app in Ha as [|Ha%list_elem_of_singleton]; [by left|]. subst.
        right. exists e. split; [left|done].
      * right. exists e'. split; [by right|done].
Qed.

Lemma report_all_true send deadline clock i l :
  report_all send deadline clock i l = true <->
  forall j t, l !! j = Some t -> clock (i + j)%nat <= deadline /\ send t = true.
Proof.
  revert i. induction l as [|t l IH]; intros i; simpl; [naive_solver|]. split.
  - intros H [|j] t' Hj; simpl in Hj.
    + injection Hj as <-. rewrite Nat.add_0_r. destruct (_ || _) eqn:G; [done|]. bool_to_prop. done.
    + destruct (_ || _); [done|]. rewrite -Nat.add_succ_comm. by apply (IH (S i)).
  - intros H. destruct (H 0%nat t eq_refl) as [C S]. rewrite Nat.add_0_r in C.
    rewrite S. rewrite (proj2 (Z.ltb_ge _ _) C). simpl. apply IH. intros j t' Hj.
    specialize (H (Datatypes.S j) t' Hj). by rewrite -Nat.add_succ_comm in H.
Qed.

(** ** Properties *)

(** A backend version is accepted exactly when it is a canonical 0.38 patch
    release from 0.38.5 on: the patch number has no sign, no leading zero and no
    suffix, and fits 64 bits. *)
Theorem compatible_version_iff version :
  compatibleKeyBackendVersion version = true <->
  exists n, 5 <= n <= max_uint64 /\ version = "0.38." +:+ format_uint n.
Proof.
  unfold compatibleKeyBackendVersion. split.
  - destruct (cut_prefix version "0.38.") as [patch|] eqn:E; [|done]. apply cut_prefix_spec in E as ->.
    destruct (parse_uint patch) as [n|] eqn:P; [|done]. intros H. bool_to_prop.
    apply parse_uint_range in P. exists n. split; [lia|]. by rewrite H0.
  - intros (n & Hn & ->). rewrite (proj2 (cut_prefix_spec _ _ (format_uint n)) eq_refl).
    rewrite parse_uint_format; [|unfold max_uint64 in *; lia].
    by rewrite (proj2 (Z.leb_le 5 n)); [|lia]; rewrite bool_decide_eq_true_2.
Qed.

Section RouteProps.
Context (jwt_parse : bool -> string -> Z -> result jwt_error jwtToken).

(** The evidence behind one receipt of a route denial: the ticket itself names the
    host, or it is an aggregate one of whose signed inner tickets, for the same
    key, revision, target and operation, names it. *)
Definition route_evidence (key : public_key) (token : jwtToken) (grant : Grant) (t : routeDenialTarget) : Prop :=
  target_host t <> "" /\
  ((target_token t = Raw token /\ as_string (field (Payload grant) "hostUuid") = Some (target_host t)) \/
   exists inner g, parseSignedJWT jwt_parse (target_token t) key = Ok inner /\ Valid inner = true /\
     streamGrant (Some inner) = Ok (Some g) /\ same_grant g grant = true /\
     as_string (field (Payload g) "hostUuid") = Some (target_host t)).

Lemma inner_target_evidence key token grant e t :
  inner_target jwt_parse key grant e = Some t -> route_evidence key token grant t.
Proof.
  unfold inner_target. intros H. destruct (as_object e) as [data|]; [|done]. cbn in H.
  destruct (as_string (field data "token")) as [raw|]; [|done]. cbn in H.
  destruct (parseRequestToken jwt_parse raw key) as [inner|] eqn:P; [|done].
  destruct (Valid inner) eqn:V; [|done]. cbn [negb] in H.
  destruct (streamGrant (Some inner)) as [[g|]|] eqn:G; try done.
  destruct (same_grant g grant) eqn:S; [|done]. cbn [negb] in H.
  destruct (as_string (field (Payload g) "hostUuid")) as [host|] eqn:Hh; [|done]. cbn in H.
  case_bool_decide; [done|]. injection H as <-. split; [done|]. right. exists inner, g.
  unfold parseRequestToken in P. case_bool_decide; [done|]. by split_and!.
Qed.

(** A delegated ticket is let through exactly on the paths its grant allows.
    When it is refused, the failure names at most 256 distinct hosts, each
    established by a verified signature over the same grant, and if it names any
    it carries an attempt identifier the reporter accepts; so a receipt can be
    filed for every host involved and for no other. *)
Theorem checkStreamRoute_sound nonce token grant path key :
  byte_array 16 nonce ->
  (checkStreamRoute jwt_parse (Some nonce) token (Some grant) path key = None <->
     AllowsPath grant path = true) /\
  forall f, checkStreamRoute jwt_parse (Some nonce) token (Some grant) path key = Some f ->
    NoDup (hosts (targets f)) /\ (length (targets f) <= maxStatsTargets)%nat /\
    (targets f <> [] -> uuid_v4 (attemptID f) = true) /\
    Forall (route_evidence key token grant) (targets f).
Proof.
  intros B. unfold checkStreamRoute.
  assert (forall f, Some no_failure = Some f -> NoDup (hosts (targets f)) /\
    (length (targets f) <= maxStatsTargets)%nat /\ (targets f <> [] -> uuid_v4 (attemptID f) = true) /\
    Forall (route_evidence key token grant) (targets f)) as NF.
  { intros f [= <-]. split_and!; [constructor|simpl; lia|done|constructor]. }
  destruct (AllowsPath grant path); [by split|].
  remember (default "" (as_string (field (Payload grant) "hostUuid"))) as host eqn:Hh.
  destruct (bool_decide (host = "")) eqn:He; bool_to_prop; cbn [negb].
  2: { split; [done|]. intros f [= <-]. split_and!.
    - apply NoDup_singleton.
    - unfold maxStatsTargets. simpl. lia.
    - intros _. by apply attempt_id_v4.
    - apply Forall_singleton. split; [done|]. left. split; [done|]. simpl.
      destruct (as_string _); simpl in *; by subst. }
  destruct (_ || _); [split; [done|exact NF]|].
  destruct (as_array _) as [entries|]; [|split; [done|exact NF]].
  destruct (_ || _) eqn:Len; [split; [done|exact NF]|].
  destruct (collect _ entries []) as [l|] eqn:C; [|split; [done|exact NF]].
  split; [done|]. intros f [= <-]. apply orb_false_iff in Len as [_ Len%Nat.ltb_ge].
  destruct (collect_spec _ _ _ _ C NoDup_nil_2) as (N & Ln & _ & Sub). simpl in *.
  split_and!; [done|lia|intros _; by apply attempt_id_v4|].
  apply Forall_forall. intros t Ht. destruct (Sub t Ht) as [X|(e & _ & X)];
    [by apply not_elem_of_nil in X|by eapply inner_target_evidence].
Qed.
End RouteProps.

Section ReceiptProps.
Context (post : string -> string -> option response) (ticket : string -> string) (reporter : option Verifier).

(** A route denial is answered 403 only after the engine accepted, within five
    seconds, one receipt for every host of the failure, each proved with the
    connection ticket of that host; in every other case the answer is 503. *)
Theorem route_denial_audited start clock failure :
  reportRouteDenial post (Some ticket) reporter start clock failure = (403, "DelegationRouteDenied") /\
    (exists f, failure = Some f /\ (0 < length (targets f) <= maxStatsTargets)%nat /\
       forall i t, targets f !! i = Some t -> clock i <= start + five_seconds /\
         ReportRouteDenied post reporter (target_token t) (ticket (target_host t)) (attemptID f) = true)
  \/ reportRouteDenial post (Some ticket) reporter start clock failure = (503, "AuditUnavailable").
Proof.
  unfold reportRouteDenial, report_denial. destruct failure as [f|]; [|by right].
  destruct (_ || _) eqn:L; [by right|]. destruct (report_all _ _ _ _ _) eqn:R; [|by right].
  left. split; [done|]. exists f. apply orb_false_iff in L as [L1%Nat.eqb_neq L2%Nat.ltb_ge].
  split_and!; [done|lia|done|]. rewrite -> report_all_true in R. exact R.
Qed.
End ReceiptProps.

Section ExpiredProps.
Context (jwt_parse : bool -> string -> Z -> result jwt_error jwtToken).

Lemma expiredAuditMetadata_expired now token r :
  expiredAuditMetadata now token = Some r ->
  exists claims e, mapClaims token = Some claims /\ Integer (field claims "exp") = Some e /\ 0 < e <= now.
Proof.
  unfold expiredAuditMetadata. destruct (mapClaims token) as [claims|]; [|done]. cbn.
  destruct (Integer (field claims "exp")) as [e|] eqn:E; [|done]. cbn.
  destruct (_ || _) eqn:G; [done|]. bool_to_prop. intros _. exists claims, e. split_and!; [done|done|lia..].
Qed.

(** A signed, expired ticket that names the host and carries the same audit
    identity as [metadata]. *)
Definition expired_evidence (now : Z) (key : public_key) (metadata : object) (scoped : bool)
  (t : routeDenialTarget) : Prop :=
  target_host t <> "" /\
  exists tok evidence payload,
    parseAuditSignatureJWT jwt_parse (target_token t) key = Ok tok /\ Valid tok = true /\
    expiredAuditMetadata now (Some tok) = Some (evidence, payload, scoped) /\
    as_string (field payload "hostUuid") = Some (target_host t) /\
    (evidence = metadata \/ sameExpiredAuditBindings metadata evidence = true).

Lemma default_host v (host : string) : default "" (as_string v) = host -> host <> "" -> as_string v = Some host.
Proof. destruct (as_string v); simpl; intros <-; done. Qed.

Lemma expired_target_evidence now key metadata scoped e t :
  expired_target jwt_parse now key metadata scoped e = Some t -> expired_evidence now key metadata scoped t.
Proof.
  unfold expired_target. intros H. apply bind_Some in H as (data & _ & H).
  set (raw := default "" (as_string (field data "token"))) in *.
  destruct (parseAuditSignatureJWT jwt_parse raw key) as [tok|] eqn:P; [|done].
  destruct (Valid tok) eqn:V; [|done]. cbn [negb] in H.
  apply bind_Some in H as ([[ev pl] sc] & M & H).
  destruct (_ || _) eqn:G; [done|]. bool_to_prop. subst sc.
  case_bool_decide as Hh; [done|]. injection H as <-. split; [done|].
  exists tok, ev, pl. split_and!; try done; [by apply default_host|by right].
Qed.

(** Evidence about an expired ticket is produced only for a ticket whose
    signature verifies and whose expiry has truly passed.  The hosts it names are
    distinct and at most 256, each one established by a signed, expired ticket
    with the same audit identity, and the attempt identifier is one the reporter
    accepts. *)
Theorem expired_audit_sound now nonce raw key f :
  byte_array 16 nonce -> expiredDelegationAudit jwt_parse now (Some nonce) raw key = Some f ->
  exists token claims expiry metadata payload scoped,
    parseAuditSignatureJWT jwt_parse raw key = Ok token /\ Valid token = true /\
    Claims token = Some claims /\ Integer (field claims "exp") = Some expiry /\ 0 < expiry <= now /\
    expiredAuditMetadata now (Some token) = Some (metadata, payload, scoped) /\
    uuid_v4 (attemptID f) = true /\ NoDup (hosts (targets f)) /\
    (length (targets f) <= maxStatsTargets)%nat /\
    Forall (expired_evidence now key metadata scoped) (targets f).
Proof.
  intros B. unfold expiredDelegationAudit.
  destruct (parseAuditSignatureJWT jwt_parse raw key) as [token|] eqn:P; [|done].
  destruct (Valid token) eqn:V; [|done]. cbn [negb].
  destruct (expiredAuditMetadata now (Some token)) as [[[metadata payload] scoped]|] eqn:M; [|done].
  destruct (expiredAuditMetadata_expired _ _ _ M) as (claims & e & Mc & Me & He). intros H.
  exists token, claims, e, metadata, payload, scoped. simpl in Mc.
  split; [done|]. split; [done|]. split; [done|]. split; [done|]. split; [done|]. split; [done|].
  assert (uuid_v4 (attempt_id nonce) = true) as U by by apply attempt_id_v4.
  assert (forall l, NoDup (hosts l) -> (length l <= maxStatsTargets)%nat ->
    Forall (expired_evidence now key metadata scoped) l -> f = mkFailure l (attempt_id nonce) ->
    uuid_v4 (attemptID f) = true /\ NoDup (hosts (targets f)) /\
    (length (targets f) <= maxStatsTargets)%nat /\
    Forall (expired_evidence now key metadata scoped) (targets f)) as K by by intros l ? ? ? ->.
  assert (mkFailure [] (attempt_id nonce) = f -> uuid_v4 (attemptID f) = true /\
    NoDup (hosts (targets f)) /\ (length (targets f) <= maxStatsTargets)%nat /\
    Forall (expired_evidence now key metadata scoped) (targets f)) as K0.
  { intros <-. split_and!; [done|constructor|simpl; lia|constructor]. }
  case_bool_decide as Hh; cbn [negb] in H.
  - destruct (_ || _) in H; [injection H as H; auto|].
    destruct (match as_array (field payload "project") with Some _ => _ | None => _ end)
      as [entries|]; [|injection H as H; auto].
    destruct (_ || _) eqn:Len in H; [injection H as H; auto|].
    destruct (collect _ entries []) as [l|] eqn:C; [|injection H as H; auto].
    injection H as H. apply orb_false_iff in Len as [_ Len%Nat.ltb_ge].
    destruct (collect_spec _ _ _ _ C NoDup_nil_2) as (N & Ln & _ & Sub). simpl in *.
    apply (K l); [done|lia| |done]. apply Forall_forall. intros t Ht.
    destruct (Sub t Ht) as [X|(d & _ & X)]; [by apply not_elem_of_nil in X|by eapply expired_target_evidence].
  - injection H as H. apply (K [mkTarget raw (default "" (as_string (field payload "hostUuid")))]); [apply NoDup_singleton|unfold maxStatsTargets; simpl; lia| |done].
    apply Forall_singleton. split; [done|]. exists token, metadata, payload.
    split_and!; try done; [by apply default_host|by left].
Qed.
End ExpiredProps.

Section GateProps.
Context (parse_unverified : string -> option jwtToken).

(** The URL sent to a host for an authenticated ticket carries that very ticket,
    however the client presented it (header or query, any number of other
    tokens), so the gate in front of the host sees the ticket that was verified
    and takes a key ticket for one, unless the query grows over the limit of the
    parser; the URL of any other ticket is unchanged. *)
Theorem key_request_reaches_gate u token t :
  origin_form u -> Raw token <> "" -> parse_unverified (Raw token) = Some t -> Claims t = Claims token ->
  if isKeyTrace (Some token)
  then Z.of_nat (length (query_set "token" (Raw token) (url_query u))) <= urlmaxqueryparams ->
       keyTraceURL parse_unverified (keyRequestURL u token) = true /\
       forall u', url_parse (keyRequestURL u token) = Some u' -> query_get "token" (url_query u') = Raw token
  else keyRequestURL u token = url_string u.
Proof.
  intros O N P C. unfold keyRequestURL, keyTraceURL. destruct (isKeyTrace (Some token)) eqn:K; [|done]. cbn [negb].
  set (q := query_set "token" (Raw token) (url_query u)). intros L.
  destruct (encode_query_chars q) as [Hc Cc].
  destruct (origin_parse (with_query (encode_query q) u)) as (u' & E & Eq & _); [by destruct O|done|done|]. rewrite E.
  assert (query_get "token" (url_query u') = Raw token) as G.
  { unfold url_query. rewrite Eq. unfold query_get. cbn [with_query RawQuery].
    rewrite query_roundtrip //. apply query_set_get. }
  split; [|by intros ? [= <-]]. rewrite G bool_decide_eq_false_2 //.
  destruct (_ <? _); [done|]. rewrite P. unfold isKeyTrace, mapClaims in *. by rewrite C.
Qed.

(** Over the limit the ticket is lost on the way to the gate, which then takes the
    request for an ordinary one: 10,000 parameters of the client and a ticket in
    its header are enough. *)
Theorem oversized_query_misses_gate u token :
  origin_form u -> isKeyTrace (Some token) = true ->
  urlmaxqueryparams < Z.of_nat (length (query_set "token" (Raw token) (url_query u))) ->
  keyTraceURL parse_unverified (keyRequestURL u token) = false.
Proof.
  intros O K L. unfold keyRequestURL, keyTraceURL. rewrite K. cbn [negb].
  set (q := query_set "token" (Raw token) (url_query u)) in *. destruct (encode_query_chars q) as [Hc Cc].
  destruct (origin_parse (with_query (encode_query q) u)) as (u' & -> & Eq & _); [by destruct O|done|done|].
  unfold url_query. rewrite Eq. cbn [with_query RawQuery]. by rewrite query_oversized.
Qed.
End GateProps.

(** ** Witnesses *)

Module CapabilityDemo.
Import DelegationDemo.

Definition nonce : list Z := [1; 2; 3; 4; 5; 6; 255; 8; 255; 10; 11; 12; 13; 14; 15; 16].
Lemma nonce_ok : byte_array 16 nonce.
Proof. split; [done|]. repeat constructor; lia. Qed.

(** An expired full key trace for host [h1]. *)
Definition evidence : object :=
  <["version":=ANumber "1"]> (<["revision":=ANumber "3"]> (<["issuedAt":=ANumber "10"]>
  (<["keyId":=ANumber "7"]> (<["principalId":=ANumber "8"]> (<["accountId":=ANumber "9"]>
  (<["targetType":=AString "container"]> (<["targetId":=AString "1i5"]> (<["requestId":=AString "r"]>
  (<["requestMethod":=AString "GET"]> {["operation":=AString "logs"]}))))))))).
Definition audit_claims : object :=
  <["exp":=ANumber "100"]> (<["hostUuid":=AString "h1"]> {["apiKeyAudit":=AObject evidence]}).

Definition signed (validate : bool) (raw : string) (bits : Z) : result jwt_error jwtToken :=
  if bool_decide (raw = "a.b.c") then Ok (mkToken raw true (Some claims))
  else if bool_decide (raw = "x.y.z") && negb validate then Ok (mkToken raw true (Some audit_claims))
  else Err TokenInvalid.
Definition key : public_key := RSAPublicKey 2048.
Definition token : jwtToken := mkToken "a.b.c" true (Some claims).

(** A request with a client's own token in its query. *)
Definition logs_url : url := with_query "token=x.y.z&follow=true" (path_url "/v1/logs/").
Lemma logs_url_form : origin_form logs_url.
Proof. by split; vm_compute. Qed.

(** A query with as many parameters as are accepted. *)
Definition long_url : url := with_query (join "&" (repeat "x" (Z.to_nat urlmaxqueryparams))) (path_url "/v1/logs/").
Lemma long_url_form : origin_form long_url.
Proof. by split; vm_compute. Qed.
End CapabilityDemo.
Import DelegationDemo CapabilityDemo.

Lemma checkStreamRoute_sound_witness :
  checkStreamRoute signed (Some nonce) token (Some grant) "/v1/exec/" key = None /\
  checkStreamRoute signed (Some nonce) token (Some grant) "/v1/logs" key = Some no_failure /\
  NoDup (hosts (targets no_failure)).
Proof.
  assert (checkStreamRoute signed (Some nonce) token (Some grant) "/v1/logs" key = Some no_failure) as E
    by by vm_compute.
  split_and!; [|done|].
  - apply (checkStreamRoute_sound signed nonce token grant "/v1/exec/" key nonce_ok). by vm_compute.
  - apply (proj2 (checkStreamRoute_sound signed nonce token grant "/v1/logs" key nonce_ok) _ E).
Defined.

Lemma expired_audit_sound_witness :
  exists f, expiredDelegationAudit signed 200 (Some nonce) "x.y.z" key = Some f /\
    hosts (targets f) = ["h1"] /\ uuid_v4 (attemptID f) = true.
Proof.
  assert (exists f, expiredDelegationAudit signed 200 (Some nonce) "x.y.z" key = Some f /\
    hosts (targets f) = ["h1"]) as (f & E & Hh) by (eexists; split; by vm_compute).
  exists f. split_and!; [done|done|].
  destruct (expired_audit_sound signed 200 nonce "x.y.z" key f nonce_ok E)
    as (? & ? & ? & ? & ? & ? & _ & _ & _ & _ & _ & _ & U & _). exact U.
Defined.

Lemma key_request_reaches_gate_witness :
  keyRequestURL logs_url token = "/v1/logs/?follow=true&token=a.b.c" /\
  keyTraceURL (fun _ => Some token) (keyRequestURL logs_url token) = true.
Proof.
  split; [by vm_compute|].
  refine (proj1 (key_request_reaches_gate (fun _ => Some token) logs_url token token logs_url_form _ _ _ _)); by vm_compute.
Defined.

Lemma oversized_query_misses_gate_witness :
  keyTraceURL (fun _ => Some token) (keyRequestURL long_url token) = false.
Proof.
  apply (oversized_query_misses_gate (fun _ => Some token) long_url token long_url_form); by vm_compute.
Defined.
