(* ===== verification/Http.v ===== *)
(** * HTTP requests and headers

    What the handlers use of [net/http]: header maps with canonical names,
    requests, and the base64 round trip of binary streams. *)

From S2P Require Import Prelude GoString GoHash GoNet GoUrl GoCookie GoJson Delegation.

(** ** Headers *)

(** [textproto.CanonicalMIMEHeaderKey] for names made of token characters: the
    first letter and every letter after a dash in upper case, the rest in lower
    case. *)
Fixpoint canonical_from (up : bool) (s : string) : string :=
  match s with
  | EmptyString => ""
  | String c s =>
      String (if up then upper c else lower c) (canonical_from (bool_decide (c = "-"%char)) s)
  end.
Definition canonical : string -> string := canonical_from true.

(** [http.Header]: values by canonical name, in order. *)
Abbreviation header := (gmap string (list string)).

Definition header_values (h : header) (key : string) : list string := default [] (h !! canonical key).
Definition header_get (h : header) (key : string) : string := hd "" (header_values h key).
Definition header_set (key value : string) (h : header) : header := <[canonical key:=[value]]> h.
Definition header_add (key value : string) (h : header) : header :=
  <[canonical key:=header_values h key ++ [value]]> h.
Definition header_del (key : string) (h : header) : header := delete (canonical key) h.

Lemma header_get_set key value h : header_get (header_set key value h) key = value.
Proof. unfold header_get, header_values, header_set. by rewrite lookup_insert_eq. Qed.

Lemma header_values_set_ne key key' value h :
  canonical key <> canonical key' -> header_values (header_set key value h) key' = header_values h key'.
Proof. intros N. unfold header_values, header_set. by rewrite lookup_insert_ne. Qed.

Lemma header_values_del key h : header_values (header_del key h) key = [].
Proof. unfold header_values, header_del. by rewrite lookup_delete_eq. Qed.

Lemma header_values_del_ne key key' h :
  canonical key <> canonical key' -> header_values (header_del key h) key' = header_values h key'.
Proof. intros N. unfold header_values, header_del. by rewrite lookup_delete_ne. Qed.

(** ** Requests *)

(** [removeEmptyPort]: the host without the colon of an empty port, unless that
    colon belongs to an address in brackets. *)
Definition removeEmptyPort (host : string) : string :=
  match cut_last ":" host with Some (h, "") => h | _ => host end.

(** The URL of [http.NewRequest(method, raw, body)]. *)
Definition NewRequestURL (raw : string) : option url :=
  (fun u => with_host (removeEmptyPort (Host u)) u) <$> url_parse raw.

(** The fields of [http.Request] the handlers read: [PeerCommonNames] are the
    subject names of the TLS peer certificates ([None] without TLS), [Vars] the route
    variables. *)
Record request := mkRequest {
  Method : string;
  URL : url;
  ReqHost : string;
  RemoteAddr : string;
  Header : header;
  PeerCommonNames : option (list string);
  Vars : gmap string string }.

Definition set_header (h : header) (r : request) : request :=
  mkRequest (Method r) (URL r) (ReqHost r) (RemoteAddr r) h (PeerCommonNames r) (Vars r).
Definition set_url (u : url) (r : request) : request :=
  mkRequest (Method r) u (ReqHost r) (RemoteAddr r) (Header r) (PeerCommonNames r) (Vars r).
Definition set_vars (v : gmap string string) (r : request) : request :=
  mkRequest (Method r) (URL r) (ReqHost r) (RemoteAddr r) (Header r) (PeerCommonNames r) v.

(** [req.Cookies()], and [req.Cookie(name)]: the first cookie of that name. *)
Definition Cookies (r : request) : list http_cookie := readCookies (header_values (Header r) "Cookie").
Definition cookie (name : string) (r : request) : option http_cookie :=
  head (List.filter (fun c => bool_decide (ck_Name c = name)) (Cookies r)).
(** [req.AddCookie(c)] on the headers. *)
Definition header_add_cookie (c : http_cookie) (h : header) : header :=
  header_set "Cookie" (add_cookie (header_get h "Cookie") c) h.

(** [workspaceHeaderContainsToken] of [persistent_session_handler.go]. *)
Definition workspaceHeaderContainsToken (h : header) (name expected : string) : bool :=
  existsb (fun value => existsb (fun token => equal_fold (trim_space token) expected) (split value ","))
    (header_values h name).

(** ** Readers *)

(** An [io.Reader]: the bytes it yields, and the error it then fails with
    ([None] is the end of the data). *)
Record reader := mkReader { r_data : string; r_error : option string }.

(** [io.ReadAll(&io.LimitedReader{R: r, N: n})]. *)
Definition read_limited (n : Z) (r : reader) : result string string :=
  if n <=? go_len (r_data r) then Ok (stake (Z.to_nat n) (r_data r))
  else match r_error r with Some e => Err e | None => Ok (r_data r) end.

(** Reading one byte more than allowed tells whether the limit is kept. *)
Lemma read_limited_within max r s :
  0 <= max -> read_limited (max + 1) r = Ok s -> go_len s <= max -> s = r_data r /\ r_error r = None.
Proof.
  intros Hm H L. unfold read_limited in H. destruct (_ <=? _) eqn:E; bool_to_prop.
  - apply Ok_inj in H. subst. exfalso.
    pose proof (f_equal go_len (stake_sdrop (Z.to_nat (max + 1)) (r_data r))) as T.
    rewrite go_len_append in T. unfold go_len in *. rewrite sdrop_length in T. lia.
  - destruct (r_error r); [done|]. by apply Ok_inj in H.
Qed.

Lemma read_limited_beyond max r s :
  read_limited (max + 1) r = Ok s -> max < go_len s -> max < go_len (r_data r).
Proof.
  unfold read_limited. destruct (_ <=? _) eqn:E; bool_to_prop; [lia|]. destruct (r_error r); [done|].
  by intros <-%Ok_inj.
Qed.

Lemma read_limited_all max r :
  r_error r = None -> go_len (r_data r) <= max -> read_limited (max + 1) r = Ok (r_data r).
Proof. intros E L. unfold read_limited. rewrite (proj2 (Z.leb_gt _ _)); [|lia]. by rewrite E. Qed.

(** The [http.Response] a client gets. *)
Record client_response := mkResp { cr_StatusCode : Z; cr_Header : header; cr_Body : reader }.

(** ** Computations that send requests and may fail *)

(** The state is the list of the requests sent so far, oldest first. *)
Definition comm (Q E A : Type) : Type := list Q -> list Q * result E A.

#[export] Instance comm_ret {Q E} : MRet (comm Q E) := fun A a sent => (sent, Ok a).
#[export] Instance comm_bind {Q E} : MBind (comm Q E) := fun A B f m sent =>
  let '(sent', r) := m sent in
  match r with Ok a => f a sent' | Err e => (sent', Err e) end.

Section Comm.
Context {Q E : Type}.
Implicit Types (P : Q -> Prop) (sent : list Q).

Definition fail {A} (e : E) : comm Q E A := fun sent => (sent, Err e).
Definition lift {A} (r : result E A) : comm Q E A := fun sent => (sent, r).

(** Another error in place of [e]. *)
Definition map_error {E' A} (f : E -> E') (m : comm Q E A) : comm Q E' A := fun sent =>
  let '(sent', r) := m sent in
  (sent', match r with Ok a => Ok a | Err e => Err (f e) end).

(** A computation whose requests all satisfy [P] (those sent before it aside). *)
Definition sends_only {A} P (m : comm Q E A) : Prop :=
  forall sent, exists new, fst (m sent) = sent ++ new /\ Forall P new.

Lemma comm_bind_Ok {A B} (m : comm Q E A) (f : A -> comm Q E B) sent sent' b :
  (m ≫= f) sent = (sent', Ok b) -> exists a sent1, m sent = (sent1, Ok a) /\ f a sent1 = (sent', Ok b).
Proof. unfold mbind, comm_bind. destruct (m sent) as [sent1 [a|e]]; [eauto|done]. Qed.

Lemma sends_nothing P sent : exists new, sent = sent ++ new /\ Forall P new.
Proof. exists []. by rewrite app_nil_r. Qed.

Lemma sends_only_lift {A} P (r : result E A) : sends_only P (lift r).
Proof. intros sent. apply sends_nothing. Qed.

Lemma sends_only_ret {A} P (a : A) : sends_only P (mret (M := comm Q E) a).
Proof. apply (sends_only_lift P (Ok a)). Qed.

Lemma sends_only_fail {A} P e : sends_only P (fail (A := A) e).
Proof. apply (sends_only_lift P (Err e)). Qed.

Lemma sends_only_bind {A B} P (m : comm Q E A) (f : A -> comm Q E B) :
  sends_only P m -> (forall a, sends_only P (f a)) -> sends_only P (m ≫= f).
Proof.
  intros Hm Hf sent. destruct (Hm sent) as (new & Es & F). unfold mbind, comm_bind.
  destruct (m sent) as [sent' [a|e]]; simpl in *; subst.
  - destruct (Hf a (sent ++ new)) as (new' & -> & F'). exists (new ++ new').
    split; [by rewrite app_assoc|by apply Forall_app].
  - by exists new.
Qed.

(** The result of a pure first computation may be used to bound the second. *)
Lemma sends_only_bind_lift {A B} P (r : result E A) (f : A -> comm Q E B) :
  (forall a, r = Ok a -> sends_only P (f a)) -> sends_only P (lift r ≫= f).
Proof.
  intros H sent. unfold mbind, comm_bind, lift. destruct r as [a|e]; [by apply (H a)|apply sends_nothing].
Qed.
End Comm.

Lemma sends_only_map_error {Q E E' A} (P : Q -> Prop) (f : E -> E') (m : comm Q E A) :
  sends_only P m -> sends_only P (map_error f m).
Proof. intros H sent. destruct (H sent) as (new & Es & F). exists new. unfold map_error. by destruct (m sent). Qed.

(** [fmt.Errorf(text + ": %w", err)] *)
Definition wrap {Q A} (text : string) : comm Q string A -> comm Q string A :=
  map_error (fun e => text +:+ ": " +:+ e).

Lemma sends_only_wrap {Q A} (P : Q -> Prop) text (m : comm Q string A) :
  sends_only P m -> sends_only P (wrap text m).
Proof. apply sends_only_map_error. Qed.

#[export] Hint Resolve sends_only_lift sends_only_ret sends_only_fail sends_only_map_error sends_only_wrap
  sends_only_bind : proxy.

(** ** Addresses *)

(** The parts around the last occurrence of a character. *)
Fixpoint rcut (x : ascii) (s : string) : option (string * string) :=
  match s with
  | EmptyString => None
  | String a s' =>
      match rcut x s' with
      | Some (b, t) => Some (String a b, t)
      | None => if bool_decide (a = x) then Some ("", s') else None
      end
  end.

(** [net.SplitHostPort]; [None] is its error. *)
Definition SplitHostPort (hostport : string) : option (string * string) :=
  match rcut ":" hostport with
  | None => None
  | Some (before, port) =>
      match hostport with
      | String "["%char r =>
          match cut "]" r with
          | None => None
          | Some (host, after) =>
              if bool_decide (after = ":" +:+ port) && negb (contains r "[") && negb (contains after "]")
              then Some (host, port) else None
          end
      | _ => if contains before ":" || contains hostport "[" || contains hostport "]"
             then None else Some (before, port)
      end
  end.

(** ** Base64 *)

Definition is_byte (b : Z) : Prop := 0 <= b < 256.

Definition digit_ok (n : Z) : bool :=
  (64 <=? n) || match b64_value (b64_digit n) with Some m => m =? n | None => false end
                && negb (is_newline (b64_digit n)) && negb (code (b64_digit n) =? code pad).

Lemma b64_digit_value n : 0 <= n < 64 ->
  b64_value (b64_digit n) = Some n /\ is_newline (b64_digit n) = false /\ b64_digit n <> pad.
Proof.
  intros H. assert (digit_ok n = true) as E by (apply (byte_enum digit_ok); [by vm_compute|lia]).
  unfold digit_ok in E. rewrite (proj2 (Z.leb_gt 64 n)) in E; [|lia]. cbn [orb] in E. bool_to_prop.
  destruct (b64_value (b64_digit n)) as [m|]; [|done]. bool_to_prop. subst. split_and!; [done|done|].
  intros X. by rewrite X in H1.
Qed.

Lemma lor_shiftl x k y : 0 <= k -> 0 <= y < 2 ^ k -> Z.lor (Z.shiftl x k) y = x * 2 ^ k + y.
Proof.
  intros Hk Hy. pose proof (Z.add_lor_land (Z.shiftl x k) y) as E.
  assert (Z.land (Z.shiftl x k) y = 0) as L.
  { apply Z.bits_inj'. intros n Hn. rewrite Z.land_spec Z.bits_0.
    destruct (Z.ltb_spec n k); [by rewrite Z.shiftl_spec_low|].
    assert (Z.testbit y n = false) as ->; [|by rewrite andb_false_r].
    rewrite -(Z.mod_small y (2 ^ k)) //. apply Z.mod_pow2_bits_high. lia. }
  rewrite L Z.shiftl_mul_pow2 // in E. rewrite Z.shiftl_mul_pow2 //. lia.
Qed.

(** The three bytes of a quantum, from and to four six-bit values. *)
Lemma quantum_bits a b c : is_byte a -> is_byte b -> is_byte c ->
  let v0 := Z.shiftr a 2 in
  let v1 := Z.lor (Z.shiftl (Z.land a 3) 4) (Z.shiftr b 4) in
  let v2 := Z.lor (Z.shiftl (Z.land b 15) 2) (Z.shiftr c 6) in
  let v3 := Z.land c 63 in
  (0 <= v0 < 64 /\ 0 <= v1 < 64 /\ 0 <= v2 < 64 /\ 0 <= v3 < 64) /\
  Z.lor (Z.shiftl v0 2) (Z.shiftr v1 4) = a /\
  Z.lor (Z.shiftl (Z.land v1 15) 4) (Z.shiftr v2 2) = b /\
  Z.lor (Z.shiftl (Z.land v2 3) 6) v3 = c.
Proof.
  unfold is_byte. intros Ha Hb Hc.
  change 3 with (Z.ones 2). change 15 with (Z.ones 4). change 63 with (Z.ones 6).
  rewrite !Z.shiftr_div_pow2; [|lia..]. rewrite !Z.land_ones; [|lia..]. cbv zeta.
  change (2 ^ 2) with 4. change (2 ^ 4) with 16. change (2 ^ 6) with 64.
  assert (Z.lor (Z.shiftl (a mod 4) 4) (b / 16) = (a mod 4) * 16 + b / 16) as E1.
  { apply lor_shiftl; [lia|]. Z.to_euclidean_division_equations; lia. }
  assert (Z.lor (Z.shiftl (b mod 16) 2) (c / 64) = (b mod 16) * 4 + c / 64) as E2.
  { apply lor_shiftl; [lia|]. Z.to_euclidean_division_equations; lia. }
  rewrite E1 E2. split.
  { Z.to_euclidean_division_equations; lia. }
  split_and!; (rewrite lor_shiftl; [|lia|]); change (2 ^ 2) with 4; change (2 ^ 4) with 16;
    change (2 ^ 6) with 64; Z.to_euclidean_division_equations; lia.
Qed.

Lemma list_ind3 {A} (P : list A -> Prop) :
  P [] -> (forall a, P [a]) -> (forall a b, P [a; b]) ->
  (forall a b c l, P l -> P (a :: b :: c :: l)) -> forall l, P l.
Proof.
  intros H0 H1 H2 H3. fix IH 1. intros [|a [|b [|c l]]]; [done|done|done|]. apply H3, IH.
Qed.

Lemma sfilter_digit p n (s : string) :
  p (b64_digit n) = true -> sfilter p (String (b64_digit n) s) = String (b64_digit n) (sfilter p s).
Proof. simpl. by intros ->. Qed.

Lemma quads_roundtrip l :
  Forall is_byte l ->
  b64_decode_quads (b64_encode l) = Some l /\
  sfilter (fun c => negb (is_newline c)) (b64_encode l) = b64_encode l.
Proof.
  induction l as [|a|a b|a b c l IH] using list_ind3; intros F; [done|..];
    repeat (match goal with H : Forall _ (_ :: _) |- _ => apply Forall_cons in H as [? H] end).
  - destruct (quantum_bits a 0 0) as ((R0 & R1 & R2 & R3) & E0 & _ & _); [done..|].
    rewrite Z.shiftr_0_l Z.lor_0_r in R1, E0.
    destruct (b64_digit_value _ R0) as (V0 & N0 & _). destruct (b64_digit_value _ R1) as (V1 & N1 & _).
    cbn [b64_encode]. split.
    + cbn [b64_decode_quads]. rewrite V0 V1. cbn. by rewrite E0.
    + cbn [sfilter]. by rewrite N0 N1.
  - destruct (quantum_bits a b 0) as ((R0 & R1 & R2 & R3) & E0 & E1 & _); [done..|].
    rewrite Z.shiftr_0_l Z.lor_0_r in R2, E1.
    destruct (b64_digit_value _ R0) as (V0 & N0 & _). destruct (b64_digit_value _ R1) as (V1 & N1 & _).
    destruct (b64_digit_value _ R2) as (V2 & N2 & _). cbn [b64_encode]. split.
    + cbn [b64_decode_quads]. rewrite V0 V1 V2. cbn. by rewrite E0 E1.
    + cbn [sfilter]. by rewrite N0 N1 N2.
  - destruct (quantum_bits a b c) as ((R0 & R1 & R2 & R3) & E0 & E1 & E2); [done..|].
    destruct (b64_digit_value _ R0) as (V0 & N0 & _). destruct (b64_digit_value _ R1) as (V1 & N1 & _).
    destruct (b64_digit_value _ R2) as (V2 & N2 & _). destruct (b64_digit_value _ R3) as (V3 & N3 & _).
    destruct (IH F) as [D S]. cbn [b64_encode]. split.
    + cbn [b64_decode_quads]. rewrite V0 V1 V2 V3 D. cbn. by rewrite E0 E1 E2.
    + cbn [sfilter]. by rewrite N0 N1 N2 N3 S.
Qed.

Lemma b64_roundtrip l : Forall is_byte l -> b64_decode (b64_encode l) = Some l.
Proof. intros F. unfold b64_decode. destruct (quads_roundtrip l F) as [D ->]. done. Qed.

(** Base64 is plain ASCII. *)
Lemma b64_ascii l : Forall is_byte l -> sforall (fun c => code c <? 128) (b64_encode l) = true.
Proof.
  assert (forall n, 0 <= n < 64 -> (code (b64_digit n) <? 128) = true) as A.
  { intros n H. assert ((64 <=? n) || (code (b64_digit n) <? 128) = true) as E.
    { apply (byte_enum (fun n => (64 <=? n) || (code (b64_digit n) <? 128))); [by vm_compute|lia]. }
    by rewrite (proj2 (Z.leb_gt 64 n)) in E; [|lia]. }
  induction l as [|a|a b|a b c l IH] using list_ind3; intros F; [done|..];
    repeat (match goal with H : Forall _ (_ :: _) |- _ => apply Forall_cons in H as [? H] end); cbn [b64_encode sforall].
  - destruct (quantum_bits a 0 0) as ((R0 & R1 & _) & _); [done..|]. rewrite Z.shiftr_0_l Z.lor_0_r in R1. by rewrite !A.
  - destruct (quantum_bits a b 0) as ((R0 & R1 & R2 & _) & _); [done..|]. rewrite Z.shiftr_0_l Z.lor_0_r in R2. by rewrite !A.
  - destruct (quantum_bits a b c) as ((R0 & R1 & R2 & R3) & _); [done..|]. by rewrite !A // IH.
Qed.

Lemma bytes_of_bytes s : Forall is_byte (bytes_of s).
Proof. induction s as [|c s IH]; constructor; [apply code_range|done]. Qed.

Lemma string_of_bytes s : string_of (bytes_of s) = s.
Proof. induction s as [|c s IH]; simpl; [done|]. by rewrite chr_code IH. Qed.

(** ** Headers as JSON *)

(** A [map[string][]string] is written by name.  An empty list of values is written
    as an empty array. *)
Definition header_names (h : header) : list string := merge_sort str_le (elements (dom h)).
Definition header_json (h : header) : json :=
  JObject ((fun k => (k, JArray (JString <$> default [] (h !! k)))) <$> header_names h).
Definition omitempty (name : string) (empty : bool) (j : json) : list (string * json) := if empty then [] else [(name, j)].

(** ... and read: members are added to what the map has. *)
Definition set_member (h : option header) (kv : string * json) : option header :=
  h ← h; values ← json_set_list (snd kv) []; Some (<[fst kv := values]> h).
Definition set_headers (j : json) (old : header) : option header :=
  match j with
  | JObject l => foldl set_member (Some old) l
  | JNull => Some ∅
  | _ => None
  end.

Lemma header_names_elem h k : k ∈ header_names h <-> is_Some (h !! k).
Proof. unfold header_names. by rewrite merge_sort_Permutation elem_of_elements elem_of_dom. Qed.

Lemma json_list_printed vs : json_set_list (JArray (JString <$> vs)) [] = Some vs.
Proof. unfold json_set_list. cbn [json_slice]. induction vs as [|v vs IH]; [done|]. cbn. cbn in IH. by rewrite IH. Qed.

Lemma set_headers_printed h : set_headers (header_json h) ∅ = Some h.
Proof.
  unfold set_headers, header_json.
  assert (forall l acc, exists h', foldl set_member (Some acc)
      ((fun k => (k, JArray (JString <$> default [] (h !! k)))) <$> l) = Some h' /\
    forall k, h' !! k = if bool_decide (k ∈ l) then Some (default [] (h !! k)) else acc !! k) as G.
  { induction l as [|x l IH]; intros acc; [by exists acc|]. cbn [fmap list_fmap foldl set_member mbind option_bind fst snd].
    rewrite json_list_printed. cbn [mbind option_bind]. destruct (IH (<[x:=default [] (h !! x)]> acc)) as (h' & E & L).
    exists h'. split; [done|]. intros k. rewrite L. case_bool_decide as I; [rewrite bool_decide_eq_true_2 //; by right|].
    rewrite lookup_insert. case_decide as X; [subst; rewrite bool_decide_eq_true_2 //; by left|].
    rewrite bool_decide_eq_false_2 //. rewrite elem_of_cons. intros [?|?]; [by subst|done]. }
  destruct (G (header_names h) ∅) as (h' & -> & L). f_equal. apply map_eq. intros k. rewrite L.
  case_bool_decide as I; rewrite -> header_names_elem in I; [by destruct I as [v ->]|].
  rewrite lookup_empty. destruct (h !! k); [by destruct I|done].
Qed.
