(* ===== verification/Upgrade.v ===== *)
(** * WebSocket handshakes

    What the handlers share when they turn a request into a WebSocket: the origin
    check of [proxy/persistent_session_handler.go], and the handshake of the
    vendored [gorilla/websocket] ([Upgrader.Upgrade] with its token lists), up to
    the point where the connection is taken over. *)

From S2P Require Import Prelude GoString GoHash GoNet GoUrl GoCookie Delegation Capability Http.

(** ** Answers *)

(** An HTTP answer as a handler writes it with [http.Error]: the headers set for it,
    and the text. *)
Record http_answer := mkAnswer { an_status : Z; an_headers : list (string * string); an_text : string }.

Definition newline : string := String (ascii_of_nat 10) "".
Definition http_Error (headers : list (string * string)) (text : string) (status : Z) : http_answer :=
  mkAnswer status headers (text +:+ newline).

(** [http.Error] after an answer was already written: status and headers stay, the
    text is appended. *)
Definition http_Error_again (text : string) (a : http_answer) : http_answer :=
  mkAnswer (an_status a) (an_headers a) (an_text a +:+ text +:+ newline).

(** ** Origins *)

Definition is_bracket (c : ascii) : bool := bool_decide (c = "["%char) || bool_decide (c = "]"%char).

Definition workspaceSplitHostPort (value : string) : string * string :=
  match SplitHostPort value with
  | Some (host, port) => (trim is_bracket (to_lower host), port)
  | None => (trim is_bracket (to_lower value), "")
  end.

Definition workspaceSameHost (left right : string) : bool :=
  let '(leftHost, leftPort) := workspaceSplitHostPort left in
  let '(rightHost, rightPort) := workspaceSplitHostPort right in
  equal_fold leftHost rightHost && bool_decide (leftPort = rightPort).

Definition workspaceRequestOriginAllowed (req : request) : bool :=
  let origin := header_get (Header req) "Origin" in
  if bool_decide (origin = "") then true
  else match url_parse origin with
       | Some parsed =>
           (bool_decide (Scheme parsed = "http") || bool_decide (Scheme parsed = "https"))
           && workspaceSameHost (Host parsed) (ReqHost req)
       | None => false
       end.

Definition workspaceSameOrigin (req : request) : bool :=
  workspaceRequestOriginAllowed req.

(** ** Token lists *)

Definition is_token_octet (c : ascii) : bool :=
  is_digit c || is_upper c || is_lower c
  || existsb (fun z => code c =? z) [33; 35; 36; 37; 38; 39; 42; 43; 45; 46; 94; 95; 96; 124; 126].
Definition skipSpace : string -> string := trim_left (fun c => (code c =? 32) || (code c =? 9)).
Fixpoint nextToken (s : string) : string * string :=
  match s with
  | EmptyString => ("", "")
  | String c r => if is_token_octet c then let '(t, rest) := nextToken r in (String c t, rest) else ("", s)
  end.

(** The inner loop of [tokenListContainsValue] on one header value; a step consumes
    at least a comma, so the length of the value is fuel enough. *)
Fixpoint token_list (n : nat) (s value : string) : bool :=
  match n with
  | O => false
  | S n =>
      let '(t, s) := nextToken (skipSpace s) in
      let s := skipSpace s in
      if bool_decide (t = "") then false
      else match s with
           | EmptyString => equal_fold t value
           | String c r => if bool_decide (c = ","%char) then equal_fold t value || token_list n r value else false
           end
  end.
Definition tokenListContainsValue (h : header) (name value : string) : bool :=
  existsb (fun s => token_list (S (String.length s)) s value) (default [] (h !! name)).
Definition IsWebSocketUpgrade (req : request) : bool :=
  tokenListContainsValue (Header req) "Connection" "upgrade"
  && tokenListContainsValue (Header req) "Upgrade" "websocket".


(** ** The handshake *)

(** [isValidChallengeKey] *)
Definition isValidChallengeKey (s : string) : bool :=
  if bool_decide (s = "") then false
  else match b64_decode s with Some decoded => (length decoded =? 16)%nat | None => false end.

(** What [Hijack] returns: the writer cannot do it, it fails, or the connection is
    taken over; then whether the client sent data before the handshake ended, and
    whether the answer could be written. *)
Inductive hijack := NoHijacker | HijackFailed | Hijacked (early_data write_ok : bool).

(** The outcome: a connection, an answer, or a connection that was taken over and
    closed. *)
Inductive upgrade := Upgraded_ | Refused (a : http_answer) | Broken.

Definition statusText (status : Z) : string :=
  if status =? 400 then "Bad Request" else if status =? 403 then "Forbidden"
  else if status =? 405 then "Method Not Allowed" else "Internal Server Error".
Definition returnError (status : Z) : upgrade :=
  Refused (http_Error [("Sec-Websocket-Version", "13")] (statusText status) status).

(** [Upgrade] without response headers of its own that name extensions, and with the
    origin check given. *)
Definition Upgrade (checkOrigin : request -> bool) (hj : hijack) (r : request) : upgrade :=
  if negb (tokenListContainsValue (Header r) "Connection" "upgrade") then returnError 400
  else if negb (tokenListContainsValue (Header r) "Upgrade" "websocket") then returnError 400
  else if negb (bool_decide (Method r = "GET")) then returnError 405
  else if negb (tokenListContainsValue (Header r) "Sec-Websocket-Version" "13") then returnError 400
  else if negb (checkOrigin r) then returnError 403
  else if negb (isValidChallengeKey (header_get (Header r) "Sec-Websocket-Key")) then returnError 400
  else match hj with
       | NoHijacker | HijackFailed => returnError 500
       | Hijacked early_data write_ok => if early_data || negb write_ok then Broken else Upgraded_
       end.

(** ** Lemmas: WebSocket upgrades *)

Lemma trim_left_length f s : (String.length (trim_left f s) <= String.length s)%nat.
Proof. induction s as [|c s IH]; [done|]. cbn [trim_left String.length]. destruct (f c); simpl; lia. Qed.

Lemma nextToken_length s : (String.length (snd (nextToken s)) <= String.length s)%nat.
Proof.
  induction s as [|c s IH]; [done|]. cbn [nextToken]. destruct (is_token_octet c); [|done].
  destruct (nextToken s) as [t r]. simpl in *. lia.
Qed.

(** The fuel of [tokenListContainsValue] suffices: more of it changes nothing. *)
Lemma token_list_fuel n m s value :
  (String.length s < n)%nat -> (String.length s < m)%nat -> token_list n s value = token_list m s value.
Proof.
  revert m s. induction n as [|n IH]; intros [|m] s Hn Hm; [lia..|]. cbn [token_list].
  pose proof (trim_left_length (fun c => (code c =? 32) || (code c =? 9)) s) as L1.
  pose proof (nextToken_length (skipSpace s)) as L2. unfold skipSpace in L1, L2 |- *.
  destruct (nextToken _) as [t r]. simpl in L2.
  pose proof (trim_left_length (fun c => (code c =? 32) || (code c =? 9)) r) as L3.
  destruct (bool_decide (t = "")); [done|]. destruct (trim_left _ r) as [|c r']; [done|].
  destruct (bool_decide _); [|done]. f_equal. simpl in L3. apply IH; lia.
Qed.


(** A handshake succeeds exactly for a GET request that asks for a WebSocket of
    version 13 from an allowed origin with a well-formed key, on a connection that
    can be taken over. *)
Lemma Upgrade_iff checkOrigin hj r :
  Upgrade checkOrigin hj r = Upgraded_ <->
  IsWebSocketUpgrade r = true /\ Method r = "GET" /\
  tokenListContainsValue (Header r) "Sec-Websocket-Version" "13" = true /\ checkOrigin r = true /\
  isValidChallengeKey (header_get (Header r) "Sec-Websocket-Key") = true /\ hj = Hijacked false true.
Proof.
  unfold Upgrade, IsWebSocketUpgrade. rewrite andb_true_iff.
  destruct (tokenListContainsValue _ "Connection" _); simpl; [|naive_solver].
  destruct (tokenListContainsValue _ "Upgrade" _); simpl; [|naive_solver].
  destruct (bool_decide (Method r = "GET")) eqn:M; bool_to_prop; [|naive_solver]. simpl.
  destruct (tokenListContainsValue _ _ "13"); simpl; [|naive_solver].
  destruct (checkOrigin r); simpl; [|naive_solver].
  destruct (isValidChallengeKey _); simpl; [|naive_solver].
  destruct hj as [| |[] []]; simpl; naive_solver.
Qed.

(** A refused handshake is answered with an error status. *)
Lemma Upgrade_refused checkOrigin hj r a :
  Upgrade checkOrigin hj r = Refused a ->
  an_status a = 400 \/ an_status a = 403 \/ an_status a = 405 \/ an_status a = 500.
Proof.
  unfold Upgrade, returnError. repeat case_match; intros [=]; subst; simpl; tauto.
Qed.
