(* ===== verification/Frontend.v ===== *)
(** * The WebSocket frontend and the backend endpoint

    Models [proxy/frontend_handler.go] (authentication of stream requests and the
    relay between a client WebSocket and a stream of the multiplexer) and
    [proxy/backend_handler.go] (authentication of hosts).  Ticket parsing, the
    engine and the clock are parameters; the host side is any [backendProxy]. *)

From S2P Require Import Prelude GoString GoHash GoNet GoUrl GoCookie Message Multiplexer Backend Delegation Capability Http Upgrade Session.

(** ** Reading the ticket of a request *)

Section Tokens.
Context (jwt_parse : bool -> string -> Z -> result jwt_error jwtToken).

(** The bearer token of the [Authorization] header, else the [token] parameter. *)
Definition request_token (req : request) : string :=
  let authHeader := header_get (Header req) "Authorization" in
  let bearer :=
    if bool_decide (authHeader = "") then ""
    else match fields authHeader with
         | [scheme; t] => if equal_fold "bearer" scheme then t else ""
         | _ => ""
         end in
  if bool_decide (bearer = "") then query_get "token" (url_query (URL req)) else bearer.

(** [parseToken]: the second component is the token string returned with an
    error (empty when there was none to parse). *)
Definition parseToken (req : request) (key : public_key) : result jwt_error jwtToken * string :=
  let tokenString := request_token req in
  if bool_decide (tokenString = "") then (Err TokenInvalid, "")
  else if negb (length (split tokenString ".") =? 3)%nat then (Err TokenInvalid, "")
  else (parseSignedJWT jwt_parse tokenString key, tokenString).
End Tokens.

(** ** Authentication of a stream request *)

Definition streamErrorCodeHeader : string := "X-PastureStack-Stream-Error-Code".
Definition wsProto : string := "Sec-Websocket-Protocol".
Definition wsProtoBinary : string := "binary".

Inductive auth_error :=
| NoAuth                                    (* [noAuthError] *)
| BadToken                                  (* unparsable or invalid ticket *)
| Denied                                    (* [delegation.ErrDenied] *)
| Expired (f : denialFailure)               (* [errDelegationExpired] *)
| RouteDenied (f : denialFailure)           (* [errDelegationRouteDenied] *)
| CapabilityMissing (f : backendCapabilityFailure)
| NoHost.                                   (* no such host *)

Definition IsNoAuthError (e : auth_error) : bool := match e with NoAuth => true | _ => false end.

(** What the environment supplies during one call of [auth]: the random bytes of
    the two denial lanes and the readings of the clock, in seconds. *)
Record auth_env := mkEnv {
  route_nonce : option (list Z); audit_nonce : option (list Z);
  check_now1 : Z; check_now2 : Z; audit_now : Z }.

Section Auth.
Context {B : Type} `{BP : backendProxy B}.
Context (jwt_parse : bool -> string -> Z -> result jwt_error jwtToken)
  (post : string -> string -> option response).

Record FrontendHandler := mkFrontend {
  parsedPublicKey : public_key;
  delegations : option Verifier;
  failures : option Verifier }.

Definition auth (h : FrontendHandler) (env : auth_env) (b : B) (req : request)
  : result auth_error (jwtToken * string) :=
  let audit raw := expiredDelegationAudit jwt_parse (audit_now env) (audit_nonce env) raw (parsedPublicKey h) in
  let '(parsed, tokenParam) := parseToken jwt_parse req (parsedPublicKey h) in
  match parsed with
  | Err e =>
      let lane := match e with TokenExpired => audit tokenParam | TokenInvalid => None end in
      match lane with
      | Some f => Err (Expired f)
      | None => if bool_decide (tokenParam = "") then Err NoAuth else Err BadToken
      end
  | Ok token =>
      if negb (Valid token) then Err BadToken
      else match streamGrant (Some token) with
      | Err _ => Err Denied
      | Ok (Some grant) =>
          match checkStreamRoute jwt_parse (route_nonce env) token (Some grant) (Path (URL req))
                  (parsedPublicKey h) with
          | Some f => Err (RouteDenied f)
          | None =>
              if negb (Check post (delegations h) (check_now1 env) (check_now2 env)
                         (Raw token) (Some grant))
              then match audit (Raw token) with
                   | Some f => Err (Expired f)
                   | None => Err Denied
                   end
              else match as_string (field (Payload grant) "hostUuid") with
                   | Some hostUUID =>
                       if bp_hasBackend b hostUUID
                       then match requireKeyBackend (Some (bp_supportsKeyTraces b)) token hostUUID with
                            | Some f => Err (CapabilityMissing f)
                            | None => Ok (token, hostUUID)
                            end
                       else Err Denied
                   | None => Err Denied
                   end
          end
      | Ok None =>
          match stringClaim (Some token) "hostUuid" with
          | Some hostUUID =>
              if bp_hasBackend b hostUUID
              then match requireKeyBackend (Some (bp_supportsKeyTraces b)) token hostUUID with
                   | Some f => Err (CapabilityMissing f)
                   | None => Ok (token, hostUUID)
                   end
              else Err NoHost
          | None => Err NoHost
          end
      end
  end.

(** What is reported of a failed authentication: status and error code. *)
Definition auth_failure (h : FrontendHandler) (b : B) (start : Z) (clock : nat -> Z) (e : auth_error)
  : Z * string :=
  let ticket := Some (bp_backendTicket b) in
  match e with
  | Expired f => reportExpiredDenial post ticket (failures h) start clock (Some f)
  | RouteDenied f => reportRouteDenial post ticket (failures h) start clock (Some f)
  | CapabilityMissing f => (503, reportCapabilityError post ticket (failures h) (Some f))
  | NoAuth | BadToken | Denied | NoHost => (401, "")
  end.

(** [writeExpiredDenial], [writeRouteDenial]: the code in three places, and not to be
    cached; [writeBackendAuditUnavailable]. *)
Definition write_denial (report : Z * string) : http_answer :=
  let '(status, code) := report in
  http_Error [(streamErrorCodeHeader, code); ("X-Api-Error-Code", code); ("Cache-Control", "no-store")] code status.
Definition writeExpiredDenial (h : FrontendHandler) (b : B) (start : Z) (clock : nat -> Z) (f : denialFailure)
  : http_answer :=
  write_denial (reportExpiredDenial post (Some (bp_backendTicket b)) (failures h) start clock (Some f)).
Definition writeRouteDenial (h : FrontendHandler) (b : B) (start : Z) (clock : nat -> Z) (f : denialFailure)
  : http_answer :=
  write_denial (reportRouteDenial post (Some (bp_backendTicket b)) (failures h) start clock (Some f)).
Definition writeBackendAuditUnavailable (code : string) : http_answer :=
  http_Error [(streamErrorCodeHeader, code)] code 503.

Definition write_auth_failure (h : FrontendHandler) (b : B) (start : Z) (clock : nat -> Z) (e : auth_error)
  : http_answer :=
  match e with
  | Expired f => writeExpiredDenial h b start clock f
  | RouteDenied f => writeRouteDenial h b start clock f
  | CapabilityMissing f => writeBackendAuditUnavailable
      (reportCapabilityError post (Some (bp_backendTicket b)) (failures h) (Some f))
  | NoAuth | BadToken | Denied | NoHost => http_Error [] "Failed authentication" 401
  end.

(** ** The relay *)

(** Messages of the client's WebSocket. *)
Inductive ws_message := TextMessage (data : string) | BinaryMessage (data : string) | OtherMessage.

(** What the reply goroutine does with the WebSocket. *)
Inductive ws_action :=
| WsWrite (m : ws_message)
| WsClose (frames : list (Z * string)).     (* close frames, then [ws.Close] *)

Definition normal_close : list (Z * string) := [(CloseNormalClosure, "")].

(** One message of the response channel; the goroutine keeps reading until the
    channel is closed.  [write_ok] tells whether the write succeeds. *)
Definition reply (binary write_ok : bool) (m : Message) : list ws_action :=
  if bool_decide (Type_ m = Body) then
    if binary then
      match b64_decode (Body_ m) with
      | None => [WsClose normal_close]
      | Some data => WsWrite (BinaryMessage (string_of data)) :: if write_ok then [] else [WsClose normal_close]
      end
    else WsWrite (TextMessage (Body_ m)) :: if write_ok then [] else [WsClose normal_close]
  else if bool_decide (Type_ m = Close) then
    [WsClose (closeForBackendOutcome (Body_ m) ++ normal_close)]
  else [].

Definition replies (binary : bool) (write_ok : nat -> bool) (l : list Message) : list ws_action :=
  concat (imap (fun i m => reply binary (write_ok i) m) l) ++ [WsClose normal_close].

(** The data sent to the host for one client message. *)
Definition forward (binary : bool) (m : ws_message) : option string :=
  match m with
  | TextMessage d | BinaryMessage d => Some (if binary then b64_encode (bytes_of d) else d)
  | OtherMessage => None
  end.

(** The read loop: until a read error (the end of the list) or a failed send. *)
Fixpoint forward_loop (binary : bool) (host key : string) (l : list ws_message) (b : B) : B :=
  match l with
  | [] => b
  | m :: l =>
      match forward binary m with
      | None => forward_loop binary host key l b
      | Some data =>
          let '(b, ok) := bp_send b host key data in
          if ok then forward_loop binary host key l b else b
      end
  end.

(** The stream part of [ServeHTTP], after the upgrade: register, connect, relay,
    and the deferred close; the close frames it writes itself. *)
Definition serveStream (h : FrontendHandler) (binary : bool) (host url uuid : string) (token : jwtToken)
  (incoming : list ws_message) (b : B) : B * list (Z * string) :=
  let denied_frames e b :=
    match e with
    | BackendAuditCapability =>
        closeForBackendOutcome
          (reportBackendFailure post (Some (bp_backendTicket b)) (failures h) (Raw token) host +:+ ":503")
    | _ => []
    end in
  let '(b, r) := bp_initializeForURL b host url uuid in
  match r with
  | Err e => (b, denied_frames e b ++ normal_close ++ normal_close)
  | Ok key =>
      let '(b, r) := bp_connect b host key url in
      match r with
      | Ok _ => (fst (bp_closeConnection (forward_loop binary host key incoming b) host key), normal_close)
      | Err e => (fst (bp_closeConnection b host key), denied_frames e b ++ normal_close)
      end
  end.

(** What the client of a WebSocket endpoint gets: an answer, a connection closed
    during the handshake, or the WebSocket, with the close frames at its end. *)
Inductive stream_end := Answered (a : http_answer) | Dropped | Streamed (frames : list (Z * string)).

(** The whole handler.  The list of client messages ends where [ReadMessage] fails,
    which the watcher of a delegated ticket brings about by closing the
    WebSocket. *)
Definition serveFrontend

  (h : FrontendHandler) (env : auth_env) (begin : Z) (clock : nat -> Z) (hj : hijack) (uuid : string)
  (incoming : list ws_message) (req : request) (b : B) : B * stream_end :=
  match auth h env b req with
  | Err e => (b, Answered (write_auth_failure h b begin clock e))
  | Ok (token, host) =>
      match Upgrade workspaceSameOrigin hj req with
      | Refused a => (b, Answered (http_Error_again "Failed to upgrade connection." a))
      | Broken => (b, Dropped)
      | Upgraded_ =>
          let binary := equal_fold (header_get (Header req) wsProto) wsProtoBinary in
          let requestURL := keyRequestURL (URL req) token in
          let '(b, frames) := serveStream h binary host requestURL uuid token incoming b in
          (b, Streamed frames)
      end
  end.
End Auth.

(** ** The backend endpoint *)

Section BackendHandler.
Context (jwt_parse : bool -> string -> Z -> result jwt_error jwtToken).

(** [authTicket] of [backend_handler.go]: host key and connection ticket. *)
Definition authTicket (key : public_key) (req : request) : option (string * string) :=
  let '(parsed, tokenParam) := parseToken jwt_parse req key in
  match parsed with
  | Err _ => None
  | Ok token =>
      if negb (Valid token) then None
      else match claimValue (Some token) "reportedUuid" with
           | None => None
           | Some v => match as_string v with
                       | Some hostKey => if bool_decide (hostKey = "") then None else Some (hostKey, tokenParam)
                       | None => None
                       end
           end
  end.

(** [ServeHTTP] of [BackendHandler]: the status it answers with when it does not
    upgrade, or the manager with the new backend; [session] is the identifier
    drawn for the connection. *)
Definition serveBackend (key : public_key) (req : request) (hj : hijack)
  (session : string) (w : world) : world * stream_end :=
  match authTicket key req with
  | None => (w, Answered (http_Error [] "Failed authentication" 401))
  | Some (hostKey, backendToken) =>
      match Upgrade workspaceSameOrigin hj req with
      | Refused a => (w, Answered (http_Error_again "Failed to upgrade connection." a))
      | Broken => (w, Dropped)
      | Upgraded_ => (addBackendWithKeyCapabilities hostKey
                        (declaredKeyCapabilities (RawQuery (URL req))) backendToken session w, Streamed [])
      end
  end.

(** [auth] of [backend_handler.go]. *)
Definition backend_auth (key : public_key) (req : request) : option string := fst <$> authTicket key req.
End BackendHandler.

(** ** Properties *)

Section FrontendProps.
Context {B : Type} `{BP : backendProxy B}.
Context (jwt_parse : bool -> string -> Z -> result jwt_error jwtToken)
  (post : string -> string -> option response).

Lemma parseToken_Ok req key token param :
  parseToken jwt_parse req key = (Ok token, param) ->
  param = request_token req /\ param <> "" /\
  parseSignedJWT jwt_parse param key = Ok token.
Proof.
  unfold parseToken. case_bool_decide; [done|]. destruct (negb _); [done|]. intros [= E <-]. done.
Qed.

Lemma parseSignedJWT_guards s key token :
  parseSignedJWT jwt_parse s key = Ok token ->
  exists bits, key = RSAPublicKey bits /\ minRSAKeyBits <= bits /\ 0 < go_len s <= maxJWTBytes /\
    jwt_parse true s bits = Ok token.
Proof.
  unfold parseSignedJWT, parseJWTSignature. case_bool_decide as E; [done|].
  destruct (_ <? _) eqn:L; [done|]. destruct key as [bits|]; [|done]. destruct (bits <? _) eqn:Bt; [done|].
  bool_to_prop. intros H. exists bits. apply go_len_pos in E. split_and!; [done|lia..|done].
Qed.

Lemma requireKeyBackend_None capable token host :
  requireKeyBackend (Some capable) token host = None -> isKeyTrace (Some token) = true -> capable host = true.
Proof. unfold requireKeyBackend. intros H K. rewrite K in H. simpl in H. by destruct (capable host). Qed.

(** C30: A stream request is authenticated only if it presents a ticket, of at most
    16 KiB, whose RS256 signature verifies under an RSA key of at least 2048
    bits; the host it is given is the one named in the signed claims, is
    connected, and supports audit traces if the ticket is a key ticket.  A
    delegated ticket is accepted only on a path its grant allows and after the
    engine confirmed it live. *)
Theorem auth_sound h env (b : B) req token host :
  auth jwt_parse post h env b req = Ok (token, host) ->
  (exists bits, parsedPublicKey h = RSAPublicKey bits /\ minRSAKeyBits <= bits /\
     0 < go_len (request_token req) <= maxJWTBytes /\
     jwt_parse true (request_token req) bits = Ok token) /\
  Valid token = true /\ bp_hasBackend b host = true /\
  (isKeyTrace (Some token) = true -> bp_supportsKeyTraces b host = true) /\
  ((streamGrant (Some token) = Ok None /\ stringClaim (Some token) "hostUuid" = Some host) \/
   (exists g, streamGrant (Some token) = Ok (Some g) /\ AllowsPath g (Path (URL req)) = true /\
      as_string (field (Payload g) "hostUuid") = Some host /\
      Check post (delegations h) (check_now1 env) (check_now2 env) (Raw token) (Some g) = true)).
Proof.
  unfold auth. destruct (parseToken _ _ _) as [[tok|e] param] eqn:P;
    [|repeat case_match; done].
  apply parseToken_Ok in P as (-> & _ & P). apply parseSignedJWT_guards in P.
  destruct (Valid tok) eqn:V; [|done]. cbn [negb].
  destruct (streamGrant (Some tok)) as [[g|]|] eqn:G; [| |done].
  - destruct (checkStreamRoute _ _ _ _ _ _) eqn:R; [done|].
    destruct (Check _ _ _ _ _ _) eqn:C; cbn [negb]; [|repeat case_match; done].
    destruct (as_string _) as [hu|] eqn:Hh; [|done]. destruct (bp_hasBackend b hu) eqn:Hb; [|done].
    destruct (requireKeyBackend _ tok hu) eqn:K; [done|]. intros [= <- <-].
    split_and!; try done; [by apply (requireKeyBackend_None _ tok hu)|]. right. exists g. split_and!; try done.
    unfold checkStreamRoute in R. by repeat case_match.
  - destruct (stringClaim _ _) as [hu|] eqn:Hh; [|done]. destruct (bp_hasBackend b hu) eqn:Hb; [|done].
    destruct (requireKeyBackend _ tok hu) eqn:K; [done|]. intros [= <- <-].
    split_and!; try done; [by apply (requireKeyBackend_None _ tok hu)|by left].
Qed.

Lemma parseToken_accepts req bits token :
  minRSAKeyBits <= bits -> length (split (request_token req) ".") = 3%nat -> go_len (request_token req) <= maxJWTBytes ->
  jwt_parse true (request_token req) bits = Ok token ->
  parseToken jwt_parse req (RSAPublicKey bits) = (Ok token, request_token req).
Proof.
  intros Bt Sp L P. unfold parseToken, parseSignedJWT, parseJWTSignature. rewrite Sp.
  assert (request_token req <> "") as N by by (intros N; rewrite N in Sp).
  rewrite (bool_decide_eq_false_2 (request_token req = "")) //. cbn [Nat.eqb negb].
  by rewrite (proj2 (Z.ltb_ge _ _)) // (proj2 (Z.ltb_ge _ _)) // P.
Qed.

(** C31: Authentication is complete: a request whose token has three parts and at most
    16 KiB and parses, under a key of at least 2048 bits, to a valid ticket is
    authenticated for the host the ticket names, if that host is connected and,
    for a key ticket, supports audit traces.  A ticket without delegation names
    its host in its claims and is accepted on every path; a delegated ticket names
    it in its grant and is accepted on the paths the grant allows while the engine
    confirms it. *)
Theorem auth_complete h env (b : B) req bits token host :
  parsedPublicKey h = RSAPublicKey bits -> minRSAKeyBits <= bits ->
  length (split (request_token req) ".") = 3%nat -> go_len (request_token req) <= maxJWTBytes ->
  jwt_parse true (request_token req) bits = Ok token -> Valid token = true ->
  bp_hasBackend b host = true ->
  (isKeyTrace (Some token) = true -> bp_supportsKeyTraces b host = true) ->
  ((streamGrant (Some token) = Ok None /\ stringClaim (Some token) "hostUuid" = Some host) \/
   (exists g, streamGrant (Some token) = Ok (Some g) /\ AllowsPath g (Path (URL req)) = true /\
      as_string (field (Payload g) "hostUuid") = Some host /\
      Check post (delegations h) (check_now1 env) (check_now2 env) (Raw token) (Some g) = true)) ->
  auth jwt_parse post h env b req = Ok (token, host).
Proof.
  intros K Bt Sp L P V Hb Kt G. unfold auth. rewrite K (parseToken_accepts _ _ _ Bt Sp L P) V. cbn [negb].
  assert (requireKeyBackend (Some (bp_supportsKeyTraces b)) token host = None) as R.
  { unfold requireKeyBackend. destruct (isKeyTrace (Some token)); [|done]. by rewrite Kt. }
  destruct G as [[-> ->]|(g & -> & Ap & Hu & C)]; [by rewrite Hb R|].
  unfold checkStreamRoute. by rewrite Ap C Hu Hb R.
Qed.

(** The relay is transparent: whatever bytes a client sends on a binary stream
    reach the host as one base64 message, and a host that sends that message back
    makes the client receive exactly those bytes; text passes unchanged. *)
Theorem relay_transparent (binary : bool) key (data : string) :
  exists wire, forward binary (if binary then BinaryMessage data else TextMessage data) = Some wire /\
    reply binary true (mkMessage key Body wire) =
      [WsWrite (if binary then BinaryMessage data else TextMessage data)].
Proof.
  destruct binary; eexists; (split; [done|]); unfold reply; simpl; [|done].
  by rewrite (b64_roundtrip _ (bytes_of_bytes data)) string_of_bytes.
Qed.

Lemma forward_loop_open binary host key l (b : B) h k :
  bp_open (forward_loop binary host key l b) h k = bp_open b h k.
Proof.
  revert b. induction l as [|m l IH]; intros b; simpl; [done|].
  destruct (forward binary m) as [data|]; [|apply IH].
  destruct (bp_send b host key data) as [b' ok] eqn:E. apply bp_send_law with (h := h) (k := k) in E.
  destruct ok; [by rewrite IH|done].
Qed.

(** A stream that was registered for a client is closed on its host however the
    handler returns: after a refused connect, after any sequence of client
    messages, or after a failed send. *)
Theorem stream_always_released h binary host url_ uuid token incoming (b b1 : B) key :
  bp_initializeForURL b host url_ uuid = (b1, Ok key) ->
  bp_open b1 host key = true /\
  bp_open (fst (serveStream post h binary host url_ uuid token incoming b)) host key = false.
Proof.
  intros E. split; [by eapply bp_initialize_law|]. unfold serveStream. rewrite E.
  destruct (bp_connect b1 host key url_) as [b2 [|e]]; simpl;
    destruct (bp_closeConnection _ host key) as [b3 ok] eqn:C; by apply bp_close_law in C.
Qed.
End FrontendProps.

Section BackendProps.
Context (jwt_parse : bool -> string -> Z -> result jwt_error jwtToken).

(** A host connection is registered only under the non-empty host identifier
    of a verified ticket, with the capabilities its request declares and the
    ticket it presented, and only by a WebSocket handshake from no foreign origin;
    any other request leaves the manager untouched. *)
Theorem backend_registered_authenticated key req hj session w w' out :
  serveBackend jwt_parse key req hj session w = (w', out) ->
  match out with
  | Streamed _ =>
    exists token host bits, key = RSAPublicKey bits /\ minRSAKeyBits <= bits /\
      jwt_parse true (request_token req) bits = Ok token /\ Valid token = true /\
      claimValue (Some token) "reportedUuid" = Some (AString host) /\ host <> "" /\
      Upgrade workspaceSameOrigin hj req = Upgraded_ /\
      w' = addBackendWithKeyCapabilities host (declaredKeyCapabilities (RawQuery (URL req)))
             (request_token req) session w
  | Answered _ | Dropped => w' = w
  end.
Proof.
  unfold serveBackend, authTicket.
  destruct (parseToken _ _ _) as [[tok|e] param] eqn:P; [|by intros [= <- <-]].
  destruct (Valid tok) eqn:V; [|by intros [= <- <-]]. cbn [negb].
  destruct (claimValue _ _) as [v|] eqn:C; [|by intros [= <- <-]].
  destruct (as_string v) as [host|] eqn:A; [|by intros [= <- <-]].
  case_bool_decide as Hn; [by intros [= <- <-]|].
  destruct (Upgrade _ _ _) eqn:U; intros [= <- <-]; [|done|done].
  apply parseToken_Ok in P as (-> & _ & P). apply parseSignedJWT_guards in P as (bits & -> & Hb & _ & J).
  apply as_string_Some in A as ->. by exists tok, host, bits.
Qed.
End BackendProps.

(** ** Witnesses *)

Module FrontendDemo.
#[export] Instance demo_backend : backendProxy world := manager_backendProxy Demo.keyURL.

(** Ticket [h.o.s] names host [host], ticket [b.c.k] is a host's own. *)
Definition tickets (validate : bool) (raw : string) (bits : Z) : result jwt_error jwtToken :=
  if bool_decide (raw = "h.o.s") then Ok (mkToken raw true (Some {["hostUuid":=AString "host"]}))
  else if bool_decide (raw = "b.c.k") then Ok (mkToken raw true (Some {["reportedUuid":=AString "new"]}))
  else Err TokenInvalid.
Definition no_engine (endpoint body : string) : option response := None.

(** The headers of a WebSocket handshake. *)
Definition handshake : header :=
  {["Connection" := ["keep-alive, Upgrade"]; "Upgrade" := ["websocket"]; "Sec-Websocket-Version" := ["13"];
    "Sec-Websocket-Key" := ["dGhlIHNhbXBsZSBub25jZQ=="]]}.
Definition taken_over : hijack := Hijacked false true.
Definition bearer (t : string) : request :=
  mkRequest "GET" (path_url "/v1/exec") "proxy" "10.0.0.1:1234"
    (header_set "Authorization" ("Bearer " +:+ t) handshake) None ∅.
Definition handler : FrontendHandler := mkFrontend (RSAPublicKey 2048) None None.
Definition env : auth_env := mkEnv None None 0 0 0.
End FrontendDemo.
Import FrontendDemo.

Lemma auth_sound_witness :
  auth tickets no_engine handler env Demo.w1 (bearer "h.o.s")
    = Ok (mkToken "h.o.s" true (Some {["hostUuid":=AString "host"]}), "host") /\
  bp_hasBackend Demo.w1 "host" = true.
Proof.
  assert (auth tickets no_engine handler env Demo.w1 (bearer "h.o.s")
    = Ok (mkToken "h.o.s" true (Some {["hostUuid":=AString "host"]}), "host")) as E by by vm_compute.
  split; [done|].
  destruct (auth_sound tickets no_engine handler env Demo.w1 (bearer "h.o.s") _ _ E)
    as (_ & _ & H & _). exact H.
Defined.

Lemma auth_complete_witness :
  auth tickets no_engine handler env Demo.w1 (bearer "h.o.s")
    = Ok (mkToken "h.o.s" true (Some {["hostUuid":=AString "host"]}), "host").
Proof.
  apply (auth_complete tickets no_engine handler env Demo.w1 (bearer "h.o.s") 2048); try by vm_compute.
  left. by vm_compute.
Defined.

Lemma stream_always_released_witness :
  bp_open (fst (serveStream no_engine handler true "host" "/v1/exec" "k9"
    (mkToken "h.o.s" true None) [BinaryMessage "ls"; OtherMessage] Demo.w1)) "host" "k9" = false.
Proof.
  refine (proj2 (stream_always_released no_engine handler true "host" "/v1/exec" "k9"
    (mkToken "h.o.s" true None) [BinaryMessage "ls"; OtherMessage] Demo.w1
    (fst (bp_initializeForURL Demo.w1 "host" "/v1/exec" "k9")) "k9" _)).
  by vm_compute.
Defined.

Lemma backend_registered_authenticated_witness :
  let r := serveBackend tickets (RSAPublicKey 2048) (bearer "b.c.k") taken_over "s2" Demo.w1 in
  hasBackend "new" (fst r) = true /\
  exists host, fst r = addBackendWithKeyCapabilities host false "b.c.k" "s2" Demo.w1.
Proof.
  intros r. split; [by vm_compute|].
  pose proof (backend_registered_authenticated tickets (RSAPublicKey 2048) (bearer "b.c.k") taken_over
    "s2" Demo.w1 (fst r) (snd r) (surjective_pairing _)) as H.
  assert (snd r = Streamed []) as E by by vm_compute. rewrite E in H.
  destruct H as (tok & host & bits & _ & _ & _ & _ & _ & _ & _ & Ew). exists host. exact Ew.
Defined.

(** The same request from another site. *)
Example foreign_origin_refused :
  let req := bearer "b.c.k" in
  let r := serveBackend tickets (RSAPublicKey 2048)
             (set_header (header_set "Origin" "https://evil" (Header req)) req) taken_over "s2" Demo.w1 in
  match snd r with Answered a => an_status a = 403 | _ => False end /\ hasBackend "new" (fst r) = false.
Proof. by vm_compute. Qed.
