(* ===== verification/TokenLookup.v ===== *)
(** * The service proxy token cache

    Models [proxy/token.go]: the bounded token cache, its key, and the request
    for a service proxy token to the control platform.  The JSON reply and
    the HTTP exchange are parameters; the iteration order of Go's map is an
    argument of the operation that depends on it. *)

From S2P Require Import Prelude GoString GoHash GoNet GoUrl GoCookie GoJson Message Delegation Capability Http.

Definition defaultService : string := "swarm:2375".
Definition maxServiceProxyResponseBytes : Z := Z.shiftl 1 20.
Definition tokenCacheTTL : Z := 30 * 10 ^ 9.
Definition maxTokenCacheEntries : Z := 4096.
Definition projectHeader : string := "X-API-Project-Id".

(** ** The cache *)

Record tokenCacheEntry := mkCacheEntry { ce_token : string; expiresAt : Z }.

#[export] Instance tokenCacheEntry_eq_dec : EqDecision tokenCacheEntry.
Proof. solve_decision. Defined.

Abbreviation entries := (gmap string tokenCacheEntry).

(** [newTokenCache] *)
Definition newTokenCache : entries := ∅.

(** One iteration of the loop of [set] over [existingKey, entry]. *)
Definition sweep_step (now : Z) (acc : entries * (string * Z)) (ke : string * tokenCacheEntry)
  : entries * (string * Z) :=
  let '(m, (earliestKey, earliestExpiry)) := acc in
  let '(existingKey, entry) := ke in
  if expiresAt entry <=? now then (delete existingKey m, (earliestKey, earliestExpiry))
  else if bool_decide (earliestKey = "") || (expiresAt entry <? earliestExpiry)
       then (m, (existingKey, expiresAt entry)) else acc.

Definition sweep (now : Z) (order : list (string * tokenCacheEntry)) (m : entries) : entries * (string * Z) :=
  fold_left (sweep_step now) order (m, ("", 0)).

(** [set]; [order] is the order in which the loop visits the map. *)
Definition set (ttl now : Z) (order : list (string * tokenCacheEntry)) (key token : string) (m : entries)
  : entries :=
  let '(m, (earliestKey, _)) := sweep now order m in
  let m := match m !! key with
           | None => if maxTokenCacheEntries <=? Z.of_nat (size m) then delete earliestKey m else m
           | Some _ => m
           end in
  <[key:=mkCacheEntry token (now + ttl)]> m.

Definition get (now : Z) (key : string) (m : entries) : entries * option string :=
  match m !! key with
  | None => (m, None)
  | Some e => if expiresAt e <=? now then (delete key m, None) else (m, Some (ce_token e))
  end.

(** ** The cache key *)

Definition writeHeader (key : string) (r : request) : string := key +:+ header_get (Header r) key.

(** What [genKey] feeds to the hash, in order. *)
Definition key_material (r : request) : string :=
  writeHeader "Authorization" r +:+ writeHeader projectHeader r +:+
  "project" +:+ default "" (Vars r !! "project") +:+
  "service" +:+ default "" (Vars r !! "service") +:+
  "token" +:+ match cookie "token" r with Some c => cookie_String c | None => "" end +:+
  match PeerCommonNames r with Some [cn] => cn | _ => "" end.

Definition genKey (r : request) : string := hex (sha256 (key_material r)).

(** ** The control platform *)

Definition unwrapAuth (auth : string) : string :=
  if negb (has_prefix auth "Bearer ") then auth
  else match b64_decode (sdrop 7 auth) with
       | Some tmp => if (length (split (string_of tmp) " ") =? 2)%nat then string_of tmp else auth
       | None => auth
       end.

Record ServiceProxyRequest := mkProxyRequest { Service : string; Port : Z; SvcScheme : string }.

(** The request sent to the platform: its body, whether it carries the proxy's own
    credentials and for which client, else the client's. *)
Inductive credentials :=
| ForCertificate (commonName : string)
| ForClient (authorization project : string) (token_cookie : option string).

Record platform_request := mkPlatformRequest { pr_body : string; pr_auth : credentials }.

(** The JSON of the request, and the token of the answer. *)
Definition marshal_proxy_request (r : ServiceProxyRequest) : string :=
  json_print (JObject [("service", JString (Service r)); ("port", JNumber (itoa (Port r))); ("scheme", JString (SvcScheme r))]).
Definition decode_token (data : string) : option string :=
  json_parse data ≫= json_struct (fun token key j => if field_is "token" key then json_set_string j token else Some token) "".

Inductive lookup_error :=
| EmptyService | BadPort | PortRange | Transport | Unauthorized | HTTPError (status : Z)
| TooLarge | BadJSON | BadProxyToken.

Definition parse_service (r : request) : result lookup_error ServiceProxyRequest :=
  let service := default defaultService (Vars r !! "service") in
  match split_n service ":" 2 with
  | name :: more =>
      if bool_decide (name = "") then Err EmptyService
      else match more with
           | [] => Ok (mkProxyRequest name 80 "http")
           | p :: _ =>
               match parse_int p with
               | None => Err BadPort
               | Some port =>
                   if (port <? 1) || (65535 <? port) then Err PortRange
                   else Ok (mkProxyRequest name port (if port =? 443 then "https" else "http"))
               end
           end
  | [] => Err EmptyService
  end.

Definition platform_credentials (r : request) : credentials :=
  match PeerCommonNames r with
  | Some (cn :: _) => ForCertificate cn
  | _ => ForClient (unwrapAuth (header_get (Header r) "Authorization"))
           (default (header_get (Header r) projectHeader) (Vars r !! "project")) (cookie_text <$> cookie "token" r)
  end.

(** [callPlatform]; [exchange] is the HTTP exchange: a status and a body, whose
    [None] is a read error. *)
Definition callPlatform (exchange : platform_request -> option (Z * option string)) (r : request)
  : result lookup_error string :=
  body ← parse_service r;
  match exchange (mkPlatformRequest (marshal_proxy_request body) (platform_credentials r)) with
  | None => Err Transport
  | Some (status, responseBody) =>
      if status =? 401 then Err Unauthorized
      else if 400 <=? status then Err (HTTPError status)
      else match stake (Z.to_nat (maxServiceProxyResponseBytes + 1)) <$> responseBody with
           | None => Err Transport
           | Some data =>
               if maxServiceProxyResponseBytes <? go_len data then Err TooLarge
               else match decode_token data with
                    | None => Err BadJSON
                    | Some t => if bool_decide (t = "") || (maxJWTBytes <? go_len t)
                                then Err BadProxyToken else Ok t
                    end
           end
  end.

(** [getFromCache]: the key, and the token or nothing. *)
Definition getFromCache (now : Z) (r : request) (m : entries) : entries * (string * string) :=
  let '(m, cached) := get now (genKey r) m in (m, (genKey r, default "" cached)).

(** [Lookup]; [now_get] and [now_set] are the two readings of the clock. *)
Definition Lookup (now_get now_set : Z) (order : entries -> list (string * tokenCacheEntry))
  (exchange : platform_request -> option (Z * option string)) (r : request) (m : entries)
  : entries * result lookup_error string :=
  let '(m, (cacheKey, token)) := getFromCache now_get r m in
  if negb (bool_decide (token = "")) then (m, Ok token)
  else match callPlatform exchange r with
       | Err e => (m, Err e)
       | Ok token =>
           if negb (bool_decide (token = ""))
           then (set tokenCacheTTL now_set (order m) cacheKey token m, Ok token) else (m, Ok token)
       end.

(** ** Lemmas: the sweep *)

Definition live (now : Z) (m : entries) : entries := filter (fun ke => now < expiresAt (snd ke)) m.

Lemma sweep_map now order (m : entries) ek ee k e :
  fst (fold_left (sweep_step now) order (m, (ek, ee))) !! k = Some e <->
  m !! k = Some e /\ (forall e', (k, e') ∈ order -> now < expiresAt e').
Proof.
  revert m ek ee. induction order as [|[k0 e0] order IH]; intros m ek ee.
  - split; [|by intros [? _]]. intros H. split; [done|]. intros e' H'. by apply not_elem_of_nil in H'.
  - cbn [fold_left]. unfold sweep_step at 2. destruct (expiresAt e0 <=? now) eqn:E; bool_to_prop.
    + rewrite IH lookup_delete_Some. split.
      * intros [[N H] F]. split; [done|]. intros e' [[=]|H']%elem_of_cons; [done|by apply F].
      * intros [H F]. split; [split; [|done]|].
        -- intros ->. specialize (F e0 ltac:(left)). lia.
        -- intros e' H'. apply F. by right.
    + assert (forall ek' ee', fst (fold_left (sweep_step now) order (m, (ek', ee'))) !! k = Some e <->
        m !! k = Some e /\ (forall e', (k, e') ∈ (k0, e0) :: order -> now < expiresAt e')) as A.
      { intros ek' ee'. rewrite IH. split; (intros [H F]; split; [done|]).
        - intros e' [[= -> ->]|H']%elem_of_cons; [done|by apply F].
        - intros e' H'. apply F. by right. }
      destruct (_ || _); apply A.
Qed.

(** The earliest live entry seen so far. *)
Definition earliest_ok (now : Z) (seen : list (string * tokenCacheEntry)) (ek : string) (ee : Z) : Prop :=
  (ek = "" /\ forall k e, (k, e) ∈ seen -> expiresAt e <= now) \/
  (ek <> "" /\ (exists e, (ek, e) ∈ seen /\ expiresAt e = ee /\ now < ee) /\
   forall k e, (k, e) ∈ seen -> now < expiresAt e -> ee <= expiresAt e).

Lemma sweep_earliest now order (m : entries) seen ek ee :
  (forall k e, (k, e) ∈ order -> k <> "") -> earliest_ok now seen ek ee ->
  earliest_ok now (seen ++ order) (fst (snd (fold_left (sweep_step now) order (m, (ek, ee)))))
    (snd (snd (fold_left (sweep_step now) order (m, (ek, ee))))).
Proof.
  revert m seen ek ee. induction order as [|[k0 e0] order IH]; intros m seen ek ee Ne I; [by rewrite app_nil_r|].
  assert (forall k e, (k, e) ∈ order -> k <> "") as Ne' by (intros k e H; apply (Ne k e); by right).
  pose proof (Ne k0 e0 ltac:(left)) as N0.
  cbn [fold_left]. rewrite cons_middle app_assoc. unfold sweep_step at 2 4.
  destruct (expiresAt e0 <=? now) eqn:E; bool_to_prop; [apply IH; [done|]|
    destruct (_ || _) eqn:G; (apply IH; [done|])].
  - destruct I as [[-> F]|(N & (e & He & Ee & Le) & F)]; [left|right].
    + split; [done|]. intros k e [H|[= -> ->]%list_elem_of_singleton]%elem_of_app; [by eapply F|done].
    + split_and!; [done|exists e; split_and!; [apply elem_of_app; by left|done..]|].
      intros k e' [H|[= -> ->]%list_elem_of_singleton]%elem_of_app L; [by eapply F|lia].
  - right. split; [done|]. split.
    { exists e0. split_and!; [apply elem_of_app; right; left|done|done]. }
    intros k e [H|[= -> ->]%list_elem_of_singleton]%elem_of_app L; [|lia].
    destruct I as [[-> F]|(N & _ & F)]; [specialize (F _ _ H); lia|]. specialize (F _ _ H L).
    bool_to_prop. destruct G as [G|G]; bool_to_prop; [done|lia].
  - bool_to_prop. destruct I as [[-> F]|(N & (e & He & Ee & Le) & F)]; [done|]. right.
    split_and!; [done|exists e; split_and!; [apply elem_of_app; by left|done..]|].
    intros k e' [Hk|[= -> ->]%list_elem_of_singleton]%elem_of_app L; [by eapply F|lia].
Qed.

Lemma sweep_spec now order (m : entries) :
  order ≡ₚ map_to_list m -> m !! "" = None ->
  fst (sweep now order m) = live now m /\
  (live now m <> ∅ -> exists e, live now m !! fst (snd (sweep now order m)) = Some e /\
     forall k e', live now m !! k = Some e' -> expiresAt e <= expiresAt e').
Proof.
  intros P N0.
  assert (forall k e, (k, e) ∈ order <-> m !! k = Some e) as In.
  { intros k e. by rewrite P elem_of_map_to_list. }
  assert (fst (sweep now order m) = live now m) as E.
  { apply map_eq. intros k. apply option_eq. intros e. unfold sweep, live.
    rewrite sweep_map map_lookup_filter_Some. simpl. split; (intros [H F]; split; [done|]).
    - apply F. by apply In.
    - intros e' H'%In. by simplify_eq. }
  split; [done|]. intros Nz.
  assert (earliest_ok now ([] ++ order) (fst (snd (sweep now order m))) (snd (snd (sweep now order m)))) as Ok_.
  { apply sweep_earliest; [intros k e H%In; congruence|]. left. split; [done|].
    intros k e H. by apply not_elem_of_nil in H. }
  destruct Ok_ as [[Ek F]|(N & (e & He & Ee & Le) & F)].
  - exfalso. apply Nz, map_empty. intros k. apply map_lookup_filter_None. right. simpl. intros e He.
    apply In, F in He. lia.
  - exists e. split; [apply map_lookup_filter_Some; split; [by apply In|simpl; lia]|].
    intros k e'. rewrite map_lookup_filter_Some. simpl. intros [Hk L]. rewrite Ee. apply (F k); [by apply In|done].
Qed.

Lemma live_Some now (m : entries) k e : live now m !! k = Some e <-> m !! k = Some e /\ now < expiresAt e.
Proof. unfold live. by rewrite map_lookup_filter_Some. Qed.

Lemma live_size now (m : entries) : (size (live now m) <= size m)%nat.
Proof. apply map_subseteq_size, map_filter_subseteq. Qed.

(** What [set] leaves: the live entries, less the evicted one when the cache was
    full of them, and the new entry. *)
Lemma set_shape ttl now order key token (m : entries) :
  order ≡ₚ map_to_list m -> m !! "" = None ->
  exists kept, set ttl now order key token m = <[key:=mkCacheEntry token (now + ttl)]> kept /\
    (kept = live now m /\ (is_Some (live now m !! key) \/ Z.of_nat (size (live now m)) < maxTokenCacheEntries) \/
     live now m !! key = None /\ maxTokenCacheEntries <= Z.of_nat (size (live now m)) /\
     exists ek e, kept = delete ek (live now m) /\ live now m !! ek = Some e /\
       forall k e', live now m !! k = Some e' -> expiresAt e <= expiresAt e').
Proof.
  intros P N. unfold set. destruct (sweep_spec now order m P N) as [E1 E2].
  destruct (sweep now order m) as [m1 [ek ee]]. simpl in *. subst m1.
  eexists. split; [done|]. destruct (live now m !! key) as [e|] eqn:K; [left; split; [done|by left; eauto]|].
  destruct (Z.leb_spec maxTokenCacheEntries (Z.of_nat (size (live now m)))) as [L|L]; [|left; auto].
  right. split_and!; [done|done|].
  assert (live now m <> ∅) as Nz.
  { intros Z. rewrite Z map_size_empty in L. unfold maxTokenCacheEntries in L. lia. }
  destruct (E2 Nz) as (e & He & Hm). by exists ek, e.
Qed.

(** ** Properties *)

(** The cache is bounded and never forgets without need.  After [set] it holds
    at most 4096 tokens, the new one is found until its lifetime is over, every
    other entry was there before and is not expired, and an unexpired entry is
    dropped only when 4096 unexpired tokens were already cached, and then it is
    one that would have expired first. *)
Theorem token_cache_set ttl now order key token (m : entries) :
  order ≡ₚ map_to_list m -> m !! "" = None -> Z.of_nat (size m) <= maxTokenCacheEntries ->
  let m' := set ttl now order key token m in
  Z.of_nat (size m') <= maxTokenCacheEntries /\
  (forall now', now' < now + ttl -> get now' key m' = (m', Some token)) /\
  (forall k e, k <> key -> m' !! k = Some e -> m !! k = Some e /\ now < expiresAt e) /\
  (forall k e, k <> key -> m !! k = Some e -> now < expiresAt e -> m' !! k = None ->
     maxTokenCacheEntries <= Z.of_nat (size (live now m)) /\
     forall k' e', m !! k' = Some e' -> now < expiresAt e' -> expiresAt e <= expiresAt e').
Proof.
  intros P N Hs m'. destruct (set_shape ttl now order key token m P N) as (kept & Em & K). fold m' in Em.
  assert (kept ⊆ live now m) as Sub.
  { destruct K as [[-> _]|(_ & _ & ek & e & -> & _)]; [done|apply delete_subseteq]. }
  assert (Z.of_nat (size m') <= maxTokenCacheEntries) as Sz.
  { rewrite Em. pose proof (live_size now m) as Ls. destruct K as [[-> [[e He]|Hl]]|(Hk & Hl & ek & e & -> & He & _)].
    - rewrite map_size_insert He /=. lia.
    - rewrite map_size_insert. destruct (live now m !! key); simpl; lia.
    - pose proof (map_size_delete ek (live now m)) as D. rewrite He in D. simpl in D.
      rewrite map_size_insert. destruct (delete ek (live now m) !! key); simpl; unfold maxTokenCacheEntries in *; lia. }
  split_and!; [done| | |].
  - intros now' L. unfold get. rewrite Em lookup_insert_eq. simpl.
    destruct (Z.leb_spec (now + ttl) now'); [lia|done].
  - intros k e Nk. rewrite Em lookup_insert_ne //. intros H. apply live_Some. by eapply lookup_weaken.
  - intros k e Nk Hk L. rewrite Em lookup_insert_ne //. intros H.
    destruct K as [[-> _]|(_ & Hl & ek & e0 & -> & He0 & Min)].
    + by rewrite (proj2 (live_Some now m k e) (conj Hk L)) in H.
    + split; [done|]. apply lookup_delete_None in H as [<-|H].
      * apply live_Some in He0 as [He0 _]. simplify_eq. intros k' e' Hk' L'. apply (Min k').
        by apply live_Some.
      * by rewrite (proj2 (live_Some now m k e) (conj Hk L)) in H.
Qed.

Section LookupProps.

(** One lookup: request, the two clock readings, map order and HTTP exchange. *)
Record lookup := mkLookup {
  lk_req : request; lk_get : Z; lk_set : Z;
  lk_order : entries -> list (string * tokenCacheEntry);
  lk_exchange : platform_request -> option (Z * option string) }.

Definition run_lookup (l : lookup) (m : entries) : entries * result lookup_error string :=
  Lookup (lk_get l) (lk_set l) (lk_order l) (lk_exchange l) (lk_req l) m.

Fixpoint run_lookups (l : list lookup) (m : entries) : entries :=
  match l with [] => m | x :: l => run_lookups l (fst (run_lookup x m)) end.

(** Every cached token was issued by the platform, within its lifetime, for a
    request with that cache key. *)
Definition provenance (past : list lookup) (m : entries) : Prop :=
  forall k e, m !! k = Some e -> exists x, x ∈ past /\
    k = genKey (lk_req x) /\
    callPlatform (lk_exchange x) (lk_req x) = Ok (ce_token e) /\
    expiresAt e = lk_set x + tokenCacheTTL.

Lemma provenance_mono past past' m m' :
  provenance past m -> (forall x, x ∈ past -> x ∈ past') -> m' ⊆ m -> provenance past' m'.
Proof.
  intros H S Sub k e He. destruct (H k e) as (x & Hx & ?); [by eapply lookup_weaken|]. exists x. auto.
Qed.

Lemma get_subseteq now key (m : entries) : fst (get now key m) ⊆ m.
Proof.
  unfold get. destruct (m !! key); [|done]. destruct (_ <=? _); [apply delete_subseteq|done].
Qed.

Lemma sweep_subseteq now order (m : entries) : fst (sweep now order m) ⊆ m.
Proof. apply map_subseteq_spec. intros k e H. unfold sweep in H. by apply sweep_map in H as [H _]. Qed.

Lemma set_lookup ttl now order key token (m : entries) k e :
  set ttl now order key token m !! k = Some e ->
  (k = key /\ e = mkCacheEntry token (now + ttl)) \/ m !! k = Some e.
Proof.
  unfold set. pose proof (sweep_subseteq now order m) as S. destruct (sweep now order m) as [m1 [ek ee]].
  simpl in S. rewrite lookup_insert_Some. intros [[<- <-]|[_ H]]; [by left|right].
  eapply lookup_weaken; [|exact S]. destruct (m1 !! key); [done|]. destruct (_ <=? _); [|done].
  by apply lookup_delete_Some in H as [_ H].
Qed.

Lemma run_lookup_provenance past x m :
  provenance past m -> provenance (past ++ [x]) (fst (run_lookup x m)) /\
  forall t, snd (run_lookup x m) = Ok t -> t <> "" /\
    exists y, y ∈ past ++ [x] /\
      genKey (lk_req y) = genKey (lk_req x) /\
      callPlatform (lk_exchange y) (lk_req y) = Ok t /\
      (y = x \/ lk_get x < lk_set y + tokenCacheTTL).
Proof.
  intros H. unfold run_lookup, Lookup, getFromCache.
  set (k := genKey (lk_req x)).
  pose proof (get_subseteq (lk_get x) k m) as Gs.
  destruct (get (lk_get x) k m) as [m1 cached] eqn:G. simpl in Gs.
  assert (provenance (past ++ [x]) m1) as H1.
  { eapply provenance_mono; [done| |done]. intros y Hy. apply elem_of_app. by left. }
  case_bool_decide as T; cbn [negb]; [|split; [done|]].
  - destruct (callPlatform (lk_exchange x) (lk_req x)) as [t|e] eqn:C; [|done].
    case_bool_decide as T'; cbn [negb].
    { exfalso. unfold callPlatform in C. destruct (parse_service _) in C; [|done]. cbn in C.
      repeat case_match; simplify_eq; bool_to_prop; done. }
    split.
    + intros k' e He. simpl in He. apply set_lookup in He as [[-> ->]|He]; [|by apply H1].
      exists x. split_and!; [apply elem_of_app; right; left|done..].
    + intros t' [= <-]. split; [done|]. exists x. split_and!; [apply elem_of_app; right; left|done|done|by left].
  - intros t [= <-]. split; [done|]. unfold get in G. destruct (m !! k) as [e|] eqn:E; [|by simplify_eq].
    destruct (expiresAt e <=? lk_get x) eqn:L; simplify_eq. bool_to_prop.
    destruct (H k e E) as (y & Hy & Hk & Hc & He). exists y. split_and!; try done.
    + apply elem_of_app. by left.
    + right. lia.
Qed.

Lemma run_lookups_provenance l past m :
  provenance past m -> provenance (past ++ l) (run_lookups l m).
Proof.
  revert past m. induction l as [|x l IH]; intros past m H; [by rewrite app_nil_r|]. simpl.
  rewrite cons_middle app_assoc. apply IH. by apply run_lookup_provenance.
Qed.

(** C38: A token handed out by the lookup was issued by the control platform: for
    this very request, or less than 30 seconds ago for a request with the same
    cache key.  No sequence of lookups makes the cache hand out anything else, an
    empty token, or a token past its lifetime. *)
Theorem lookup_provenance l x t :
  snd (run_lookup x (run_lookups l ∅)) = Ok t ->
  t <> "" /\
  exists y, y ∈ l ++ [x] /\
    genKey (lk_req y) = genKey (lk_req x) /\
    callPlatform (lk_exchange y) (lk_req y) = Ok t /\
    (y = x \/ lk_get x < lk_set y + tokenCacheTTL).
Proof.
  intros H. assert (provenance l (run_lookups l ∅)) as P.
  { apply (run_lookups_provenance l []). intros k e He. by rewrite lookup_empty in He. }
  by apply (run_lookup_provenance l x _ P).
Qed.

(** The cache key does not identify the client of a TLS request whose peer sent
    a certificate chain: it hashes the name only when there is exactly one
    certificate, whereas the platform is asked for the first one.  Two clients
    with different leaf certificates share one cache entry. *)
Theorem chain_clients_share_cache_key r cn cn' rest :
  rest <> [] ->
  let with_chain l := mkRequest (Method r) (URL r) (ReqHost r) (RemoteAddr r) (Header r)
                        (Some l) (Vars r) in
  genKey (with_chain (cn :: rest)) = genKey (with_chain (cn' :: rest)) /\
  platform_credentials (with_chain (cn :: rest)) = ForCertificate cn /\
  platform_credentials (with_chain (cn' :: rest)) = ForCertificate cn'.
Proof. intros N with_chain. destruct rest; [done|]. split_and!; reflexivity. Qed.
End LookupProps.

(** The fields of the cache key are concatenated without delimiters: a project
    and service pair can be moved across the field boundary, so two requests for
    different services of different projects can share one cache entry whatever
    the hash. *)
Theorem cache_key_collision :
  exists p s p' s', p <> p' /\ s <> s' /\
  forall r,
  let with_vars p s := mkRequest (Method r) (URL r) (ReqHost r) (RemoteAddr r) (Header r)
                         (PeerCommonNames r) (<["project":=p]> (<["service":=s]> (Vars r))) in
  genKey (with_vars p s) = genKey (with_vars p' s').
Proof.
  exists "1a5", "webserviceb", "1a5serviceweb", "b". split_and!; [done|done|].
  intros r. cbv zeta. unfold genKey, key_material. do 2 f_equal.
  simpl. rewrite !lookup_insert_eq. rewrite !(lookup_insert_ne _ "project" "service") // !lookup_insert_eq.
  do 4 f_equal.
Qed.

(** Authorization that was wrapped for a cluster client (a bearer token in
    base64, inside a bearer header) is unwrapped to the original bearer token; a
    header that is not a bearer header is passed on unchanged. *)
Theorem unwrapAuth_roundtrip (t : string) :
  lacks " " t = true ->
  unwrapAuth ("Bearer " +:+ b64_encode (bytes_of ("Bearer " +:+ t))) = "Bearer " +:+ t /\
  forall auth, has_prefix auth "Bearer " = false -> unwrapAuth auth = auth.
Proof.
  intros L. split; [|intros auth H; unfold unwrapAuth; by rewrite H].
  unfold unwrapAuth. rewrite has_prefix_append. cbn [negb].
  change 7%nat with (String.length "Bearer "). rewrite sdrop_append.
  rewrite b64_roundtrip; [|apply bytes_of_bytes]. rewrite string_of_bytes.
  by rewrite (split_two " " "Bearer" t).
Qed.

(** ** Witnesses *)

Module TokenDemo.
Definition m0 : entries := {["k":=mkCacheEntry "old" 50]}.
Definition req (service : string) : request :=
  mkRequest "GET" (path_url "/r") "proxy" "" ∅ None {["service":=service]}.
Definition platform (r : platform_request) : option (Z * option string) :=
  Some (201, Some (json_print (JObject [("id", JNumber "1"); ("Token", JString "issued")]))).
Definition one : lookup := mkLookup (req "web:8080") 10 10 map_to_list platform.
Definition two : lookup := mkLookup (req "web:8080") 20 20 map_to_list platform.
End TokenDemo.
Import TokenDemo.

Lemma token_cache_set_witness :
  get 119 "n" (set 100 20 (map_to_list m0) "n" "new" m0) = (set 100 20 (map_to_list m0) "n" "new" m0, Some "new").
Proof.
  refine (proj1 (proj2 (token_cache_set 100 20 (map_to_list m0) "n" "new" m0 _ _ _)) 119 _).
  - reflexivity.
  - reflexivity.
  - by vm_compute.
  - lia.
Defined.

Lemma lookup_provenance_witness :
  snd (run_lookup two (run_lookups [one] ∅)) = Ok "issued" /\
  exists y, y ∈ [one; two] /\ callPlatform (lk_exchange y) (lk_req y) = Ok "issued".
Proof.
  assert (snd (run_lookup two (run_lookups [one] ∅))
    = Ok "issued") as E by by vm_compute.
  split; [exact E|].
  destruct (lookup_provenance [one] two "issued" E) as (_ & y & Hy & _ & C & _).
  exists y. split; [exact Hy|exact C].
Defined.

Lemma chain_clients_share_cache_key_witness :
  genKey (mkRequest "" (URL (req "")) "" "" ∅ (Some ["alice"; "ca"]) ∅) =
  genKey (mkRequest "" (URL (req "")) "" "" ∅ (Some ["bob"; "ca"]) ∅).
Proof.
  refine (proj1 (chain_clients_share_cache_key
    (mkRequest "" (URL (req "")) "" "" ∅ None ∅) "alice" "bob" ["ca"] _)). done.
Defined.

Lemma unwrapAuth_roundtrip_witness :
  unwrapAuth ("Bearer " +:+ b64_encode (bytes_of ("Bearer " +:+ "abc"))) = "Bearer " +:+ "abc".
Proof. refine (proj1 (unwrapAuth_roundtrip "abc" _)). reflexivity. Defined.
