(* ===== verification/SessionHttp.v ===== *)
(** * The HTTP interface of persistent console sessions

    Models [PersistentSessionHandler] of [proxy/persistent_session_handler.go]:
    dispatch, creation, status, termination and attachment of sessions, and the
    validation of origins, targets, credentials and configuration.  The JSON
    codec and what authentication needs are parameters. *)

From S2P Require Import Prelude GoString GoHash GoNet GoUrl GoCookie GoJson Message Multiplexer Backend Session SessionProps SessionStream.
From S2P Require Import SessionManager Delegation Capability Http Upgrade Frontend.

(** ** Constants and patterns *)

Definition workspaceSubprotocol : string := "pasturestack-console-v1".
Definition workspaceSecretProtocolPrefix : string := "pasturestack-secret.".
Definition workspaceClientProtocolPrefix : string := "pasturestack-client.".
Definition workspaceSecretHeader : string := "X-PastureStack-Session-Secret".
Definition workspaceMaxCreateBody : Z := 128 * 1024.

(** [[A-Za-z0-9_-]] *)
Definition id_char (c : ascii) : bool :=
  is_upper c || is_lower c || is_digit c || bool_decide (c = "_"%char) || bool_decide (c = "-"%char).

Definition workspaceSessionIDPattern : string -> bool := match_token "psw_" id_char 20 96.
Definition workspaceClientIDPattern : string -> bool := match_token "tab_" id_char 20 96.
Definition workspaceSecretPattern : string -> bool := match_token "" id_char 40 256.

(** ** Validation *)

Definition validateWorkspaceCredentials (sessionID secret kind_ : string) : option string :=
  if negb (workspaceSessionIDPattern sessionID) then Some "invalid console session identifier"
  else if negb (workspaceSecretPattern secret) then Some "invalid console session secret"
  else if negb (bool_decide (kind_ = "terminal")) && negb (bool_decide (kind_ = "logs"))
       then Some "console session kind must be terminal or logs"
  else None.

Definition workspaceIsWebSocketUpgrade (req : request) : bool :=
  workspaceHeaderContainsToken (Header req) "Connection" "upgrade"
  && workspaceHeaderContainsToken (Header req) "Upgrade" "websocket".

(** [websocket.Subprotocols] of the vendored gorilla package. *)
Definition Subprotocols (req : request) : list string :=
  let h := trim_space (header_get (Header req) "Sec-Websocket-Protocol") in
  if bool_decide (h = "") then [] else trim_space <$> split h ",".

Definition workspaceWebsocketCredential (req : request) (prefix : string) : string :=
  match List.filter (fun p => has_prefix p prefix) (Subprotocols req) with
  | p :: _ => trim_prefix p prefix
  | [] => ""
  end.

Definition workspaceHasWebsocketProtocol (req : request) (expected : string) : bool :=
  existsb (fun p => bool_decide (p = expected)) (Subprotocols req).

Definition workspaceInteger (env : string -> string) (key : string) (fallback minimum maximum : Z) : Z :=
  let raw := trim_space (env key) in
  if bool_decide (raw = "") then fallback
  else match parse_int raw with
       | Some v => if (v <? minimum) || (maximum <? v) then fallback else v
       | None => fallback
       end.

Section Durations.
Context (parse_duration : string -> option Z).
Definition workspaceDuration (env : string -> string) (key : string) (fallback minimum maximum : Z) : Z :=
  let raw := trim_space (env key) in
  if bool_decide (raw = "") then fallback
  else match parse_duration raw with
       | Some v => if (v <? minimum) || (maximum <? v) then fallback else v
       | None => fallback
       end.

Definition minute : Z := 60 * 10 ^ 9.
Definition defaultWorkspaceSessions : Z := 24.
Definition defaultWorkspaceReplayBytes : Z := 2 * 1024 * 1024.
Definition defaultWorkspaceActiveRetention : Z := 72 * 60 * minute.
Definition defaultWorkspaceEndedRetention : Z := 24 * 60 * minute.

(** The manager [NewPersistentSessionHandler] builds; the limits come from the
    environment. *)
Definition NewPersistentSessionHandler {B : Type} (env : string -> string) (b : B) : manager B :=
  initial_manager b
    (Z.to_nat (workspaceInteger env "PASTURESTACK_WORKSPACE_MAX_SESSIONS" defaultWorkspaceSessions 1 256))
    (workspaceInteger env "PASTURESTACK_WORKSPACE_REPLAY_BYTES" defaultWorkspaceReplayBytes (64 * 1024) (16 * 1024 * 1024))
    (workspaceDuration env "PASTURESTACK_WORKSPACE_ACTIVE_RETENTION" defaultWorkspaceActiveRetention minute (7 * 24 * 60 * minute))
    (workspaceDuration env "PASTURESTACK_WORKSPACE_ENDED_RETENTION" defaultWorkspaceEndedRetention minute (7 * 24 * 60 * minute)).
End Durations.

(** ** Replies *)

(** [TextBody] is written by the handshake, [BrokenBody] stands for a connection that
    was closed without an answer. *)
Inductive reply_body :=
| EmptyBody
| TextBody (text : string)
| BrokenBody
| ErrorBody (code message : string)
| MissingBody
| SessionBody (id kind_ status_ controller_ : string) (clientCount replayFrames : nat)
    (lastActivity_ createdAt_ : Z)
| Upgraded (session client : nat).

Record http_reply := mkReply { rp_status : Z; rp_headers : list (string * string); rp_body : reply_body }.

Definition json_headers : list (string * string) :=
  [("Content-Type", "application/json"); ("Cache-Control", "no-store")].
(** [writeWorkspaceJSON]; [extra] are the headers set before. *)
Definition writeWorkspaceJSON (extra : list (string * string)) (status_ : Z) (value : reply_body) : http_reply :=
  mkReply status_ (extra ++ json_headers) value.
Definition writeWorkspaceJSONError (extra : list (string * string)) (status_ : Z) (code message : string)
  : http_reply := writeWorkspaceJSON extra status_ (ErrorBody code message).
Definition writeWorkspaceSession (status_ : Z) (s : persistentSession) : http_reply :=
  writeWorkspaceJSON [] status_
    (SessionBody (s_id s) (kind s) (status_string (status s)) (controller s) (size (clients s))
       (length (replay s)) (lastActivity s) (createdAt s)).

(** ** Handlers *)

Record workspaceCreateRequest := mkCreate { in_Secret : string; in_Kind : string; in_Target : string; in_Token : string }.

(** What the environment supplies during one request: the clock (nanoseconds), the
    answers of the live checks of the sessions, the stream identifier drawn, the
    environment of [auth], and the clock of the receipts. *)
Record http_env := mkHttpEnv {
  he_now : Z; he_live1 : bool; he_live2 : bool; he_uuid : string; he_auth : auth_env;
  he_start : Z; he_clock : nat -> Z; he_hijack : hijack }.

Section Handlers.
Context {B : Type} `{BP : backendProxy B}.
Context (jwt_parse : bool -> string -> Z -> result jwt_error jwtToken)
  (post : string -> string -> option response).

Definition hash (secret : string) : string := hex (sha256 secret).

Definition allowed_target (kind_ path : string) : bool :=
  if bool_decide (kind_ = "terminal") then
    bool_decide (path = "/v1/exec") || bool_decide (path = "/v2-beta/exec") || bool_decide (path = "/v2/exec")
  else if bool_decide (kind_ = "logs") then
    bool_decide (path = "/v1/logs") || bool_decide (path = "/v2-beta/logs") || bool_decide (path = "/v2/logs")
  else false.

Definition workspaceTargetURL (req : request) (kind_ rawTarget token : string) : result string string :=
  if (go_len rawTarget <? 8) || (16 * 1024 <? go_len rawTarget) then Err "invalid upstream target"
  else match url_parse rawTarget with
  | None => Err "invalid upstream target"
  | Some target =>
      if negb (bool_decide (Scheme target = "ws")) && negb (bool_decide (Scheme target = "wss"))
         || bool_decide (Host target = "") || HasUser target || negb (bool_decide (Fragment target = ""))
      then Err "invalid upstream target"
      else if negb (workspaceSameHost (Host target) (ReqHost req))
      then Err "upstream target must match the current PastureStack server"
      else if negb (allowed_target kind_ (trim_suffix (EscapedPath target) "/"))
      then Err "upstream target path is not allowed"
      else
        let query := query_set "token" token (url_query target) in
        Ok (RequestURI (internal_url (Path target) (RawPath target) (encode_query query)))
  end.

(** The request [createSession] authenticates: the caller's, with the token it
    posted and the path of the target. *)
Definition auth_request (req : request) (token targetURL : string) : request :=
  let path := match url_parse targetURL with Some u => Path u | None => "" end in
  let u := URL req in
  set_header (header_set "Authorization" ("Bearer " +:+ token) (Header req))
    (set_url (with_paths path (RawPath u) (with_query "" u)) req).

Definition denial_reply (h : FrontendHandler) (env : http_env) (b : B) (e : auth_error) : http_reply :=
  let '(status_, code) := auth_failure post h b (he_start env) (he_clock env) e in
  match e with
  | Expired _ => writeWorkspaceJSONError
      [(streamErrorCodeHeader, code); ("X-Api-Error-Code", code); ("Cache-Control", "no-store")] status_ code code
  | RouteDenied _ => writeWorkspaceJSONError
      [(streamErrorCodeHeader, code); ("X-Api-Error-Code", code)] status_ code code
  | CapabilityMissing _ => writeWorkspaceJSONError [(streamErrorCodeHeader, code)] 503 code code
  | _ => writeWorkspaceJSONError [] 401 "authentication_failed" "Workspace session authentication failed"
  end.

Definition create_failure (h : FrontendHandler) (b : B) (raw host : string) (e : create_error) : http_reply :=
  match e with
  | InitError BackendAuditCapability | ConnectError BackendAuditCapability =>
      let code := reportBackendFailure post (Some (bp_backendTicket b)) (failures h) raw host in
      writeWorkspaceJSONError [(streamErrorCodeHeader, code)] 503 code code
  | SessionConflict =>
      writeWorkspaceJSONError [] 409 "session_conflict" "Console session identifier is already in use"
  | SessionLimit => writeWorkspaceJSONError [] 429 "session_limit" "Console session limit reached"
  | _ => writeWorkspaceJSONError [] 502 "upstream_unavailable" "Unable to start the console session"
  end.

(** The reply about session object [p]. *)
Definition session_reply (status_ : Z) (p : nat) (m : manager B) : http_reply :=
  match objects m !! p with
  | Some s => writeWorkspaceSession status_ s
  | None => mkReply 0 [] EmptyBody
  end.

Definition session_kind (p : nat) (m : manager B) : string :=
  match objects m !! p with Some s => kind s | None => "" end.

(** The body of a create request: members the struct has not are errors, and nothing
    but white space may follow the value. *)
Definition set_create (c : workspaceCreateRequest) (key : string) (j : json) : option workspaceCreateRequest :=
  let '(mkCreate secret kind target token) := c in
  if field_is "secret" key then (fun x => mkCreate x kind target token) <$> json_set_string j secret
  else if field_is "kind" key then (fun x => mkCreate secret x target token) <$> json_set_string j kind
  else if field_is "target" key then (fun x => mkCreate secret kind x token) <$> json_set_string j target
  else if field_is "token" key then (fun x => mkCreate secret kind target x) <$> json_set_string j token
  else None.
Definition ensureWorkspaceJSONEnd (rest : string) : bool := bool_decide (skip_space rest = "").
Definition read_create (body : string) : option workspaceCreateRequest :=
  if workspaceMaxCreateBody <? go_len body then None
  else '(j, rest) ← json_decode body; input ← json_struct set_create (mkCreate "" "" "" "") j;
       if ensureWorkspaceJSONEnd rest then Some input else None.

(** [bind] is set exactly for a ticket with a delegation grant. *)
Definition is_delegated (token : jwtToken) : bool :=
  match streamGrant (Some token) with Ok (Some _) => true | _ => false end.

Definition createSession (h : FrontendHandler) (env : http_env) (req : request) (body sessionID : string)
  (m : manager B) : manager B * http_reply :=
  if negb (workspaceRequestOriginAllowed req) then
    (m, writeWorkspaceJSONError [] 403 "origin_denied" "Cross-origin session creation is not allowed")
  else match read_create body with
  | None => (m, writeWorkspaceJSONError [] 400 "invalid_request" "Invalid session creation request")
  | Some input =>
      match validateWorkspaceCredentials sessionID (in_Secret input) (in_Kind input) with
      | Some message => (m, writeWorkspaceJSONError [] 400 "invalid_request" message)
      | None =>
          if (go_len (in_Token input) <? 8) || (16 * 1024 <? go_len (in_Token input)) then
            (m, writeWorkspaceJSONError [] 400 "invalid_token" "Invalid upstream access token")
          else
            let secretHash_ := hash (in_Secret input) in
            match get_session sessionID m with
            | Some p =>
                let '(m, ok) := matches (he_now env) p secretHash_ (he_live1 env) m in
                if negb ok || negb (bool_decide (session_kind p m = in_Kind input)) then
                  (m, writeWorkspaceJSONError [] 409 "session_conflict" "Console session identifier is already in use")
                else (m, session_reply 200 p m)
            | None =>
                match workspaceTargetURL req (in_Kind input) (in_Target input) (in_Token input) with
                | Err message => (m, writeWorkspaceJSONError [] 400 "invalid_target" message)
                | Ok targetURL =>
                    match auth jwt_parse post h (he_auth env) (m_backend m)
                            (auth_request req (in_Token input) targetURL) with
                    | Err e => (m, denial_reply h env (m_backend m) e)
                    | Ok (token, hostKey) =>
                        let '(m, r) := createWithAuthorization (he_now env) sessionID (in_Kind input) secretHash_
                                         hostKey targetURL (he_uuid env) (is_delegated token) (he_live2 env) m in
                        match r with
                        | Err e => (m, create_failure h (m_backend m) (Raw token) hostKey e)
                        | Ok (p, created_) => (m, session_reply (if created_ then 201 else 200) p m)
                        end
                    end
                end
            end
      end
  end.

Definition secret_denied : http_reply :=
  writeWorkspaceJSONError [] 403 "secret_denied" "Console session access was denied".
Definition no_content : http_reply := mkReply 204 [("Cache-Control", "no-store")] EmptyBody.

Definition sessionStatus (env : http_env) (req : request) (sessionID : string) (m : manager B)
  : manager B * http_reply :=
  match get_session sessionID m with
  | None => (m, writeWorkspaceJSON [] 200 MissingBody)
  | Some p =>
      let '(m, ok) := matches (he_now env) p (hash (header_get (Header req) workspaceSecretHeader))
                        (he_live1 env) m in
      if negb ok then (m, secret_denied) else (m, session_reply 200 p m)
  end.

Definition terminateSession (env : http_env) (req : request) (sessionID : string) (m : manager B)
  : manager B * http_reply :=
  if negb (workspaceRequestOriginAllowed req) then
    (m, writeWorkspaceJSONError [] 403 "origin_denied" "Cross-origin session termination is not allowed")
  else match get_session sessionID m with
  | None => (m, no_content)
  | Some p =>
      let '(m, ok) := matches (he_now env) p (hash (header_get (Header req) workspaceSecretHeader))
                        (he_live1 env) m in
      if negb ok then (m, secret_denied)
      else (on_session p (terminate (he_now env)) m, no_content)
  end.

(** [attachSession], up to the start of the client's loops; the new client object
    is the first unused one. *)
Definition attachSession (env : http_env) (req : request) (sessionID : string) (m : manager B)
  : manager B * http_reply :=
  if negb (workspaceHasWebsocketProtocol req workspaceSubprotocol) then
    (m, writeWorkspaceJSONError [] 400 "invalid_subprotocol" "Console WebSocket subprotocol is required")
  else match get_session sessionID m with
  | None => (m, writeWorkspaceJSONError [] 404 "session_not_found" "Console session was not found")
  | Some p =>
      let secret := workspaceWebsocketCredential req workspaceSecretProtocolPrefix in
      if negb (workspaceSecretPattern secret) then (m, secret_denied)
      else
        let '(m, ok) := matches (he_now env) p (hash secret) (he_live1 env) m in
        if negb ok then (m, secret_denied)
        else
          let clientID_ := workspaceWebsocketCredential req workspaceClientProtocolPrefix in
          if negb (workspaceClientIDPattern clientID_) then
            (m, writeWorkspaceJSONError [] 400 "invalid_client_id" "Invalid browser tab identifier")
          else match Upgrade workspaceSameOrigin (he_hijack env) req with
          | Refused a => (m, mkReply (an_status a) (an_headers a) (TextBody (an_text a)))
          | Broken => (m, mkReply 0 [] BrokenBody)
          | Upgraded_ =>
              let c := fresh (dom (m_tabs m)) in
              (on_session p (run_sop (SAttach (he_now env) c clientID_)) m, mkReply 101 [] (Upgraded p c))
          end
  end.

Definition serveSession (h : FrontendHandler) (env : http_env) (req : request) (body : string) (m : manager B)
  : manager B * http_reply :=
  let sessionID := default "" (Vars req !! "sessionId") in
  if negb (workspaceSessionIDPattern sessionID) then
    (m, writeWorkspaceJSONError [] 400 "invalid_session_id" "Invalid console session identifier")
  else if bool_decide (Method req = "POST") then createSession h env req body sessionID m
  else if bool_decide (Method req = "GET") then
    if workspaceIsWebSocketUpgrade req then attachSession env req sessionID m
    else sessionStatus env req sessionID m
  else if bool_decide (Method req = "DELETE") then terminateSession env req sessionID m
  else (m, writeWorkspaceJSONError [("Allow", "GET, POST, DELETE")] 405 "method_not_allowed" "Method not allowed").
End Handlers.

(** ** Lemmas *)

Lemma workspaceInteger_range env key fallback lo hi :
  lo <= fallback <= hi -> lo <= workspaceInteger env key fallback lo hi <= hi.
Proof.
  intros H. unfold workspaceInteger. case_bool_decide; [done|]. destruct (parse_int _) as [v|]; [|done].
  destruct (_ || _) eqn:G; [done|]. bool_to_prop. lia.
Qed.

Lemma workspaceDuration_range parse_duration env key fallback lo hi :
  lo <= fallback <= hi -> lo <= workspaceDuration parse_duration env key fallback lo hi <= hi.
Proof.
  intros H. unfold workspaceDuration. case_bool_decide; [done|]. destruct (parse_duration _) as [v|]; [|done].
  destruct (_ || _) eqn:G; [done|]. bool_to_prop. lia.
Qed.

Lemma validateWorkspaceCredentials_None id secret kind_ :
  validateWorkspaceCredentials id secret kind_ = None ->
  workspaceSecretPattern secret = true /\ (kind_ = "terminal" \/ kind_ = "logs").
Proof.
  unfold validateWorkspaceCredentials. destruct (workspaceSessionIDPattern id); [|done].
  destruct (workspaceSecretPattern secret); [|done]. repeat case_bool_decide; simpl; auto; done.
Qed.

(** The host and the port of two addresses agree, up to the case of the host. *)
Lemma workspaceSameHost_parts left right :
  workspaceSameHost left right = true ->
  exists h1 h2 port, workspaceSplitHostPort left = (h1, port) /\ workspaceSplitHostPort right = (h2, port) /\
    equal_fold h1 h2 = true.
Proof.
  unfold workspaceSameHost. destruct (workspaceSplitHostPort left) as [h1 p1], (workspaceSplitHostPort right) as [h2 p2].
  rewrite andb_true_iff. intros [E P]. bool_to_prop. subst p2. by exists h1, h2, p1.
Qed.

(** What a target must be: a WebSocket URL without user and fragment, on the host and
    the port the request was sent to, on one of the paths of the kind of session. *)
Definition own_target (req : request) (kind_ : string) (target : url) : Prop :=
  (Scheme target = "ws" \/ Scheme target = "wss") /\ Host target <> "" /\ HasUser target = false /\
  Fragment target = "" /\
  (exists h1 h2 port, workspaceSplitHostPort (Host target) = (h1, port) /\
    workspaceSplitHostPort (ReqHost req) = (h2, port) /\ equal_fold h1 h2 = true) /\
  (kind_ = "terminal" /\ In (trim_suffix (EscapedPath target) "/") ["/v1/exec"; "/v2-beta/exec"; "/v2/exec"] \/
   kind_ = "logs" /\ In (trim_suffix (EscapedPath target) "/") ["/v1/logs"; "/v2-beta/logs"; "/v2/logs"]).

Lemma allowed_target_paths kind_ path :
  allowed_target kind_ path = true ->
  kind_ = "terminal" /\ In path ["/v1/exec"; "/v2-beta/exec"; "/v2/exec"] \/
  kind_ = "logs" /\ In path ["/v1/logs"; "/v2-beta/logs"; "/v2/logs"].
Proof. unfold allowed_target. repeat case_bool_decide; try done; subst; simpl; auto 8. Qed.

(** The URL of a session's stream is parsed again before it is used, without a check:
    it always can be.  Its target is this server's, on one of the paths of the kind
    of session, and it carries the posted ticket, unless the query of the target has
    more parameters than the parser accepts. *)
Theorem session_target_sound req kind_ rawTarget token u :
  workspaceTargetURL req kind_ rawTarget token = Ok u ->
  exists target u', url_parse rawTarget = Some target /\ own_target req kind_ target /\
    url_parse u = Some u' /\ Path u' = Path target /\
    (Z.of_nat (length (url_query target)) < urlmaxqueryparams -> query_get "token" (url_query u') = token).
Proof.
  unfold workspaceTargetURL. destruct (_ || _); [done|]. destruct (url_parse rawTarget) as [target|]; [|done].
  destruct (_ || _ || _ || _) eqn:G; [done|]. destruct (workspaceSameHost _ _) eqn:Sh; cbn [negb]; [|done].
  destruct (allowed_target _ _) eqn:A; cbn [negb]; [|done]. intros [= <-].
  assert (has_prefix (EscapedPath target) "/" = true /\ has_prefix (EscapedPath target) "//" = false) as [P1 P2].
  { assert (forall x, allowed_target kind_ x = true -> forall t, t = x \/ t = x +:+ "/" ->
      has_prefix t "/" = true /\ has_prefix t "//" = false) as H.
    { unfold allowed_target. intros x Hx t Ht. repeat case_bool_decide; try done; subst; by destruct Ht as [-> | ->]. }
    apply (H _ A). by apply trim_suffix_cases. }
  assert (own_target req kind_ target) as Own.
  { apply orb_false_iff in G as [G F]. apply orb_false_iff in G as [G U]. apply orb_false_iff in G as [S H].
    unfold own_target. split_and!; [|by bool_to_prop|done|by bool_to_prop|by apply workspaceSameHost_parts|by apply allowed_target_paths].
    by repeat case_bool_decide; auto. }
  set (q := query_set "token" token (url_query target)). destruct (internal_parse target q P1 P2) as (u' & E & Pu & Q).
  exists target, u'. split_and!; try done. intros L. unfold url_query. rewrite Q. by apply query_set_roundtrip.
Qed.

Section HandlerProps.
Context {B : Type} `{BP : backendProxy B}.
Context (jwt_parse : bool -> string -> Z -> result jwt_error jwtToken)
  (post : string -> string -> option response).
Implicit Types m : manager B.

Abbreviation serve := (serveSession jwt_parse post).
Abbreviation digest := hash.
Abbreviation read := read_create.
Abbreviation target := workspaceTargetURL.

Lemma report_denial_status ticket send start clock f (d : Z * string) :
  fst (report_denial ticket send start clock f d) = fst d \/
  fst (report_denial ticket send start clock f d) = 503.
Proof. unfold report_denial. repeat case_match; auto. Qed.

Lemma denial_reply_status h env (b : B) e :
  In (rp_status (denial_reply post h env b e)) [401; 403; 503].
Proof.
  unfold denial_reply.
  destruct (auth_failure post h b (he_start env) (he_clock env) e) as [st code] eqn:E.
  apply (f_equal fst) in E. cbn [fst] in E.
  destruct e as [| | |f|f|f|]; cbn [rp_status writeWorkspaceJSONError writeWorkspaceJSON]; try (simpl; by auto); rewrite -E.
  all: unfold auth_failure, reportExpiredDenial, reportRouteDenial.
  all: match goal with |- In (fst (report_denial ?a ?b ?c ?d ?f ?g)) _ =>
    destruct (report_denial_status a b c d f g) as [-> | ->] end; simpl; auto.
Qed.

Lemma create_failure_status h (b : B) raw host e :
  In (rp_status (create_failure post h b raw host e)) [503; 409; 429; 502].
Proof. destruct e as [| |[]|[]]; simpl; auto 6. Qed.

Lemma session_reply_status st p m : In (rp_status (session_reply st p m)) [st; 0].
Proof. unfold session_reply. destruct (objects m !! p); simpl; auto. Qed.

(** *** Matching a secret *)

Lemma matches_spec now p h live m m' s :
  objects m !! p = Some s -> matches now p h live m = (m', true) ->
  m' = m /\ h = secretHash s /\ delegationRevoked s = false /\ (delegationCheck s = true -> live = true).
Proof.
  intros Hs. unfold matches. rewrite Hs. unfold matchesSecretHash. cbn [ses view_session].
  assert (put_session p (view_session s m) m = m) as Id.
  { unfold put_session, view_session. simpl. rewrite insert_id //. by destruct m. }
  case_bool_decide as E; cbn [negb]; [|done]. destruct (delegationRevoked s); [done|].
  destruct (delegationCheck s) eqn:C; destruct live; cbn [negb andb]; intros [= <-]; rewrite Id; by split_and!.
Qed.

Lemma matches_wrong now p h live m s :
  objects m !! p = Some s -> h <> secretHash s -> matches now p h live m = (m, false).
Proof.
  intros Hs N. unfold matches. rewrite Hs. unfold matchesSecretHash. cbn [ses view_session].
  rewrite bool_decide_eq_false_2 //. cbn [negb]. f_equal. unfold put_session, view_session. simpl.
  rewrite insert_id //. by destruct m.
Qed.

(** The secret a request presents for a session. *)
Definition presented (req : request) (body : string) : option string :=
  if bool_decide (Method req = "POST") then in_Secret <$> read body
  else if bool_decide (Method req = "GET") then
    Some (if workspaceIsWebSocketUpgrade req
          then workspaceWebsocketCredential req workspaceSecretProtocolPrefix
          else header_get (Header req) workspaceSecretHeader)
  else if bool_decide (Method req = "DELETE") then Some (header_get (Header req) workspaceSecretHeader)
  else None.

Definition is_error (b : reply_body) : Prop := match b with ErrorBody _ _ => True | _ => False end.

(** *** Requests that create nothing *)

(** The table of the sessions is as it was, and so is what closing streams
    preserves of the backend. *)
Record uncreated (P : B -> Prop) m m' : Prop := {
  un_sessions : sessions m' = sessions m;
  un_objects : dom (objects m') = dom (objects m);
  un_backend : P (m_backend m) -> P (m_backend m') }.

#[local] Instance uncreated_preorder P : PreOrder (uncreated P).
Proof. split; [by split|]. intros m1 m2 m3 [] []. split; [congruence|congruence|auto]. Qed.

Section Uncreated.
Context (P : B -> Prop) (P_close : forall b host key, P b -> P (fst (bp_closeConnection b host key))).

Lemma on_session_uncreated p f m :
  (forall y : sys B, P (be y) -> P (be (f y))) -> uncreated P m (on_session p f m).
Proof.
  intros F. unfold on_session. destruct (objects m !! p) as [s|] eqn:E; [|done].
  split; simpl; [done| |intros H; by apply F]. rewrite dom_insert_L. apply elem_of_dom_2 in E. set_solver.
Qed.

Lemma terminate_closes now (y : sys B) : P (be y) -> P (be (terminate now y)).
Proof.
  intros H. unfold terminate. destruct (closeOnce _); [done|]. destruct (inactive _); [done|]. simpl.
  pose proof (P_close (be y) (hostKey (ses y)) (msgKey (ses y)) H) as C.
  destruct (bp_closeConnection _ _ _) as [b []]; [done|]. unfold markEnded. by case_match.
Qed.

Lemma matches_uncreated now p h live m : uncreated P m (fst (matches now p h live m)).
Proof.
  assert (fst (matches now p h live m) = on_session p (fun y => fst (matchesSecretHash now h live y)) m) as ->.
  { unfold matches, on_session. destruct (objects m !! p); [|done]. by destruct (matchesSecretHash _ _ _ _). }
  apply on_session_uncreated. intros y H. unfold matchesSecretHash.
  repeat (case_match; [done|]). repeat case_match; [|done]. by apply (terminate_closes now).
Qed.

Lemma session_status_not_created st p m : st <> 201 -> rp_status (session_reply st p m) <> 201.
Proof. intros N. by destruct (session_reply_status st p m) as [<-|[<-|[]]]. Qed.

(** A request that no ticket authenticates creates no session. *)
Lemma serveSession_unauthorised h env req body m :
  (forall input u r, read body = Some input -> auth jwt_parse post h (he_auth env) (m_backend m)
     (auth_request req (in_Token input) u) <> Ok r) ->
  uncreated P m (fst (serve h env req body m)) /\ rp_status (snd (serve h env req body m)) <> 201.
Proof.
  intros N. unfold serveSession. destruct (negb _); [done|].
  assert (forall now p hs live, uncreated P m (fst (matches now p hs live m))) as M by by (intros; apply matches_uncreated).
  pose proof (session_status_not_created 200) as R.
  destruct (bool_decide (Method req = "POST")).
  { unfold createSession. destruct (negb _); [done|]. destruct (read body) as [input|] eqn:Rd; [|done].
    destruct (validateWorkspaceCredentials _ _ _); [done|]. destruct (_ || _); [done|].
    destruct (get_session _ m) as [p|].
    { specialize (M (he_now env) p (hash (in_Secret input)) (he_live1 env)). destruct (matches _ _ _ _ _) as [m1 ok].
      destruct (_ || _); [done|]. split; [done|by apply R]. }
    destruct (target _ _ _ _) as [u|]; [|done].
    destruct (auth _ _ _ _ _ _) as [r|e] eqn:A; [by destruct (N input u r eq_refl)|]. split; [done|]. cbn [snd].
    by destruct (denial_reply_status h env (m_backend m) e) as [<-|[<-|[<-|[]]]]. }
  destruct (bool_decide (Method req = "GET")).
  - destruct (workspaceIsWebSocketUpgrade req).
    + unfold attachSession. destruct (negb _); [done|]. destruct (get_session _ m) as [p|]; [|done].
      destruct (negb _); [done|]. match goal with |- context [matches ?a ?b ?c ?d m] => specialize (M a b c d) end.
      destruct (matches _ _ _ _ _) as [m1 ok]. destruct (negb ok); [done|]. destruct (negb _); [done|].
      destruct (Upgrade _ _ _) as [|a|] eqn:U; [|split; [done|]|done].
      * split; [|done]. etrans; [exact M|]. apply on_session_uncreated. intros y H. simpl. unfold addClient.
        destruct (delegationRevoked _); [done|]. by repeat case_match.
      * apply Upgrade_refused in U. simpl. lia.
    + unfold sessionStatus. destruct (get_session _ m) as [p|]; [|done].
      match goal with |- context [matches ?a ?b ?c ?d m] => specialize (M a b c d) end.
      destruct (matches _ _ _ _ _) as [m1 ok]. destruct (negb ok); [done|]. split; [done|by apply R].
  - destruct (bool_decide _); [|done]. unfold terminateSession. destruct (negb _); [done|].
    destruct (get_session _ m) as [p|]; [|done].
    match goal with |- context [matches ?a ?b ?c ?d m] => specialize (M a b c d) end.
    destruct (matches _ _ _ _ _) as [m1 ok]. destruct (negb ok); [done|]. split; [|done]. etrans; [exact M|].
    apply on_session_uncreated. intros y H. by apply terminate_closes.
Qed.
End Uncreated.

(** ** Properties *)

(** C9: Nobody without the secret of a session can read it, attach to it, end it or
    recreate it: whatever the method, a request that presents no secret or one
    with another digest leaves every session as it is and gets an error. *)
Theorem wrong_secret_no_access h env req body m p s :
  get_session (default "" (Vars req !! "sessionId")) m = Some p -> objects m !! p = Some s ->
  (forall secret, presented req body = Some secret -> digest secret <> secretHash s) ->
  fst (serve h env req body m) = m /\ is_error (rp_body (snd (serve h env req body m))).
Proof.
  intros Hp Hs N. unfold serveSession. unfold presented in N.
  set (id := default "" (Vars req !! "sessionId")) in *.
  destruct (workspaceSessionIDPattern id); [|done]. cbn [negb].
  destruct (bool_decide (Method req = "POST")).
  { unfold createSession. destruct (negb _); [done|]. destruct (read body) as [input|]; [|done].
    specialize (N _ eq_refl). destruct (validateWorkspaceCredentials _ _ _); [done|].
    destruct (_ || _); [done|]. rewrite Hp (matches_wrong _ _ _ _ _ s) //. }
  destruct (bool_decide (Method req = "GET")).
  { destruct (workspaceIsWebSocketUpgrade req); specialize (N _ eq_refl).
    - unfold attachSession. destruct (negb _); [done|]. rewrite Hp. destruct (negb _); [done|].
      rewrite (matches_wrong _ _ _ _ _ s) //.
    - unfold sessionStatus. rewrite Hp (matches_wrong _ _ _ _ _ s) //. }
  destruct (bool_decide (Method req = "DELETE")); [|done]. specialize (N _ eq_refl).
  unfold terminateSession. destruct (negb _); [done|]. rewrite Hp (matches_wrong _ _ _ _ _ s) //.
Qed.

(** C10: A session is created only for an authorised request: a POST from the same
    origin, under a well-formed unused identifier, with a well-formed secret, for
    a [ws] or [wss] target without user and fragment on the host and the port the
    request was sent to, whose path is one of the three of the requested kind,
    with a ticket that authenticates for the path of that target; and then the
    table holds a connected session on the host of the ticket that only that
    secret opens. *)
Theorem session_created_authorised h env req body m m' rep :
  serve h env req body m = (m', rep) -> rp_status rep = 201 ->
  let id := default "" (Vars req !! "sessionId") in
  Method req = "POST" /\ workspaceSessionIDPattern id = true /\
  workspaceRequestOriginAllowed req = true /\ get_session id m = None /\
  exists input t targetURL token host p s,
    read body = Some input /\ workspaceSecretPattern (in_Secret input) = true /\
    (in_Kind input = "terminal" \/ in_Kind input = "logs") /\
    url_parse (in_Target input) = Some t /\ own_target req (in_Kind input) t /\
    target req (in_Kind input) (in_Target input) (in_Token input) = Ok targetURL /\
    auth jwt_parse post h (he_auth env) (m_backend m)
      (auth_request req (in_Token input) targetURL) = Ok (token, host) /\
    Path (URL (auth_request req (in_Token input) targetURL)) = Path t /\
    sessions m' = <[id:=p]> (sessions m) /\ objects m' !! p = Some s /\ hostKey s = host /\
    kind s = in_Kind input /\ secretHash s = digest (in_Secret input) /\ status s = Connected.
Proof.
  unfold serveSession. set (id := default "" (Vars req !! "sessionId")).
  destruct (workspaceSessionIDPattern id) eqn:Pid; cbn [negb]; [|by intros [= <- <-]].
  case_bool_decide as Mp; [|intros H S; exfalso].
  2: { revert H S. unfold attachSession, sessionStatus, terminateSession.
    pose proof (session_reply_status 200) as R.
    repeat (case_match; try done); intros; simplify_eq/=; try done;
      try (match goal with H : rp_status (session_reply 200 ?q ?n) = 201 |- _ =>
        destruct (R q n) as [X|[X|[]]]; rewrite H in X; done end);
      match goal with H : Upgrade _ _ _ = Refused _, S : an_status _ = 201 |- _ =>
        apply Upgrade_refused in H; rewrite S in H; naive_solver end. }
  unfold createSession. destruct (workspaceRequestOriginAllowed req) eqn:O; cbn [negb];
    [|by intros [= <- <-]].
  destruct (read body) as [input|] eqn:Rd; [|by intros [= <- <-]].
  destruct (validateWorkspaceCredentials id _ _) eqn:V; [by intros [= <- <-]|].
  apply validateWorkspaceCredentials_None in V as [V1 V2].
  destruct (_ || _); [by intros [= <- <-]|].
  destruct (get_session id m) as [p|] eqn:G.
  { destruct (matches _ _ _ _ _) as [m1 ok]. destruct (_ || _); [by intros [= <- <-]|].
    intros [= <- <-] S. destruct (session_reply_status 200 p m1) as [X|[X|[]]]; by rewrite S in X. }
  destruct (target _ _ _ _) as [targetURL|] eqn:T; [|by intros [= <- <-]].
  destruct (auth _ _ _ _ _ _) as [[token host]|e] eqn:A.
  2: { intros [= <- <-] S. destruct (denial_reply_status h env (m_backend m) e) as [X|[X|[X|[]]]]; by rewrite S in X. }
  destruct (createWithAuthorization _ _ _ _ _ _ _ _ _ m) as [m1 r] eqn:C.
  pose proof (create_created (he_now env) id (in_Kind input) (digest (in_Secret input)) host targetURL
    (he_uuid env) (is_delegated token) (he_live2 env) m G) as Cr. rewrite C in Cr.
  destruct r as [[p c]|e].
  2: { intros [= <- <-] S. destruct (create_failure_status h (m_backend m1) (Raw token) host e)
    as [X|[X|[X|[X|[]]]]]; by rewrite S in X. }
  intros [= <- <-] S. split_and!; try done. inversion Cr; subst.
  destruct (session_target_sound _ _ _ _ _ T) as (t & u' & Pt & Own & Pu & Pa & _).
  eexists input, t, targetURL, token, host, _, _. split_and!; try done.
  - unfold auth_request. by rewrite Pu.
  - simpl. by rewrite lookup_insert_eq.
  - unfold built. by destruct (is_delegated token).
  - unfold built. by destruct (is_delegated token).
  - unfold built. by destruct (is_delegated token).
  - reflexivity.
Qed.
End HandlerProps.

(** Whatever the environment sets, the manager starts with between 1 and 256
    active sessions allowed, a replay buffer between 64 KiB and 16 MiB per
    session, and retentions between a minute and a week. *)
Theorem session_limits_bounded {B : Type} parse_duration env (b : B) :
  let m := NewPersistentSessionHandler parse_duration env b in
  (1 <= maxSessions m <= 256)%nat /\ 64 * 1024 <= mgr_maxReplayBytes m <= 16 * 1024 * 1024 /\
  minute <= activeRetention m <= 7 * 24 * 60 * minute /\
  minute <= endedRetention m <= 7 * 24 * 60 * minute.
Proof.
  simpl. unfold defaultWorkspaceSessions, defaultWorkspaceReplayBytes, defaultWorkspaceActiveRetention,
    defaultWorkspaceEndedRetention, minute.
  pose proof (workspaceInteger_range env "PASTURESTACK_WORKSPACE_MAX_SESSIONS" 24 1 256).
  split_and!; try (apply workspaceInteger_range; lia); try (apply workspaceDuration_range; lia); lia.
Qed.

(** ** Witnesses *)

Module HttpDemo.
Import FrontendDemo.
Definition sid : string := "psw_aaaaaaaaaaaaaaaaaaaa".
Definition secret : string := "ssssssssssssssssssssssssssssssssssssssss".
Definition http_request (method : string) : request :=
  mkRequest method (path_url "/v1/console") "proxy" "" ∅ None {["sessionId":=sid]}.
Definition henv : http_env := mkHttpEnv 5 true true "k1" env 0 (fun _ => 0) (Hijacked false true).

Definition long_tickets (validate : bool) (raw : string) (bits : Z) : result jwt_error jwtToken :=
  if bool_decide (raw = "hhh.ooo.sss") then Ok (mkToken raw true (Some {["hostUuid":=AString "host"]}))
  else Err TokenInvalid.
Definition good_input : workspaceCreateRequest := mkCreate secret "terminal" "wss://proxy/v1/exec" "hhh.ooo.sss".
Definition create_body : string :=
  json_print (JObject [("secret", JString (in_Secret good_input)); ("kind", JString (in_Kind good_input));
    ("target", JString (in_Target good_input)); ("token", JString (in_Token good_input))]).
Definition m0 : manager world := initial_manager Demo.w1 4 1000 100 50.

Definition run (method body : string) (m : manager world) : manager world * http_reply :=
  serveSession long_tickets no_engine handler henv (http_request method) body m.
Definition m1 : manager world := fst (run "POST" create_body m0).
Definition s1 : persistentSession := default (newSession "" "" "" "" "" 0 0) (objects m1 !! 0%nat).
End HttpDemo.
Import FrontendDemo HttpDemo.

Lemma session_created_authorised_witness :
  rp_status (snd (run "POST" create_body m0)) = 201 /\ size (sessions m1) = 1%nat /\
  workspaceSessionIDPattern sid = true.
Proof.
  assert (rp_status (snd (run "POST" create_body m0)) = 201) as E by by vm_compute.
  split_and!; [done|by vm_compute|].
  exact (proj1 (proj2 (session_created_authorised _ _ _ _ _ _ _ _ _
    (surjective_pairing (run "POST" create_body m0)) E))).
Defined.

Lemma wrong_secret_no_access_witness :
  fst (run "DELETE" "" m1) = m1 /\ is_error (rp_body (snd (run "DELETE" "" m1))).
Proof.
  apply (wrong_secret_no_access long_tickets no_engine handler henv (http_request "DELETE") "" m1 0 s1).
  - by vm_compute.
  - by vm_compute.
  - intros x [= <-]. by vm_compute.
Defined.
