(* ===== verification/SessionFrames.v ===== *)
(** * The texts of a console session

    The JSON a browser tab and the session exchange, of
    [proxy/persistent_session_handler.go]: the client frames [readLoop] decodes, the
    server frames [broadcastLocked] and [enqueueJSON] encode, and the bodies of the
    replies of the HTTP handler, with times as [time.RFC3339Nano] writes them. *)

From S2P Require Import Prelude GoString GoUrl GoJson Message Multiplexer Backend Session Http SessionHttp.

(** ** Times *)

(** The date of a day, counted from the first of January 1970. *)
Definition civil (days : Z) : Z * Z * Z :=
  let z := days + 719468 in
  let era := z / 146097 in
  let doe := z mod 146097 in
  let yoe := (doe - doe / 1460 + doe / 36524 - doe / 146096) / 365 in
  let doy := doe - (365 * yoe + yoe / 4 - yoe / 100) in
  let mp := (5 * doy + 2) / 153 in
  let month := if mp <? 10 then mp + 3 else mp - 9 in
  (yoe + era * 400 + (if month <=? 2 then 1 else 0), month, doy - (153 * mp + 2) / 5 + 1).

Definition padded (width : Z) (n : Z) : string := zeros (width - go_len (format_uint n)) +:+ format_uint n.

(** [t.Format(time.RFC3339Nano)] of a UTC time in nanoseconds. *)
Definition rfc3339_nano (t : Z) : string :=
  let seconds := t / 10 ^ 9 in
  let nanos := t mod 10 ^ 9 in
  let '(year, month, day) := civil (seconds / 86400) in
  let s := seconds mod 86400 in
  padded 4 year +:+ "-" +:+ padded 2 month +:+ "-" +:+ padded 2 day +:+ "T" +:+
  padded 2 (s / 3600) +:+ ":" +:+ padded 2 (s / 60 mod 60) +:+ ":" +:+ padded 2 (s mod 60) +:+
  (if nanos =? 0 then "" else "." +:+ trim_right is_zero (padded 9 nanos)) +:+ "Z".

Example rfc3339_examples :
  rfc3339_nano 0 = "1970-01-01T00:00:00Z" /\
  rfc3339_nano 951827696120000000 = "2000-02-29T12:34:56.12Z" /\
  rfc3339_nano 4107542399999999999 = "2100-02-28T23:59:59.999999999Z".
Proof. by vm_compute. Qed.

(** ** Client frames *)

Definition set_client_frame (f : workspaceClientFrame) (key : string) (j : json) : option workspaceClientFrame :=
  let '(mkClientFrame type data cols rows) := f in
  if field_is "type" key then (fun x => mkClientFrame x data cols rows) <$> json_set_string j type
  else if field_is "data" key then (fun x => mkClientFrame type x cols rows) <$> json_set_string j data
  else if field_is "cols" key then (fun x => mkClientFrame type data x rows) <$> json_set_int j cols
  else if field_is "rows" key then (fun x => mkClientFrame type data cols x) <$> json_set_int j rows
  else Some f.
Definition unmarshal_client_frame (raw : string) : option workspaceClientFrame :=
  json_parse raw ≫= json_struct set_client_frame (mkClientFrame "" "" 0 0).

(** One iteration of [readLoop] on a message of the tab [c]. *)
Definition readLoop {B : Type} `{BP : backendProxy B} (now : Z) (c : nat) (id raw : string) (y : sys B) : sys B :=
  match unmarshal_client_frame raw with
  | None => invalidFrame c y
  | Some frame => handleClientFrame now c id frame y
  end.

(** ** Server frames *)

Definition replay_json (e : workspaceReplayEntry) : json :=
  JObject [("sequence", JNumber (itoa (Sequence e))); ("data", JString (Data e))].
Definition time_json (name : string) (t : option Z) : list (string * json) :=
  match t with Some t => [(name, JString (rfc3339_nano t))] | None => [] end.
Definition string_json (name s : string) : list (string * json) := omitempty name (bool_decide (s = "")) (JString s).
Definition frame_json (f : workspaceServerFrame) : json :=
  JObject (("type", JString (f_Type f)) :: string_json "code" (f_Code f) ++ string_json "message" (f_Message f)
    ++ string_json "sessionId" (f_SessionID f) ++ string_json "kind" (f_Kind f) ++ string_json "status" (f_Status f)
    ++ string_json "controllerId" (f_ControllerID f)
    ++ omitempty "sequence" (f_Sequence f =? 0) (JNumber (itoa (f_Sequence f)))
    ++ string_json "data" (f_Data f) ++ time_json "createdAt" (f_CreatedAt f) ++ time_json "lastActivity" (f_LastActivity f)
    ++ omitempty "replay" (bool_decide (f_Replay f = [])) (JArray (replay_json <$> f_Replay f))).
Definition frame_text (f : workspaceServerFrame) : string := json_print (frame_json f).

(** ** Replies *)

(** The text of a reply; [Encode] ends it with a line feed. *)
Definition reply_text (b : reply_body) : string :=
  match b with
  | TextBody text => text
  | ErrorBody code_ message => frame_text (error_frame code_ message) +:+ lf
  | MissingBody => json_print (JObject [("status", JString "missing")]) +:+ lf
  | SessionBody id kind_ status_ controller_ clientCount replayFrames lastActivity_ createdAt_ =>
      json_print (JObject
        [("clientCount", JNumber (itoa (Z.of_nat clientCount))); ("controllerId", JString controller_);
         ("createdAt", JString (rfc3339_nano createdAt_)); ("kind", JString kind_);
         ("lastActivity", JString (rfc3339_nano lastActivity_)); ("replayFrames", JNumber (itoa (Z.of_nat replayFrames)));
         ("sessionId", JString id); ("status", JString status_)]) +:+ lf
  | EmptyBody | BrokenBody | Upgraded _ _ => ""
  end.

(** ** Properties *)

Section ReadLoop.
Context {B : Type} `{BP : backendProxy B}.

(** Whatever a tab sends, the session makes a step of its histories. *)
Theorem readLoop_step now c id raw (y : sys B) :
  exists o, readLoop now c id raw y = run_sop o y /\
    (o = SInvalid c \/ exists f, unmarshal_client_frame raw = Some f /\ o = SFrame now c id f).
Proof.
  unfold readLoop. destruct (unmarshal_client_frame raw) as [f|].
  - exists (SFrame now c id f). split; [done|]. right. by exists f.
  - exists (SInvalid c). split; [done|by left].
Qed.
End ReadLoop.

Definition client_frame_json (f : workspaceClientFrame) : json :=
  JObject [("type", JString (cf_Type f)); ("data", JString (cf_Data f)); ("cols", JNumber (itoa (cf_Cols f)));
           ("rows", JNumber (itoa (cf_Rows f)))].

(** What a browser writes for a frame is what the session reads. *)
Theorem client_frame_roundtrip f :
  utf8_valid (cf_Type f) = true -> utf8_valid (cf_Data f) = true ->
  min_int64 <= cf_Cols f <= max_int64 -> min_int64 <= cf_Rows f <= max_int64 ->
  unmarshal_client_frame (json_print (client_frame_json f)) = Some f.
Proof.
  intros T D C R. unfold unmarshal_client_frame. rewrite json_parse_printed.
  2:{ assert (exists k, maxNestingDepth = S (S k)) as [k ->] by (exists (Z.to_nat 9998); unfold maxNestingDepth; lia).
      cbn [client_frame_json json_ok]. repeat constructor; cbn [fst snd]; try done; apply itoa_number. }
  destruct f as [type data cols rows]. cbn [cf_Type cf_Data cf_Cols cf_Rows] in *.
  cbn [mbind option_bind client_frame_json json_struct cf_Type cf_Data cf_Cols cf_Rows].
  change (_ = _) with ((r ← ((fun x => mkClientFrame type data x 0) <$> parse_int (itoa cols));
    set_client_frame r "rows" (JNumber (itoa rows))) = Some (mkClientFrame type data cols rows)).
  rewrite parse_int_itoa //. cbn [fmap option_fmap option_map mbind option_bind].
  change (set_client_frame _ _ _) with ((fun x => mkClientFrame type data cols x) <$> parse_int (itoa rows)).
  by rewrite parse_int_itoa.
Qed.

(** A frame is sent as a JSON object with exactly its members, whatever bytes (of
    UTF-8 text) the host wrote. *)
Definition frame_utf8 (f : workspaceServerFrame) : Prop :=
  Forall (fun s => utf8_valid s = true)
    [f_Type f; f_Code f; f_Message f; f_SessionID f; f_Kind f; f_Status f; f_ControllerID f; f_Data f] /\
  Forall (fun e => utf8_valid (Data e) = true) (f_Replay f).

Abbreviation is_ascii := (sforall (fun c => code c <? 128)).

Lemma digits_ascii s : sforall is_digit s = true -> is_ascii s = true.
Proof.
  intros H. induction s as [|c s IH]; [done|]. cbn [sforall] in *. apply andb_true_iff in H as [Hc Hs].
  rewrite IH // andb_true_r. pose proof (byte_char (fun c => implb (is_digit c) (code c <? 128)) ltac:(by vm_compute) c) as X.
  cbv beta in X. by rewrite Hc in X.
Qed.

Lemma zeros_digits n : sforall is_digit (zeros n) = true.
Proof. unfold zeros. induction (Z.to_nat n) as [|k IH]; [done|exact IH]. Qed.

Lemma padded_digits w n : sforall is_digit (padded w n) = true.
Proof. unfold padded. by rewrite sforall_append zeros_digits format_uint_digits. Qed.

Lemma trim_right_digits p s : sforall is_digit s = true -> sforall is_digit (trim_right p s) = true.
Proof.
  induction s as [|c s IH]; [done|]. cbn [sforall trim_right]. intros [Hc Hs]%andb_true_iff. specialize (IH Hs).
  destruct (trim_right p s) as [|d t]; [destruct (p c); [done|by rewrite /= Hc]|].
  cbn [sforall] in *. by rewrite Hc.
Qed.

Lemma rfc3339_ascii t : is_ascii (rfc3339_nano t) = true.
Proof.
  unfold rfc3339_nano. destruct (civil _) as [[year month] day]. rewrite !sforall_append.
  rewrite !(digits_ascii _ (zeros_digits _)) !(digits_ascii _ (format_uint_digits _)). case_match; [done|].
  rewrite sforall_append. by rewrite (digits_ascii _ (trim_right_digits _ _ (padded_digits _ _))).
Qed.

Lemma json_ok_object d l :
  Forall (fun kv => utf8_valid (fst kv) = true /\ json_ok d (snd kv)) l -> json_ok (S d) (JObject l).
Proof. done. Qed.

Lemma Forall_string_json d name s : utf8_valid name = true -> utf8_valid s = true ->
  Forall (fun kv => utf8_valid (fst kv) = true /\ json_ok (S d) (snd kv)) (string_json name s).
Proof. intros N S. unfold string_json, omitempty. case_match; [done|]. by apply Forall_singleton. Qed.

Lemma Forall_time_json d name t : utf8_valid name = true ->
  Forall (fun kv => utf8_valid (fst kv) = true /\ json_ok (S d) (snd kv)) (time_json name t).
Proof.
  intros N. unfold time_json. case_match; [|done]. apply Forall_singleton. split; [done|]. apply ascii_utf8, rfc3339_ascii.
Qed.

Theorem frame_text_exact f : frame_utf8 f -> json_parse (frame_text f) = Some (frame_json f).
Proof.
  intros [H R]. apply json_parse_printed.
  assert (exists k, maxNestingDepth = S (S (S (S k)))) as [k ->] by (exists (Z.to_nat 9996); unfold maxNestingDepth; lia).
  repeat match goal with X : Forall _ (_ :: _) |- _ => apply Forall_cons in X as [? X] end.
  apply json_ok_object. constructor; [done|].
  repeat (apply Forall_app; split); try (by apply Forall_string_json); try (by apply Forall_time_json);
    unfold omitempty; case_match; try done; apply Forall_singleton; (split; [done|]).
  - apply itoa_number.
  - cbn [snd json_ok]. apply Forall_fmap. eapply Forall_impl; [exact R|]. intros e He. unfold compose.
    cbn [replay_json json_ok]. repeat constructor; cbn [fst snd]; try done; apply itoa_number.
Qed.

(** ** A concrete exchange *)

Lemma client_frame_roundtrip_witness :
  unmarshal_client_frame (json_print (client_frame_json (mkClientFrame "resize" "" 80 24))) =
  Some (mkClientFrame "resize" "" 80 24).
Proof. apply (client_frame_roundtrip (mkClientFrame "resize" "" 80 24)); [reflexivity..|unfold min_int64, max_int64; cbn; lia|unfold min_int64, max_int64; cbn; lia]. Defined.

Example error_reply_text :
  let q := String quote "" in
  reply_text (ErrorBody "a" "b<") =
    "{" +:+ q +:+ "type" +:+ q +:+ ":" +:+ q +:+ "error" +:+ q +:+ "," +:+ q +:+ "code" +:+ q +:+ ":" +:+ q +:+ "a" +:+ q +:+ ","
    +:+ q +:+ "message" +:+ q +:+ ":" +:+ q +:+ "b\u003c" +:+ q +:+ "}" +:+ lf.
Proof. by vm_compute. Qed.
