(* ===== verification/ProxyProtocol.v ===== *)
(** * The PROXY protocol and forwarding headers

    Models [proxy/proxyprotocol]: recognition of a PROXY header at the start of a
    connection, the table of client identities, and the forwarding headers put
    on proxied requests.  A connection is the string of bytes it will deliver. *)

From S2P Require Import Prelude GoString GoHash GoNet GoUrl GoCookie Message Delegation Http.

Definition prefix : string := "PROXY ".
Definition maxProxyHeaderBytes : Z := 108.
Definition crlf : string := cr +:+ lf.

Inductive proxy_error :=
| PeekError | BadHeader | BadParts | UnknownType | InvalidIP (s : string) | InvalidPort (s : string)
| FamilyMismatch.

(** The result of [checkPrefix]: the connection goes on with the bytes [rest]; a
    header may have been read; an error may have closed it. *)
Inductive prefix_result (I : Type) :=
| NoHeader
| Header_ (info : I) (rest : string)
| Failed (e : proxy_error) (closed : bool).
Arguments NoHeader {I}.
Arguments Header_ {I}.
Arguments Failed {I}.

Record TCPAddr := mkAddr { a_IP : IP; a_Port : Z }.
Record ProxyProtoInfo := mkInfo { Protocol : string; ClientAddr : TCPAddr; ProxyAddr : TCPAddr }.

Definition parseAddr (ipStr portStr : string) : result proxy_error TCPAddr :=
  match ParseIP ipStr with
  | None => Err (InvalidIP ipStr)
  | Some ip =>
      match parse_int portStr with
      | None => Err (InvalidPort portStr)
      | Some port => if (port <? 1) || (65535 <? port) then Err (InvalidPort portStr) else Ok (mkAddr ip port)
      end
  end.

(** The loop that peeks [i] bytes for [i = 1 .. 6]: an error, a mismatch ([false])
    or the whole prefix. *)
Fixpoint peek_prefix (p input : string) : option bool :=
  match p with
  | EmptyString => Some true
  | String c p =>
      match input with
      | EmptyString => None
      | String d input => if bool_decide (c = d) then peek_prefix p input else Some false
      end
  end.

(** [ReadSlice('\n')] on a buffer of 108 bytes: the line with its line feed and
    what follows. *)
Definition read_line (input : string) : option (string * string) :=
  match cut lf input with
  | Some (line, rest) =>
      if go_len line + 1 <=? maxProxyHeaderBytes then Some (line +:+ lf, rest) else None
  | None => None
  end.

Definition parse_header (header_ : string) : result proxy_error ProxyProtoInfo :=
  match split header_ " " with
  | [_; typ; src; dst; sport; dport] =>
      if negb (bool_decide (typ = "TCP4")) && negb (bool_decide (typ = "TCP6")) then Err UnknownType
      else
        srcAddr ← parseAddr src sport;
        destAddr ← parseAddr dst dport;
        if bool_decide (typ = "TCP4") && (negb (Is4 (a_IP srcAddr)) || negb (Is4 (a_IP destAddr)))
           || bool_decide (typ = "TCP6") && (Is4 (a_IP srcAddr) || Is4 (a_IP destAddr))
        then Err FamilyMismatch
        else Ok (mkInfo typ srcAddr destAddr)
  | _ => Err BadParts
  end.

Definition checkPrefix (allow : bool) (input : string) : prefix_result ProxyProtoInfo :=
  if negb allow then NoHeader
  else match peek_prefix prefix input with
  | None => Failed PeekError false
  | Some false => NoHeader
  | Some true =>
      match read_line input with
      | None => Failed BadHeader true
      | Some (headerBytes, rest) =>
          if (maxProxyHeaderBytes <? go_len headerBytes) || negb (has_suffix headerBytes crlf)
          then Failed BadHeader true
          else match parse_header (stake (String.length headerBytes - 2) headerBytes) with
               | Err e => Failed e true
               | Ok info => Header_ info rest
               end
      end
  end.

(** [net.Addr]: a [*net.TCPAddr], whose IP may be nil, or anything with a text. *)
Inductive net_addr := TCP_ (ip : IP) | Other_ (text : string).

Definition peer_ip (address : option net_addr) : IP :=
  match address with
  | Some (TCP_ ip) => ip
  | Some (Other_ text) => match SplitHostPort text with Some (host, _) => default [] (ParseIP host) | None => [] end
  | None => []
  end.

Definition trustedProxySource (address : option net_addr) (trusted : list (option IPNet)) : bool :=
  let ip := peer_ip address in
  if bool_decide (ip = []) then false
  else match trusted with
       | [] => IsLoopback ip
       | _ => existsb (fun n => match n with Some net => Contains net ip | None => false end) trusted
       end.

(** ** Identities by remote address *)

Definition putInfo (clientAddr : string) (info : ProxyProtoInfo) (m : gmap string ProxyProtoInfo) :=
  <[clientAddr:=info]> m.
Definition getInfo (clientAddr : string) (m : gmap string ProxyProtoInfo) : option ProxyProtoInfo :=
  m !! clientAddr.
Definition deleteInfo (clientAddr : string) (m : gmap string ProxyProtoInfo) := delete clientAddr m.

(** A connection: its peer, whether headers are allowed, whether the first read
    happened, whether it was closed, and the bytes still to be read. *)
Record Conn := mkConn { remote : string; allow : bool; once : bool; conn_closed : bool; pending : string }.

(** [newConn]: [input] is what the peer sends. *)
Definition newConn (addr : string) (allow_ : bool) (input : string) : Conn := mkConn addr allow_ false false input.
Definition NewConn (addr input : string) : Conn := newConn addr true input.

(** [Accept] of the listener for a peer with this address. *)
Definition accept (trusted : list (option IPNet)) (addr : string) (address : option net_addr)
  (input : string) : Conn :=
  newConn addr (trustedProxySource address trusted) input.

(** [Close] *)
Definition close_conn (c : Conn) : Conn := mkConn (remote c) (allow c) (once c) true (pending c).

(** [Read]: the header check runs once; the result is an error or the bytes
    available from now on. *)
Definition read (c : Conn) (m : gmap string ProxyProtoInfo)
  : Conn * gmap string ProxyProtoInfo * result proxy_error string :=
  if once c then (c, m, Ok (pending c))
  else match checkPrefix (allow c) (pending c) with
  | NoHeader => (mkConn (remote c) (allow c) true (conn_closed c) (pending c), m, Ok (pending c))
  | Header_ info rest =>
      (mkConn (remote c) (allow c) true (conn_closed c) rest, putInfo (remote c) info m, Ok rest)
  | Failed e closed_ => (mkConn (remote c) (allow c) true (conn_closed c || closed_) (pending c), m, Err e)
  end.

(** [StateCleanup] *)
Definition StateCleanup (addr : string) (closed_ : bool) (m : gmap string ProxyProtoInfo) :=
  if closed_ then deleteInfo addr m else m.

(** ** Forwarding headers *)

Definition xForwardedProto : string := "X-Forwarded-Proto".
Definition xForwardedPort : string := "X-Forwarded-Port".
Definition xForwardedFor : string := "X-Forwarded-For".
Definition xForwardedHost : string := "X-Forwarded-Host".

Definition is_square (c : ascii) : bool := bool_decide (c = "["%char) || bool_decide (c = "]"%char).

Definition requestClientIP (m : gmap string ProxyProtoInfo) (req : request) : string :=
  match getInfo (RemoteAddr req) m with
  | Some info => ip_string (a_IP (ClientAddr info))
  | None =>
      match SplitHostPort (RemoteAddr req) with
      | Some (host, _) => host
      | None => trim is_square (RemoteAddr req)
      end
  end.

Definition publicOriginMatchesRequest (req : request) (origin : option url) : bool :=
  match origin with
  | None => false
  | Some origin =>
      if bool_decide (ReqHost req = "") then false
      else match url_parse ("//" +:+ ReqHost req) with
      | None => false
      | Some authority =>
          if HasUser authority || bool_decide (Hostname authority = "") then false
          else if negb (equal_fold (Hostname authority) (Hostname origin)) then false
          else
            let defaultPort := if bool_decide (Scheme origin = "https") then "443" else "80" in
            let or_default p := if bool_decide (p = "") then defaultPort else p in
            bool_decide (or_default (Port_ authority) = or_default (Port_ origin))
      end
  end.

Definition AddHeaders (httpsPorts : list Z) (publicOrigin : option url) (m : gmap string ProxyProtoInfo)
  (req : request) : request :=
  let h := Header req in
  let h := match getInfo (RemoteAddr req) m with
           | Some info =>
               let proto := if bool_decide (a_Port (ProxyAddr info) ∈ httpsPorts) then "https" else "http" in
               header_set xForwardedFor (ip_string (a_IP (ClientAddr info)))
                 (header_set xForwardedPort (itoa (a_Port (ProxyAddr info)))
                    (header_set xForwardedProto proto h))
           | None =>
               let proto := match PeerCommonNames req with Some _ => "https" | None => "http" end in
               header_set xForwardedFor (requestClientIP m req)
                 (header_del xForwardedPort (header_set xForwardedProto proto h))
           end in
  let h := match publicOrigin with
           | Some origin =>
               if publicOriginMatchesRequest req publicOrigin
               then
                 let port := if bool_decide (Port_ origin = "")
                             then (if bool_decide (Scheme origin = "https") then "443" else "80")
                             else Port_ origin in
                 header_set xForwardedPort port
                   (header_set xForwardedHost (Host origin) (header_set xForwardedProto (Scheme origin) h))
               else header_set xForwardedHost (ReqHost req) h
           | None => header_set xForwardedHost (ReqHost req) h
           end in
  set_header h req.

Definition AddForwardedFor (m : gmap string ProxyProtoInfo) (req : request) : request :=
  set_header (header_set xForwardedFor (requestClientIP m req) (Header req)) req.

(** ** Lemmas *)

Lemma peek_prefix_append p s : peek_prefix p (p +:+ s) = Some true.
Proof. induction p as [|c p IH]; [done|]. rewrite append_cons. simpl. by rewrite bool_decide_eq_true_2. Qed.

Lemma read_line_crlf (line rest : string) :
  lacks (chr 10) line = true -> go_len line + go_len crlf <= maxProxyHeaderBytes ->
  read_line ((line +:+ crlf) +:+ rest) = Some (line +:+ crlf, rest).
Proof.
  intros H L. unfold read_line, crlf. rewrite !append_assoc -(append_assoc line cr).
  unfold lf. rewrite (cut_skip (chr 10) "" (line +:+ cr) rest).
  - rewrite append_assoc go_len_append. change (go_len cr) with 1. change (go_len crlf) with 2 in L.
    rewrite (proj2 (Z.leb_le _ _)); [done|lia].
  - rewrite sforall_append. apply andb_true_iff. split; [exact H|done].
Qed.

(** The header line a proxy sends. *)
Definition header_parts (i : ProxyProtoInfo) : list string :=
  ["PROXY"; Protocol i; ip_string (a_IP (ClientAddr i)); ip_string (a_IP (ProxyAddr i));
   itoa (a_Port (ClientAddr i)); itoa (a_Port (ProxyAddr i))].
Definition render (i : ProxyProtoInfo) : string := join " " (header_parts i) +:+ crlf.

Definition valid_addr (a : TCPAddr) : Prop := ip16 (a_IP a) /\ 1 <= a_Port a <= 65535.

Definition valid_info (i : ProxyProtoInfo) : Prop :=
  (Protocol i = "TCP4" /\ Is4 (a_IP (ClientAddr i)) = true /\ Is4 (a_IP (ProxyAddr i)) = true \/
   Protocol i = "TCP6" /\ Is4 (a_IP (ClientAddr i)) = false /\ Is4 (a_IP (ProxyAddr i)) = false) /\
  valid_addr (ClientAddr i) /\ valid_addr (ProxyAddr i).

Lemma parseAddr_printed (a : TCPAddr) :
  valid_addr a -> parseAddr (ip_string (a_IP a)) (itoa (a_Port a)) = Ok a.
Proof.
  intros [I H]. unfold parseAddr. rewrite ip_roundtrip // parse_int_itoa; [|unfold min_int64, max_int64; lia].
  rewrite (proj2 (Z.ltb_ge _ 1)); [|lia]. rewrite (proj2 (Z.ltb_ge 65535 _)); [|lia]. by destruct a.
Qed.

Lemma parts_lack i x : valid_info i -> is_digit x = false -> x = " "%char \/ x = chr 10 ->
  Forall (fun p => lacks x p = true) (header_parts i).
Proof.
  intros (T & [I1 P1] & [I2 P2]) Hd Hx. unfold header_parts.
  assert (lacks x "PROXY" = true /\ lacks x (Protocol i) = true) as [L1 L2].
  { destruct T as [(-> & _)|(-> & _)]; destruct Hx as [-> | ->]; done. }
  repeat constructor; try done; try (apply itoa_lacks; [lia|done]); destruct Hx as [-> | ->]; by apply ip_string_lacks.
Qed.

Lemma parse_header_printed i : valid_info i ->
  parse_header (join " " (header_parts i)) = Ok i.
Proof.
  intros V. unfold parse_header. rewrite (split_join " " (header_parts i)); [|done|].
  2: { apply parts_lack; [done|done|by left]. }
  destruct V as (T & P1 & P2). cbn [header_parts]. rewrite !parseAddr_printed //.
  destruct i as [typ [cip cport] [pip pport]]. simpl in *.
  destruct T as [(-> & T1 & T2)|(-> & T1 & T2)]; by rewrite /= T1 T2.
Qed.

(** A header fits into the buffer of the reader, whatever the addresses. *)
Lemma render_length i : valid_info i -> go_len (render i) <= maxProxyHeaderBytes.
Proof.
  intros (T & [I1 P1] & [I2 P2]). unfold render, header_parts. cbn [join]. rewrite !go_len_append.
  pose proof (ip_string_length _ I1). pose proof (ip_string_length _ I2).
  pose proof (itoa_port (a_Port (ClientAddr i)) ltac:(lia)). pose proof (itoa_port (a_Port (ProxyAddr i)) ltac:(lia)).
  assert (go_len (Protocol i) = 4) as -> by (by destruct T as [(-> & _)|(-> & _)]).
  change (go_len "PROXY") with 5. change (go_len " ") with 1. change (go_len cr + go_len lf) with 2. unfold maxProxyHeaderBytes. lia.
Qed.

(** Every well-formed PROXY header, for IPv4 or IPv6, is recognised: the client's
    identity is read exactly as it was sent, and the bytes after the header, whatever
    they are, are left for the application. *)
Theorem proxy_header_roundtrip i rest :
  valid_info i -> checkPrefix true (render i +:+ rest) = Header_ i rest.
Proof.
  intros V. pose proof (render_length i V) as L. unfold checkPrefix. cbn [negb].
  assert (peek_prefix prefix (render i +:+ rest) = Some true) as ->.
  { unfold render, header_parts. cbn [join]. rewrite !append_assoc.
    change "PROXY" with ("" +:+ "PROXY"). apply (peek_prefix_append prefix). }
  assert (read_line (render i +:+ rest) = Some (render i, rest)) as ->.
  { apply read_line_crlf; [|by unfold render in L; rewrite go_len_append in L].
    unfold lacks. rewrite sforall_join //. apply forallb_forall. intros x Hx%list_elem_of_In.
    pose proof (parts_lack i (chr 10) V ltac:(done) ltac:(by right)) as F.
    rewrite -> Forall_forall in F. by apply F. }
  rewrite (proj2 (Z.ltb_ge _ _)) //. unfold render at 1. rewrite has_suffix_append. cbn [orb negb].
  unfold render. rewrite length_append. change (String.length crlf) with 2%nat.
  replace (String.length (join " " (header_parts i)) + 2 - 2)%nat with (String.length (join " " (header_parts i))) by lia.
  by rewrite stake_append parse_header_printed.
Qed.

Definition forwarding_names : list string :=
  ["X-Forwarded-Proto"; "X-Forwarded-Port"; "X-Forwarded-For"; "X-Forwarded-Host"].

(** C39: The forwarding headers of a proxied request cannot be forged: whatever
    values of them the client sends, under any spelling of their names, the
    headers after [AddHeaders] and [AddForwardedFor] are the same; they depend on
    the connection, the proxy's own configuration and the [Host] only. *)
Theorem forwarding_headers_unforgeable httpsPorts origin m req h1 h2 :
  (forall k, k ∉ forwarding_names -> h1 !! k = h2 !! k) ->
  let out h := Header (AddForwardedFor m
                 (AddHeaders httpsPorts origin m (set_header h req))) in
  out h1 = out h2.
Proof.
  intros E out. unfold out, AddForwardedFor, AddHeaders, header_set, header_del.
  cbn [set_header Header RemoteAddr PeerCommonNames].
  change (canonical xForwardedProto) with "X-Forwarded-Proto". change (canonical xForwardedPort) with "X-Forwarded-Port".
  change (canonical xForwardedFor) with "X-Forwarded-For". change (canonical xForwardedHost) with "X-Forwarded-Host".
  assert (forall k, h1 !! k = h2 !! k \/ k = "X-Forwarded-Proto" \/ k = "X-Forwarded-Port" \/
    k = "X-Forwarded-For" \/ k = "X-Forwarded-Host") as C.
  { intros k. destruct (decide (k ∈ forwarding_names)) as [Hk|Hk]; [right|by left; apply E].
    unfold forwarding_names in Hk. rewrite !elem_of_cons in Hk.
    destruct Hk as [->|[->|[->|[->|Hk]]]]; auto. by apply not_elem_of_nil in Hk. }
  apply map_eq. intros k.
  destruct (getInfo (RemoteAddr req) m); destruct origin as [o|];
    try (change (publicOriginMatchesRequest (set_header h1 req) (Some o))
      with (publicOriginMatchesRequest (set_header h2 req) (Some o)));
    try (destruct (publicOriginMatchesRequest _ _));
    destruct (C k) as [Hk|[->|[->|[->| ->]]]];
    rewrite !lookup_insert ?lookup_delete; repeat case_decide; try done;
    rewrite ?lookup_insert ?lookup_delete; repeat case_decide; try done;
    rewrite ?lookup_insert ?lookup_delete; repeat case_decide; done.
Qed.

(** A connection whose peer is not a trusted proxy (or, when none is configured,
    not local) can neither set nor change an identity: its bytes reach the
    application untouched, even if they start with a PROXY header, and its own
    identity is forgotten once it is closed. *)
Theorem untrusted_peer_transparent trusted addr ip input (m : gmap string ProxyProtoInfo) :
  trustedProxySource ip trusted = false ->
  read (accept trusted addr ip input) m =
    (mkConn addr false true false input, m, Ok input) /\
  getInfo addr (StateCleanup addr true m) = None /\
  forall other, other <> addr -> getInfo other (StateCleanup addr true m) = getInfo other m.
Proof.
  intros T. unfold read, accept. rewrite T. split_and!; [done| |].
  - unfold getInfo, StateCleanup, deleteInfo. by rewrite lookup_delete_eq.
  - intros other N. unfold getInfo, StateCleanup, deleteInfo. by rewrite lookup_delete_ne.
Qed.

(** ** Witnesses *)

Module ProxyDemo.
Definition address : IP := [32; 1; 13; 184; 0; 0; 0; 0; 0; 0; 0; 0; 0; 0; 0; 1].
Definition info : ProxyProtoInfo := mkInfo "TCP6" (mkAddr address 40000) (mkAddr address 443).
Lemma info_valid : valid_info info.
Proof. split; [by right|]. split; (split; [|simpl; lia]); (split; [done|]); by repeat constructor. Qed.
End ProxyDemo.
Import ProxyDemo.

Lemma proxy_header_roundtrip_witness :
  checkPrefix true (("PROXY TCP6 2001:db8::1 2001:db8::1 40000 443" +:+ crlf) +:+ "GET /") = Header_ info "GET /".
Proof. exact (proxy_header_roundtrip info "GET /" info_valid). Defined.

Lemma forwarding_headers_unforgeable_witness :
  let req h := mkRequest "GET" (path_url "/") "proxy" "10.9.9.9:1" h None ∅ in
  let out h := Header (AddForwardedFor ∅ (AddHeaders [443] None ∅ (set_header h (req ∅)))) in
  out (header_set "x-forwarded-for" "1.2.3.4" ∅) = out ∅.
Proof.
  cbv zeta.
  apply (forwarding_headers_unforgeable [443] None ∅
    (mkRequest "GET" (path_url "/") "proxy" "10.9.9.9:1" ∅ None ∅)
    (header_set "x-forwarded-for" "1.2.3.4" ∅) ∅).
  intros k Hk. unfold header_set. change (canonical "x-forwarded-for") with "X-Forwarded-For".
  rewrite lookup_insert_ne //. intros <-. apply Hk. unfold forwarding_names. set_solver.
Defined.

Lemma untrusted_peer_transparent_witness :
  read (accept [] "10.1.2.3:5" (Some (Other_ "10.1.2.3:5")) "PROXY TCP4") ∅ =
    (mkConn "10.1.2.3:5" false true false "PROXY TCP4", ∅, Ok "PROXY TCP4").
Proof.
  refine (proj1 (untrusted_peer_transparent [] "10.1.2.3:5" (Some (Other_ "10.1.2.3:5")) "PROXY TCP4" ∅ _)). by vm_compute.
Defined.
