(* ===== verification/HttpPipe.v ===== *)
(** * HTTP over a stream of the multiplexer

    Models [proxy/backend_http_pipe.go], [backend_http_reader.go] and
    [backend_http_writer.go]: an HTTP exchange with a service on a host, carried
    as JSON [HTTPMessage]s in the bodies of one stream.  The JSON of a message is
    computed (on [GoJson]'s texts and trees); the response writer is an interface,
    with the [net/http] one as an instance. *)

From S2P Require Import Prelude GoString GoHash GoNet GoUrl GoCookie GoJson Message Multiplexer Backend Delegation Http.

Record HTTPMessage := mkHTTP {
  Hijack : bool; MHost : string; MMethod : string; MURL : string; MHeaders : header;
  Code : Z; MBody : string; EOF : bool }.

Definition eof_message : HTTPMessage := mkHTTP false "" "" "" ∅ 0 "" true.
Definition body_message (data : string) : HTTPMessage := mkHTTP false "" "" "" ∅ 0 data false.

(** ** The JSON of a message *)

(** [json.Marshal]: the fields in order, the empty ones left out. *)
Definition message_json (m : HTTPMessage) : json :=
  JObject (omitempty "hijack" (negb (Hijack m)) (JBool true)
    ++ omitempty "host" (bool_decide (MHost m = "")) (JString (MHost m))
    ++ omitempty "method" (bool_decide (MMethod m = "")) (JString (MMethod m))
    ++ omitempty "url" (bool_decide (MURL m = "")) (JString (MURL m))
    ++ omitempty "headers" (bool_decide (MHeaders m = ∅)) (header_json (MHeaders m))
    ++ omitempty "code" (bool_decide (Code m = 0)) (JNumber (itoa (Code m)))
    ++ omitempty "body" (bool_decide (MBody m = "")) (JString (b64_encode (bytes_of (MBody m))))
    ++ omitempty "eof" (negb (EOF m)) (JBool true)).
Definition marshal (m : HTTPMessage) : string := json_print (message_json m).

(** [json.Unmarshal] into a fresh message: members in order, later ones win, unknown
    ones are skipped, and headers given twice are merged.  (Null elements of a body
    that is given twice as an array are not distinguished from zeros.) *)
Definition set_field (m : HTTPMessage) (key : string) (j : json) : option HTTPMessage :=
  let '(mkHTTP hijack host method url headers code body eof) := m in
  if field_is "hijack" key then (fun x => mkHTTP x host method url headers code body eof) <$> json_set_bool j hijack
  else if field_is "host" key then (fun x => mkHTTP hijack x method url headers code body eof) <$> json_set_string j host
  else if field_is "method" key then (fun x => mkHTTP hijack host x url headers code body eof) <$> json_set_string j method
  else if field_is "url" key then (fun x => mkHTTP hijack host method x headers code body eof) <$> json_set_string j url
  else if field_is "headers" key then (fun x => mkHTTP hijack host method url x code body eof) <$> set_headers j headers
  else if field_is "code" key then (fun x => mkHTTP hijack host method url headers x body eof) <$> json_set_int j code
  else if field_is "body" key then (fun x => mkHTTP hijack host method url headers code x eof) <$> json_bytes j
  else if field_is "eof" key then (fun x => mkHTTP hijack host method url headers code body x) <$> json_set_bool j eof
  else Some m.
Definition zero_message : HTTPMessage := mkHTTP false "" "" "" ∅ 0 "" false.
Definition unmarshal (s : string) : option HTTPMessage := json_parse s ≫= json_struct set_field zero_message.

(** A message whose texts are UTF-8 and whose code is a machine integer. *)
Definition message_ok (m : HTTPMessage) : Prop :=
  utf8_valid (MHost m) = true /\ utf8_valid (MMethod m) = true /\ utf8_valid (MURL m) = true /\
  map_Forall (fun k vs => utf8_valid k = true /\ Forall (fun v => utf8_valid v = true) vs) (MHeaders m) /\
  min_int64 <= Code m <= max_int64.

Lemma set_fields_omitempty name e j m m' :
  (e = true -> m' = m) -> (e = false -> set_field m name j = Some m') -> json_fields set_field (omitempty name e j) m = Some m'.
Proof. unfold omitempty. destruct e; intros H H'; [by rewrite H|]. unfold json_fields. cbn. by rewrite H'. Qed.

Lemma message_json_ok m : message_ok m -> json_ok maxNestingDepth (message_json m).
Proof.
  intros (Hh & Hm & Hu & Hd & Hc). assert (exists k, maxNestingDepth = S (S (S k))) as [k ->].
  { exists (Z.to_nat 9997). unfold maxNestingDepth. lia. }
  cbn [message_json json_ok]. unfold omitempty. rewrite !Forall_app.
  split_and!; case_match; try done; apply Forall_singleton; (split; [done|]); cbn [snd]; try done.
  - cbn [header_json json_ok]. apply Forall_fmap, Forall_forall. intros x [vs Hx]%header_names_elem.
    unfold compose. cbn [fst snd].
    destruct (Hd x vs Hx) as [Vx Vs]. rewrite Hx. split; [done|]. apply Forall_fmap.
    eapply Forall_impl; [exact Vs|]. intros v Hv. by destruct k.
  - apply itoa_number.
  - cbn [json_ok]. apply ascii_utf8, b64_ascii, bytes_of_bytes.
Qed.

(** One field after the other: the message so far is [m]. *)
Ltac read_field m := rewrite json_fields_app (set_fields_omitempty _ _ _ _ m); [cbn [mbind option_bind]| |].
Ltac unset := by intros ->%bool_decide_eq_true.

(** A message is read back as it was written. *)
Lemma message_roundtrip m : message_ok m -> unmarshal (marshal m) = Some m.
Proof.
  intros O. unfold unmarshal, marshal. rewrite (json_parse_printed _ (message_json_ok m O)). cbn [mbind option_bind message_json json_struct].
  destruct m as [hijack host method url headers code body eof]. destruct O as (_ & _ & _ & _ & Hc).
  cbn [Hijack MHost MMethod MURL MHeaders Code MBody EOF] in *.
  read_field (mkHTTP hijack "" "" "" ∅ 0 "" false); [|by destruct hijack..].
  read_field (mkHTTP hijack host "" "" ∅ 0 "" false); [|unset|done].
  read_field (mkHTTP hijack host method "" ∅ 0 "" false); [|unset|done].
  read_field (mkHTTP hijack host method url ∅ 0 "" false); [|unset|done].
  read_field (mkHTTP hijack host method url headers 0 "" false); [|unset|].
  2: { intros _. unfold set_field. cbn -[header_json]. by rewrite set_headers_printed. }
  read_field (mkHTTP hijack host method url headers code "" false); [|unset|].
  2: { intros _. change (set_field _ _ _) with ((fun x => mkHTTP hijack host method url headers x "" false) <$> parse_int (itoa code)).
    by rewrite parse_int_itoa. }
  read_field (mkHTTP hijack host method url headers code body false); [|unset|].
  2: { intros _. change (set_field _ _ _) with ((fun x => mkHTTP hijack host method url headers code x false) <$>
      (string_of <$> b64_decode (b64_encode (bytes_of body)))).
    rewrite (b64_roundtrip _ (bytes_of_bytes body)). cbn [fmap option_fmap option_map]. by rewrite string_of_bytes. }
  apply set_fields_omitempty; by destruct eof.
Qed.

(** Body chunks and the end mark carry no texts but the body. *)
Lemma plain_message_ok data eof : message_ok (mkHTTP false "" "" "" ∅ 0 data eof).
Proof. split_and!; [done..| |done|done]. apply map_Forall_empty. Qed.

(** ** [http.ResponseWriter] *)

Class ResponseWriter (W : Type) := {
  rw_add_headers : header -> W -> W;         (* [rw.Header()[k] = v] for each entry *)
  rw_WriteHeader : Z -> W -> W;
  rw_Write : string -> W -> W * bool;        (* the flag: no error *)
  (* writing in two parts is writing at once *)
  rw_Write_law : forall s t w, s <> "" -> t <> "" ->
    rw_Write (s +:+ t) w = let '(w1, ok) := rw_Write s w in if ok then rw_Write t w1 else (w1, false) }.

(** The server's implementation in [net/http]: the header map, the informational
    responses, the status line with the headers sent with it, and the body.
    [WriteHeader] panics on a code that has not three digits; the check of a
    declared content length is left out. *)
Record server_writer := mkServer {
  sw_header : header; sw_info : list Z; sw_sent : option (Z * header); sw_body : string;
  sw_hijacked : bool; sw_panicked : bool }.

Definition sw_add_headers (h : header) (w : server_writer) : server_writer :=
  mkServer (h ∪ sw_header w) (sw_info w) (sw_sent w) (sw_body w) (sw_hijacked w) (sw_panicked w).

Definition sw_WriteHeader (code : Z) (w : server_writer) : server_writer :=
  if sw_hijacked w then w
  else match sw_sent w with
  | Some _ => w
  | None =>
      if (code <? 100) || (999 <? code) then
        mkServer (sw_header w) (sw_info w) (sw_sent w) (sw_body w) (sw_hijacked w) true
      else if (code <=? 199) && negb (code =? 101) then
        mkServer (sw_header w) (sw_info w ++ [code]) None (sw_body w) (sw_hijacked w) (sw_panicked w)
      else mkServer (sw_header w) (sw_info w) (Some (code, sw_header w)) (sw_body w) (sw_hijacked w)
             (sw_panicked w)
  end.

Definition body_allowed (code : Z) : bool :=
  negb ((100 <=? code) && (code <=? 199) || (code =? 204) || (code =? 304)).

Definition sw_Write (data : string) (w : server_writer) : server_writer * bool :=
  if sw_hijacked w then (w, false)
  else
    let w := sw_WriteHeader 200 w in
    match sw_sent w with
    | Some (code, _) =>
        if bool_decide (data = "") then (w, true)
        else if body_allowed code then
          (mkServer (sw_header w) (sw_info w) (sw_sent w) (sw_body w +:+ data) (sw_hijacked w) (sw_panicked w), true)
        else (w, false)
    | None => (w, false)
    end.

Lemma sw_sent_200 w : sw_hijacked w = false -> is_Some (sw_sent (sw_WriteHeader 200 w)).
Proof. intros H. unfold sw_WriteHeader. rewrite H. destruct (sw_sent w) eqn:E; [by rewrite E|by eexists]. Qed.

Lemma sw_Write_app s t w :
  s <> "" -> t <> "" ->
  sw_Write (s +:+ t) w = let '(w1, ok) := sw_Write s w in if ok then sw_Write t w1 else (w1, false).
Proof.
  intros Ns Nt. unfold sw_Write at 1 2. destruct (sw_hijacked w) eqn:Hj; [done|].
  destruct (sw_sent_200 w Hj) as [[code h] Es]. rewrite Es.
  rewrite (bool_decide_eq_false_2 _ Ns) bool_decide_eq_false_2; [|by destruct s].
  destruct (body_allowed code) eqn:A; [|done].
  assert (sw_hijacked (sw_WriteHeader 200 w) = false) as Hj'.
  { unfold sw_WriteHeader. rewrite Hj. by repeat case_match. }
  set (v := sw_WriteHeader 200 w) in *. unfold sw_Write. cbn [sw_hijacked]. rewrite Hj'.
  unfold sw_WriteHeader. cbn [sw_hijacked sw_sent].
  rewrite (bool_decide_eq_false_2 _ Nt) A. cbn [sw_header sw_info sw_body sw_hijacked sw_panicked].
  by rewrite append_assoc.
Qed.

#[export] Instance server_ResponseWriter : ResponseWriter server_writer := {|
  rw_add_headers := sw_add_headers; rw_WriteHeader := sw_WriteHeader; rw_Write := sw_Write;
  rw_Write_law := sw_Write_app |}.

(** ** The reader *)

Inductive copy_error := BadMessage | BadStatus | WriteFailed.

Section Reader.
Context {B W : Type} `{BP : backendProxy B} `{RW : ResponseWriter W}.

(** [start]: what the goroutine passes on while it consumes the messages of the
    stream, and the connection it closes. *)
Fixpoint start (host key : string) (closed : bool) (l : list Message) (b : B) : B * list string :=
  match l with
  | [] => (b, [])
  | m :: l =>
      if closed then start host key closed l b
      else if bool_decide (Type_ m = Body) then
        let '(b, data) := start host key closed l b in (b, Body_ m :: data)
      else if bool_decide (Type_ m = Close) then
        start host key true l (fst (bp_closeConnection b host key))
      else start host key closed l b
  end.

(** [Close] of the reader: it closes the stream, and then discards what [start]
    still passes on until the channel ends. *)
Definition closeReader (host key : string) (b : B) : B := fst (bp_closeConnection b host key).

(** The reader: its buffer, what is still to come on its channel (which is then
    closed), and the response it writes headers to. *)
Record BackendHTTPReader := mkReader { buffer : string; data : list string; rw : W }.

Inductive read_error := ReadEOF | ReadError (e : copy_error).

(** [Read] into a slice of length [n]. *)
Definition Read (n : Z) (r : BackendHTTPReader) : BackendHTTPReader * result read_error string :=
  let copy (r : BackendHTTPReader) :=
    (mkReader (sdrop (Z.to_nat n) (buffer r)) (data r) (rw r), Ok (stake (Z.to_nat n) (buffer r))) in
  if negb (bool_decide (buffer r = "")) then copy r
  else match data r with
  | [] => (r, Err ReadEOF)
  | message :: rest =>
      let r := mkReader "" rest (rw r) in
      match unmarshal message with
      | None => (r, Err (ReadError BadMessage))
      | Some response =>
          if EOF response then (r, Err ReadEOF)
          else if negb (Code response =? 0) && ((Code response <? 100) || (999 <? Code response)) then
            (r, Err (ReadError BadStatus))
          else
            let w := rw_add_headers (MHeaders response) (rw r) in
            let w := if 0 <? Code response then rw_WriteHeader (Code response) w else w in
            copy (mkReader (MBody response) rest w)
      end
  end.

(** [io.Copy] from the reader to [out]; [None] when the fuel does not suffice. *)
Fixpoint io_copy (fuel : nat) (out : string -> W -> W * bool) (n : Z) (r : BackendHTTPReader)
  : option (W * option copy_error) :=
  match fuel with
  | O => None
  | S fuel =>
      match Read n r with
      | (r, Err ReadEOF) => Some (rw r, None)
      | (r, Err (ReadError e)) => Some (rw r, Some e)
      | (r, Ok chunk) =>
          if bool_decide (chunk = "") then io_copy fuel out n r
          else let '(w, ok) := out chunk (rw r) in
               if ok then io_copy fuel out n (mkReader (buffer r) (data r) w) else Some (w, Some WriteFailed)
      end
  end.

(** ** The response, message by message *)

(** What the client receives: each message sets its headers, sends its status and
    appends its whole body, up to the first end or error. *)
Fixpoint deliver (out : string -> W -> W * bool) (l : list string) (w : W) : W * option copy_error :=
  match l with
  | [] => (w, None)
  | message :: l =>
      match unmarshal message with
      | None => (w, Some BadMessage)
      | Some m =>
          if EOF m then (w, None)
          else if negb (Code m =? 0) && ((Code m <? 100) || (999 <? Code m)) then (w, Some BadStatus)
          else
            let w := rw_add_headers (MHeaders m) w in
            let w := if 0 <? Code m then rw_WriteHeader (Code m) w else w in
            if bool_decide (MBody m = "") then deliver out l w
            else let '(w, ok) := out (MBody m) w in
                 if ok then deliver out l w else (w, Some WriteFailed)
      end
  end.

(** Enough fuel: one read per byte and two per message. *)
Definition body_bytes (message : string) : nat :=
  match unmarshal message with Some m => String.length (MBody m) | None => 0 end.
Definition copy_fuel (l : list string) : nat := S (list_sum ((fun m => S (body_bytes m)) <$> l)).
End Reader.
Arguments BackendHTTPReader : clear implicits.

(** ** The writer *)

Record BackendHTTPWriter := mkWriter { w_hostKey : string; w_msgKey : string; w_closed : bool }.

Section Writer.
Context {B : Type} `{BP : backendProxy B}.

Definition writeMessage (wr : BackendHTTPWriter) (m : HTTPMessage) (b : B) : B * bool :=
  bp_send b (w_hostKey wr) (w_msgKey wr) (marshal m).

(** [Close]: [None] when there is nothing to send. *)
Definition close_message (wr : BackendHTTPWriter) : BackendHTTPWriter * option HTTPMessage :=
  if w_closed wr then (wr, None) else (mkWriter (w_hostKey wr) (w_msgKey wr) true, Some eof_message).

Definition closeWriter (wr : BackendHTTPWriter) (b : B) : BackendHTTPWriter * B * bool :=
  let '(wr, m) := close_message wr in
  match m with
  | None => (wr, b, true)
  | Some m => let '(b, ok) := writeMessage wr m b in (wr, b, ok)
  end.

(** [Write] of a chunk. *)
Definition Write (wr : BackendHTTPWriter) (chunk : string) (b : B) : B * bool :=
  writeMessage wr (body_message chunk) b.

(** The URL the host is asked for, and the one the client asked for. *)
Definition request_url (req : request) : url :=
  with_host (ReqHost req) (with_scheme (match PeerCommonNames req with None => "http" | Some _ => "https" end) (URL req)).

Definition service_url (req : request) (address scheme : string) : url :=
  let u := URL req in
  let path := default "" (Vars req !! "path") in
  with_scheme (if bool_decide (scheme = "") then "http" else scheme)
    (with_paths (if has_prefix path "/" then path else "/" +:+ path) (RawPath u) (with_host address u)).

Definition request_message (req : request) (hijack : bool) (address scheme : string) : HTTPMessage :=
  mkHTTP hijack (ReqHost req) (Method req) (url_string (service_url req address scheme))
    (header_set "X-API-request-url" (url_string (request_url req)) (Header req)) 0 "" false.

Definition WriteRequest (wr : BackendHTTPWriter) (req : request) (hijack : bool) (address scheme : string)
  (b : B) : B * bool := writeMessage wr (request_message req hijack address scheme) b.

(** ** The pipe *)

(** [NewHTTPPipe]: the key of the stream, or the error. *)
Definition NewHTTPPipe (host uuid : string) (b : B) : B * result mux_error string :=
  let '(b, r) := bp_initializeClient b host uuid in
  match r with
  | Err e => (b, Err e)
  | Ok key =>
      let '(b, r) := bp_connect b host key "/v1/container-proxy/" in
      match r with
      | Err e => (fst (bp_closeConnection b host key), Err e)
      | Ok _ => (b, Ok key)
      end
  end.
End Writer.

(** The messages of a sequence of calls on one writer: two goroutines write chunks
    and close it. *)
Inductive writer_call := CallWrite (chunk : string) | CallClose.

#[export] Instance writer_call_eq_dec : EqDecision writer_call.
Proof. solve_decision. Defined.

Fixpoint writer_messages (wr : BackendHTTPWriter) (l : list writer_call) : list HTTPMessage :=
  match l with
  | [] => []
  | CallWrite chunk :: l => body_message chunk :: writer_messages wr l
  | CallClose :: l => let '(wr, m) := close_message wr in option_list m ++ writer_messages wr l
  end.

(** ** Lemmas *)

Section ReaderProps.
Context {W : Type} `{RW : ResponseWriter W}.
Context (out : string -> W -> W * bool) (n : Z).
Hypothesis n_pos : 0 < n.
Hypothesis out_law : forall s t w, s <> "" -> t <> "" ->
  out (s +:+ t) w = let '(w1, ok) := out s w in if ok then out t w1 else (w1, false).

Abbreviation copy := io_copy.

Lemma io_copy_more fuel fuel' r x :
  (fuel <= fuel')%nat -> copy fuel out n r = Some x -> copy fuel' out n r = Some x.
Proof.
  revert fuel' r. induction fuel as [|fuel IH]; intros fuel' r L; [done|].
  destruct fuel' as [|fuel']; [lia|]. simpl. assert (fuel <= fuel')%nat as L' by lia.
  destruct (Read n r) as [r' [chunk|[]]]; try done.
  case_bool_decide; [by apply IH|]. destruct (out chunk (rw r')) as [w []]; [by apply IH|done].
Qed.

(** Emptying the buffer writes it all. *)
Lemma drain_buffer len s l w w1 ok fuel x :
  (String.length s <= len)%nat -> s <> "" -> out s w = (w1, ok) ->
  (if ok then copy fuel out n (mkReader "" l w1) = Some x else x = (w1, Some WriteFailed)) ->
  copy (len + fuel) out n (mkReader s l w) = Some x.
Proof.
  revert s w. induction len as [|len IH]; intros s w L N E F; [destruct s; simpl in L; [done|lia]|].
  cbn [plus io_copy]. unfold Read. cbn [buffer]. rewrite bool_decide_eq_false_2 //. cbn [negb data rw buffer].
  set (k := Z.to_nat n). assert (k <> 0%nat) as Hk by (subst k; lia).
  rewrite bool_decide_eq_false_2; [|destruct s, k; done].
  pose proof (stake_sdrop k s) as Sp. destruct (decide (sdrop k s = "")) as [Z|NZ].
  - rewrite Z append_nil_r in Sp. rewrite Z Sp E. destruct ok; [|by rewrite F].
    eapply io_copy_more; [|done]. lia.
  - assert (stake k s <> "") as Nt by (destruct s, k; done).
    rewrite -{1}Sp out_law // in E. destruct (out (stake k s) w) as [w2 [|]] eqn:E2.
    + eapply IH; [|done..]. rewrite sdrop_length. lia.
    + injection E as <- <-. by rewrite F.
Qed.

Lemma copy_fuel_cons m l : copy_fuel (m :: l) = S (body_bytes m + copy_fuel l).
Proof. unfold copy_fuel. cbn [fmap list_fmap]. simpl. by rewrite Nat.add_succ_r. Qed.

Lemma io_copy_deliver l w :
  copy (copy_fuel l) out n (mkReader "" l w) = Some (deliver out l w).
Proof.
  revert w. induction l as [|m l IH]; intros w; [done|].
  rewrite copy_fuel_cons. unfold body_bytes. cbn [deliver].
  destruct (unmarshal m) as [resp|] eqn:U.
  2:{ cbn [io_copy]. unfold Read. cbn [buffer data]. by rewrite U. }
  destruct (EOF resp) eqn:Eo.
  { cbn [io_copy]. unfold Read. cbn [buffer data]. by rewrite U /= Eo. }
  destruct (_ && _) eqn:C.
  { cbn [io_copy]. unfold Read. cbn [buffer data]. by rewrite U /= Eo C. }
  set (w' := if 0 <? Code resp then _ else _).
  destruct (bool_decide (MBody resp = "")) eqn:Eb.
  - cbn [io_copy]. unfold Read. cbn [buffer data]. rewrite U /= Eo C. apply bool_decide_eq_true in Eb.
    rewrite Eb. destruct (Z.to_nat n); cbn [stake sdrop]; rewrite bool_decide_eq_true_2 //; (eapply io_copy_more; [|apply IH]; lia).
  - pose proof Eb as Nb. apply bool_decide_eq_false in Nb.
    assert (forall f, copy (S f) out n (mkReader "" (m :: l) w) = copy (S f) out n (mkReader (MBody resp) l w')) as R.
    { intros f. cbn [io_copy]. unfold Read. cbn [buffer data]. by rewrite U /= Eo C Eb. }
    rewrite R. destruct (out (MBody resp) w') as [w1 ok] eqn:E.
    eapply io_copy_more; [|eapply drain_buffer; [done|done|exact E|]].
    2:{ destruct ok; [apply IH|done]. }
    lia.
Qed.
End ReaderProps.

(** One response message leaves the server's writer sane. *)
Lemma sw_WriteHeader_sane code w :
  sw_panicked w = false -> 100 <= code <= 999 -> sw_panicked (sw_WriteHeader code w) = false.
Proof.
  intros P R. unfold sw_WriteHeader. destruct (sw_hijacked w); [done|]. destruct (sw_sent w); [done|].
  rewrite (proj2 (orb_false_iff _ _)); [by case_match|]. split; apply Z.ltb_ge; lia.
Qed.

Lemma sw_Write_sane data w : sw_panicked w = false -> sw_panicked (fst (sw_Write data w)) = false.
Proof.
  intros P. unfold sw_Write. destruct (sw_hijacked w) eqn:H; [done|].
  pose proof (sw_WriteHeader_sane 200 w P ltac:(lia)). by repeat case_match.
Qed.

Lemma deliver_sane l w :
  sw_panicked w = false -> sw_panicked (fst (deliver sw_Write l w)) = false.
Proof.
  revert w. induction l as [|m l IH]; intros w P; [done|]. cbn [deliver].
  destruct (unmarshal m) as [resp|]; [|done]. destruct (EOF resp); [done|]. destruct (_ && _) eqn:C; [done|].
  set (w' := if 0 <? Code resp then _ else _).
  assert (sw_panicked w' = false) as P'.
  { subst w'. destruct (0 <? Code resp) eqn:Z0; [|done]. apply sw_WriteHeader_sane; [done|].
    apply andb_false_iff in C as [C|C]; [by bool_to_prop; lia|].
    apply orb_false_iff in C as [C1 C2]. apply Z.ltb_ge in C1, C2. lia. }
  case_bool_decide; [by apply IH|]. pose proof (sw_Write_sane (MBody resp) w' P') as P2.
  destruct (sw_Write _ w') as [w2 []]; [by apply IH|done].
Qed.

Lemma start_bodies {B : Type} `{BP : backendProxy B} host key l (b : B) rest :
  snd (start host key false ((fun s => mkMessage key Body s) <$> l) b) = l /\
  snd (start host key false (((fun s => mkMessage key Body s) <$> l) ++ mkMessage key Close "" :: rest) b) = l.
Proof.
  assert (forall r (b : B), snd (start host key true r b) = []) as T by (induction r as [|m r IH]; [done|apply IH]).
  assert (forall s r, snd (start host key false (mkMessage key Body s :: r) b) = s :: snd (start host key false r b)) as C.
  { intros s r. simpl. by destruct (start host key false r b). }
  induction l as [|s l [IH1 IH2]]; [simpl; by rewrite T|].
  split; [rewrite -{2}IH1|rewrite -{2}IH2]; apply C.
Qed.

(** The server's writer once the status is sent. *)
Lemma deliver_chunks hs code chunks rest body :
  body_allowed code = true ->
  deliver sw_Write (((fun c => marshal (body_message c)) <$> chunks) ++ marshal eof_message :: rest)
    (mkServer hs [] (Some (code, hs)) body false false) =
  (mkServer hs [] (Some (code, hs)) (body +:+ join "" chunks) false false, None).
Proof.
  intros A. revert body. induction chunks as [|c chunks IH]; intros body.
  - cbn [fmap list_fmap app deliver]. rewrite message_roundtrip; [|apply plain_message_ok].
    by rewrite /= append_nil_r.
  - assert (join "" (c :: chunks) = c +:+ join "" chunks) as -> by (destruct chunks; [by rewrite append_nil_r|done]).
    cbn [fmap list_fmap app deliver].
    rewrite message_roundtrip; [|apply plain_message_ok]. cbn -[sw_Write join].
    unfold sw_add_headers. cbn [sw_header sw_info sw_sent sw_body sw_hijacked sw_panicked].
    rewrite map_empty_union. case_bool_decide as Z; [subst c; apply IH|].
    unfold sw_Write. cbn [sw_hijacked sw_WriteHeader sw_sent]. rewrite (bool_decide_eq_false_2 _ Z) A.
    cbn [sw_header sw_info sw_body sw_panicked sw_hijacked]. by rewrite IH append_assoc.
Qed.

(** ** Properties *)

(** Copying the response in slices of any positive size terminates and has
    exactly the effect of delivering it message by message: each message sets its
    headers, sends its status, and its whole body is written once, in order, up
    to the first end of stream, invalid message or failed write. *)
Theorem http_response_delivered {W : Type} `{RW : ResponseWriter W} n (l : list string) (w : W) fuel :
  0 < n -> (copy_fuel l <= fuel)%nat ->
  io_copy fuel rw_Write n (mkReader "" l w) = Some (deliver rw_Write l w).
Proof.
  intros N L. eapply io_copy_more; [exact L|]. apply io_copy_deliver; [done|]. apply rw_Write_law.
Qed.

(** Nothing a host answers makes the server panic: whatever the messages of the
    stream, the copy ends and no status code outside 100..999 reaches
    [WriteHeader]. *)
Theorem http_status_never_panics {B : Type} `{BP : backendProxy B} host key (messages : list Message) (b : B) n w :
  0 < n -> sw_panicked w = false ->
  let l := snd (start host key false messages b) in
  exists w' e, io_copy (copy_fuel l) sw_Write n (mkReader "" l w) = Some (w', e) /\
    sw_panicked w' = false.
Proof.
  intros N P l. pose proof (deliver_sane l w P) as S.
  rewrite (io_copy_deliver sw_Write n N sw_Write_app l w).
  destruct (deliver _ _ _) as [w' e]. by exists w', e.
Qed.

(** C37: A response passes through the stream unchanged: when the host sends a final
    status (200 to 999, and one that allows a body) with headers, the body in chunks
    and the end mark, the client receives that status, those headers and the
    concatenation of the chunks, even if the stream goes on afterwards.  Messages
    travel as JSON text, so the names and values of the headers must be UTF-8; the
    chunks may hold any bytes. *)
Theorem http_response_roundtrip {B : Type} `{BP : backendProxy B} host key (b : B) n hs code chunks rest :
  0 < n -> 200 <= code <= 999 -> body_allowed code = true ->
  map_Forall (fun k vs => utf8_valid k = true /\ Forall (fun v => utf8_valid v = true) vs) hs ->
  let sent := marshal (mkHTTP false "" "" "" hs code "" false) ::
              ((fun c => marshal (body_message c)) <$> chunks) ++ marshal eof_message :: rest in
  let l := snd (start host key false
                  (((fun s => mkMessage key Body s) <$> sent) ++ [mkMessage key Close ""]) b) in
  io_copy (copy_fuel l) sw_Write n (mkReader "" l (mkServer ∅ [] None "" false false)) =
  Some (mkServer hs [] (Some (code, hs)) (join "" chunks) false false, None).
Proof.
  intros N R A U. cbv zeta.
  rewrite (proj2 (start_bodies host key _ b [])) (io_copy_deliver sw_Write n N sw_Write_app).
  f_equal. cbn [deliver]. rewrite message_roundtrip.
  2:{ split_and!; [done|done|done|exact U|..]; unfold min_int64, max_int64; cbn [Code]; lia. }
  cbn [EOF Code MHeaders MBody].
  assert ((code =? 0) = false /\ (code <? 100) = false /\ (999 <? code) = false /\ (0 <? code) = true /\
    (code <=? 199) = false) as (-> & C1 & C2 & -> & C3) by (split_and!; lia).
  rewrite C1 C2. cbn -[deliver]. rewrite C1 C2 C3. cbn -[deliver]. rewrite map_union_empty.
  by rewrite (deliver_chunks hs code chunks rest "" A).
Qed.

(** The request body reaches the host in order and is ended once: over any
    interleaving of writes and closes of the writer the chunks are sent as they
    were written, and exactly one end mark is sent if it is closed at all. *)
Theorem http_request_ended_once host key calls :
  let sent := writer_messages (mkWriter host key false) calls in
  MBody <$> List.filter (fun m => negb (EOF m)) sent =
    omap (fun c => match c with CallWrite chunk => Some chunk | CallClose => None end) calls /\
  length (List.filter EOF sent) = (if bool_decide (CallClose ∈ calls) then 1 else 0)%nat.
Proof.
  simpl. assert (forall closed, let sent := writer_messages (mkWriter host key closed) calls in
    MBody <$> List.filter (fun m => negb (EOF m)) sent =
      omap (fun c => match c with CallWrite chunk => Some chunk | CallClose => None end) calls /\
    length (List.filter EOF sent) = (if negb closed && bool_decide (CallClose ∈ calls) then 1 else 0)%nat) as G;
    [|exact (G false)].
  induction calls as [|[chunk|] calls IH]; intros closed.
  - rewrite bool_decide_eq_false_2; [|by apply not_elem_of_nil]. by destruct closed.
  - destruct (IH closed) as [IH1 IH2]. cbn [writer_messages List.filter EOF body_message negb].
    rewrite fmap_cons IH1 IH2. split; [done|]. rewrite (bool_decide_ext (CallClose ∈ CallWrite chunk :: calls) (CallClose ∈ calls)); [done|]. rewrite elem_of_cons. naive_solver.
  - rewrite (bool_decide_eq_true_2 (CallClose ∈ CallClose :: calls)); [|left].
    destruct (IH true) as [IH1 IH2]. destruct closed; (split; [exact IH1|]); simpl in *; by rewrite IH2.
Qed.

(** ** A concrete exchange *)

Module PipeDemo.
Definition hs : header := {["Content-Type" := ["text/plain"]]}.
Definition answer : HTTPMessage := mkHTTP false "" "" "" hs 200 "" false.
Definition answer_texts (chunks : list string) : list string :=
  marshal answer :: ((fun c => marshal (body_message c)) <$> chunks) ++ [marshal eof_message].
Definition fresh_response : server_writer := mkServer ∅ [] None "" false false.
#[export] Instance demo_backend : backendProxy world := manager_backendProxy (fun _ => false).
End PipeDemo.
Import PipeDemo.

(** The texts on the wire, and one with other capitals, spaces and an unknown member. *)
Example wire_texts :
  bytes_of <$> answer_texts ["hi"; ""] = bytes_of <$>
    (let q := String "034" "" in
     [ "{" +:+ q +:+ "headers" +:+ q +:+ ":{" +:+ q +:+ "Content-Type" +:+ q +:+ ":[" +:+ q +:+ "text/plain" +:+ q
         +:+ "]}," +:+ q +:+ "code" +:+ q +:+ ":200}";
       "{" +:+ q +:+ "body" +:+ q +:+ ":" +:+ q +:+ "aGk=" +:+ q +:+ "}"; "{}";
       "{" +:+ q +:+ "eof" +:+ q +:+ ":true}" ]) /\
  unmarshal (let q := String "034" "" in
    " { " +:+ q +:+ "Code" +:+ q +:+ " : 404 , " +:+ q +:+ "x" +:+ q +:+ ":[null] } ") =
    Some (mkHTTP false "" "" "" ∅ 404 "" false) /\
  unmarshal "{} {}" = None /\ unmarshal "[]" = None.
Proof. by vm_compute. Qed.

Lemma http_response_delivered_witness :
  io_copy 20 rw_Write 3 (mkReader "" (answer_texts ["hello"]) fresh_response) =
  Some (mkServer hs [] (Some (200, hs)) "hello" false false, None).
Proof.
  rewrite (http_response_delivered 3 (answer_texts ["hello"]) fresh_response 20); [by vm_compute|lia|].
  vm_compute. lia.
Defined.

Lemma http_status_never_panics_witness :
  let l := snd (start "host" "k" false
    [mkMessage "k" Body (marshal (body_message "x")); mkMessage "k" Body "?"; mkMessage "k" Close ""] Demo.w1) in
  exists w' e, io_copy (copy_fuel l) sw_Write 4 (mkReader "" l fresh_response) = Some (w', e) /\
    sw_panicked w' = false.
Proof.
  refine (http_status_never_panics "host" "k"
    [mkMessage "k" Body (marshal (body_message "x")); mkMessage "k" Body "?"; mkMessage "k" Close ""]
    Demo.w1 4 fresh_response _ _).
  - lia.
  - reflexivity.
Defined.

Lemma http_response_roundtrip_witness :
  let l := snd (start "host" "k" false
    (((fun s => mkMessage "k" Body s) <$> answer_texts ["ab"; "c"]) ++ [mkMessage "k" Close ""]) Demo.w1) in
  io_copy (copy_fuel l) sw_Write 1 (mkReader "" l fresh_response) =
  Some (mkServer hs [] (Some (200, hs)) "abc" false false, None).
Proof.
  refine (http_response_roundtrip "host" "k" Demo.w1 1 hs 200 ["ab"; "c"] [] _ _ _ _).
  - lia.
  - lia.
  - reflexivity.
  - apply map_Forall_singleton. split; [reflexivity|]. apply Forall_singleton. reflexivity.
Defined.
