(* ===== verification/FrontendHttp.v ===== *)
(** * The HTTP frontend

    Models [proxy/frontend_http_handler.go]: authentication of a service request
    by ticket or, failing that, by a token the control platform issues for it; the
    request as it is forwarded to the host; and the relay through the pipe of
    [HttpPipe].  A run is a sequence of events: the goroutines that copy the request
    body and consume the stream interleave freely. *)

From S2P Require Import Prelude GoString GoHash GoNet GoUrl GoCookie GoJson Message Multiplexer Backend Delegation Capability Http Session.
From S2P Require Import Frontend TokenLookup ProxyProtocol HttpPipe.

(** ** Answers the handler writes itself *)

(** [http.Error]. *)
Definition http_error (message : string) (status : Z) (w : server_writer) : server_writer :=
  let h := header_set "X-Content-Type-Options" "nosniff"
             (header_set "Content-Type" "text/plain; charset=utf-8"
                (header_del "Content-Length" (sw_header w))) in
  let w := mkServer h (sw_info w) (sw_sent w) (sw_body w) (sw_hijacked w) (sw_panicked w) in
  fst (sw_Write (message +:+ lf) (sw_WriteHeader status w)).

(** [hexEscapeNonASCII] and [htmlEscape] *)
Fixpoint hexEscapeNonASCII (s : string) : string :=
  match s with
  | EmptyString => ""
  | String c s => (if 128 <=? code c then "%" +:+ hex [code c] else String c "") +:+ hexEscapeNonASCII s
  end.
Fixpoint htmlEscape (s : string) : string :=
  match s with
  | EmptyString => ""
  | String c s =>
      (if bool_decide (c = "&"%char) then "&amp;" else if bool_decide (c = "<"%char) then "&lt;"
       else if bool_decide (c = ">"%char) then "&gt;" else if bool_decide (c = quote) then "&#34;"
       else if bool_decide (c = "'"%char) then "&#39;" else String c "") +:+ htmlEscape s
  end.

(** The address [http.Redirect] sends the client to: [target], made absolute and
    clean if it names no server. *)
Definition redirect_target (req : request) (target : string) : string :=
  match url_parse target with
  | None => target
  | Some u =>
      if bool_decide (Scheme u = "") && bool_decide (Host u = "")
      then let oldpath := if bool_decide (Path (URL req) = "") then "/" else Path (URL req) in
           let target := if has_prefix target "/" then target else path_dir oldpath +:+ target in
           let '(p, query) := match cut "?" target with Some (p, q) => (p, "?" +:+ q) | None => (target, "") end in
           let cleaned := path_Clean p in
           (if has_suffix p "/" && negb (has_suffix cleaned "/") then cleaned +:+ "/" else cleaned) +:+ query
      else target
  end.

(** [http.Redirect] with status 302. *)
Definition http_redirect (req : request) (target : string) (w : server_writer) : server_writer :=
  let target := redirect_target req target in
  let hadCT := bool_decide (is_Some (sw_header w !! "Content-Type")) in
  let get := bool_decide (Method req = "GET") in
  let h := header_set "Location" (hexEscapeNonASCII target) (sw_header w) in
  let h := if negb hadCT && (get || bool_decide (Method req = "HEAD"))
           then header_set "Content-Type" "text/html; charset=utf-8" h else h in
  let w := sw_WriteHeader 302 (mkServer h (sw_info w) (sw_sent w) (sw_body w) (sw_hijacked w) (sw_panicked w)) in
  if negb hadCT && get
  then fst (sw_Write ("<a href=" +:+ String quote (htmlEscape target +:+ String quote ">Found</a>.") +:+ lf +:+ lf) w)
  else w.

(** The hijacked connection. *)
Definition sw_hijack (w : server_writer) : server_writer :=
  mkServer (sw_header w) (sw_info w) (sw_sent w) (sw_body w) true (sw_panicked w).
Definition sw_raw (data : string) (w : server_writer) : server_writer * bool :=
  (mkServer (sw_header w) (sw_info w) (sw_sent w) (sw_body w +:+ data) (sw_hijacked w) (sw_panicked w), true).

(** ** The forwarded request *)

Section Forwarding.
Definition stripProxyAuthenticationQuery (req : request) : request :=
  let query := query_del "access_token" (query_del "token" (url_query (URL req))) in
  set_url (with_query (encode_query query) (URL req)) req.

Definition stripProxyAuthenticationCookies (req : request) : request :=
  let cookies := Cookies req in
  set_header (foldl (fun h c => if negb (bool_decide (ck_Name c = "token")) then header_add_cookie c h else h)
                (header_del "Cookie" (Header req)) cookies) req.

Definition copyAuthHeaders (req : request) : request :=
  let c := cookie "token" req in
  let h := Header req in
  let h := if bool_decide (header_get h "Authorization" = "")
           then header_set "Authorization"
                  ("Bearer " +:+ b64_encode (bytes_of ("Bearer " +:+ default "unauthorized" (ck_Value <$> c)))) h
           else h in
  let req := stripProxyAuthenticationCookies (set_header h req) in
  set_header (header_del "Proxy-Authorization" (Header req)) req.

Definition shouldHijack (req : request) : bool :=
  workspaceHeaderContainsToken (Header req) "Connection" "upgrade"
  && negb (bool_decide (header_get (Header req) "Upgrade" = "")).
End Forwarding.

(** ** The handler *)

Record FrontendHTTPHandler := mkFrontendHTTP {
  hf_frontend : FrontendHandler;
  HTTPSPorts : list Z;
  PublicOrigin : option url }.

(** What one lookup reads from outside: two clock readings, the order in which the
    cache is swept, and the exchange with the platform. *)
Record lookup_env := mkLookupEnv {
  le_get : Z; le_set : Z; le_order : entries -> list (string * tokenCacheEntry);
  le_exchange : platform_request -> option (Z * option string) }.

(** What the two goroutines of a relay do, in the order they do it. *)
Inductive relay_event :=
| InputChunk (chunk : string)      (* a chunk of the request body is copied *)
| InputEnd                         (* the request body ends *)
| Response (m : Message).          (* the reader takes a message of the stream *)

Inductive relay_error := PipeError (e : mux_error) | RequestError | HijackError | CopyError (e : copy_error).

Section Handler.
Context {B : Type} `{BP : backendProxy B}.
Context (jwt_parse : bool -> string -> Z -> result jwt_error jwtToken)
  (post : string -> string -> option response).

Definition authAndLookup (h : FrontendHTTPHandler) (env : auth_env) (le : lookup_env) (b : B) (req : request)
  (cache : entries) : entries * result auth_error (jwtToken * string) :=
  match auth jwt_parse post (hf_frontend h) env b req with
  | Ok r => (cache, Ok r)
  | Err _ =>
      let '(cache, r) := Lookup (le_get le) (le_set le) (le_order le)
                           (le_exchange le) req cache in
      (cache,
       match r with
       | Err Unauthorized => Err NoAuth
       | Err _ => Err BadToken
       | Ok tokenString =>
           match parseSignedJWT jwt_parse tokenString (parsedPublicKey (hf_frontend h)) with
           | Err _ => Err BadToken
           | Ok token =>
               if negb (Valid token) then Err NoAuth
               else match stringClaim (Some token) "hostUuid" with
                    | Some hostUUID => if bp_hasBackend b hostUUID then Ok (token, hostUUID) else Err NoHost
                    | None => Err NoHost
                    end
           end
       end)
  end.

(** The goroutines: the writer, whether the body copy is over, whether the stream
    was closed by the host, and the data passed to the reader so far. *)
Record relay_state := mkRelay {
  rs_backend : B; rs_writer : BackendHTTPWriter; rs_input_done : bool; rs_closed : bool; rs_data : list string }.

Definition end_input (s : relay_state) : relay_state :=
  let '(wr, b, _) := closeWriter (rs_writer s) (rs_backend s) in
  mkRelay b wr true (rs_closed s) (rs_data s).

Definition relay_step (s : relay_state) (ev : relay_event) : relay_state :=
  match ev with
  | InputChunk chunk =>
      if rs_input_done s then s
      else let '(b, ok) := Write (rs_writer s) chunk (rs_backend s) in
           let s := mkRelay b (rs_writer s) false (rs_closed s) (rs_data s) in
           if ok then s else end_input s
  | InputEnd => if rs_input_done s then s else end_input s
  | Response m =>
      let '(b, data) := start (w_hostKey (rs_writer s)) (w_msgKey (rs_writer s)) (rs_closed s) [m] (rs_backend s) in
      mkRelay b (rs_writer s) (rs_input_done s) (rs_closed s || bool_decide (Type_ m = Close)) (rs_data s ++ data)
  end.

Definition relay (l : list relay_event) (s : relay_state) : relay_state := foldl relay_step s l.

(** The deferred [reader.Close] and [writer.Close]. *)
Definition release (s : relay_state) : B :=
  let host := w_hostKey (rs_writer s) in
  let b := closeReader host (w_msgKey (rs_writer s)) (rs_backend s) in
  snd (fst (closeWriter (rs_writer s) b)).

Definition copy_buffer : Z := 32 * 1024.

(** The request that is sent: without the proxy's credentials, with the forwarding
    headers. *)
Definition prepare (h : FrontendHTTPHandler) (infos : gmap string ProxyProtoInfo) (req : request)
  : request :=
  copyAuthHeaders
    (AddForwardedFor infos
       (AddHeaders (HTTPSPorts h) (PublicOrigin h) infos
          (stripProxyAuthenticationQuery req))).

(** The relay proper, once the pipe is open. *)
Definition relay_request (req : request) (token : jwtToken) (host key : string) (can_hijack hijack_ok : bool)
  (events : list relay_event) (b : B) (w : server_writer) : B * server_writer * option relay_error :=
  let data := default ∅ (objectClaim (Some token) "proxy") in
  let address := default "" (as_string (field data "address")) in
  let scheme := default "" (as_string (field data "scheme")) in
  let hijack := shouldHijack req in
  let wr := mkWriter host key false in
  let '(b, ok) := WriteRequest wr req hijack address scheme b in
  let s := mkRelay b wr false false [] in
  if negb ok then (release s, w, Some RequestError)
  else if hijack && negb (can_hijack && hijack_ok) then (release s, w, Some HijackError)
  else
    let w := if hijack then sw_hijack w else w in
    let s := relay events s in
    match io_copy (copy_fuel (rs_data s)) (if hijack then sw_raw else sw_Write) copy_buffer
            (mkReader "" (rs_data s) w) with
    | Some (w, e) => (release s, w, CopyError <$> e)
    | None => (release s, w, None)
    end.

Definition serveHTTP (h : FrontendHTTPHandler) (env : auth_env) (le : lookup_env)
  (infos : gmap string ProxyProtoInfo) (uuid : string) (can_hijack hijack_ok : bool)
  (events : list relay_event) (req : request) (b : B) (cache : entries) (w : server_writer)
  : B * entries * server_writer * option relay_error :=
  let '(cache, r) := authAndLookup h env le b req cache in
  match r with
  | Err e =>
      (b, cache,
       if IsNoAuthError e
       then let u := URL req in
            let redirect := with_paths "/login" (RawPath u)
                              (with_query ("redirectTo=" +:+ QueryEscape (Path u) +:+ "#") u) in
            http_redirect req (url_string redirect) w
       else http_error "Service unavailable" 503 w, None)
  | Ok (token, host) =>
      let '(b, r) := NewHTTPPipe host uuid b in
      match r with
      | Err e => (b, cache, w, Some (PipeError e))
      | Ok key =>
          let '(b, w, e) := relay_request (prepare h infos req) token host key can_hijack hijack_ok events b w in
          (b, cache, w, e)
      end
  end.

(** [ServeHTTP]: an error is answered as an internal error. *)
Definition answer_failure (w : server_writer) (e : option relay_error) : server_writer :=
  match e with Some _ => http_error "Internal server error" 500 w | None => w end.
End Handler.

(** ** Lemmas *)

Section HttpProps.
Context {B : Type} `{BP : backendProxy B}.
Context (jwt_parse : bool -> string -> Z -> result jwt_error jwtToken)
  (post : string -> string -> option response).

(** Signed, valid, and for a connected host. *)
Definition signed_for (h : FrontendHandler) (b : B) (raw : string) (token : jwtToken) (host : string) : Prop :=
  (exists bits, parsedPublicKey h = RSAPublicKey bits /\ minRSAKeyBits <= bits /\
     jwt_parse true raw bits = Ok token) /\
  Valid token = true /\ bp_hasBackend b host = true.

Lemma auth_signed h env (b : B) req token host :
  auth jwt_parse post h env b req = Ok (token, host) ->
  signed_for h b (request_token req) token host.
Proof.
  unfold auth. destruct (parseToken _ _ _) as [[tok|e] param] eqn:P; [|repeat case_match; done].
  apply parseToken_Ok in P as (-> & _ & P). apply parseSignedJWT_guards in P as (bits & K & L & _ & J).
  destruct (Valid tok) eqn:V; [|done]. cbn [negb]. intros H.
  assert (token = tok /\ bp_hasBackend b host = true) as [-> Hb] by (repeat case_match; simplify_eq; done).
  split; [by exists bits|done].
Qed.

(** The writer only sends. *)
Lemma closeWriter_open wr (b : B) :
  forall host key, bp_open (snd (fst (closeWriter wr b))) host key = bp_open b host key.
Proof.
  intros host key. unfold closeWriter, close_message. destruct (w_closed wr); [done|].
  destruct (writeMessage _ _ _) as [b' ok] eqn:E. simpl. by eapply bp_send_law.
Qed.

Lemma closeWriter_keys wr (b : B) :
  w_hostKey (fst (fst (closeWriter wr b))) = w_hostKey wr /\
  w_msgKey (fst (fst (closeWriter wr b))) = w_msgKey wr.
Proof.
  unfold closeWriter, close_message. destruct (w_closed wr); [done|]. by destruct (writeMessage _ _ _).
Qed.

Lemma end_input_keys s :
  w_hostKey (rs_writer (end_input s)) = w_hostKey (rs_writer s) /\
  w_msgKey (rs_writer (end_input s)) = w_msgKey (rs_writer s).
Proof.
  unfold end_input. pose proof (closeWriter_keys (rs_writer s) (rs_backend s)) as K.
  by destruct (closeWriter _ _) as [[wr b] ok].
Qed.

Lemma relay_keys l s :
  w_hostKey (rs_writer (relay l s)) = w_hostKey (rs_writer s) /\
  w_msgKey (rs_writer (relay l s)) = w_msgKey (rs_writer s).
Proof.
  revert s. induction l as [|ev l IH]; intros s; [done|]. cbn [relay foldl].
  assert (w_hostKey (rs_writer (relay_step s ev)) = w_hostKey (rs_writer s) /\
    w_msgKey (rs_writer (relay_step s ev)) = w_msgKey (rs_writer s)) as [E1 E2].
  { destruct ev; cbn [relay_step]; [| |by repeat case_match].
    - destruct (rs_input_done s); [done|]. destruct (Write _ _ _) as [b []]; [done|].
      exact (end_input_keys (mkRelay b (rs_writer s) false (rs_closed s) (rs_data s))).
    - destruct (rs_input_done s); [done|]. apply end_input_keys. }
  destruct (IH (relay_step s ev)) as [I1 I2]. by rewrite -E1 -E2.
Qed.

Lemma release_open s :
  bp_open (release s) (w_hostKey (rs_writer s)) (w_msgKey (rs_writer s)) = false.
Proof.
  unfold release, closeReader. rewrite closeWriter_open.
  destruct (bp_closeConnection _ _ _) as [b' ok] eqn:E. by eapply bp_close_law.
Qed.

Lemma relay_request_released req token host key can_hijack hijack_ok events (b : B) w :
  bp_open (fst (fst (relay_request req token host key can_hijack hijack_ok events b w)))
    host key = false.
Proof.
  unfold relay_request. destruct (WriteRequest _ _ _ _ _ _) as [b1 ok].
  destruct (negb ok); [apply (release_open (mkRelay b1 (mkWriter host key false) false false []))|].
  destruct (_ && _); [apply (release_open (mkRelay b1 (mkWriter host key false) false false []))|].
  set (s := relay _ _).
  assert (bp_open (release s) host key = false) as R.
  { destruct (relay_keys events (mkRelay b1 (mkWriter host key false) false false [])) as [E1 E2].
    pose proof (release_open s) as R. subst s. by rewrite E1 E2 in R. }
  destruct (io_copy _ _ _ _) as [[w' e]|]; exact R.
Qed.

(** Copying always ends. *)
Lemma relay_copy_ends (hijack : bool) l w :
  is_Some (io_copy (copy_fuel l) (if hijack then sw_raw else sw_Write) copy_buffer
    (mkReader "" l w)).
Proof.
  rewrite io_copy_deliver; [by eexists|done|]. destruct hijack; [|apply sw_Write_app].
  intros s t v _ _. unfold sw_raw. by rewrite /= append_assoc.
Qed.

(** *** Who takes over the connection *)

Lemma sw_WriteHeader_hijacked code w : sw_hijacked (sw_WriteHeader code w) = sw_hijacked w.
Proof. unfold sw_WriteHeader. destruct (sw_hijacked w) eqn:E; [done|]. by repeat case_match. Qed.
Lemma sw_Write_hijacked data w : sw_hijacked (fst (sw_Write data w)) = sw_hijacked w.
Proof.
  unfold sw_Write. destruct (sw_hijacked w) eqn:E; [done|]. rewrite -E -(sw_WriteHeader_hijacked 200 w).
  by repeat case_match.
Qed.
Lemma http_error_hijacked text status w : sw_hijacked (http_error text status w) = sw_hijacked w.
Proof. unfold http_error. by rewrite sw_Write_hijacked sw_WriteHeader_hijacked. Qed.
Lemma http_redirect_hijacked r u w : sw_hijacked (http_redirect r u w) = sw_hijacked w.
Proof. unfold http_redirect. destruct (_ && _); by rewrite ?sw_Write_hijacked sw_WriteHeader_hijacked. Qed.
Lemma answer_failure_hijacked w e : sw_hijacked (answer_failure w e) = sw_hijacked w.
Proof. destruct e; [apply http_error_hijacked|done]. Qed.

Lemma io_copy_hijacked fuel n (r : BackendHTTPReader server_writer) w e :
  io_copy fuel sw_Write n r = Some (w, e) -> sw_hijacked w = sw_hijacked (rw r).
Proof.
  revert r. induction fuel as [|fuel IH]; intros r; [done|]. cbn [io_copy].
  assert (sw_hijacked (rw (fst (Read n r))) = sw_hijacked (rw r)) as R.
  { unfold Read. destruct (negb _); [done|]. destruct (data r) as [|message rest]; [done|].
    destruct (unmarshal message) as [m|]; [|done]. destruct (EOF m); [done|]. destruct (_ && _); [done|]. simpl.
    destruct (0 <? Code m); [by rewrite sw_WriteHeader_hijacked|done]. }
  destruct (Read n r) as [r1 [chunk|[|e1]]]; simpl in R; [|intros [= <- _]; done..].
  destruct (bool_decide (chunk = "")); [intros H; by rewrite (IH _ H)|].
  pose proof (sw_Write_hijacked chunk (rw r1)) as Wr. destruct (sw_Write chunk (rw r1)) as [w1 []]; simpl in Wr.
  - intros H. rewrite (IH _ H). simpl. congruence.
  - intros [= <- _]. congruence.
Qed.

(** A service request takes over the connection only if it asks for an upgrade, and
    after a ticket was accepted for a connected host. *)
Lemma serveHTTP_hijacks h env le infos uuid can_hijack hijack_ok events req (b : B) cache w :
  sw_hijacked w = false ->
  sw_hijacked (snd (fst (serveHTTP jwt_parse post h env le infos uuid can_hijack hijack_ok events req b cache w))) = true ->
  shouldHijack (prepare h infos req) = true /\
  exists cache' token host, authAndLookup jwt_parse post h env le b req cache = (cache', Ok (token, host)).
Proof.
  intros Hw. unfold serveHTTP. destruct (authAndLookup _ _ _ _ _ _ _ _) as [cache' [[token host]|e]].
  2: { simpl. destruct (IsNoAuthError e); rewrite ?http_redirect_hijacked ?http_error_hijacked Hw; done. }
  destruct (NewHTTPPipe host uuid b) as [b1 [key|e]]; [|by rewrite /= Hw].
  set (req' := prepare h infos req). unfold relay_request. destruct (WriteRequest _ _ _ _ _ _) as [b2 ok].
  destruct (negb ok); [by rewrite /= Hw|]. destruct (shouldHijack req') eqn:S; [eauto 6|].
  cbn [andb]. destruct (io_copy _ _ _ _) as [[w' e]|] eqn:C; cbn [fst snd]; [|by rewrite Hw].
  apply io_copy_hijacked in C. rewrite C /= Hw. done.
Qed.

(** The cookies and the header that are forwarded. *)
Definition kept_cookies (req : request) : list http_cookie :=
  List.filter (fun c => negb (bool_decide (ck_Name c = "token"))) (Cookies req).

Lemma kept_cookies_roundtrip req :
  cookie_pair <$> readCookies (match kept_cookies req with [] => [] | l => [foldl add_cookie "" l] end) =
  cookie_pair <$> kept_cookies req.
Proof.
  unfold kept_cookies. set (l := List.filter _ _).
  assert (Forall cookie_ok l /\ length l <= defaultCookieMaxNum)%nat as [F L].
  { split.
    - apply Forall_forall. intros c (Hc & _)%list_elem_of_In%filter_In.
      pose proof (readCookies_ok (header_values (Header req) "Cookie")) as F. rewrite -> Forall_forall in F.
      by apply F, list_elem_of_In.
    - etransitivity; [apply List.filter_length_le|apply readCookies_length]. }
  destruct l as [|c l]; [done|]. by apply cookies_roundtrip.
Qed.

Lemma add_cookies_header l h :
  let h' := foldl (fun h c => if negb (bool_decide (ck_Name c = "token")) then header_add_cookie c h else h) h l in
  header_values h' "Cookie" =
    match List.filter (fun c => negb (bool_decide (ck_Name c = "token"))) l with
    | [] => header_values h "Cookie"
    | l' => [foldl add_cookie (header_get h "Cookie") l']
    end /\
  (forall k, canonical k <> "Cookie" -> header_values h' k = header_values h k).
Proof.
  cbv zeta. revert h. induction l as [|c l IH]; intros h; [done|]. cbn [foldl List.filter].
  destruct (negb (bool_decide (ck_Name c = "token"))); [|apply IH].
  destruct (IH (header_add_cookie c h)) as [V K]. split.
  - rewrite V. cbn [foldl]. unfold header_add_cookie at 2. rewrite header_get_set. destruct (List.filter _ l); [|done].
    unfold header_add_cookie, header_values, header_set. by rewrite lookup_insert_eq.
  - intros k N. rewrite K //. by apply header_values_set_ne, not_eq_sym.
Qed.

Lemma strip_cookies_spec req :
  let req' := stripProxyAuthenticationCookies req in
  cookie_pair <$> Cookies req' = cookie_pair <$> kept_cookies req /\
  (forall k, canonical k <> "Cookie" -> header_values (Header req') k = header_values (Header req) k) /\
  URL req' = URL req.
Proof.
  cbv zeta. unfold stripProxyAuthenticationCookies, Cookies at 1. cbn [Header set_header URL].
  destruct (add_cookies_header (Cookies req) (header_del "Cookie" (Header req))) as [V K].
  split_and!; [|intros k N|done].
  - rewrite V header_values_del. unfold header_get. rewrite header_values_del. apply kept_cookies_roundtrip.
  - rewrite K //. by apply header_values_del_ne, not_eq_sym.
Qed.

Lemma copyAuthHeaders_spec req :
  let req' := copyAuthHeaders req in
  cookie_pair <$> Cookies req' = cookie_pair <$> kept_cookies req /\
  header_values (Header req') "Proxy-Authorization" = [] /\
  header_get (Header req') "Authorization" =
    (if bool_decide (header_get (Header req) "Authorization" = "")
     then "Bearer " +:+ b64_encode (bytes_of ("Bearer " +:+ default "unauthorized" (ck_Value <$> cookie "token" req)))
     else header_get (Header req) "Authorization") /\
  URL req' = URL req.
Proof.
  cbv zeta. unfold copyAuthHeaders. set (h' := if bool_decide _ then _ else _).
  destruct (strip_cookies_spec (set_header h' req)) as (C & V & U).
  assert (kept_cookies (set_header h' req) = kept_cookies req) as Ek.
  { unfold kept_cookies, Cookies. cbn [Header set_header]. subst h'. case_bool_decide; [|done].
    by rewrite header_values_set_ne. }
  rewrite Ek in C. cbn [Header URL set_header] in *. split_and!; [|apply header_values_del| |done].
  { rewrite -C. unfold Cookies. cbn [Header set_header]. by rewrite header_values_del_ne. }
  unfold header_get at 1. rewrite header_values_del_ne // V //. subst h'. case_bool_decide as E; [|done].
  apply header_get_set.
Qed.

Lemma forwarding_keeps h (infos : gmap string ProxyProtoInfo) req k :
  canonical k ∉ forwarding_names ->
  header_values (Header (AddForwardedFor infos (AddHeaders
    (HTTPSPorts h) (PublicOrigin h) infos req))) k = header_values (Header req) k.
Proof.
  intros N. assert (forall n, n ∈ forwarding_names -> canonical n = n -> canonical n <> canonical k) as K.
  { intros n Hn E. rewrite E. by intros ->. }
  unfold forwarding_names in K. unfold AddForwardedFor, AddHeaders. cbn [Header set_header].
  rewrite header_values_set_ne; [|apply K; [set_solver|by vm_compute]].
  repeat case_match; repeat first
    [rewrite header_values_set_ne; [|apply K; [set_solver|by vm_compute]]
    |rewrite header_values_del_ne; [|apply K; [set_solver|by vm_compute]]]; done.
Qed.

(** ** Properties *)

(** A service request is authenticated only by a ticket whose RS256 signature
    verifies under an RSA key of at least 2048 bits and which names a connected
    host: either the one the request presents, or the one the token lookup
    returned for it. *)
Theorem http_auth_sound h env le (b : B) req cache cache' token host :
  authAndLookup jwt_parse post h env le b req cache
    = (cache', Ok (token, host)) ->
  signed_for (hf_frontend h) b (request_token req) token host /\ cache' = cache \/
  exists raw, Lookup (le_get le) (le_set le) (le_order le) (le_exchange le) req cache
                = (cache', Ok raw) /\
    signed_for (hf_frontend h) b raw token host /\ stringClaim (Some token) "hostUuid" = Some host.
Proof.
  unfold authAndLookup. destruct (auth _ _ _ _ _ _) as [[t hk]|e] eqn:A.
  - intros [= <- <- <-]. left. split; [by eapply auth_signed|done].
  - destruct (Lookup _ _ _ _ _ _) as [c [raw|le']] eqn:L; [|by destruct le'].
    destruct (parseSignedJWT _ raw _) as [tok|] eqn:P; [|done].
    destruct (Valid tok) eqn:V; [|done]. cbn [negb]. destruct (stringClaim _ _) as [hu|] eqn:S; [|done].
    destruct (bp_hasBackend b hu) eqn:Hb; [|done]. intros [= -> -> ->]. right. exists raw.
    apply parseSignedJWT_guards in P as (bits & K & M & _ & J). split_and!; try done. split; [by exists bits|done].
Qed.

(** The stream of a service request is always released: whatever the request
    body, the host's messages, their interleaving and the point of failure, when
    the handler returns the stream's channel is closed; and the handler returns,
    the copy of the response having ended. *)
Theorem http_stream_released h env le infos uuid can_hijack hijack_ok events req (b b1 : B) cache cache' w token host key :
  authAndLookup jwt_parse post h env le b req cache
    = (cache', Ok (token, host)) ->
  bp_initializeClient b host uuid = (b1, Ok key) ->
  bp_open (fst (fst (fst (serveHTTP jwt_parse post
    h env le (infos : gmap string ProxyProtoInfo) uuid can_hijack hijack_ok events req b cache w))))
    host key = false.
Proof.
  intros A I. unfold serveHTTP. rewrite A. unfold NewHTTPPipe. rewrite I.
  destruct (bp_connect b1 host key "/v1/container-proxy/") as [b2 [u|e]].
  - pose proof (relay_request_released (prepare h infos req) token host key can_hijack hijack_ok events b2 w) as R.
    by destruct (relay_request _ _ _ _ _ _ _ _ _) as [[b3 w3] e3].
  - destruct (bp_closeConnection b2 host key) as [b3 ok] eqn:E. by eapply bp_close_law.
Qed.

Lemma sw_Write_sent data w x : sw_sent w = Some x -> sw_sent (fst (sw_Write data w)) = Some x.
Proof.
  intros S. unfold sw_Write. destruct (sw_hijacked w) eqn:Hj; [done|]. unfold sw_WriteHeader. rewrite Hj S S.
  destruct x as [code h]. by repeat case_match.
Qed.

(** A redirect that is the first answer is sent with its address. *)
Lemma redirect_sent req target w t :
  sw_hijacked w = false -> sw_sent w = None -> hexEscapeNonASCII (redirect_target req target) = t ->
  exists hs, sw_sent (http_redirect req target w) = Some (302, hs) /\ header_get hs "Location" = t.
Proof.
  intros Hj S T. unfold http_redirect. rewrite T. set (h := if _ && (_ || _) then header_set "Content-Type" _ _ else _).
  exists h. split.
  - set (v := sw_WriteHeader 302 _). assert (sw_sent v = Some (302, h)) as V.
    { subst v. unfold sw_WriteHeader. cbn [sw_hijacked sw_sent]. by rewrite Hj S. }
    destruct (_ && bool_decide (Method req = "GET")); [by apply sw_Write_sent|done].
  - subst h. unfold header_get. destruct (_ && _); [rewrite header_values_set_ne //|]; apply header_get_set.
Qed.

Lemma hexEscape_ascii s : sforall (fun c => code c <? 128) s = true -> hexEscapeNonASCII s = s.
Proof.
  induction s as [|c s IH]; [done|]. cbn [sforall hexEscapeNonASCII]. intros [C S]%andb_true_iff. bool_to_prop.
  by rewrite (proj2 (Z.leb_gt _ _)) // IH.
Qed.

Lemma QueryEscape_ascii s : sforall (fun c => code c <? 128) (QueryEscape s) = true.
Proof.
  eapply sforall_impl; [|apply (escape_valid encodeQueryComponent)]. intros c Hc.
  pose proof (byte_char (fun c => implb (in_chars c "!$&'()*+,;=:@[]%" || negb (shouldEscape c encodeQueryComponent))
    (code c <? 128)) ltac:(by vm_compute) c) as X. cbv beta in X. by rewrite Hc in X.
Qed.

(** A target on this server, with a plain path and no dots, stays as it is. *)
Lemma redirect_target_login req query :
  redirect_target req ("/login?" +:+ query) = "/login?" +:+ query.
Proof.
  unfold redirect_target. destruct (url_parse _) as [u|]; [|done]. destruct (_ && _); [|done].
  change (has_prefix ("/login?" +:+ query) "/") with true. cbv zeta iota.
  change ("/login?" +:+ query) with ("/login" +:+ "?" +:+ query). rewrite (cut_skip "?"%char "") //.
Qed.

(** A browser that is not logged in is sent to the login page of this server, and
    from there back to the path it asked for, escaped: whatever the path, the
    request redirects to no other server. *)
Theorem login_redirect_local h env le infos uuid can_hijack hijack_ok events req (b : B) cache cache' w :
  authAndLookup jwt_parse post h env le b req cache = (cache', Err NoAuth) ->
  Scheme (URL req) = "" -> Opaque (URL req) = "" -> User (URL req) = None -> Host (URL req) = "" -> Fragment (URL req) = "" ->
  unescape encodePath (RawPath (URL req)) <> Some "/login" ->
  sw_hijacked w = false -> sw_sent w = None ->
  let w' := snd (fst (serveHTTP jwt_parse post
              h env le (infos : gmap string ProxyProtoInfo) uuid can_hijack hijack_ok events req b cache w)) in
  exists hs, sw_sent w' = Some (302, hs) /\
    header_get hs "Location" = "/login?redirectTo=" +:+ QueryEscape (Path (URL req)) +:+ "#".
Proof.
  intros A S O U H F N Hj Hs w'. subst w'. unfold serveHTTP. rewrite A. cbn [IsNoAuthError fst snd].
  set (q := "redirectTo=" +:+ QueryEscape (Path (URL req)) +:+ "#"). set (r := with_paths _ _ _).
  assert (EscapedPath r = "/login") as Er.
  { unfold EscapedPath. cbn [r with_paths with_query RawPath Path]. rewrite (bool_decide_eq_false_2 (_ = Some "/login")) //.
    by rewrite andb_false_r. }
  assert (url_string r = "/login?" +:+ q) as ->.
  { rewrite origin_string; [|by split; rewrite ?Er]. rewrite Er. cbn [r with_paths with_query RawQuery ForceQuery].
    by rewrite (bool_decide_eq_false_2 (q = "")) // orb_true_r. }
  apply redirect_sent; [done|done|]. rewrite redirect_target_login. apply hexEscape_ascii.
  rewrite sforall_append. apply andb_true_iff. split; [done|]. subst q. rewrite !sforall_append QueryEscape_ascii. done.
Qed.

(** C36: What a request message carries of the client's credentials to the service is
    exact.  The proxy authorization, the [token] cookie and the [token] and
    [access_token] parameters are removed, every other parameter and, read from
    the message's own headers, every other cookie is kept.  The [Authorization]
    header is the client's, unchanged, when there is one; otherwise it is a bearer
    token made of the value of the [token] cookie, which therefore does reach the
    service, or of the word [unauthorized]. *)
Theorem service_credentials_exact h (infos : gmap string ProxyProtoInfo) req hijack address scheme :
  let req' := prepare h infos req in
  let m := request_message req' hijack address scheme in
  header_values (MHeaders m) "Proxy-Authorization" = [] /\
  cookie_pair <$> readCookies (header_values (MHeaders m) "Cookie") =
    cookie_pair <$> List.filter (fun c => negb (bool_decide (ck_Name c = "token"))) (Cookies req) /\
  MURL m = url_string (service_url req' address scheme) /\
  (forall k, query_values k (url_query (service_url req' address scheme)) =
     if bool_decide (k = "token" \/ k = "access_token") then []
     else query_values k (url_query (URL req))) /\
  header_get (MHeaders m) "Authorization" =
    (if bool_decide (header_get (Header req) "Authorization" = "")
     then "Bearer " +:+ b64_encode (bytes_of ("Bearer " +:+ default "unauthorized" (ck_Value <$> cookie "token" req)))
     else header_get (Header req) "Authorization").
Proof.
  intros req' m. subst req' m. unfold prepare.
  set (r1 := AddForwardedFor _ _).
  destruct (copyAuthHeaders_spec r1) as (C & P & A & U).
  assert (forall k, canonical k ∉ forwarding_names -> header_values (Header r1) k = header_values (Header req) k) as R.
  { intros k N. subst r1. by rewrite forwarding_keeps. }
  assert (Cookies r1 = Cookies req) as Rc.
  { unfold Cookies. rewrite R //. apply (bool_decide_eq_true_1 (_ ∉ _)). by vm_compute. }
  unfold header_get, cookie in *. unfold kept_cookies in C. rewrite Rc in A C.
  rewrite R in A; [|apply (bool_decide_eq_true_1 (_ ∉ _)); by vm_compute]. cbn [request_message MHeaders MURL].
  split_and!; [by rewrite header_values_set_ne|by rewrite header_values_set_ne|done| |by rewrite header_values_set_ne].
  intros k. unfold url_query, service_url. cbn [RawQuery]. rewrite U. subst r1. cbn [AddForwardedFor AddHeaders stripProxyAuthenticationQuery set_header set_url URL with_query RawQuery].
  rewrite query_roundtrip.
  2: { pose proof (parse_query_length (RawQuery (URL req))) as L. unfold url_query.
       pose proof (query_del_length "token" (fst (parse_query (RawQuery (URL req))))) as D1.
       pose proof (query_del_length "access_token" (query_del "token" (fst (parse_query (RawQuery (URL req)))))). lia. }
  rewrite !query_values_del.
  destruct (decide (k = "access_token")) as [->|N1]; [done|]. destruct (decide (k = "token")) as [->|N2]; [done|].
  rewrite !bool_decide_eq_false_2 //. by intros [?|?].
Qed.
End HttpProps.

(** A response that fails midway: the error text is appended to what the client
    already received, under the status already sent. *)
Theorem failed_response_has_error_text w e code hs :
  sw_hijacked w = false -> sw_sent w = Some (code, hs) -> body_allowed code = true ->
  let w' := answer_failure w (Some (CopyError e)) in
  sw_sent w' = Some (code, hs) /\ sw_body w' = sw_body w +:+ "Internal server error" +:+ lf.
Proof.
  intros Hj S A. cbn [answer_failure]. unfold http_error, sw_WriteHeader. cbn [sw_hijacked sw_sent]. rewrite Hj S.
  unfold sw_Write, sw_WriteHeader. cbn [sw_hijacked sw_sent]. by rewrite A.
Qed.

(** ** Concrete requests *)

Module FrontendHttpDemo.
Definition http_handler : FrontendHTTPHandler := mkFrontendHTTP FrontendDemo.handler [443] None.
Definition platform (r : platform_request) : option (Z * option string) :=
  Some (201, Some (json_print (JObject [("token", JString "h.o.s")]))).
Definition lookups : lookup_env := mkLookupEnv 10 10 map_to_list platform.
Definition plain : request :=
  mkRequest "GET" (path_url "/r/web") "proxy" "10.0.0.1:1234"
    {["Cookie" := ["token=secret; lang=en"]]} None {["service":="web:80"; "path":="index"]}.
End FrontendHttpDemo.
Import FrontendDemo FrontendHttpDemo CapabilityDemo.

Lemma http_auth_sound_witness :
  snd (authAndLookup tickets no_engine http_handler env lookups
    Demo.w1 plain ∅) = Ok (mkToken "h.o.s" true (Some {["hostUuid":=AString "host"]}), "host") /\
  exists raw, signed_for tickets handler Demo.w1 raw
    (mkToken "h.o.s" true (Some {["hostUuid":=AString "host"]})) "host".
Proof.
  destruct (authAndLookup tickets no_engine http_handler env lookups
    Demo.w1 plain ∅) as [c r] eqn:E.
  assert (r = Ok (mkToken "h.o.s" true (Some {["hostUuid":=AString "host"]}), "host")) as ->.
  { change r with (snd (c, r)). rewrite -E. by vm_compute. }
  split; [done|].
  destruct (http_auth_sound tickets no_engine http_handler env lookups
    Demo.w1 plain ∅ c _ _ E) as [[S _]|(raw & _ & S & _)]; [by eexists|by exists raw].
Defined.

Lemma bearer_accepted :
  authAndLookup tickets no_engine http_handler env lookups
    Demo.w1 (bearer "h.o.s") ∅ = (∅, Ok (mkToken "h.o.s" true (Some {["hostUuid":=AString "host"]}), "host")).
Proof. by vm_compute. Qed.

Lemma client_registered :
  bp_initializeClient Demo.w1 "host" "k9" = (fst (bp_initializeClient Demo.w1 "host" "k9"), Ok "k9").
Proof. by vm_compute. Qed.

Lemma http_stream_released_witness :
  bp_open (fst (fst (fst (serveHTTP tickets no_engine http_handler env lookups ∅ "k9" false false
    [InputChunk "x"; Response (mkMessage "k9" Body (marshal PipeDemo.answer)); InputEnd; Response (mkMessage "k9" Close "")]
    (bearer "h.o.s") Demo.w1 ∅ PipeDemo.fresh_response)))) "host" "k9" = false.
Proof.
  exact (http_stream_released tickets no_engine http_handler env lookups ∅ "k9" false false
    [InputChunk "x"; Response (mkMessage "k9" Body (marshal PipeDemo.answer)); InputEnd; Response (mkMessage "k9" Close "")]
    (bearer "h.o.s") Demo.w1 (fst (bp_initializeClient Demo.w1 "host" "k9")) ∅ ∅ PipeDemo.fresh_response
    _ "host" "k9" bearer_accepted client_registered).
Defined.

(** A path that names another server. *)
Definition stranger : request :=
  mkRequest "GET" (path_url "//evil.example/é") "proxy" "10.0.0.1:1234" ∅ None {["service":="web:80"]}.
Definition refusing : lookup_env := mkLookupEnv 10 10 map_to_list (fun _ => Some (401, None)).

Lemma login_redirect_local_witness :
  exists hs, sw_sent (snd (fst (serveHTTP tickets no_engine
      http_handler env refusing ∅ "k9" false false [] stranger Demo.w1 ∅ PipeDemo.fresh_response))) = Some (302, hs) /\
    header_get hs "Location" = "/login?redirectTo=%2F%2Fevil.example%2F%C3%A9#".
Proof.
  destruct (authAndLookup tickets no_engine http_handler env refusing Demo.w1 stranger ∅) as [c r] eqn:E.
  assert (r = Err NoAuth) as -> by (change r with (snd (c, r)); rewrite -E; by vm_compute).
  destruct (login_redirect_local tickets no_engine http_handler env refusing
    ∅ "k9" false false [] stranger Demo.w1 ∅ c PipeDemo.fresh_response E) as (hs & S & L); [reflexivity|reflexivity|reflexivity|reflexivity|reflexivity|vm_compute; discriminate|reflexivity|reflexivity|].
  exists hs. split; [exact S|]. rewrite L. vm_compute. reflexivity.
Defined.

(** What the service sees of a request with credentials. *)
Example stripped_request :
  let req := set_url (with_query "access_token=s3cret&q=a%20b&token=x.y.z" (URL plain)) plain in
  let req' := prepare http_handler ∅ req in
  MURL (request_message req' false "web:80" "") = "http://web:80/index?q=a+b" /\
  header_values (Header req') "Cookie" = ["lang=en"].
Proof. by vm_compute. Qed.
