(* ===== verification/Stats.v ===== *)
(** * Statistics streams

    Models [proxy/stats_handler.go]: a statistics request carries a ticket that
    names one host, or a project or service whose tickets each name one; the
    handler opens a stream per target and merges them into one WebSocket. *)

From S2P Require Import Prelude GoString GoHash GoNet GoUrl GoCookie Message Multiplexer Backend Delegation Capability Http Upgrade Session Frontend.

Record statsInfo := mkStats { si_hostKey : string; si_url : string; si_msgKey : string }.

Inductive stats_error :=
| StatsOther | StatsDenied
| StatsExpired (f : denialFailure) | StatsRoute (f : denialFailure)
| StatsCapability (f : backendCapabilityFailure).

(** The test of [ServeHTTP] on the request path. *)
Definition multi_host (path : string) : bool :=
  has_suffix path "project" || has_suffix path "project/" || has_suffix path "service" || has_suffix path "service/".

(** ** The targets named by a ticket *)

(** A map whose values are all strings. *)
Definition string_fields (v : any) : option (gmap string string) :=
  match v with
  | AObject m => if bool_decide (map_Forall (fun _ v => as_string v <> None) m) then Some (omap as_string m) else None
  | _ => None
  end.

Definition getProjectOrService (token : jwtToken) : option (list (gmap string string)) :=
  match mapClaims (Some token) with
  | None => None
  | Some claims =>
      match (match claims !! "project" with Some data => Some data | None => claims !! "service" end) with
      | Some (AArray l) => mapM string_fields l
      | _ => None
      end
  end.

Definition stats_paths : list string :=
  ["/v1/hoststats"; "/v1/containerstats"; "/v2-beta/hoststats"; "/v2-beta/containerstats";
   "/v2/hoststats"; "/v2/containerstats"].
Definition stats_path_ok (path : string) : bool :=
  existsb (fun prefix => bool_decide (path = prefix) || has_prefix path (prefix +:+ "/")) stats_paths.

Section Stats.
Context {B : Type} `{BP : backendProxy B}.
Context (jwt_parse : bool -> string -> Z -> result jwt_error jwtToken)
  (post : string -> string -> option response).

Definition statsTargetURL (rawURL token : string) : option string :=
  match url_parse rawURL with
  | None => None
  | Some target =>
      if negb (bool_decide (Scheme target = "ws")) && negb (bool_decide (Scheme target = "wss"))
         || bool_decide (Host target = "") || HasUser target || negb (bool_decide (Fragment target = ""))
         || negb (bool_decide (Opaque target = ""))
      then None
      else if negb (stats_path_ok (to_lower (trim_suffix (EscapedPath target) "/"))) then None
      else
        let query := query_set "token" token (url_query target) in
        Some (RequestURI (internal_url (Path target) (RawPath target) (encode_query query)))
  end.

Definition extractHostUUID (b : B) (token : jwtToken) : option string :=
  let hostUUID :=
    match stringClaim (Some token) "hostUuid" with
    | Some host => Some host
    | None => match streamGrant (Some token) with
              | Ok (Some grant) => as_string (field (Payload grant) "hostUuid")
              | _ => None
              end
    end in
  match hostUUID with
  | Some host => if bp_hasBackend b host then Some host else None
  | None => None
  end.

(** The handler has the fields of [FrontendHandler]. *)
Definition stats_auth (h : FrontendHandler) (env : auth_env) (req : request) : result stats_error (string * jwtToken) :=
  let tokenString := query_get "token" (url_query (URL req)) in
  let audit := expiredDelegationAudit jwt_parse (audit_now env) (audit_nonce env) tokenString (parsedPublicKey h) in
  match parseRequestToken jwt_parse tokenString (parsedPublicKey h) with
  | Err e =>
      match (match e with TokenExpired => audit | TokenInvalid => None end) with
      | Some f => Err (StatsExpired f)
      | None => Err StatsOther
      end
  | Ok token =>
      if negb (Valid token) then Err StatsOther
      else match streamGrant (Some token) with
      | Err _ => Err StatsDenied
      | Ok grant =>
          match checkStreamRoute jwt_parse (route_nonce env) token grant (Path (URL req)) (parsedPublicKey h) with
          | Some f => Err (StatsRoute f)
          | None =>
              if negb (Check post (delegations h) (check_now1 env) (check_now2 env) tokenString grant)
              then match audit with Some f => Err (StatsExpired f) | None => Err StatsDenied end
              else Ok (tokenString, token)
          end
      end
  end.

(** One target of a project or service. *)
Definition stats_target (h : FrontendHandler) (env : auth_env) (b : B) (original : jwtToken)
  (data : gmap string string) : result stats_error statsInfo :=
  match data !! "token" with
  | None => Err StatsOther
  | Some inner =>
      match parseRequestToken jwt_parse inner (parsedPublicKey h) with
      | Err _ => Err StatsOther
      | Ok token =>
          match extractHostUUID b token with
          | None => Err StatsOther
          | Some host =>
              match requireKeyBackend (Some (bp_supportsKeyTraces b)) token host with
              | Some f => Err (StatsCapability f)
              | None =>
                  match requireKeyBackend (Some (bp_supportsKeyTraces b)) original host with
                  | Some f => Err (StatsCapability f)
                  | None =>
                      match data !! "url" ≫= (fun u => statsTargetURL u inner) with
                      | None => Err StatsOther
                      | Some target =>
                          match streamGrant (Some token) with
                          | Err _ => Err StatsDenied
                          | Ok None => Ok (mkStats host target "")
                          | Ok (Some grant) =>
                              let path := match url_parse target with Some u => Path u | None => "" end in
                              match checkStreamRoute jwt_parse (route_nonce env) token (Some grant) path
                                      (parsedPublicKey h) with
                              | Some f => Err (StatsRoute f)
                              | None =>
                                  if Check post (delegations h) (check_now1 env) (check_now2 env)
                                       inner (Some grant)
                                  then Ok (mkStats host target "") else Err StatsDenied
                              end
                          end
                      end
                  end
              end
          end
      end
  end.

Fixpoint stats_targets (h : FrontendHandler) (env : nat -> auth_env) (b : B) (original : jwtToken) (i : nat)
  (l : list (gmap string string)) : result stats_error (list statsInfo) :=
  match l with
  | [] => Ok []
  | data :: l =>
      match stats_target h (env i) b original data with
      | Err e => Err e
      | Ok s => match stats_targets h env b original (S i) l with Err e => Err e | Ok r => Ok (s :: r) end
      end
  end.

(** The ticket whose claims name the targets: a delegated one is replaced by its
    verified payload. *)
Definition target_token (token : jwtToken) (grant : option Grant) : jwtToken :=
  match grant with Some g => mkToken (Raw token) (Valid token) (Some (Payload g)) | None => token end.

Definition parseStatsInfo (h : FrontendHandler) (env : auth_env) (envs : nat -> auth_env) (b : B) (req : request)
  (tokenString : string) (multiHost : bool) : result stats_error (list statsInfo) :=
  match parseRequestToken jwt_parse tokenString (parsedPublicKey h) with
  | Err _ => Err StatsOther
  | Ok original =>
      if negb (Valid original) then Err StatsOther
      else match streamGrant (Some original) with
      | Err _ => Err StatsDenied
      | Ok grant =>
          match checkStreamRoute jwt_parse (route_nonce env) original grant (Path (URL req)) (parsedPublicKey h) with
          | Some f => Err (StatsRoute f)
          | None =>
              if negb (Check post (delegations h) (check_now1 env) (check_now2 env) tokenString grant)
              then Err StatsDenied
              else
                let token := target_token original grant in
                if multiHost then
                  match getProjectOrService token with
                  | None => Err StatsOther
                  | Some l =>
                      if (length l =? 0)%nat || (maxStatsTargets <? length l)%nat then Err StatsOther
                      else stats_targets h envs b original 0 l
                  end
                else
                  match extractHostUUID b token with
                  | None => Err StatsOther
                  | Some host =>
                      match requireKeyBackend (Some (bp_supportsKeyTraces b)) original host with
                      | Some f => Err (StatsCapability f)
                      | None => Ok [mkStats host (RequestURI (URL req)) ""]
                      end
                  end
          end
      end
  end.

(** ** The streams *)

Definition init_client (s : statsInfo) (uuid : string) (b : B) : B * result (option mux_error) statsInfo :=
  if bool_decide (si_hostKey s = "") then (b, Err None)
  else let '(b, r) := bp_initializeForURL b (si_hostKey s) (si_url s) uuid in
       (b, match r with
           | Err e => Err (Some e)
           | Ok key => Ok (mkStats (si_hostKey s) (si_url s) key)
           end).

Definition closeClient (b : B) (s : statsInfo) : B :=
  if bool_decide (si_msgKey s = "") then b else fst (bp_closeConnection b (si_hostKey s) (si_msgKey s)).

(** The loop that registers the clients: the targets with the keys set so far, and
    the target that failed with its error. *)
Fixpoint init_clients (l : list statsInfo) (uuid : nat -> string) (i : nat) (b : B)
  : B * list statsInfo * option (statsInfo * option mux_error) :=
  match l with
  | [] => (b, [], None)
  | s :: l =>
      match init_client s (uuid i) b with
      | (b, Err e) => (b, s :: l, Some (s, e))
      | (b, Ok s) => let '(b, r, e) := init_clients l uuid (S i) b in (b, s :: r, e)
      end
  end.

Definition connect_client (s : statsInfo) (b : B) : B * result mux_error unit :=
  bp_connect b (si_hostKey s) (si_msgKey s) (si_url s).

Fixpoint connect_clients (l : list statsInfo) (b : B) : B * option (statsInfo * option mux_error) :=
  match l with
  | [] => (b, None)
  | s :: l =>
      match connect_client s b with
      | (b, Err e) => (b, Some (s, Some e))
      | (b, Ok _) => connect_clients l b
      end
  end.

(** ** The WebSocket *)

Definition ClosePolicyViolation : Z := 1008.

Record stats_ws := mkStatsWs { ws_frames : list (Z * string); ws_texts : list string; ws_closed : bool }.

Definition control (frames : list (Z * string)) (ws : stats_ws) : stats_ws :=
  mkStatsWs (ws_frames ws ++ frames) (ws_texts ws) (ws_closed ws).
Definition close_ws (ws : stats_ws) : stats_ws :=
  mkStatsWs (ws_frames ws ++ normal_close) (ws_texts ws) true.

Inductive stats_event :=
| StatsMessage (target : nat) (m : Message) (write_ok : bool)   (* the goroutine of a target takes a message *)
| StatsRevoked.                                                (* the watcher of a delegated ticket fires *)

Record stats_relay := mkStatsRelay { sr_ws : stats_ws; doneCounter : Z; finished : gset nat }.

Definition stats_step (r : stats_relay) (ev : stats_event) : stats_relay :=
  match ev with
  | StatsRevoked => mkStatsRelay (close_ws (sr_ws r)) (doneCounter r) (finished r)
  | StatsMessage i m write_ok =>
      if bool_decide (i ∈ finished r) then r
      else if bool_decide (Type_ m = Body) then
        if write_ok && negb (ws_closed (sr_ws r)) then
          mkStatsRelay (mkStatsWs (ws_frames (sr_ws r)) (ws_texts (sr_ws r) ++ [Body_ m]) false)
            (doneCounter r) (finished r)
        else mkStatsRelay (close_ws (sr_ws r)) (doneCounter r) ({[i]} ∪ finished r)
      else if bool_decide (Type_ m = Close) then
        let ws := control (closeForBackendOutcome (Body_ m)) (sr_ws r) in
        let n := doneCounter r - 1 in
        mkStatsRelay (if n =? 0 then close_ws ws else ws) n ({[i]} ∪ finished r)
      else r
  end.

Definition fresh_ws : stats_ws := mkStatsWs [] [] false.
Definition policy (reason : string) : list (Z * string) := [(ClosePolicyViolation, reason)].

(** The part of [ServeHTTP] after the targets are known, with its deferred cleanup. *)
Definition serve_targets (h : FrontendHandler) (targets : list statsInfo) (uuid : nat -> string)
  (events : list stats_event) (b : B) : B * stats_ws :=
  let outcome (b : B) (s : statsInfo) e :=
    match e with
    | Some BackendAuditCapability =>
        let raw := match url_parse (si_url s) with
                   | Some u => query_get "token" (url_query u) | None => "" end in
        closeForBackendOutcome
          (reportBackendFailure post (Some (bp_backendTicket b)) (failures h) raw (si_hostKey s) +:+ ":503")
    | _ => []
    end in
  let '(b, clients, failed) := init_clients targets uuid 0 b in
  match failed with
  | Some (s, e) => (foldl closeClient b clients, close_ws (control (outcome b s e) fresh_ws))
  | None =>
      let '(b, failed) := connect_clients clients b in
      let r := foldl stats_step (mkStatsRelay fresh_ws (Z.of_nat (length clients)) ∅) events in
      let ws := match failed with Some (s, e) => control (outcome b s e) (sr_ws r) | None => sr_ws r end in
      (foldl closeClient b clients, close_ws ws)
  end.

Inductive stats_outcome := StatsRefused (a : http_answer) | StatsDropped | StatsStream (ws : stats_ws).

(** [ServeHTTP]; [payload] is the message read from the WebSocket when the ticket
    asks for one. *)
Definition serveStats (h : FrontendHandler) (env env' : auth_env) (envs : nat -> auth_env) (begin : Z) (clock : nat -> Z)
  (hj : hijack) (payload : option string) (uuid : nat -> string) (events : list stats_event)
  (req : request) (b : B) : B * stats_outcome :=
  let ticket := Some (bp_backendTicket b) in
  match stats_auth h env req with
  | Err (StatsExpired f) => (b, StatsRefused (writeExpiredDenial post h b begin clock f))
  | Err (StatsRoute f) => (b, StatsRefused (writeRouteDenial post h b begin clock f))
  | Err _ => (b, StatsRefused (http_Error [] "Failed authentication" 401))
  | Ok (tokenString, authToken) =>
      match Upgrade workspaceSameOrigin hj req with
      | Refused a => (b, StatsRefused (http_Error_again "Failed to upgrade connection." a))
      | Broken => (b, StatsDropped)
      | Upgraded_ =>
      match (if bool_decide (boolClaim (Some authToken) "payload" = Some true) then payload else Some tokenString) with
      | None => (b, StatsStream (control (policy "Invalid statistics payload") fresh_ws))
      | Some tokenString =>
          match parseStatsInfo h env' envs b req tokenString (multi_host (Path (URL req))) with
          | Err (StatsRoute f) =>
              let '(status, code) := reportRouteDenial post ticket (failures h) begin clock (Some f) in
              let closeCode := if status =? 503 then CloseTryAgainLater else ClosePolicyViolation in
              (b, StatsStream (close_ws (control [(closeCode, code)] fresh_ws)))
          | Err (StatsCapability f) =>
              let code := reportCapabilityError post ticket (failures h) (Some f) in
              (b, StatsStream (close_ws (control (closeForBackendOutcome (code +:+ ":503")) fresh_ws)))
          | Err _ => (b, StatsStream (control (policy "Invalid statistics targets") fresh_ws))
          | Ok targets =>
              match parseRequestToken jwt_parse tokenString (parsedPublicKey h) with
              | Err _ => (b, StatsStream (close_ws fresh_ws))
              | Ok actual =>
                  match streamGrant (Some actual) with
                  | Err _ => (b, StatsStream (close_ws fresh_ws))
                  | Ok _ => let '(b, ws) := serve_targets h targets uuid events b in (b, StatsStream ws)
                  end
              end
          end
      end
      end
  end.
End Stats.

(** ** Lemmas *)

Lemma stats_path_slash s : stats_path_ok (to_lower (trim_suffix s "/")) = true ->
  has_prefix s "/" = true /\ has_prefix s "//" = false.
Proof.
  assert (forall t, stats_path_ok (to_lower t) = true -> exists c r, t = String "/" (String c r) /\ c <> "/"%char) as H.
  { intros t. unfold stats_path_ok. intros (p & Hp & E)%existsb_exists.
    assert (exists r, p = "/v" +:+ r) as [r ->].
    { unfold stats_paths in Hp. repeat (destruct Hp as [<-|Hp]; [by eexists|]). done. }
    assert (has_prefix (to_lower t) "/v" = true) as P.
    { apply orb_true_iff in E as [->%bool_decide_eq_true|[r' ->]%has_prefix_spec]; apply has_prefix_spec; [by eexists|].
      rewrite !append_assoc. by eexists. }
    destruct t as [|a [|c t]]; [done|by simpl in P; rewrite andb_false_r in P|].
    cbn [to_lower smap has_prefix] in P. bool_to_prop.
    exists c, t. split; [|intros ->; done]. do 2 f_equal. revert H.
    pose proof (byte_char (fun a => implb (bool_decide ("/"%char = lower a)) (bool_decide (a = "/"%char))) ltac:(by vm_compute) a) as X.
    cbv beta in X. intros Ha. rewrite bool_decide_eq_true_2 // in X. by apply bool_decide_eq_true in X. }
  intros E. destruct (H _ E) as (c & r & Et & N).
  destruct (trim_suffix_cases s "/" _ eq_refl) as [->| ->]; rewrite Et; split; try done; simpl; by rewrite bool_decide_eq_false_2.
Qed.

(** The URL of a statistics target is parsed again before it is used, without a
    check: it always can be; it keeps the path of the target and carries the inner
    ticket, unless the target's query has more parameters than the parser accepts. *)
Theorem stats_url_parses rawURL token u :
  statsTargetURL rawURL token = Some u ->
  exists target u', url_parse rawURL = Some target /\ url_parse u = Some u' /\ Path u' = Path target /\
    (Z.of_nat (length (url_query target)) < urlmaxqueryparams -> query_get "token" (url_query u') = token).
Proof.
  unfold statsTargetURL. destruct (url_parse rawURL) as [target|]; [|done]. destruct (_ || _ || _ || _ || _); [done|].
  destruct (stats_path_ok _) eqn:A; cbn [negb]; [|done]. intros [= <-].
  destruct (stats_path_slash _ A) as [P1 P2].
  destruct (internal_parse target (query_set "token" token (url_query target)) P1 P2) as (u' & E & Pu & Q).
  exists target, u'. split_and!; try done. intros L. unfold url_query. rewrite Q. by apply query_set_roundtrip.
Qed.

Section StatsProps.
Context {B : Type} `{BP : backendProxy B}.
Context (jwt_parse : bool -> string -> Z -> result jwt_error jwtToken)
  (post : string -> string -> option response).

Lemma extractHostUUID_connected (b : B) token host : extractHostUUID b token = Some host -> bp_hasBackend b host = true.
Proof. unfold extractHostUUID. repeat case_match; naive_solver. Qed.

Lemma parseRequestToken_signed raw key token :
  parseRequestToken jwt_parse raw key = Ok token ->
  exists bits, key = RSAPublicKey bits /\ minRSAKeyBits <= bits /\ jwt_parse true raw bits = Ok token.
Proof.
  unfold parseRequestToken. case_bool_decide; [done|]. intros P.
  destruct (parseSignedJWT_guards _ _ _ _ P) as (bits & ? & ? & _ & ?). by exists bits.
Qed.

(** A target of a project or service: its own signed ticket names the connected
    host, and its URL is one of the statistics resources. *)
Definition inner_target_ok (h : FrontendHandler) (b : B) (data : gmap string string) (s : statsInfo) : Prop :=
  exists raw bits token u,
    data !! "token" = Some raw /\ parsedPublicKey h = RSAPublicKey bits /\ minRSAKeyBits <= bits /\
    jwt_parse true raw bits = Ok token /\ extractHostUUID b token = Some (si_hostKey s) /\
    (isKeyTrace (Some token) = true -> bp_supportsKeyTraces b (si_hostKey s) = true) /\
    data !! "url" = Some u /\
    statsTargetURL u raw = Some (si_url s).

Lemma stats_target_ok h env (b : B) original data s :
  stats_target jwt_parse post
    h env b original data = Ok s ->
  inner_target_ok h b data s /\ si_msgKey s = "".
Proof.
  unfold stats_target. destruct (data !! "token") as [raw|] eqn:D; [|done].
  destruct (parseRequestToken _ raw _) as [token|] eqn:P; [|done].
  destruct (extractHostUUID b token) as [host|] eqn:Hh; [|done].
  destruct (requireKeyBackend _ token host) eqn:K; [done|].
  destruct (requireKeyBackend _ original host); [done|].
  destruct (_ ≫= _) as [target|] eqn:T; [|done]. apply bind_Some in T as (u & U & T).
  assert (forall x, x = mkStats host target "" -> inner_target_ok h b data x /\ si_msgKey x = "") as G.
  { intros x ->. split; [|done]. apply parseRequestToken_signed in P as (bits & K1 & K2 & J).
    exists raw, bits, token, u. split_and!; try done. by apply requireKeyBackend_None. }
  intros E. apply G. by repeat case_match; simplify_eq.
Qed.

Lemma stats_targets_ok h env (b : B) original i l r :
  stats_targets jwt_parse post
    h env b original i l = Ok r ->
  Forall2 (fun data s => inner_target_ok h b data s /\ si_msgKey s = "") l r.
Proof.
  revert i r. induction l as [|data l IH]; intros i r; cbn [stats_targets]; [by intros [= <-]; constructor|].
  destruct (stats_target _ _ _ _ _ _ _) as [s|] eqn:T; [|done].
  destruct (stats_targets _ _ _ _ _ _ _ _) as [r'|] eqn:R; [|done].
  intros [= <-]. constructor; [by eapply stats_target_ok|by eapply IH].
Qed.

(** Closing clients never reopens one, and closes each. *)
Lemma closeClient_mono (b : B) s h k : bp_open (closeClient b s) h k = true -> bp_open b h k = true.
Proof.
  unfold closeClient. case_bool_decide; [done|].
  destruct (bp_closeConnection _ _ _) as [b' ok] eqn:E. by eapply bp_close_mono.
Qed.

Lemma close_clients_mono l (b : B) h k : bp_open (foldl closeClient b l) h k = true -> bp_open b h k = true.
Proof. revert b. induction l as [|s l IH]; intros b; [done|]. cbn [foldl]. intros H. by eapply closeClient_mono, IH. Qed.

Lemma close_clients_closed l (b : B) :
  Forall (fun s => si_msgKey s <> "" -> bp_open (foldl closeClient b l) (si_hostKey s) (si_msgKey s) = false) l.
Proof.
  revert b. induction l as [|s l IH]; intros b; [constructor|]. cbn [foldl]. constructor; [|apply IH].
  intros N. apply not_true_iff_false. intros O%close_clients_mono. unfold closeClient in O.
  rewrite bool_decide_eq_false_2 // in O. destruct (bp_closeConnection _ _ _) as [b' ok] eqn:E.
  apply bp_close_law in E. simpl in O. congruence.
Qed.

(** ** Properties *)

(** A statistics ticket opens only streams it is entitled to: the ticket is
    signed, it names between 1 and 256 targets, every target is a connected host,
    and in a project or service each one is backed by its own signed ticket and
    addresses a statistics resource. *)
Theorem stats_targets_sound h env envs (b : B) req raw multi targets :
  parseStatsInfo jwt_parse post
    h env envs b req raw multi = Ok targets ->
  (exists bits token grant, parsedPublicKey h = RSAPublicKey bits /\ minRSAKeyBits <= bits /\
     jwt_parse true raw bits = Ok token /\ streamGrant (Some token) = Ok grant /\
     Check post (delegations h) (check_now1 env) (check_now2 env) raw grant = true /\
     if multi then exists l, getProjectOrService (target_token token grant) = Some l /\
                     Forall2 (inner_target_ok h b) l targets
     else exists host, extractHostUUID b (target_token token grant) = Some host /\
                       targets = [mkStats host (RequestURI (URL req)) ""]) /\
  (1 <= length targets <= maxStatsTargets)%nat /\
  Forall (fun s => bp_hasBackend b (si_hostKey s) = true) targets.
Proof.
  unfold parseStatsInfo. destruct (parseRequestToken _ raw _) as [token|] eqn:P; [|done].
  apply parseRequestToken_signed in P as (bits & K1 & K2 & J).
  destruct (Valid token); [|done]. cbn [negb]. destruct (streamGrant (Some token)) as [grant|] eqn:G; [|done].
  destruct (checkStreamRoute _ _ _ _ _ _); [done|]. destruct (Check _ _ _ _ _ _) eqn:C; [|done]. cbn [negb].
  destruct multi.
  - destruct (getProjectOrService _) as [l|] eqn:L; [|done]. destruct (_ || _) eqn:N; [done|]. intros T.
    apply stats_targets_ok in T. apply orb_false_iff in N as [N1 N2].
    apply Nat.eqb_neq in N1. apply Nat.ltb_ge in N2. pose proof (Forall2_length _ _ _ T) as Len.
    split_and!.
    + exists bits, token, grant. split_and!; try done. exists l. split; [done|].
      eapply Forall2_impl; [exact T|]. by intros ? ? [].
    + lia.
    + lia.
    + eapply Forall2_Forall_r; [exact T|]. apply Forall_forall. intros data _ s [(? & ? & tok & ? & _ & _ & _ & _ & X & _) _].
      by apply extractHostUUID_connected in X.
  - destruct (extractHostUUID _ _) as [host|] eqn:X; [|done]. destruct (requireKeyBackend _ _ _); [done|].
    intros [= <-]. split_and!.
    + exists bits, token, grant. split_and!; try done. by exists host.
    + simpl. lia.
    + vm_compute. lia.
    + constructor; [|constructor]. by eapply extractHostUUID_connected.
Qed.

(** No statistics stream is leaked: however the request ends, at the first
    failed registration, at a failed connect, or after any traffic, every client
    registered so far is closed and so is the WebSocket. *)
Theorem stats_clients_released h targets uuid events (b : B) :
  let '(b', ws) := serve_targets post h targets uuid events b in
  let '(_, clients, _) := init_clients targets uuid 0 b in
  Forall (fun s => si_msgKey s <> "" -> bp_open b' (si_hostKey s) (si_msgKey s) = false) clients /\
  ws_closed ws = true.
Proof.
  unfold serve_targets. destruct (init_clients targets uuid 0 b) as [[b1 clients] [[s e]|]].
  - split; [apply close_clients_closed|done].
  - destruct (connect_clients clients b1) as [b2 failed]. split; [apply close_clients_closed|done].
Qed.
(** A request whose targets are refused for any other reason than a route or
    capability denial is answered with a close frame, but the handler returns
    without closing the WebSocket. *)
Theorem stats_refused_socket_left_open h env env' envs begin clock hj payload uuid events req (b : B) raw token e :
  stats_auth jwt_parse post h env req = Ok (raw, token) ->
  boolClaim (Some token) "payload" <> Some true ->
  parseStatsInfo jwt_parse post
    h env' envs b req raw (multi_host (Path (URL req))) = Err e ->
  e = StatsOther \/ e = StatsDenied -> Upgrade workspaceSameOrigin hj req = Upgraded_ ->
  exists ws, serveStats jwt_parse post
    h env env' envs begin clock hj payload uuid events req b = (b, StatsStream ws) /\ ws_closed ws = false.
Proof.
  intros A P T E U. unfold serveStats. rewrite A U (bool_decide_eq_false_2 _ P) T.
  by destruct E as [-> | ->]; eexists.
Qed.
End StatsProps.

(** The test for project and service requests looks at the end of the path only: a
    single container whose name ends in [project] is taken for a project. *)
Example multi_host_by_suffix : multi_host "/v1/containerstats/my-project" = true.
Proof. reflexivity. Qed.

(** ** A concrete project *)

Module StatsDemo.
Definition inner : gmap string any := {["token" := AString "h.o.s"; "url" := AString "ws://host/v1/hoststats"]}.
Definition project_tickets (validate : bool) (raw : string) (bits : Z) : result jwt_error jwtToken :=
  if bool_decide (raw = "p.r.j") then
    Ok (mkToken raw true (Some {["project" := AArray [AObject inner; AObject inner]]}))
  else FrontendDemo.tickets validate raw bits.
Definition stats_request : request :=
  mkRequest "GET" (with_query "token=p.r.j" (path_url "/v1/hoststats/project")) "proxy" "10.0.0.1:1234" ∅ None ∅.
End StatsDemo.
Import FrontendDemo StatsDemo.

Lemma stats_targets_sound_witness :
  (1 <= length [mkStats "host" "/v1/hoststats?token=h.o.s" ""; mkStats "host" "/v1/hoststats?token=h.o.s" ""] <= maxStatsTargets)%nat /\
  bp_hasBackend Demo.w1 "host" = true.
Proof.
  assert (parseStatsInfo project_tickets no_engine
    handler env (fun _ => env) Demo.w1 stats_request "p.r.j" true =
    Ok [mkStats "host" "/v1/hoststats?token=h.o.s" ""; mkStats "host" "/v1/hoststats?token=h.o.s" ""]) as E by by vm_compute.
  destruct (stats_targets_sound project_tickets no_engine
    handler env (fun _ => env) Demo.w1 stats_request "p.r.j" true _ E) as (_ & L & F).
  split; [exact L|]. by inversion F.
Defined.
