(* ===== verification/Clients.v ===== *)
(** * What the handlers may do to the backends

    The handlers reach the hosts only through the interface [backendProxy]: they draw
    a fresh identifier, register a stream under it, and then connect, send on, close
    and release that stream.  So whatever the interface preserves for such clients,
    every handler preserves, however its request goes.  This file states that once:
    [client_invariant] is the class of such invariants, and there is one lemma per
    handler.  The invariant is indexed by the identifiers drawn so far. *)

From stdpp Require Import propset.
From S2P Require Import Prelude GoString GoHash GoNet GoUrl GoCookie Message Multiplexer Backend Session SessionProps SessionStream SessionManager.
From S2P Require Import Delegation Capability Http Upgrade Frontend SessionHttp TokenLookup ProxyProtocol HttpPipe FrontendHttp Stats.

(** ** The class *)

Class client_invariant {B : Type} `{BP : backendProxy B} (I : propset string -> B -> Prop) := {
  ci_mono U V b : U ⊆ V -> I U b -> I V b;
  ci_initializeClient U b host uuid :
    I U b -> uuid ∉ U -> wire_key uuid -> I ({[uuid]} ∪ U) (fst (bp_initializeClient b host uuid));
  ci_initializeClient_key b host uuid b' key : bp_initializeClient b host uuid = (b', Ok key) -> key = uuid;
  ci_initialize U b host url uuid :
    I U b -> uuid ∉ U -> wire_key uuid -> I ({[uuid]} ∪ U) (fst (bp_initializeForURL b host url uuid));
  ci_initialize_key b host url uuid b' key : bp_initializeForURL b host url uuid = (b', Ok key) -> key = uuid;
  ci_connect U b host key url : I U b -> wire_key key -> I U (fst (bp_connect b host key url));
  ci_send U b host key data : I U b -> wire_key key -> I U (fst (bp_send b host key data));
  ci_close U b host key : I U b -> wire_key key -> I U (fst (bp_closeConnection b host key));
  ci_release U b host key : I U b -> wire_key key -> I U (fst (bp_releaseConnection b host key)) }.

#[local] Set Default Proof Using "Type*".

Section Clients.
Context {B : Type} `{BP : backendProxy B} (I : propset string -> B -> Prop) {CI : client_invariant I}.
Implicit Types (b : B) (U : propset string).

(** Opening a stream, in the two ways there are. *)
Lemma stream_opened U b host url uuid b' r :
  I U b -> uuid ∉ U -> wire_key uuid -> bp_initializeForURL b host url uuid = (b', r) ->
  I ({[uuid]} ∪ U) b' /\ match r with Ok key => key = uuid | Err _ => True end.
Proof.
  intros H N W E. split; [by rewrite (_ : b' = fst (b', r)) // -E; apply ci_initialize|].
  destruct r as [key|]; [|done]. by eapply ci_initialize_key.
Qed.

(** ** The WebSocket frontend *)

Lemma forward_loop_inv U binary host key l b :
  I U b -> wire_key key -> I U (forward_loop binary host key l b).
Proof.
  intros H W. revert b H. induction l as [|m l IH]; intros b H; simpl; [done|].
  destruct (forward binary m) as [data|]; [|by apply IH].
  pose proof (ci_send U b host key data H W) as S. destruct (bp_send b host key data) as [b' []]; [by apply IH|done].
Qed.

Lemma serveStream_inv post h U binary host url_ uuid token incoming b :
  I U b -> uuid ∉ U -> wire_key uuid ->
  I ({[uuid]} ∪ U) (fst (serveStream post h binary host url_ uuid token incoming b)).
Proof.
  intros H N W. unfold serveStream. destruct (bp_initializeForURL b host url_ uuid) as [b1 r] eqn:E.
  destruct (stream_opened U b host url_ uuid b1 r H N W E) as [H1 K]. destruct r as [key|e]; [|done]. subst key.
  pose proof (ci_connect _ b1 host uuid url_ H1 W) as H2. destruct (bp_connect b1 host uuid url_) as [b2 []]; simpl in *.
  - apply ci_close; [|done]. by apply forward_loop_inv.
  - by apply ci_close.
Qed.

(** ** The HTTP frontend *)

Section Http.

Definition relay_inv U (s : relay_state) : Prop := I U (rs_backend s) /\ wire_key (w_msgKey (rs_writer s)).

Lemma closeWriter_inv U wr b :
  I U b -> wire_key (w_msgKey wr) -> I U (snd (fst (closeWriter wr b))).
Proof.
  intros H W. unfold closeWriter, close_message. destruct (w_closed wr); [done|]. simpl. unfold writeMessage. simpl.
  pose proof (ci_send U b (w_hostKey wr) (w_msgKey wr) (marshal eof_message) H W) as S.
  by destruct (bp_send _ _ _ _).
Qed.

Lemma end_input_inv U s : relay_inv U s -> relay_inv U (end_input s).
Proof.
  intros [H W]. pose proof (closeWriter_inv U (rs_writer s) (rs_backend s) H W) as C.
  pose proof (closeWriter_keys (rs_writer s) (rs_backend s)) as [_ K]. unfold end_input.
  destruct (closeWriter _ _) as [[wr b] ok]. split; simpl in *; [done|]. by rewrite K.
Qed.

Lemma start_inv U host key closed l b : I U b -> wire_key key -> I U (fst (start host key closed l b)).
Proof.
  intros H W. revert closed b H. induction l as [|m l IH]; intros closed b H; cbn [start]; [done|].
  destruct closed; [by apply IH|]. destruct (bool_decide (Type_ m = Body)).
  { specialize (IH false b H). by destruct (start _ _ _ _ _). }
  destruct (bool_decide (Type_ m = Close)); [by apply IH, ci_close|by apply IH].
Qed.

Lemma relay_step_inv U s ev : relay_inv U s -> relay_inv U (relay_step s ev).
Proof.
  intros [H W]. destruct ev as [chunk| |m]; cbn [relay_step].
  - destruct (rs_input_done s); [done|]. unfold Write, writeMessage.
    pose proof (ci_send U _ (w_hostKey (rs_writer s)) (w_msgKey (rs_writer s)) (marshal (body_message chunk)) H W) as S.
    destruct (bp_send _ _ _ _) as [b []]; [done|]. by apply end_input_inv.
  - destruct (rs_input_done s); [done|]. by apply end_input_inv.
  - pose proof (start_inv U (w_hostKey (rs_writer s)) (w_msgKey (rs_writer s)) (rs_closed s) [m] _ H W) as S.
    by destruct (start _ _ _ _ _).
Qed.

Lemma relay_invariant U l s : relay_inv U s -> relay_inv U (relay l s).
Proof. unfold relay. revert s. induction l as [|ev l IH]; intros s H; [done|]. by apply IH, relay_step_inv. Qed.

Lemma release_inv U s : relay_inv U s -> I U (release s).
Proof. intros [H W]. apply closeWriter_inv; [|done]. by apply ci_close. Qed.

Lemma relay_request_inv U req token host key can_hijack hijack_ok events b w :
  I U b -> wire_key key ->
  I U (fst (fst (relay_request req token host key can_hijack hijack_ok events b w))).
Proof.
  intros H W. unfold relay_request, WriteRequest, writeMessage. simpl.
  pose proof (ci_send U b host key) as S. destruct (bp_send b host key _) as [b1 ok] eqn:E.
  assert (relay_inv U (mkRelay b1 (mkWriter host key false) false false [])) as R.
  { split; [|done]. simpl. rewrite (_ : b1 = fst (b1, ok)) // -E. by apply S. }
  destruct ok; simpl; [|by apply release_inv].
  destruct (shouldHijack req && negb (can_hijack && hijack_ok)); [by apply release_inv|].
  repeat case_match; by apply release_inv, relay_invariant.
Qed.

Lemma NewHTTPPipe_inv U host uuid b b' r :
  I U b -> uuid ∉ U -> wire_key uuid -> NewHTTPPipe host uuid b = (b', r) ->
  I ({[uuid]} ∪ U) b' /\ match r with Ok key => key = uuid | Err _ => True end.
Proof.
  intros H N W. unfold NewHTTPPipe. pose proof (ci_initializeClient U b host uuid H N W) as H1.
  destruct (bp_initializeClient b host uuid) as [b1 [key|e]] eqn:E; [|by intros [= <- <-]].
  apply ci_initializeClient_key in E as ->. simpl in H1.
  pose proof (ci_connect _ b1 host uuid "/v1/container-proxy/" H1 W) as H2.
  destruct (bp_connect _ _ _ _) as [b2 [u|e]]; intros [= <- <-]; (split; [|done]); [done|by apply ci_close].
Qed.
End Http.

(** ** Statistics *)

(** What a request may draw: no request needs more identifiers than a statistics
    request with the most targets. *)
Definition drawn (uuid : nat -> string) : propset string := {[ k | exists i, (i < maxStatsTargets)%nat /\ uuid i = k ]}.

(** A supply of identifiers for one request: different ones, none drawn before,
    which the envelope can carry. *)
Record fresh_supply U (uuid : nat -> string) : Prop := {
  fs_inj : forall i j, (i < j < maxStatsTargets)%nat -> uuid i <> uuid j;
  fs_new : forall i, (i < maxStatsTargets)%nat -> uuid i ∉ U;
  fs_wire : forall i, (i < maxStatsTargets)%nat -> wire_key (uuid i) }.

Definition taken_until U (uuid : nat -> string) (i : nat) : propset string :=
  U ∪ {[ k | exists j, (j < i)%nat /\ uuid j = k ]}.

Lemma taken_until_S U uuid i : taken_until U uuid (S i) ≡ {[uuid i]} ∪ taken_until U uuid i.
Proof.
  intros k. unfold taken_until. rewrite !elem_of_union elem_of_singleton !elem_of_PropSet. split.
  - intros [?|(j & L & <-)]; [by right; left|]. destruct (decide (j = i)) as [->|]; [by left|].
    right. right. exists j. split; [lia|done].
  - intros [->|[?|(j & L & <-)]]; [|by left|]; right; [exists i|exists j]; (split; [lia|done]).
Qed.

Lemma taken_until_fresh U uuid i :
  fresh_supply U uuid -> (i < maxStatsTargets)%nat -> uuid i ∉ taken_until U uuid i.
Proof.
  intros [Ij N _] L. unfold taken_until. rewrite elem_of_union elem_of_PropSet.
  intros [X|(j & Lj & E)]; [by eapply N|]. by apply (Ij j i).
Qed.

Lemma taken_until_drawn U uuid i : (i <= maxStatsTargets)%nat -> taken_until U uuid i ⊆ drawn uuid ∪ U.
Proof.
  intros L k. unfold taken_until, drawn. rewrite !elem_of_union !elem_of_PropSet.
  intros [?|(j & Lj & ?)]; [by right|]. left. exists j. split; [lia|done].
Qed.

Lemma init_clients_inv U uuid i l b b' clients failed :
  fresh_supply U uuid -> (i + length l <= maxStatsTargets)%nat -> I (taken_until U uuid i) b ->
  init_clients l uuid i b = (b', clients, failed) ->
  I (drawn uuid ∪ U) b' /\ (Forall (fun s => si_msgKey s = "" \/ wire_key (si_msgKey s)) l ->
    Forall (fun s => si_msgKey s = "" \/ wire_key (si_msgKey s)) clients /\
    (failed = None -> Forall (fun s => wire_key (si_msgKey s)) clients)).
Proof.
  intros F. revert i b b' clients failed. induction l as [|s l IH]; intros i b b' clients failed L H; cbn [init_clients];
    simpl in L; rewrite ?Nat.add_0_r in L.
  { intros [= <- <- <-]. split; [eapply ci_mono; [by apply taken_until_drawn|done]|by constructor]. }
  assert (i < maxStatsTargets)%nat as Li by lia.
  unfold init_client. case_bool_decide.
  { intros [= <- <- <-]. split; [eapply ci_mono; [by apply taken_until_drawn, Nat.lt_le_incl|done]|done]. }
  destruct (bp_initializeForURL b (si_hostKey s) (si_url s) (uuid i)) as [b1 r] eqn:E.
  destruct (stream_opened _ b _ _ _ b1 r H (taken_until_fresh U uuid i F Li) (fs_wire U uuid F i Li) E) as [H1 K].
  assert (I (taken_until U uuid (S i)) b1) as H2 by (eapply ci_mono; [|done]; by rewrite taken_until_S).
  destruct r as [key|e].
  - subst key. destruct (init_clients l uuid (S i) b1) as [[b2 r] e] eqn:R. intros [= <- <- <-].
    destruct (IH (S i) _ _ _ _ ltac:(lia) H2 R) as [H3 W]. split; [done|]. intros [Hs Hl]%Forall_cons. destruct (W Hl) as [W1 W2].
    pose proof (fs_wire U uuid F i Li). split; [by constructor; [right|]|]. intros ?. constructor; auto.
  - intros [= <- <- <-]. split; [eapply ci_mono; [by apply (taken_until_drawn U uuid (S i))|done]|done].
Qed.

Lemma connect_clients_inv U l b : Forall (fun s => wire_key (si_msgKey s)) l -> I U b -> I U (fst (connect_clients l b)).
Proof.
  intros W. revert b. induction W as [|s l Ws W IH]; intros b H; cbn [connect_clients]; [done|].
  unfold connect_client. pose proof (ci_connect U b (si_hostKey s) (si_msgKey s) (si_url s) H Ws) as C.
  destruct (bp_connect _ _ _ _) as [b1 []]; [by apply IH|done].
Qed.

Lemma close_clients_inv U l b :
  Forall (fun s => si_msgKey s = "" \/ wire_key (si_msgKey s)) l -> I U b -> I U (foldl closeClient b l).
Proof.
  intros W. revert b. induction W as [|s l Ws W IH]; intros b H; [done|]. apply IH. unfold closeClient.
  case_bool_decide; [done|]. apply ci_close; [done|]. by destruct Ws.
Qed.

Lemma serve_targets_inv post h U targets uuid events b :
  fresh_supply U uuid -> I U b -> Forall (fun s => si_msgKey s = "") targets -> (length targets <= maxStatsTargets)%nat ->
  I (drawn uuid ∪ U) (fst (serve_targets post h targets uuid events b)).
Proof.
  intros F H T L. unfold serve_targets. destruct (init_clients targets uuid 0 b) as [[b1 clients] failed] eqn:E.
  destruct (init_clients_inv U uuid 0 targets b b1 clients failed F L) as [H1 W]; [|done|].
  { eapply ci_mono; [|done]. unfold taken_until. set_solver. }
  destruct W as [W1 W2]; [eapply Forall_impl; [exact T|]; by left|].
  destruct failed as [[s e]|]; [by apply close_clients_inv|].
  pose proof (connect_clients_inv _ clients b1 (W2 eq_refl) H1) as H2.
  destruct (connect_clients clients b1) as [b2 failed]. by apply close_clients_inv.
Qed.

(** ** Sessions *)

(** One session: the backend and the name of its stream. *)
Definition ses_inv U (y : sys B) : Prop := I U (be y) /\ wire_key (msgKey (ses y)).

Definition keeps U (f : sys B -> sys B) : Prop := forall y, ses_inv U y -> ses_inv U (f y).

Lemma keeps_compose U f g : keeps U f -> keeps U g -> keeps U (fun y => g (f y)).
Proof. intros F G y H. by apply G, F. Qed.

(** What touches neither the backend nor the name of the stream. *)
Lemma keeps_local U f :
  (forall y, be (f y) = be y) -> (forall y, msgKey (ses (f y)) = msgKey (ses y)) -> keeps U f.
Proof. intros Hb Hm y [? ?]. split; [by rewrite Hb|by rewrite Hm]. Qed.

Lemma appendOutput_keeps U now data : keeps U (appendOutput now data).
Proof. apply keeps_local; intros y; unfold appendOutput; by repeat case_match. Qed.
Lemma addClient_keeps U now c id : keeps U (addClient now c id).
Proof. apply keeps_local; intros y; unfold addClient; destruct (delegationRevoked _); try done; by repeat case_match. Qed.
Lemma removeClient_keeps U hint c id : keeps U (removeClient hint c id).
Proof. apply keeps_local; intros y; unfold removeClient; simpl; by destruct (bool_decide (controller (ses y) = id)). Qed.
Lemma claimControl_keeps U now c id : keeps U (claimControl now c id).
Proof. apply keeps_local; intros y; unfold claimControl; by repeat case_match. Qed.
Lemma touch_keeps U now : keeps U (touch now).
Proof. apply keeps_local; intros y; unfold touch; by case_match. Qed.
Lemma markEnded_keeps U now : keeps U (markEnded now).
Proof. apply keeps_local; intros y; unfold markEnded; by case_match. Qed.
Lemma enqueueJSON_keeps U c f : keeps U (enqueueJSON c f).
Proof. by apply keeps_local. Qed.
Lemma closeClients_keeps U : keeps U closeClients.
Proof. by apply keeps_local. Qed.
Lemma writeLoop_keeps U c ev : keeps U (writeLoop c ev).
Proof. apply keeps_local; intros y; unfold writeLoop; by repeat case_match. Qed.

(** What calls it. *)
Lemma terminate_keeps U now : keeps U (terminate now).
Proof.
  intros y [H W]. unfold terminate. destruct (closeOnce (ses y)); [done|].
  destruct (inactive _); [done|]. simpl. pose proof (ci_close U (be y) (hostKey (ses y)) (msgKey (ses y)) H W) as C.
  destruct (bp_closeConnection _ _ _) as [b []]; [done|]. by apply markEnded_keeps.
Qed.

Lemma revokeDelegation_keeps U now : keeps U (revokeDelegation now).
Proof. intros y H. by apply closeClients_keeps, terminate_keeps. Qed.

Lemma sendPending_keeps U now p : keeps U (sendPending now p).
Proof.
  apply (keeps_compose U (touch now)); [apply touch_keeps|]. intros y [H W]. unfold send_backend.
  pose proof (ci_send U (be y) (hostKey (ses y)) (msgKey (ses y)) (ps_data p) H W) as S.
  destruct (bp_send _ _ _ _) as [b []]; [done|]. by apply terminate_keeps, enqueueJSON_keeps.
Qed.

Lemma checkFrame_keeps U c id f : keeps U (fun y => fst (checkFrame c id f y)).
Proof.
  apply keeps_local; intros y; unfold checkFrame, checkInput, checkResize; by repeat case_match.
Qed.

Lemma handleClientFrame_keeps U now c id f : keeps U (handleClientFrame now c id f).
Proof.
  intros y H. unfold handleClientFrame. case_bool_decide; [by apply claimControl_keeps|].
  case_bool_decide as T1; [|case_bool_decide as T2; [|by case_bool_decide]].
  - unfold writeInput. pose proof (checkFrame_keeps U c id f y H) as C. unfold checkFrame in C.
    rewrite bool_decide_eq_true_2 // in C. unfold sendChecked.
    destruct (checkInput _ _ _ _) as [y' [p|]]; [by apply sendPending_keeps|done].
  - unfold resize, checkResize. destruct (_ || _ || _ || _ || _); [done|]. by apply sendPending_keeps.
Qed.

Lemma pump_keeps U now : keeps U (pump now []).
Proof.
  intros y H. destruct (markEnded_keeps U now y H) as [H1 W1]. rewrite pump_nil. split; simpl; [by apply ci_release|done].
Qed.

Lemma run_sop_keeps U o : keeps U (run_sop o).
Proof.
  intros y H. destruct o; cbn [run_sop]; try done.
  - by apply appendOutput_keeps.
  - by apply addClient_keeps.
  - by apply removeClient_keeps.
  - by apply handleClientFrame_keeps.
  - pose proof (checkFrame_keeps U c id f y H) as C. cbv beta in C. destruct (checkFrame c id f y) as [y' [p|]], C; by split.
  - destruct (inflight (ses y) !! n); [|done]. by apply sendPending_keeps.
  - by apply writeLoop_keeps.
  - by apply terminate_keeps.
  - by apply revokeDelegation_keeps.
  - by apply pump_keeps.
Qed.

Lemma matchesSecretHash_keeps U now hash live : keeps U (fun y => fst (matchesSecretHash now hash live y)).
Proof.
  intros y H. unfold matchesSecretHash. by repeat case_match; try apply revokeDelegation_keeps.
Qed.

(** *** The manager *)

(** The hosts sessions may run on, with the digest of their secrets, and how many may
    be active. *)
Context (allowed : string -> string -> Prop) (max : nat).

Definition session_allowed (s : persistentSession) : Prop := wire_key (msgKey s) /\ allowed (hostKey s) (secretHash s).

Record mgr_inv U (m : manager B) : Prop := {
  mi_backend : I U (m_backend m);
  mi_ok : mgr_ok m;
  mi_count : maxSessions m = max /\ (activeSessionCountLocked m <= maxSessions m)%nat;
  mi_sessions : forall p s, objects m !! p = Some s -> session_allowed s }.

(** What an operation of the manager draws, and what it asks for. *)
Definition mop_drawn (o : mop) : propset string :=
  match o with MCreate _ _ _ _ _ _ uuid _ _ => {[uuid]} | _ => ∅ end.
Definition mop_allowed U (o : mop) : Prop :=
  match o with MCreate _ _ _ hash host _ uuid _ _ => allowed host hash /\ (uuid ∉ U) /\ wire_key uuid | _ => True end.

(** What never changes of a session: its host and the digest of its secret. *)
Definition owner (s : persistentSession) : string * string := (hostKey s, secretHash s).

(** Working on one session. *)
Definition sessions_inv U (m : manager B) : Prop :=
  I U (m_backend m) /\ forall p s, objects m !! p = Some s -> session_allowed s.

Lemma on_session_inv U p f m :
  (forall s, objects m !! p = Some s -> owner (ses (f (view_session s m))) = owner s) -> keeps U f ->
  sessions_inv U m -> sessions_inv U (on_session p f m).
Proof.
  intros Hh F [H A]. unfold on_session. destruct (objects m !! p) as [s|] eqn:Hp; [|done].
  destruct (A _ _ Hp) as [W Al]. destruct (F (view_session s m)) as [H1 W1]; [done|]. split; [done|].
  intros q s'. simpl. rewrite lookup_insert_Some. intros [[<- <-]|[_ Hq]]; [|by eapply A].
  split; [done|]. specialize (Hh s eq_refl). unfold owner in Hh. by injection Hh as -> ->.
Qed.

Lemma terminate_owner now (y : sys B) : owner (ses (terminate now y)) = owner (ses y).
Proof.
  unfold terminate. destruct (closeOnce _); [done|]. destruct (inactive _); [done|].
  destruct (bp_closeConnection _ _ _) as [b []]; [done|]. unfold markEnded. by case_match.
Qed.

Lemma matches_inv U now p hash live m : sessions_inv U m -> sessions_inv U (fst (matches now p hash live m)).
Proof.
  intros H.
  assert (fst (matches now p hash live m) = on_session p (fun y => fst (matchesSecretHash now hash live y)) m) as ->.
  { unfold matches, on_session. destruct (objects m !! p); [|done]. by destruct (matchesSecretHash _ _ _ _). }
  apply on_session_inv; [|apply matchesSecretHash_keeps|done]. intros s _. unfold matchesSecretHash.
  repeat (case_match; [done|]). repeat case_match; [|done]. apply (terminate_owner now).
Qed.

Lemma cleanup_inv U now m : sessions_inv U m -> sessions_inv U (cleanup now m).
Proof.
  intros H. unfold cleanup.
  match goal with |- sessions_inv U (foldr _ ?m0 ?l) => set (m1 := m0); set (l1 := l) end.
  assert (sessions_inv U m1) as H1 by done. clearbody m1 l1.
  induction l1 as [|ip l IH]; [done|]. cbn [foldr]. apply on_session_inv; [| |done].
  - intros s _. simpl. case_match; [apply (terminate_owner now)|done].
  - intros y Hy. apply closeClients_keeps. by case_match; [apply terminate_keeps|].
Qed.

Lemma sessions_inv_mono U V m : U ⊆ V -> sessions_inv U m -> sessions_inv V m.
Proof. intros S [H A]. split; [by eapply ci_mono|done]. Qed.

Lemma created_inv U now id kind_ hash host url uuid delegated m r :
  allowed host hash -> uuid ∉ U -> wire_key uuid -> sessions_inv U m ->
  created now id kind_ hash host url uuid delegated m r -> sessions_inv ({[uuid]} ∪ U) (fst r).
Proof.
  intros Al N W [H A] Cr.
  assert (forall p s b t, I ({[uuid]} ∪ U) b -> session_allowed s ->
    sessions_inv ({[uuid]} ∪ U) (added p s b t m)) as K.
  { intros p s b t Hb Hs. split; [done|]. intros q s'. simpl. rewrite lookup_insert_Some.
    intros [[<- <-]|[_ Hq]]; [done|]. by eapply A. }
  assert (forall key, key = uuid -> session_allowed (built delegated id kind_ host key hash now (mgr_maxReplayBytes m))) as S.
  { intros key ->. by destruct delegated. }
  destruct Cr as [L|b e L Ei|b1 b2 b3 e ok key L Ei Ec Er|b1 b2 key L Ei Ec]; simpl.
  - eapply sessions_inv_mono; [|done]. set_solver.
  - destruct (stream_opened U _ _ _ _ _ _ H N W Ei) as [H1 _]. done.
  - destruct (stream_opened U _ _ _ _ _ _ H N W Ei) as [H1 ->]. apply K; [|by apply S].
    pose proof (ci_connect _ b1 host uuid url H1 W) as H2. rewrite Ec in H2.
    pose proof (ci_release _ b2 host uuid H2 W) as H3. by rewrite Er in H3.
  - destruct (stream_opened U _ _ _ _ _ _ H N W Ei) as [H1 ->]. apply K.
    + pose proof (ci_connect _ b1 host uuid url H1 W) as H2. by rewrite Ec in H2.
    + by destruct delegated.
Qed.

Lemma run_mop_sessions U o m :
  mgr_ok m -> mop_ok o m -> mop_allowed U o -> sessions_inv U m -> sessions_inv (mop_drawn o ∪ U) (run_mop o m).
Proof.
  intros M OK Al H. assert (forall m', sessions_inv U m' -> sessions_inv (∅ ∪ U) m') as E.
  { intros m'. apply sessions_inv_mono. set_solver. }
  destruct o as [now id kd hash host url uuid dl live|p o|now p hash live|now]; simpl in *; [|apply E..].
  - destruct Al as (Al & N & W). destruct (sessions m !! id) as [p|] eqn:Hid.
    + rewrite (create_existing _ _ _ _ _ _ _ _ _ _ _ Hid). eapply sessions_inv_mono; [|by apply matches_inv].
      set_solver.
    + eapply created_inv; [done|done|done|done|]. by apply create_created.
  - apply on_session_inv; [|apply run_sop_keeps|done]. intros s Hs. rewrite Hs in OK.
    destruct (run_sop_le o (view_session s m)) as [_ _ _ Fx]; [by apply (mo_objects _ M p)|done|].
    destruct Fx as (_ & _ & Eh & _ & Es & _). unfold owner. by rewrite Eh Es.
  - by apply matches_inv.
  - by apply cleanup_inv.
Qed.

Lemma run_mop_inv U o m :
  mgr_inv U m -> mop_ok o m -> mop_allowed U o -> mgr_inv (mop_drawn o ∪ U) (run_mop o m).
Proof.
  intros [H M [E C] A] OK Al. destruct (run_mop_sessions U o m M OK Al) as [H1 A1]; [done|].
  destruct (run_mop_ok o m M OK C) as (M1 & E1 & C1). split; [done|done|by rewrite E1|done].
Qed.

Lemma mgr_inv_mono U V m : U ⊆ V -> mgr_inv U m -> mgr_inv V m.
Proof. intros S [H M C A]. split; [by eapply ci_mono|done..]. Qed.

Lemma matches_mgr_inv U now p hash live m m' ok :
  mgr_inv U m -> matches now p hash live m = (m', ok) -> mgr_inv U m'.
Proof.
  intros H E. pose proof (run_mop_inv U (MMatch now p hash live) m H (Logic.I) (Logic.I)) as R. simpl in R.
  rewrite E in R. eapply mgr_inv_mono; [|exact R]. set_solver.
Qed.

Lemma on_session_mgr_inv U p o m :
  mgr_inv U m -> mop_ok (MSession p o) m -> mgr_inv U (on_session p (run_sop o) m).
Proof.
  intros H OK. eapply mgr_inv_mono; [|apply (run_mop_inv U (MSession p o) m H OK (Logic.I))]. simpl. set_solver.
Qed.

(** ** The handlers *)

Section Handlers.
Context (jwt_parse : bool -> string -> Z -> result jwt_error jwtToken)
  (post : string -> string -> option response).

Lemma serveFrontend_inv U h env begin clock hj uuid incoming req b :
  I U b -> uuid ∉ U -> wire_key uuid ->
  I ({[uuid]} ∪ U) (fst (serveFrontend jwt_parse post
                       h env begin clock hj uuid incoming req b)).
Proof.
  intros H N W. assert (I ({[uuid]} ∪ U) b) as K by (eapply ci_mono; [|done]; apply union_subseteq_r).
  unfold serveFrontend. destruct (auth _ _ _ _ _ _) as [[token host]|e]; [|done].
  destruct (Upgrade _ _ _); [|done..]. set (binary := equal_fold _ _). set (u := keyRequestURL _ _).
  pose proof (serveStream_inv post h U binary host u uuid token incoming b H N W) as S.
  by destruct (serveStream _ _ _ _ _ _ _ _ _).
Qed.

Lemma serveHTTP_inv U h env le infos uuid can_hijack hijack_ok events req b cache w :
  I U b -> uuid ∉ U -> wire_key uuid ->
  I ({[uuid]} ∪ U) (fst (fst (fst (serveHTTP jwt_parse post h env le infos uuid can_hijack hijack_ok events req b cache w)))).
Proof.
  intros H N W. assert (I ({[uuid]} ∪ U) b) as K by (eapply ci_mono; [|done]; apply union_subseteq_r).
  unfold serveHTTP. destruct (authAndLookup _ _ _ _ _ _ _ _) as [cache' [[token host]|e]]; [|done].
  destruct (NewHTTPPipe host uuid b) as [b1 r] eqn:E.
  destruct (NewHTTPPipe_inv U host uuid b b1 r H N W E) as [H1 Kr]. destruct r as [key|e]; [|done]. subst key.
  set (req' := prepare _ _ _).
  pose proof (relay_request_inv ({[uuid]} ∪ U) req' token host uuid can_hijack hijack_ok
    events b1 w H1 W) as R.
  by destruct (relay_request _ _ _ _ _ _ _ _ _) as [[b2 w2] e2].
Qed.

(** The targets of a statistics request have no stream yet, and are not too many. *)
Lemma stats_targets_unopened h envs b original i l targets :
  stats_targets jwt_parse post h envs b original i l
    = Ok targets -> Forall (fun s => si_msgKey s = "") targets /\ length targets = length l.
Proof.
  revert i targets. induction l as [|data l IH]; intros i targets; cbn [stats_targets]; [by intros [= <-]|].
  destruct (stats_target _ _ _ _ _ _) as [s|] eqn:E; [|done].
  destruct (stats_targets _ _ _ _ _ _) as [r|] eqn:R; [|done]. intros [= <-].
  destruct (IH _ _ R) as [F L]. split; [|by simpl; rewrite L]. constructor; [|done].
  unfold stats_target in E. repeat (case_match; try done); by simplify_eq.
Qed.

Lemma parseStatsInfo_unopened h env envs b req raw multi targets :
  parseStatsInfo jwt_parse post
    h env envs b req raw multi = Ok targets ->
  Forall (fun s => si_msgKey s = "") targets /\ (length targets <= maxStatsTargets)%nat.
Proof.
  unfold parseStatsInfo. destruct (parseRequestToken _ _ _) as [original|]; [|done]. destruct (negb (Valid _)); [done|].
  destruct (streamGrant _) as [grant|]; [|done]. destruct (checkStreamRoute _ _ _ _ _ _); [done|].
  destruct (negb (Check _ _ _ _ _ _)); [done|]. destruct multi.
  - destruct (getProjectOrService _) as [l|]; [|done]. destruct (_ || _) eqn:N; [done|].
    intros [F L]%stats_targets_unopened. split; [done|]. apply orb_false_iff in N as [_ N%Nat.ltb_ge]. by rewrite L.
  - destruct (extractHostUUID _ _); [|done]. destruct (requireKeyBackend _ _ _); [done|]. intros [= <-].
    split; [by constructor|]. apply Nat.leb_le. by vm_compute.
Qed.

Lemma serveStats_inv U h env env' envs begin clock hj payload uuid events req b :
  I U b -> fresh_supply U uuid ->
  I (drawn uuid ∪ U) (fst (serveStats jwt_parse post
                         h env env' envs begin clock hj payload uuid events req b)).
Proof.
  intros H F. assert (I (drawn uuid ∪ U) b) as K by (eapply ci_mono; [|done]; apply union_subseteq_r).
  unfold serveStats. destruct (stats_auth _ _ _ _ _) as [[raw token]|[]]; try done.
  destruct (Upgrade _ _ _); [|done..]. destruct (if bool_decide _ then _ else _) as [s|]; [|done].
  destruct (parseStatsInfo _ _ _ _ _ _ _ _) as [targets|[]] eqn:P; try done; [|by case_match].
  destruct (parseRequestToken _ _ _) as [actual|]; [|done]. destruct (streamGrant _); [|done].
  destruct (parseStatsInfo_unopened _ _ _ _ _ _ _ _ P) as [T L].
  pose proof (serve_targets_inv post h U targets uuid events b F H T L) as S.
  by destruct (serve_targets _ _ _ _ _ _).
Qed.

(** *** Console sessions *)

Context (h : FrontendHandler).
Abbreviation serveSession_ := (serveSession jwt_parse post h).

(** Whatever a create request is authenticated for is allowed. *)
Definition creates_allowed (env : http_env) (req : request) (body : string) (m : manager B) : Prop :=
  forall input u token host, read_create body = Some input ->
    auth jwt_parse post h (he_auth env) (m_backend m) (auth_request req (in_Token input) u) = Ok (token, host) ->
    allowed host (hash (in_Secret input)).

Lemma createSession_inv U env req body id m :
  mgr_inv U m -> he_uuid env ∉ U -> wire_key (he_uuid env) -> creates_allowed env req body m ->
  mgr_inv ({[he_uuid env]} ∪ U) (fst (createSession jwt_parse post h env req body id m)).
Proof.
  intros H N W Al. assert (forall m', mgr_inv U m' -> mgr_inv ({[he_uuid env]} ∪ U) m') as K.
  { intros m'. apply mgr_inv_mono, union_subseteq_r. }
  unfold createSession. destruct (negb _); [by apply K|]. destruct (read_create _) as [input|] eqn:Rd; [|by apply K].
  destruct (validateWorkspaceCredentials _ _ _); [by apply K|]. destruct (_ || _); [by apply K|].
  destruct (get_session id m) as [p|].
  { destruct (matches _ _ _ _ _) as [m1 ok] eqn:E. apply (matches_mgr_inv U) in E; [|done].
    destruct (_ || _); by apply K. }
  destruct (workspaceTargetURL _ _ _ _) as [u|]; [|by apply K].
  destruct (auth _ _ _ _ _ _) as [[token host]|e] eqn:A; [|by apply K].
  pose proof (run_mop_inv U (MCreate (he_now env) id (in_Kind input) (hash (in_Secret input)) host u (he_uuid env)
    (is_delegated token) (he_live2 env)) m H Logic.I) as R. simpl in R.
  destruct (createWithAuthorization _ _ _ _ _ _ _ _ _ _) as [m1 r].
  assert (mgr_inv ({[he_uuid env]} ∪ U) m1) as R1 by (apply R; split_and!; [by eapply Al|done|done]).
  by destruct r as [[p c]|e].
Qed.

Lemma attachSession_inv U env req id m :
  mgr_inv U m -> mgr_inv U (fst (attachSession env req id m)).
Proof.
  intros H. unfold attachSession. destruct (negb _); [done|]. destruct (get_session id m) as [p|]; [|done].
  destruct (negb _); [done|]. destruct (matches _ _ _ _ _) as [m1 ok] eqn:E. apply (matches_mgr_inv U) in E; [|done].
  destruct (negb ok); [done|]. destruct (workspaceClientIDPattern _) eqn:P; [|done]. cbn [negb].
  destruct (Upgrade _ _ _); [|done..]. apply on_session_mgr_inv; [done|]. cbn [mop_ok].
  destruct (objects m1 !! p); [|done]. split; [apply not_elem_of_dom, is_fresh|]. by intros X; rewrite X in P.
Qed.

Lemma terminateSession_inv U env req id m :
  mgr_inv U m -> mgr_inv U (fst (terminateSession env req id m)).
Proof.
  intros H. unfold terminateSession. destruct (negb _); [done|]. destruct (get_session id m) as [p|]; [|done].
  destruct (matches _ _ _ _ _) as [m1 ok] eqn:E. apply (matches_mgr_inv U) in E; [|done]. destruct (negb ok); [done|].
  apply (on_session_mgr_inv U p (STerminate (he_now env))); [done|]. cbn [mop_ok]. by destruct (objects m1 !! p).
Qed.

Lemma serveSession_inv U env req body m :
  mgr_inv U m -> he_uuid env ∉ U -> wire_key (he_uuid env) -> creates_allowed env req body m ->
  mgr_inv ({[he_uuid env]} ∪ U) (fst (serveSession_ env req body m)).
Proof.
  intros H N W Al. assert (forall m', mgr_inv U m' -> mgr_inv ({[he_uuid env]} ∪ U) m') as K.
  { intros m'. apply mgr_inv_mono, union_subseteq_r. }
  unfold serveSession. destruct (negb _); [by apply K|]. destruct (bool_decide _); [by apply createSession_inv|].
  destruct (bool_decide (Method req = "GET")).
  - destruct (workspaceIsWebSocketUpgrade req); [by apply K, attachSession_inv|]. unfold sessionStatus.
    destruct (get_session _ m) as [p|]; [|by apply K]. destruct (matches _ _ _ _ _) as [m1 ok] eqn:E.
    apply (matches_mgr_inv U) in E; [|done]. destruct (negb ok); by apply K.
  - destruct (bool_decide _); apply K; [by apply terminateSession_inv|done].
Qed.
End Handlers.
End Clients.
