(* ===== verification/Interleaving.v ===== *)
(** * The hosts under concurrent requests

    The handlers of [Frontend], [FrontendHttp], [Stats] and [SessionHttp] run at the
    same time, and with the goroutines of the host connections; what they share are
    the backends.  This file has the invariant of the backends that all of them
    preserve, and the backends as one handler sees them: [interleaved] implements
    [backendProxy] so that before each call of the handler any operations of the
    others happen: frames from and to hosts, calls for other streams, hosts that
    connect.  A handler of the model, run on [interleaved], is the handler with
    every call it makes interleaved with its environment. *)

From stdpp Require Import propset.
From S2P Require Import Prelude GoString GoHash GoNet GoUrl GoCookie Message Multiplexer Backend Session SessionProps SessionStream SessionManager.
From S2P Require Import Delegation Capability Http Upgrade Frontend SessionHttp TokenLookup ProxyProtocol HttpPipe FrontendHttp Stats Clients.

(** ** The backends under their clients *)

Section Backends.
Implicit Types (w : world) (p : nat) (m : multiplexer).

(** [w'] has no connection that [w] has not, and in them no streams but those and
    [D]. *)
Definition no_new (D : gset string) w w' : Prop :=
  forall p m', heap w' !! p = Some m' -> exists m, heap w !! p = Some m /\
    backendToken m' = backendToken m /\ backendKey m' = backendKey m /\
    dom (frontendChans m') ⊆ D ∪ dom (frontendChans m).

#[local] Instance no_new_preorder : PreOrder (no_new ∅).
Proof.
  split.
  - intros w p m H. exists m. split_and!; [done..|set_solver].
  - intros w1 w2 w3 A C p m3 H3. destruct (C _ _ H3) as (m2 & H2 & T2 & K2 & D2).
    destruct (A _ _ H2) as (m1 & H1 & T1 & K1 & D1). exists m1. split_and!; [done|congruence|congruence|set_solver].
Qed.

Lemma no_new_trans w1 w2 w3 : no_new ∅ w1 w2 -> no_new ∅ w2 w3 -> no_new ∅ w1 w3.
Proof. intros A C. by trans w2. Qed.

Lemma no_new_heap D w w' : heap w' = heap w -> no_new D w w'.
Proof. intros E p m H. rewrite E in H. exists m. split_and!; [done..|set_solver]. Qed.

Lemma no_new_set D w p m m' v :
  heap w !! p = Some m -> heap v = heap w -> backendToken m' = backendToken m -> backendKey m' = backendKey m ->
  dom (frontendChans m') ⊆ D ∪ dom (frontendChans m) -> no_new D w (set_mux p m' v).
Proof.
  intros Hp Hv T K S q n. simpl. rewrite Hv lookup_insert_Some. intros [[<- <-]|[_ Hq]]; [by exists m|].
  exists n. split_and!; [done..|set_solver].
Qed.

(** For the branches that leave the connections alone. *)
#[local] Hint Extern 1 (no_new _ _ _) => by apply no_new_heap : proxy.

Lemma enqueue_no_new sel p f w w' r : enqueue sel p f w = Some (w', r) -> no_new ∅ w w'.
Proof.
  unfold enqueue. intros E. repeat case_match; simplify_eq; auto with proxy.
  eapply no_new_set; [done..|]. set_solver.
Qed.

Lemma close_locked_no_new p k w : no_new ∅ w (close_locked p k w).
Proof.
  unfold close_locked. destruct (heap w !! p) as [m|] eqn:Hp; [|auto with proxy].
  destruct (frontendChans m !! k); [|auto with proxy].
  eapply no_new_set; [done|apply close_chan_heap|done..|]. simpl. rewrite dom_delete_L. set_solver.
Qed.

Lemma shutdown_no_new p w : no_new ∅ w (shutdown p w).
Proof.
  unfold shutdown. destruct (heap w !! p) as [m|] eqn:Hp; [|auto with proxy].
  destruct (bool_decide _); [|auto with proxy].
  trans (shutdown_begin p w); [|trans (shutdown_remove p (shutdown_begin p w))].
  - unfold shutdown_begin. rewrite Hp. eapply no_new_set; [done..|]. set_solver.
  - unfold shutdown_remove. destruct (heap (shutdown_begin p w) !! p) as [n|] eqn:Hn; [|auto with proxy].
    eapply no_new_set; [done|unfold removeBackend; by repeat case_match|done..|]. set_solver.
  - unfold shutdown_drain. destruct (heap (shutdown_remove p _) !! p) as [n|] eqn:Hn; [|auto with proxy].
    eapply no_new_set; [done|apply close_all_heap|done..|]. set_solver.
Qed.

Lemma mgr_closeConnection_no_new sel key k w w' r : mgr_closeConnection sel key k w = Some (w', r) -> no_new ∅ w w'.
Proof.
  unfold mgr_closeConnection, closeConnection, sendClose.
  destruct (multiplexers w !! key) as [p|]; [|intros [= <- _]; auto with proxy].
  destruct (enqueue _ _ _ _) as [[w1 e]|] eqn:E; [|done]. intros [= <- _]. trans w1; [by eapply enqueue_no_new|].
  apply close_locked_no_new.
Qed.

Lemma initializeClient_no_new p k w : no_new {[k]} w (fst (initializeClient p k w)).
Proof.
  unfold initializeClient. destruct (heap w !! p) as [m|] eqn:Hp; [|auto with proxy].
  destruct (done_ m); [auto with proxy|]. eapply no_new_set; [done..|]. simpl. rewrite dom_insert_L. set_solver.
Qed.

Lemma read_iteration_no_new sel p ev taken w w' b :
  read_iteration sel p ev taken w = Some (w', b) -> no_new ∅ w w'.
Proof.
  unfold read_iteration. destruct (heap w !! p) as [m|]; [|intros [= <- _]; auto with proxy].
  destruct ev as [|[] raw]; [intros [= <- _]; apply shutdown_no_new| |intros [= <- _]; auto with proxy].
  destruct (ParseMessageSafe raw) as [message|]; [|intros [= <- _]; apply shutdown_no_new].
  assert (forall sel key k, ('(w1, _) ← mgr_closeConnection sel key k w; Some (w1, true)) = Some (w', b) ->
    no_new ∅ w w') as K.
  { intros sel' key k ([w2 r2] & E & [= <- _])%bind_Some. by eapply mgr_closeConnection_no_new. }
  destruct (frontendChans m !! Message.Key message) as [c|]; [destruct taken; [|apply K]|destruct (bool_decide _); [apply K|]].
  - intros [= <- _]. apply no_new_heap. unfold send_chan. by repeat case_match.
  - intros [= <- _]. auto with proxy.
Qed.

Lemma write_iteration_no_new p case w w' b : write_iteration p case w = Some (w', b) -> no_new ∅ w w'.
Proof.
  unfold write_iteration. destruct (heap w !! p) as [m|] eqn:Hp; [|intros [= <- _]; auto with proxy].
  assert (forall m', backendToken m' = backendToken m -> backendKey m' = backendKey m ->
    frontendChans m' = frontendChans m -> no_new ∅ w (set_mux p m' w)) as K.
  { intros m' ? ? Ec. eapply no_new_set; [done..|]. rewrite Ec. set_solver. }
  destruct case as [ok|[]|].
  - destruct (messagesToBackend m) as [|message rest]; [done|]. destruct ok; intros [= <- _]; [by apply K|].
    etrans; [|apply shutdown_no_new]. by apply K.
  - intros [= <- _]. auto with proxy.
  - intros [= <- _]. etrans; [|apply shutdown_no_new]. by apply K.
  - destruct (done_ m); intros [= <- _]. by apply K.
Qed.

Context (keyTraceURL : string -> bool).

(** What an operation of the manager may add. *)
Definition op_keys (o : op) : gset string :=
  match o with OpInit _ k | OpInitKey _ k => {[k]} | _ => ∅ end.
Definition adds_host (o : op) : bool := match o with OpAdd _ _ _ _ => true | _ => false end.

Lemma run_op_no_new o w w' : adds_host o = false -> run_op keyTraceURL o w = Some w' -> no_new (op_keys o) w w'.
Proof.
  destruct o; simpl; try done; intros _.
  - intros [= <-]. unfold mgr_initializeClient.
    destruct (multiplexers w !! key); [apply initializeClient_no_new|auto with proxy].
  - intros [= <-]. unfold initializeKeyClient.
    repeat case_match; first [apply initializeClient_no_new|auto with proxy].
  - intros ([w1 r] & E & ->)%fmap_Some. unfold mgr_connect, connect in E. simpl.
    repeat case_match; simplify_eq; auto with proxy. by eapply enqueue_no_new.
  - intros ([w1 r] & E & ->)%fmap_Some. unfold mgr_send, send in E. simpl.
    repeat case_match; simplify_eq; auto with proxy. by eapply enqueue_no_new.
  - intros ([w1 r] & E & ->)%fmap_Some. by eapply mgr_closeConnection_no_new.
  - intros ([w1 r] & E & ->)%fmap_Some. unfold mgr_releaseConnection, closeConnection in E. simpl.
    repeat case_match; simplify_eq; [apply close_locked_no_new|auto with proxy].
  - intros ([w1 r] & E & ->)%fmap_Some. by eapply read_iteration_no_new.
  - intros ([w1 r] & E & ->)%fmap_Some. by eapply write_iteration_no_new.
Qed.

(** *** The invariant of the backends *)

(** [named ticket host]: the ticket was verified and names the host. *)
Context (named : string -> string -> Prop).

Record backends_ok (U : propset string) w : Prop := {
  bo_inv : Inv keyTraceURL w;
  bo_named : forall p m, heap w !! p = Some m -> named (backendToken m) (backendKey m);
  bo_keys : forall p m k, heap w !! p = Some m -> k ∈ dom (frontendChans m) -> k ∈ U }.

Lemma backends_ok_op U V o w w' :
  backends_ok U w -> op_ok o w -> adds_host o = false -> run_op keyTraceURL o w = Some w' ->
  U ⊆ V -> (forall k, k ∈ op_keys o -> k ∈ V) -> backends_ok V w'.
Proof.
  intros [Iw N K] OK A E S D. pose proof (run_op_no_new o w w' A E) as Nn. split.
  - eapply Inv_steps; [exact Iw|]. by eapply run_op_steps.
  - intros p m' Hp. destruct (Nn p m' Hp) as (m & Hm & -> & -> & _). by eapply N.
  - intros p m' k Hp Hk. destruct (Nn p m' Hp) as (m & Hm & _ & _ & Sub).
    destruct (proj1 (elem_of_union _ _ _) (Sub k Hk)) as [Hk'|Hk'].
    + by apply D.
    + by eapply S, K.
Qed.

Lemma backends_ok_register U w key capable token sessionID :
  backends_ok U w -> named token key -> backends_ok U (addBackendWithKeyCapabilities key capable token sessionID w).
Proof.
  intros [Iw N K] Nm.
  assert (forall w1, w1 = fst (fst (register_backend key capable token sessionID w)) ->
    (forall p m, heap w1 !! p = Some m -> named (backendToken m) (backendKey m)) /\
    (forall p m k, heap w1 !! p = Some m -> k ∈ dom (frontendChans m) -> k ∈ U)) as R.
  { intros w1 ->. split; intros p m; simpl; [|intros k]; rewrite lookup_insert_Some; intros [[_ <-]|[_ Hp]];
      [done|by eapply N|set_solver|by eapply K]. }
  pose proof (run_op_steps keyTraceURL (OpAdd key capable token sessionID) w _ Iw Logic.I eq_refl) as St.
  apply (Inv_steps keyTraceURL w) in St; [|done]. unfold addBackendWithKeyCapabilities in *.
  destruct (register_backend key capable token sessionID w) as [[w1 p1] prev]. destruct (R w1 eq_refl) as [R1 R2].
  destruct prev as [q|]; [|by split].
  pose proof (shutdown_no_new q w1) as Nn. split; [done|..].
  - intros p m' Hp. destruct (Nn p m' Hp) as (m & Hm & -> & -> & _). by eapply R1.
  - intros p m' k Hp Hk. destruct (Nn p m' Hp) as (m & Hm & _ & _ & Sub).
    eapply R2; [exact Hm|]. set_solver.
Qed.

#[local] Existing Instance manager_backendProxy.

Lemma unused_key U w key uuid : backends_ok U w -> uuid ∉ U ->
  forall m, current_mux key w = Some m -> frontendChans m !! uuid = None.
Proof.
  intros [_ _ K] N m. unfold current_mux. intros (p & _ & Hp)%bind_Some.
  apply not_elem_of_dom. intros X. by eapply N, K.
Qed.

Lemma finish_fst w o : fst (finish w o) = default w (fst <$> o).
Proof. by destruct o as [[]|]. Qed.

(** An operation on a stream, or no change. *)
Lemma backends_ok_stream U o w :
  backends_ok U w -> op_ok o w -> adds_host o = false -> op_keys o = ∅ ->
  backends_ok U (default w (run_op keyTraceURL o w)).
Proof.
  intros H OK A D. destruct (run_op keyTraceURL o w) as [w'|] eqn:E; [|done].
  eapply backends_ok_op; [done..|]. rewrite D. set_solver.
Qed.

#[export] Instance manager_client_invariant :
  @client_invariant world (manager_backendProxy keyTraceURL) backends_ok.
Proof.
  split.
  - intros U V w S [Iw N K]. split; [done..|]. eauto.
  - intros U w host uuid H N W. eapply (backends_ok_op U _ (OpInit host uuid)); [done|exact (unused_key U w host uuid H N)|done| |set_solver..].
    simpl. unfold bm_initializeClient. by destruct (mgr_initializeClient host uuid w).
  - intros w host uuid w' key. simpl. unfold bm_initializeClient, mgr_initializeClient, initializeClient.
    repeat case_match; simplify_eq/=; congruence.
  - intros U w host url uuid H N W. simpl. unfold bm_initialize, initializeForURL. destruct (keyTraceURL url).
    + eapply (backends_ok_op U _ (OpInitKey host uuid)); [done|exact (unused_key U w host uuid H N)|done| |set_solver..].
      simpl. by destruct (initializeKeyClient host uuid w).
    + eapply (backends_ok_op U _ (OpInit host uuid)); [done|exact (unused_key U w host uuid H N)|done| |set_solver..].
      simpl. by destruct (mgr_initializeClient host uuid w).
  - intros w host url uuid w' key. simpl.
    unfold bm_initialize, initializeForURL, initializeKeyClient, mgr_initializeClient, initializeClient.
    repeat case_match; simplify_eq/=; congruence.
  - intros U w host key url H W. pose proof (backends_ok_stream U (OpConnect (pick_case_for host w) host key url) w H W
      eq_refl eq_refl) as R. simpl in *. unfold bm_connect. by destruct (mgr_connect _ _ _ _ _ _) as [[]|].
  - intros U w host key data H W. simpl. unfold bm_send. rewrite finish_fst.
    by apply (backends_ok_stream U (OpSend (pick_case_for host w) host key data)).
  - intros U w host key H W. simpl. unfold bm_close. rewrite finish_fst.
    by apply (backends_ok_stream U (OpClose (pick_case_for host w) host key)).
  - intros U w host key H W. simpl. unfold bm_release. rewrite finish_fst.
    by apply (backends_ok_stream U (OpRelease host key)).
Qed.
End Backends.

(** ** Tickets *)

Section Tickets.
Context (jwt_parse : bool -> string -> Z -> result jwt_error jwtToken).

(** The ticket was signed under the key of the server. *)
Definition verified (key : public_key) (raw : string) (token : jwtToken) : Prop :=
  exists bits, key = RSAPublicKey bits /\ minRSAKeyBits <= bits /\ jwt_parse true raw bits = Ok token /\
    Valid token = true.

(** A ticket of a host for itself. *)
Definition host_ticket (key : public_key) (raw host : string) : Prop :=
  host <> "" /\ exists token, verified key raw token /\ claimValue (Some token) "reportedUuid" = Some (AString host).

(** A ticket that names the host for a client, plain or delegated. *)
Definition names_host (token : jwtToken) (host : string) : Prop :=
  streamGrant (Some token) = Ok None /\ stringClaim (Some token) "hostUuid" = Some host \/
  exists g, streamGrant (Some token) = Ok (Some g) /\ as_string (field (Payload g) "hostUuid") = Some host.

(** A parsed ticket is a verified one. *)
Lemma parseToken_verified key req token param :
  parseToken jwt_parse req key = (Ok token, param) -> Valid token = true ->
  param = request_token req /\ verified key param token.
Proof.
  intros P V. apply parseToken_Ok in P as (-> & _ & P). apply parseSignedJWT_guards in P as (bits & K & L & _ & J).
  split; [done|]. by exists bits.
Qed.

Lemma auth_verified {B : Type} `{BP : backendProxy B} post h aenv (b : B) req token host :
  auth jwt_parse post h aenv b req = Ok (token, host) ->
  verified (parsedPublicKey h) (request_token req) token /\ request_token req <> "" /\ names_host token host.
Proof.
  unfold auth. destruct (parseToken _ _ _) as [[tok|e] param] eqn:P; [|repeat case_match; done].
  pose proof (parseToken_Ok _ _ _ _ _ P) as (Ep & Np & _). rewrite Ep in Np.
  destruct (Valid tok) eqn:V; [|done]. cbn [negb]. apply parseToken_verified in P as [-> Vf]; [|done].
  intros E. destruct (streamGrant (Some tok)) as [[g|]|] eqn:G; [| |done].
  - assert (token = tok /\ as_string (field (Payload g) "hostUuid") = Some host) as [-> Hh]
      by (repeat (case_match; try done); by simplify_eq).
    split_and!; [done|done|right]. by exists g.
  - assert (token = tok /\ stringClaim (Some tok) "hostUuid" = Some host) as [-> Hh]
      by (repeat (case_match; try done); by simplify_eq).
    split_and!; [done|done|by left].
Qed.

(** ** Calls between those of others *)

Context (keyTraceURL : string -> bool) (key : public_key).

(** What others do to the backends: an iteration of a goroutine of a host connection
    or a call for another stream, or the request of a host that connects. *)
Inductive other :=
| OtherOp (o : op)
| OtherHost (req : request) (hj : hijack) (session : string).

#[export] Instance wire_key_dec k : Decision (wire_key k).
Proof. unfold wire_key. apply _. Defined.

#[export] Instance op_ok_dec o w : Decision (op_ok o w).
Proof.
  destruct o as [| ? k |? k| | | | | |p case]; simpl; try apply _.
  1, 2: destruct (current_mux _ w) as [m|]; [|by left];
    destruct (frontendChans m !! k) as [c|] eqn:E; [right; intros H; specialize (H m eq_refl); congruence|left; by intros ? [= <-]].
  destruct (heap w !! p) as [m|]; [|right; by intros (? & ? & _)].
  destruct (writerStopped m) eqn:E; [right; intros (? & [= <-] & ?); congruence|left; by exists m].
Defined.

(** An operation that is not possible at this point (a stream that is registered
    already, a connection that does not exist) is not taken. *)
Definition run_other (x : other) (w : world) : world :=
  match x with
  | OtherOp o => if adds_host o then w
                 else if decide (op_ok o w) then default w (run_op keyTraceURL o w) else w
  | OtherHost req hj session => fst (serveBackend jwt_parse key req hj session w)
  end.

(** The backends of a handler: their state, what the others do before its next
    calls, and the streams it has opened itself. *)
Record interleaved := mkInterleaved {
  il_world : world; il_others : list (list other); il_open : gset (string * string) }.

Definition run_others (s : interleaved) : interleaved :=
  match il_others s with
  | [] => s
  | l :: rest => mkInterleaved (foldl (fun w x => run_other x w) (il_world s) l) rest (il_open s)
  end.

Definition after {R : Type} (s : interleaved) (open : R -> gset (string * string)) (r : world * R) : interleaved * R :=
  (mkInterleaved (fst r) (il_others s) (open (snd r)), snd r).

Definition opens (s : interleaved) (host : string) (r : result mux_error string) : gset (string * string) :=
  match r with Ok k => {[(host, k)]} ∪ il_open s | Err _ => il_open s end.

Definition interleaved_backendProxy : backendProxy interleaved.
Proof.
  refine {|
    bp_open s host k := bool_decide ((host, k) ∈ il_open s);
    bp_initializeClient s host uuid := let s := run_others s in
      after s (opens s host) (bm_initializeClient (il_world s) host uuid);
    bp_initializeForURL s host url uuid := let s := run_others s in
      after s (opens s host) (bm_initialize keyTraceURL (il_world s) host url uuid);
    bp_connect s host k url := let s := run_others s in
      after s (fun _ => il_open s) (bm_connect keyTraceURL (il_world s) host k url);
    bp_send s host k data := let s := run_others s in
      after s (fun _ => il_open s) (bm_send (il_world s) host k data);
    bp_closeConnection s host k := let s := run_others s in
      after s (fun _ => il_open s ∖ {[(host, k)]}) (bm_close (il_world s) host k);
    bp_releaseConnection s host k := let s := run_others s in
      after s (fun _ => il_open s ∖ {[(host, k)]}) (bm_release (il_world s) host k);
    bp_hasBackend s host := hasBackend host (il_world s);
    bp_supportsKeyTraces s host := supportsKeyTraces host (il_world s);
    bp_backendTicket s host := backendTicket host (il_world s) |}.
  - intros s host uuid s' k [= <- E]. simpl. rewrite E. apply bool_decide_eq_true_2. set_solver.
  - intros s host url uuid s' k [= <- E]. simpl. rewrite E. apply bool_decide_eq_true_2. set_solver.
  - intros s host k s' ok [= <- _]. simpl. apply bool_decide_eq_false_2. set_solver.
  - intros s host k s' ok [= <- _] h k'. simpl. rewrite !bool_decide_eq_true. unfold run_others.
    destruct (il_others s); simpl; set_solver.
  - intros s host k s' ok [= <- _]. simpl. apply bool_decide_eq_false_2. set_solver.
  - intros s host k data s' ok [= <- _] h k'. simpl. unfold run_others. by destruct (il_others s).
Defined.

(** *** The invariant *)

Context (presented : string -> Prop).

(** Every connection is backed by a ticket of its host that was presented. *)
Definition presented_ticket (raw host : string) : Prop := host_ticket key raw host /\ presented raw.
Abbreviation backends_inv := (backends_ok keyTraceURL presented_ticket).

Lemma serveBackend_inv U w req hj session :
  presented (request_token req) -> backends_inv U w -> backends_inv U (fst (serveBackend jwt_parse key req hj session w)).
Proof.
  intros Pr H. unfold serveBackend, authTicket.
  destruct (parseToken _ _ _) as [[tok|e] param] eqn:P; [|done]. destruct (Valid tok) eqn:V; [|done]. cbn [negb].
  destruct (claimValue _ _) as [v|] eqn:C; [|done]. destruct (as_string v) as [host|] eqn:A; [|done].
  destruct (bool_decide (host = "")) eqn:Hn; [done|]. destruct (Upgrade _ _ _); [|done..].
  apply parseToken_verified in P as [-> Vf]; [|done].
  apply backends_ok_register; [done|]. bool_to_prop. split; [|done]. split; [done|]. exists tok.
  apply as_string_Some in A as ->. done.
Qed.


(** The identifiers the others draw, and the requests they make. *)
Definition other_keys (x : other) : gset string := match x with OtherOp o => op_keys o | OtherHost _ _ _ => ∅ end.
Definition other_requests (x : other) : list request := match x with OtherOp _ => [] | OtherHost req _ _ => [req] end.

Definition other_ok (U : propset string) (x : other) : Prop :=
  (forall k, k ∈ other_keys x -> k ∈ U) /\ (forall req, req ∈ other_requests x -> presented (request_token req)).

Lemma run_other_inv U x w : other_ok U x -> backends_inv U w -> backends_inv U (run_other x w).
Proof.
  intros [K P] H. destruct x as [o|req hj session]; simpl in *.
  - destruct (adds_host o) eqn:A; [done|]. destruct (decide (op_ok o w)) as [OK|]; [|done].
    destruct (run_op keyTraceURL o w) as [w'|] eqn:E; [|done]. eapply (backends_ok_op keyTraceURL _ U U o w); done.
  - apply serveBackend_inv; [|done]. apply P. left.
Qed.

Definition interleaved_inv (U : propset string) (s : interleaved) : Prop :=
  backends_inv U (il_world s) /\ Forall (Forall (other_ok U)) (il_others s).

Lemma run_others_inv U s : interleaved_inv U s -> interleaved_inv U (run_others s).
Proof.
  intros [H F]. unfold run_others. destruct (il_others s) as [|l rest] eqn:E; [split; [done|by rewrite E]|].
  apply Forall_cons in F as [Fl F]. split; [|done]. clear E F. simpl. revert H. generalize (il_world s).
  induction Fl as [|x l Hx Fl IH]; intros w H; [done|]. simpl. by apply IH, run_other_inv.
Qed.

Lemma others_mono U V l : U ⊆ V -> Forall (Forall (other_ok U)) l -> Forall (Forall (other_ok V)) l.
Proof.
  intros S F. eapply Forall_impl; [exact F|]. intros l' F'. eapply Forall_impl; [exact F'|].
  intros x [K P]. split; [|done]. intros k Hk. by apply S, K.
Qed.

#[export] Instance interleaved_client_invariant :
  @client_invariant interleaved interleaved_backendProxy interleaved_inv.
Proof.
  pose proof (manager_client_invariant keyTraceURL presented_ticket) as M.
  split; simpl.
  - intros U V s S [H F]. split; [by eapply (@ci_mono _ _ _ M)|by eapply others_mono].
  - intros U s host uuid [H F]%run_others_inv N W. split; [by apply (@ci_initializeClient _ _ _ M)|].
    eapply others_mono; [apply union_subseteq_r|done].
  - intros s host uuid s' k E. injection E as _ E. eapply (@ci_initializeClient_key _ _ _ M (il_world (run_others s)) host).
    simpl. rewrite -E. apply surjective_pairing.
  - intros U s host url uuid [H F]%run_others_inv N W. split; [by apply (@ci_initialize _ _ _ M)|].
    eapply others_mono; [apply union_subseteq_r|done].
  - intros s host url uuid s' k E. injection E as _ E. eapply (@ci_initialize_key _ _ _ M (il_world (run_others s)) host url).
    simpl. rewrite -E. apply surjective_pairing.
  - intros U s host k url [H F]%run_others_inv W. split; [by apply (@ci_connect _ _ _ M)|done].
  - intros U s host k data [H F]%run_others_inv W. split; [by apply (@ci_send _ _ _ M)|done].
  - intros U s host k [H F]%run_others_inv W. split; [by apply (@ci_close _ _ _ M)|done].
  - intros U s host k [H F]%run_others_inv W. split; [by apply (@ci_release _ _ _ M)|done].
Qed.
End Tickets.

(** ** The manager of the sessions on other backends *)

Definition with_backend {B C : Type} (b : C) (m : manager B) : manager C :=
  mkManager b (maxSessions m) (mgr_maxReplayBytes m) (activeRetention m) (endedRetention m) (sessions m) (objects m)
    (m_tabs m) (m_calls m).

Lemma mgr_inv_backend {B C : Type}
  (I : propset string -> B -> Prop) (J : propset string -> C -> Prop) (P Q : string -> string -> Prop) max U V m (b : C) :
  (forall host hash, P host hash -> Q host hash) -> mgr_inv I P max U m -> J V b -> mgr_inv J Q max V (with_backend b m).
Proof.
  intros S [H [] C0 A] Hb. split; [done|done|done|]. intros p s Hp. destruct (A p s Hp) as [W Al]. split; [done|by apply S].
Qed.
