(* ===== verification/Agent.v ===== *)
(** * The host side of the wire

    Models [backend/backend.go] and [backend/pong_handler.go]: the agent that a
    host runs, which routes the messages of the proxy to one channel per stream
    and queues the handlers' replies.  Go channels live in a store; closing a
    closed channel, or sending on one, is the run-time panic it is in Go.  The
    iteration order of Go's maps is an argument. *)

From S2P Require Import Prelude GoString GoHash GoNet GoUrl Message Delegation.

Section Agent.
(** Handlers are opaque. *)
Context {H : Type}.

(** The path of a URL, if it parses. *)
Definition url_path (raw : string) : option string := Path <$> url_parse raw.

(** ** Choosing a handler *)

(** The loop over the handlers, in the order [range] yields them. *)
Fixpoint find_prefix (path : string) (order : list (string * H)) : option H :=
  match order with
  | [] => None
  | (key, handler) :: order =>
      let key := trim_suffix key "/" in
      if bool_decide (path = key) || has_prefix path (key +:+ "/") then Some handler
      else find_prefix path order
  end.

Definition getHandler (order : list (string * H)) (path : string) (handlers : gmap string H) : option H :=
  match handlers !! path with
  | Some h => Some h
  | None => find_prefix (trim_suffix path "/") order
  end.

(** ** Routing *)

Record agent_chan := mkAgentChan { received : list string; achan_closed : bool }.

Record agent := mkAgent {
  responders : gmap string nat;               (* open stream channels by message key *)
  achans : gmap nat agent_chan;               (* every channel made so far *)
  started : list (string * string * nat * H); (* handlers started: key, URL, channel *)
  responses : list Message;                   (* what was put on the response channel *)
  ws_open : bool;
  apanicked : bool }.

Definition initial_agent : agent := mkAgent ∅ ∅ [] [] true false.

Definition close_achan (c : nat) (a : agent) : agent :=
  match achans a !! c with
  | Some ch =>
      if achan_closed ch
      then mkAgent (responders a) (achans a) (started a) (responses a) (ws_open a) true
      else mkAgent (responders a) (<[c:=mkAgentChan (received ch) true]> (achans a)) (started a)
             (responses a) (ws_open a) (apanicked a)
  | None => mkAgent (responders a) (achans a) (started a) (responses a) (ws_open a) true
  end.

Definition send_achan (c : nat) (data : string) (a : agent) : agent :=
  match achans a !! c with
  | Some ch =>
      if achan_closed ch
      then mkAgent (responders a) (achans a) (started a) (responses a) (ws_open a) true
      else mkAgent (responders a) (<[c:=mkAgentChan (received ch ++ [data]) false]> (achans a)) (started a)
             (responses a) (ws_open a) (apanicked a)
  | None => mkAgent (responders a) (achans a) (started a) (responses a) (ws_open a) true
  end.

Definition respond (m : Message) (a : agent) : agent :=
  mkAgent (responders a) (achans a) (started a) (responses a ++ [m]) (ws_open a) (apanicked a).

(** [SignalHandlerClosed] *)
Definition SignalHandlerClosed (key : string) (a : agent) : agent := respond (mkMessage key Close "") a.

Definition closeHandler (key : string) (a : agent) : agent :=
  match responders a !! key with
  | Some c =>
      let a := close_achan c a in
      mkAgent (delete key (responders a)) (achans a) (started a) (responses a) (ws_open a) (apanicked a)
  | None => a
  end.

(** A [Connect] message. *)
Definition open_stream (order : list (string * H)) (handlers : gmap string H) (key url : string) (a : agent)
  : agent :=
  match url_path url with
  | None => a
  | Some path =>
      match getHandler order path handlers with
      | Some h =>
          let c := fresh (dom (achans a)) in
          mkAgent (<[key:=c]> (responders a)) (<[c:=mkAgentChan [] false]> (achans a))
            (started a ++ [(key, url, c, h)]) (responses a) (ws_open a) (apanicked a)
      | None => SignalHandlerClosed key a
      end
  end.

(** What [ReadMessage] returns; with a frame comes the order in which [range]
    yields the handlers at that iteration. *)
Inductive incoming := ReadError | Frame (order : list (string * H)) (raw : string).

(** One iteration of the reading loop: the new state and whether it goes on. *)
Definition route (handlers : gmap string H) (i : incoming) (a : agent) : agent * bool :=
  match i with
  | ReadError => (foldr (fun kc a => close_achan (snd kc) a) a (map_to_list (responders a)), false)
  | Frame order raw =>
      match ParseMessageSafe raw with
      | Err _ => (mkAgent (responders a) (achans a) (started a) (responses a) false (apanicked a), false)
      | Ok m =>
          if bool_decide (Type_ m = Connect) then (open_stream order handlers (Key m) (Body_ m) a, true)
          else if bool_decide (Type_ m = Body) then
            (match responders a !! Key m with
             | Some c => send_achan c (Body_ m) a
             | None => SignalHandlerClosed (Key m) a
             end, true)
          else if bool_decide (Type_ m = Close) then (closeHandler (Key m) a, true)
          else (SignalHandlerClosed (Key m) (closeHandler (Key m) a), true)
      end
  end.

(** The loop: until it returns or the input ends. *)
Fixpoint connectToProxyWS (handlers : gmap string H) (l : list incoming) (a : agent) : agent :=
  match l with
  | [] => a
  | i :: l => let '(a, go_on) := route handlers i a in
              if go_on then connectToProxyWS handlers l a else a
  end.

(** One case of the writing goroutine: the frame to write, if it fits the wire. *)
Definition write_reply (m : Message) : option string :=
  let data := FormatMessage (Key m) (Type_ m) (Body_ m) in
  if MaxWireMessageBytes <? go_len data then None else Some data.

(** What wakes the writing goroutine, and whether the write that follows succeeds: a
    reply, a tick of the ping timer, or the closing of the response channel. *)
Inductive wake := Reply (m : Message) (write_ok : bool) | Tick (ping_ok : bool) | RepliesClosed.

(** The goroutine: the frames it writes, and whether it closed the connection. *)
Fixpoint write_loop (l : list wake) : list string * bool :=
  match l with
  | [] | RepliesClosed :: _ => ([], false)
  | Tick false :: _ => ([], true)
  | Tick true :: l => write_loop l
  | Reply m ok :: l =>
      match write_reply m with
      | None => ([], true)
      | Some data => if ok then let '(written, closed) := write_loop l in (data :: written, closed) else ([], true)
      end
  end.

(** ** Dialling *)

(** The URL without user information, query and fragment. *)
Definition strip (u : url) : url := with_fragments "" (RawFragment u) (with_query "" (with_user None u)).

Definition proxyLogEndpoint (rawURL : string) : string :=
  match url_parse rawURL with
  | None => "<invalid>"
  | Some parsed =>
      if bool_decide (Scheme parsed = "") || bool_decide (Host parsed = "") then "<invalid>"
      else url_string (strip parsed)
  end.

Definition proxyDialError (rawURL : string) : string :=
  "proxy WebSocket connection to " +:+ proxyLogEndpoint rawURL +:+ " failed".

(** The guard of [ConnectToProxy]. *)
Definition valid_endpoint (u : url) : bool :=
  (bool_decide (Scheme u = "ws") || bool_decide (Scheme u = "wss")) && negb (bool_decide (Host u = ""))
  && bool_decide (User u = None) && bool_decide (Fragment u = "") && bool_decide (Opaque u = "").

(** What [ConnectToProxy] logs and dials, and its result: an error before the
    connection, or the state in which the reading loop returns. *)
Record connection := mkConnection {
  co_logged : list string; co_dialled : list string; co_result : result string agent }.

Definition ConnectToProxy (dial : string -> bool) (handlers : gmap string H) (l : list incoming) (proxyURL : string)
  : connection :=
  if match url_parse proxyURL with Some u => negb (valid_endpoint u) | None => true end
  then mkConnection [] [] (Err "invalid proxy WebSocket endpoint")
  else
    let endpoint := Value (proxyLogEndpoint proxyURL) in
    if dial proxyURL then mkConnection [endpoint] [proxyURL] (Ok (connectToProxyWS handlers l initial_agent))
    else mkConnection [endpoint; endpoint] [proxyURL] (Err (proxyDialError proxyURL)).

(** ** The pong timer *)

(** One tick of [startTimer] ([now] and [lastPing] in milliseconds): whether the
    connection is closed. *)
Definition pong_timeout (lastPing maxWait now : Z) : bool := lastPing + maxWait <? now.

(** The ticks, every [interval] from [start] on, until one closes the connection;
    [pong] gives the last pong seen at a tick. *)
Fixpoint pong_ticks (pong : nat -> Z) (maxWait interval start : Z) (n i : nat) : option nat :=
  match n with
  | O => None
  | S n => if pong_timeout (pong i) maxWait (start + Z.of_nat (S i) * interval) then Some i
           else pong_ticks pong maxWait interval start n (S i)
  end.

(** The handler's state: the time of the last pong, first that of its creation.
    Between ticks pongs arrive ([handle]). *)
Definition newPongHandler (now : Z) : Z := now.
Definition handle (now lastPing : Z) : Z := now.
Definition checkInterval : Z := 5000.
Definition maxWait : Z := 10000.
Inductive pong_event := Pong (now : Z) | Check (now : Z).

(** When [startTimer] closes the connection, if it does. *)
Fixpoint startTimer (lastPing : Z) (l : list pong_event) : option Z :=
  match l with
  | [] => None
  | Pong now :: l => startTimer (handle now lastPing) l
  | Check now :: l => if pong_timeout lastPing maxWait now then Some now else startTimer lastPing l
  end.
End Agent.
Arguments agent : clear implicits.
Arguments connection : clear implicits.
Arguments incoming : clear implicits.
Arguments ReadError {H}.

(** ** The invariant *)

Section AgentProps.
Context {H : Type}.
Implicit Types a : agent H.

(** Registered channels exist, are open, and belong to one key; nothing panicked. *)
Record agent_ok a : Prop := {
  ao_open : forall key c, responders a !! key = Some c ->
    exists l, achans a !! c = Some (mkAgentChan l false);
  ao_inj : forall k1 k2 c, responders a !! k1 = Some c -> responders a !! k2 = Some c -> k1 = k2;
  ao_panic : apanicked a = false }.

Lemma fresh_achan a : achans a !! fresh (dom (achans a)) = None.
Proof. apply not_elem_of_dom, is_fresh. Qed.

Lemma respond_ok m a : agent_ok a -> agent_ok (respond m a).
Proof. intros []. by split. Qed.

Lemma closeHandler_ok key a : agent_ok a -> agent_ok (closeHandler key a).
Proof.
  intros [Op Inj P]. unfold closeHandler. destruct (responders a !! key) as [c|] eqn:E; [|by split].
  destruct (Op _ _ E) as [l Hc]. unfold close_achan. rewrite Hc. simpl. split; simpl; [| |done].
  - intros k d. rewrite lookup_delete_Some. intros [N Hk]. destruct (Op _ _ Hk) as [l' Hd]. exists l'.
    rewrite lookup_insert_ne //. intros ->. apply N. by eapply Inj.
  - intros k1 k2 d. rewrite !lookup_delete_Some. intros [_ H1] [_ H2]. by eapply Inj.
Qed.

Lemma open_stream_ok order handlers key url a : agent_ok a -> agent_ok (open_stream order handlers key url a).
Proof.
  intros I. unfold open_stream. destruct (url_path url) as [path|]; [|done].
  destruct (getHandler _ _ _); [|by apply respond_ok]. destruct I as [Op Inj P].
  pose proof (fresh_achan a) as Fr. set (c := fresh (dom (achans a))) in *.
  assert (forall k d, responders a !! k = Some d -> d <> c) as N.
  { intros k d Hk ->. destruct (Op _ _ Hk) as [l Hc]. by rewrite Fr in Hc. }
  split; simpl; [| |done].
  - intros k d. rewrite lookup_insert_Some. intros [[<- <-]|[_ Hk]]; [exists []; by rewrite lookup_insert_eq|].
    destruct (Op _ _ Hk) as [l Hd]. exists l. rewrite lookup_insert_ne //. by eapply not_eq_sym, N.
  - intros k1 k2 d. rewrite !lookup_insert_Some. intros [[<- <-]|[N1 H1]] [[<- E]|[N2 H2]]; try done.
    + exfalso. by eapply N.
    + subst. exfalso. by eapply N.
    + by eapply Inj.
Qed.

Lemma send_ok key c data a : agent_ok a -> responders a !! key = Some c -> agent_ok (send_achan c data a).
Proof.
  intros [Op Inj P] E. destruct (Op _ _ E) as [l Hc]. unfold send_achan. rewrite Hc. simpl. split; simpl; [| |done].
  - intros k d Hk. destruct (decide (c = d)) as [->|N]; [eexists; by rewrite lookup_insert_eq|].
    destruct (Op _ _ Hk) as [l' Hd]. exists l'. by rewrite lookup_insert_ne.
  - done.
Qed.

#[local] Hint Resolve open_stream_ok closeHandler_ok : proxy.

Lemma route_ok order handlers raw a : agent_ok a -> agent_ok (fst (route handlers (Frame order raw) a)).
Proof.
  intros I. simpl. destruct (ParseMessageSafe raw) as [m|]; [|by destruct I].
  repeat case_bool_decide; simpl; auto with proxy.
  - destruct (responders a !! Key m) eqn:E; [by eapply send_ok|by apply respond_ok].
  - by apply respond_ok, closeHandler_ok.
Qed.

(** Closing all registered channels. *)
Lemma close_all_ok a (l : list (string * nat)) :
  NoDup l.*2 -> apanicked a = false ->
  (forall c, c ∈ l.*2 -> exists r, achans a !! c = Some (mkAgentChan r false)) ->
  let a' := foldr (fun kc a => close_achan (snd kc) a) a l in
  apanicked a' = false /\
  forall c r, achans a !! c = Some (mkAgentChan r false) ->
    achans a' !! c = Some (mkAgentChan r (bool_decide (c ∈ l.*2))).
Proof.
  intros ND P O. induction l as [|[k d] l IH]; simpl in *; [done|].
  apply NoDup_cons in ND as [Nd ND].
  destruct IH as [P' S]; [done|intros c Hc; apply O; by right|].
  destruct (O d) as [r Hd]; [left|]. pose proof (S _ _ Hd) as Hd'. rewrite bool_decide_eq_false_2 // in Hd'.
  unfold close_achan. rewrite Hd'. simpl. split; [done|].
  intros c r' Hc. rewrite lookup_insert. case_decide as D; [subst|].
  - rewrite bool_decide_eq_true_2; [|left]. by simplify_eq.
  - rewrite (S _ _ Hc). do 2 f_equal. apply bool_decide_ext. rewrite elem_of_cons. naive_solver.
Qed.

Lemma read_error_spec handlers a :
  agent_ok a ->
  let a' := fst (route handlers ReadError a) in
  apanicked a' = false /\
  forall c r, achans a !! c = Some (mkAgentChan r false) ->
    achans a' !! c = Some (mkAgentChan r (bool_decide (c ∈ (map_to_list (responders a)).*2))).
Proof.
  intros [Op Inj P]. apply close_all_ok; [|done|].
  - apply NoDup_fmap_2_strong; [|apply NoDup_map_to_list].
    intros [k1 c1] [k2 c2] H1%elem_of_map_to_list H2%elem_of_map_to_list. simpl. intros <-.
    by rewrite (Inj _ _ _ H1 H2).
  - intros c ([k d] & -> & Hk%elem_of_map_to_list)%list_elem_of_fmap. simpl. by eapply Op.
Qed.

Lemma loop_ok handlers l a :
  agent_ok a -> apanicked (connectToProxyWS handlers l a) = false.
Proof.
  revert a. induction l as [|i l IH]; intros a I; [by destruct I|]. cbn [connectToProxyWS].
  destruct i as [|order raw].
  - destruct (read_error_spec handlers a I) as [P _]. exact P.
  - pose proof (route_ok order handlers raw a I) as I'.
    destruct (route handlers (Frame order raw) a) as [a' []]; simpl in I'; [by apply IH|by destruct I'].
Qed.

(** The text of a message, and the bodies of one stream. *)
Definition message_frame (m : Message) : string := FormatMessage (Key m) (Type_ m) (Body_ m).


Definition stream_bodies (key : string) (l : list Message) : list string :=
  Body_ <$> List.filter (fun m => bool_decide (Key m = key)) l.

(** ** Properties *)

(** The agent never panics: whatever the proxy sends, well-formed or not, in
    any order, no channel is closed twice and nothing is sent on a closed
    channel. *)
Theorem agent_never_panics handlers l :
  apanicked (connectToProxyWS handlers l (initial_agent : agent H)) = false.
Proof. apply loop_ok. by split. Qed.

Lemma route_other order handlers m k c r a :
  agent_ok a -> responders a !! k = Some c -> achans a !! c = Some (mkAgentChan r false) ->
  ParseMessageSafe (message_frame m) = Ok m ->
  (Key m = k -> Type_ m = Body) ->
  let '(a', go_on) := route handlers (Frame order (message_frame m)) a in
  go_on = true /\ responders a' !! k = Some c /\
  achans a' !! c = Some (mkAgentChan (r ++ stream_bodies k [m]) false).
Proof.
  intros I Hk Hc P Ty. unfold route. rewrite P. unfold stream_bodies. simpl.
  destruct (decide (Key m = k)) as [Ek|Nk].
  - rewrite (bool_decide_eq_true_2 _ Ek). rewrite (Ty Ek) Ek /= Hk. unfold send_achan. rewrite Hc. simpl.
    by rewrite lookup_insert_eq.
  - rewrite (bool_decide_eq_false_2 _ Nk) app_nil_r. destruct I as [Op Inj _].
    assert (forall a', responders a' = responders a -> achans a' = achans a ->
      responders a' !! k = Some c /\ achans a' !! c = Some (mkAgentChan r false)) as Keep by by intros a' -> ->.
    assert (responders (closeHandler (Key m) a) !! k = Some c /\
      achans (closeHandler (Key m) a) !! c = Some (mkAgentChan r false)) as Cl.
    { unfold closeHandler. destruct (responders a !! Key m) as [d|] eqn:Ed; [|done].
      destruct (Op _ _ Ed) as [l Hd]. unfold close_achan. rewrite Hd. simpl.
      rewrite lookup_delete_ne // lookup_insert_ne //. intros ->. by apply Nk, (Inj _ _ c). }
    repeat case_bool_decide; (split; [done|]); auto.
    + unfold open_stream. destruct (url_path (Body_ m)); [|done]. destruct (getHandler _ _ _); [|done]. simpl.
      rewrite lookup_insert_ne // lookup_insert_ne //. intros E. pose proof (fresh_achan a) as Fr.
      by rewrite E Hc in Fr.
    + destruct (responders a !! Key m) as [d|] eqn:Ed; [|by apply Keep].
      destruct (Op _ _ Ed) as [l Hd]. unfold send_achan. rewrite Hd. simpl. split; [done|].
      rewrite lookup_insert_ne //. intros ->. by apply Nk, (Inj _ _ c).
Qed.

Lemma routed_in_order handlers k c r a (l : list (list (string * H) * Message)) :
  agent_ok a -> responders a !! k = Some c -> achans a !! c = Some (mkAgentChan r false) ->
  Forall (fun om => ParseMessageSafe (message_frame (snd om)) = Ok (snd om) /\
                    (Key (snd om) = k -> Type_ (snd om) = Body)) l ->
  let a' := connectToProxyWS handlers
              ((fun om => Frame (fst om) (message_frame (snd om))) <$> l) a in
  responders a' !! k = Some c /\ achans a' !! c = Some (mkAgentChan (r ++ stream_bodies k (snd <$> l)) false).
Proof.
  intros I Hk Hc F. revert r a I Hk Hc. induction F as [|[order m] l [P Ty] F IH]; intros r a I Hk Hc.
  - simpl. by rewrite app_nil_r.
  - pose proof (route_other order handlers m k c r a I Hk Hc P Ty) as R.
    pose proof (route_ok order handlers (message_frame m) a I) as I'.
    cbn [fmap list_fmap connectToProxyWS].
    destruct (route handlers _ a) as [a1 go_on]. destruct R as (-> & R1 & R2). simpl in I'.
    destruct (IH _ _ I' R1 R2) as [S1 S2]. split; [done|].
    cbn [snd fmap list_fmap] in *.
    assert (stream_bodies k (m :: (snd <$> l)) = stream_bodies k [m] ++ stream_bodies k (snd <$> l)) as ->; [|by rewrite app_assoc].
    unfold stream_bodies. simpl. by case_bool_decide.
Qed.

(** Between the connect and the close of a stream, its handler receives exactly
    the bodies the proxy sent for that stream, in order, none lost, duplicated or
    mixed with those of other streams, whatever the traffic of the others. *)
Theorem stream_routed_in_order handlers k c r a (l : list (list (string * H) * Message)) :
  agent_ok a -> responders a !! k = Some c -> achans a !! c = Some (mkAgentChan r false) ->
  Forall (fun om => ParseMessageSafe (message_frame (snd om)) = Ok (snd om) /\
                    (Key (snd om) = k -> Type_ (snd om) = Body)) l ->
  let a' := connectToProxyWS handlers
              ((fun om => Frame (fst om) (message_frame (snd om))) <$> l) a in
  responders a' !! k = Some c /\ achans a' !! c = Some (mkAgentChan (r ++ stream_bodies k (snd <$> l)) false).
Proof. apply routed_in_order. Qed.

(** When the connection to the proxy is lost, every open stream is closed, so
    its handler sees the end of its input; but when the proxy sends a malformed
    frame the agent drops the connection and returns with all of them open. *)
Theorem lost_connection_closes_streams order handlers a k c raw e :
  agent_ok a -> responders a !! k = Some c -> ParseMessageSafe raw = Err e ->
  (exists r, achans (fst (route handlers ReadError a)) !! c = Some (mkAgentChan r true)) /\
  (exists r, achans (fst (route handlers (Frame order raw) a)) !! c = Some (mkAgentChan r false)) /\
  snd (route handlers (Frame order raw) a) = false.
Proof.
  intros I Hk P. destruct (read_error_spec handlers a I) as [_ S]. destruct I as [Op _ _].
  destruct (Op _ _ Hk) as [r Hc]. split_and!.
  - exists r. cbn [route fst] in *. rewrite (S _ _ Hc) bool_decide_eq_true_2 //.
    apply list_elem_of_fmap. exists (k, c). split; [done|]. by apply elem_of_map_to_list.
  - exists r. cbn [route]. by rewrite P.
  - cbn [route]. by rewrite P.
Qed.
End AgentProps.

(** The choice of a handler is sound: an exact match is taken, and otherwise the
    handler belongs to a key that equals the path or is a prefix of it up to a
    slash. *)
Theorem getHandler_sound {H : Type} (handlers : gmap string H) order path h :
  order ≡ₚ map_to_list handlers -> getHandler order path handlers = Some h ->
  handlers !! path = Some h \/
  handlers !! path = None /\
  exists key, handlers !! key = Some h /\
    (trim_suffix path "/" = trim_suffix key "/" \/
     exists rest, trim_suffix path "/" = trim_suffix key "/" +:+ "/" +:+ rest).
Proof.
  intros P. unfold getHandler. destruct (handlers !! path) as [h'|] eqn:E; [by intros [= ->]; left|].
  intros F. right. split; [done|].
  assert (exists key, (key, h) ∈ order /\ (trim_suffix path "/" = trim_suffix key "/" \/
    exists rest, trim_suffix path "/" = trim_suffix key "/" +:+ "/" +:+ rest)) as (key & Hin & M).
  { clear P E. induction order as [|[key h0] order IH]; [done|]. simpl in F.
    destruct (_ || _) eqn:G.
    - injection F as ->. exists key. split; [left|]. apply orb_true_iff in G as [G|G]; bool_to_prop; [by left|right].
      apply has_prefix_spec in G as [rest G]. exists rest. by rewrite G append_assoc.
    - destruct (IH F) as (key' & Hin & M). exists key'. split; [by right|done]. }
  exists key. split; [|done]. by rewrite P elem_of_map_to_list in Hin.
Qed.

(** The handler is not the best match: with nested prefixes the result depends
    on the iteration order of the map, so the same path can reach either
    handler. *)
Theorem getHandler_order_dependent :
  exists (handlers : gmap string nat) order1 order2 path,
    order1 ≡ₚ map_to_list handlers /\ order2 ≡ₚ map_to_list handlers /\
    getHandler order1 path handlers <> getHandler order2 path handlers.
Proof.
  exists {["/v1/":=1%nat; "/v1/stats/":=2%nat]}, [("/v1/", 1%nat); ("/v1/stats/", 2%nat)],
    [("/v1/stats/", 2%nat); ("/v1/", 1%nat)], "/v1/stats/id-123".
  assert (map_to_list ({["/v1/":=1%nat; "/v1/stats/":=2%nat]} : gmap string nat) ≡ₚ
    [("/v1/", 1%nat); ("/v1/stats/", 2%nat)]) as P.
  { rewrite map_to_list_insert; [|done]. by rewrite map_to_list_singleton. }
  split_and!; [done|rewrite P; constructor|by vm_compute].
Qed.

(** ** The pong timer *)

(** A silent proxy is detected: if no pong arrived after time [p], the timer closes
    the connection at a tick later than [p + maxWait] and no later than one
    [interval] after that. *)
Theorem pong_silence_detected (pong : nat -> Z) maxWait interval start p :
  0 < interval -> 0 <= maxWait -> start <= p ->
  (forall j, pong j <= p) -> (forall j, p <= start + Z.of_nat (S j) * interval -> pong j = p) ->
  (forall j, start + Z.of_nat (S j) * interval < p -> start + Z.of_nat (S j) * interval <= pong j + maxWait) ->
  exists i n, pong_ticks pong maxWait interval start n 0 = Some i /\
    p + maxWait < start + Z.of_nat (S i) * interval <= p + maxWait + interval.
Proof.
  intros Hi Hw Hp Hle Heq Hlt.
  set (d := p + maxWait - start).
  exists (Z.to_nat (d / interval)), (S (Z.to_nat (d / interval))).
  assert (0 <= d / interval) as D by (apply Z.div_pos; lia).
  pose proof (Z.div_mod d interval ltac:(lia)) as DM. pose proof (Z.mod_pos_bound d interval Hi) as MB.
  split; [|subst d; nia].
  assert (forall n i, (i <= Z.to_nat (d / interval))%nat -> (Z.to_nat (d / interval) < i + n)%nat ->
    pong_ticks pong maxWait interval start n i = Some (Z.to_nat (d / interval))) as G; [|by apply G; lia].
  induction n as [|n IH]; intros i H1 H2; [lia|]. simpl. unfold pong_timeout.
  destruct (decide (i = Z.to_nat (d / interval))) as [E|N].
  - assert (pong i = p) as -> by (apply Heq; subst i d; nia). rewrite (proj2 (Z.ltb_lt _ _)); [by rewrite E|subst i d; nia].
  - rewrite (proj2 (Z.ltb_ge _ _)); [apply IH; lia|].
    destruct (Z.lt_ge_cases (start + Z.of_nat (S i) * interval) p) as [L|L]; [by apply Hlt|].
    rewrite (Heq i L). subst d. nia.
Qed.

(** The time of the last pong before a check, or that of the creation. *)
Definition last_pong (created : Z) (l : list pong_event) : Z :=
  foldl (fun t e => match e with Pong now => now | Check _ => t end) created l.

(** The connection is closed exactly at the first check that finds no pong in the
    ten seconds before it. *)
Theorem pong_timer_exact created l t :
  startTimer (newPongHandler created) l = Some t <->
  exists before after, l = before ++ Check t :: after /\ last_pong created before + 10000 < t /\
    forall b now a, before = b ++ Check now :: a -> now <= last_pong created b + 10000.
Proof.
  unfold newPongHandler. revert created. induction l as [|e l IH]; intros created.
  { split; [done|]. by intros ([|] & after & ? & _). }
  destruct e as [now|now]; cbn [startTimer].
  - unfold handle. rewrite IH. split.
    + intros (before & after & -> & L & N). exists (Pong now :: before), after. split_and!; [done|done|].
      intros [|e b] n a E; [done|]. injection E as <- E. by eapply N.
    + intros ([|e before] & after & E & L & N); [done|]. injection E as <- ->. exists before, after.
      split_and!; [done|done|]. intros b n a ->. by apply (N (Pong now :: b) n a).
  - unfold pong_timeout, maxWait. destruct (_ <? now) eqn:T; bool_to_prop.
    + split.
      * intros [= <-]. exists [], l. split_and!; [done|done|]. by intros [|] ? ? ?.
      * intros ([|e before] & after & E & L & N); [by injection E as <-|]. injection E as <- ->.
        specialize (N [] now before eq_refl). unfold last_pong in N. simpl in N. lia.
    + rewrite IH. split.
      * intros (before & after & -> & L & N). exists (Check now :: before), after. split_and!; [done|done|].
        intros [|e b] n a E; [by injection E as <- _|]. injection E as <- E. exact (N b n a E).
      * intros ([|e before] & after & E & L & N); [injection E as -> _; unfold last_pong in L; simpl in L; lia|].
        injection E as <- ->. exists before, after.
        split_and!; [done|done|]. intros b n a ->. by apply (N (Check now :: b) n a).
Qed.

(** ** Replies *)

Definition replies (l : list wake) : list Message :=
  omap (fun w => match w with Reply m _ => Some m | _ => None end) l.

(** What is written is a prefix of the replies, within the limit of the wire. *)
Lemma write_loop_frames l :
  (exists n, fst (write_loop l) = message_frame <$> take n (replies l)) /\
  Forall (fun data => go_len data <= MaxWireMessageBytes) (fst (write_loop l)).
Proof.
  induction l as [|[m ok|[]|] l IH]; cbn [write_loop]; [by split; [exists 0%nat|]| |done|by split; [exists 0%nat|]..].
  unfold write_reply. change (replies (Reply m ok :: l)) with (m :: replies l).
  fold (message_frame m). destruct (_ <? _) eqn:L; [by split; [exists 0%nat|]|]. bool_to_prop.
  destruct ok; [|by split; [exists 0%nat|]].
  destruct (write_loop l) as [written closed]. destruct IH as ((n & E) & F). simpl in *. split; [|by constructor].
  exists (S n). simpl. by rewrite E.
Qed.

(** The replies of the handlers reach the proxy in order: what is written is a
    prefix of them, no frame exceeds the limit of the wire, and as long as the
    connection is not closed nothing queued before the end of the channel is
    missing. *)
Theorem replies_in_order l :
  (exists n, fst (write_loop l) = message_frame <$> take n (replies l)) /\
  Forall (fun data => go_len data <= MaxWireMessageBytes) (fst (write_loop l)) /\
  (snd (write_loop l) = false -> RepliesClosed ∉ l -> fst (write_loop l) = message_frame <$> replies l).
Proof.
  destruct (write_loop_frames l) as [P F]. split_and!; [done|done|]. clear P F.
  induction l as [|[m ok|[]|] l IH]; cbn [write_loop]; [done| |set_solver|done|set_solver].
  unfold write_reply. change (replies (Reply m ok :: l)) with (m :: replies l).
  fold (message_frame m). destruct (_ <? _); [done|]. destruct ok; [|done].
  destruct (write_loop l) as [written closed]. simpl in *. intros C N. rewrite IH //. set_solver.
Qed.

(** ** Dialling *)

(** Credentials do not reach the log or the error: two endpoints that differ only in
    user information, query and fragment, and are both accepted or both refused,
    and both dialled with the same result, are logged and reported alike. *)
Theorem endpoint_secrets_not_logged {H : Type} dial (handlers : gmap string H) l
  url1 url2 u1 u2 :
  url_parse url1 = Some u1 -> url_parse url2 = Some u2 -> strip u1 = strip u2 ->
  valid_endpoint u1 = valid_endpoint u2 -> dial url1 = dial url2 ->
  let c1 := ConnectToProxy dial handlers l url1 in
  let c2 := ConnectToProxy dial handlers l url2 in
  co_logged c1 = co_logged c2 /\ co_result c1 = co_result c2 /\
  (valid_endpoint u1 = false -> co_logged c1 = [] /\ co_dialled c1 = []).
Proof.
  intros P1 P2 S V D. unfold ConnectToProxy, proxyDialError, proxyLogEndpoint. rewrite P1 P2 V D S.
  assert (Scheme u1 = Scheme u2 /\ Host u1 = Host u2) as [-> ->].
  { split; [exact (f_equal Scheme S)|exact (f_equal Host S)]. }
  destruct (valid_endpoint u2); simpl; [|done]. by destruct (dial url2).
Qed.

(** ** Concrete streams *)

Module AgentDemo.
Definition key1 := "3d1a7b62-8f0e-4c55-9a57-0d6c2f1b9e01".
Definition key2 := "3d1a7b62-8f0e-4c55-9a57-0d6c2f1b9e02".
Definition table : gmap string nat := {["/v1/logs/" := 7%nat]}.
Definition connected : agent nat :=
  connectToProxyWS table [Frame [] (FormatMessage key1 Connect "/v1/logs/");
                               Frame [] (FormatMessage key2 Connect "/v1/logs/")] initial_agent.
Lemma connected_ok : agent_ok connected.
Proof.
  unfold connected. cbn [connectToProxyWS].
  pose proof (route_ok [] table (FormatMessage key1 Connect "/v1/logs/") initial_agent ltac:(by split)) as I1.
  destruct (route table _ initial_agent) as [a1 []]; [|exact I1].
  pose proof (route_ok [] table (FormatMessage key2 Connect "/v1/logs/") a1 I1) as I2.
  by destruct (route table _ a1) as [a2 []].
Qed.

(** An endpoint with a token in its query. *)
Definition dial_fails (query : string) : connection nat :=
  ConnectToProxy (fun _ => false) table [] ("wss://proxy:443/v1/connectbackend?token=" +:+ query).
End AgentDemo.
Import AgentDemo.

Lemma stream_routed_in_order_witness :
  let a := connectToProxyWS table
    [Frame [] (FormatMessage key1 Body "a"); Frame [] (FormatMessage key2 Body "b");
     Frame [] (FormatMessage key2 Close ""); Frame [] (FormatMessage key1 Body "c")] connected in
  achans a !! 0%nat = Some (mkAgentChan ["a"; "c"] false).
Proof.
  refine (proj2 (stream_routed_in_order table key1 0 [] connected
    [([], mkMessage key1 Body "a"); ([], mkMessage key2 Body "b");
     ([], mkMessage key2 Close ""); ([], mkMessage key1 Body "c")] connected_ok _ _ _)).
  - by vm_compute.
  - by vm_compute.
  - repeat apply List.Forall_cons; try apply List.Forall_nil; (split; [by vm_compute|]); by intros E; try discriminate E.
Defined.

Lemma lost_connection_closes_streams_witness :
  exists r, achans (fst (route table (Frame [] "bad") connected)) !! 0%nat = Some (mkAgentChan r false).
Proof.
  assert (responders connected !! key1 = Some 0%nat) as Hk by by vm_compute.
  destruct (ParseMessageSafe "bad") as [m|e] eqn:P; [by vm_compute in P|].
  exact (proj1 (proj2 (lost_connection_closes_streams [] table connected key1 0 "bad" e connected_ok Hk P))).
Defined.

Lemma getHandler_sound_witness :
  table !! "/v1/logs/x" = Some 7%nat \/
  table !! "/v1/logs/x" = None /\
  exists key, table !! key = Some 7%nat /\
    (trim_suffix "/v1/logs/x" "/" = trim_suffix key "/" \/
     exists rest, trim_suffix "/v1/logs/x" "/" = trim_suffix key "/" +:+ "/" +:+ rest).
Proof.
  assert (getHandler (map_to_list table) "/v1/logs/x" table = Some 7%nat) as E by by vm_compute.
  exact (getHandler_sound table (map_to_list table) "/v1/logs/x" 7%nat (Permutation_refl _) E).
Defined.

Example dial_error :
  co_result (dial_fails "s3cret") = Err "proxy WebSocket connection to wss://proxy:443/v1/connectbackend failed".
Proof. by vm_compute. Qed.

Lemma endpoint_secrets_not_logged_witness :
  co_logged (dial_fails "s3cret") = co_logged (dial_fails "x") /\
  co_result (dial_fails "s3cret") = co_result (dial_fails "x").
Proof.
  destruct (endpoint_secrets_not_logged (fun _ => false) table []
    "wss://proxy:443/v1/connectbackend?token=s3cret" "wss://proxy:443/v1/connectbackend?token=x" _ _
    eq_refl eq_refl eq_refl eq_refl eq_refl) as (L & R & _).
  exact (conj L R).
Defined.
