(* ===== verification/AgentFlow.v ===== *)
(** * The host agent with its bounded channels

    [Agent] lets every channel grow without limit.  Here the goroutines of
    [connectToProxyWS] of [backend/backend.go] (the reading loop, the writing
    goroutine, the pong timer) and the handlers run interleaved, and the channels
    have the capacity the code gives them: ten bodies per stream, ten replies.  A
    send to a full channel waits; the reader waits with it.

    A step is named by a [label]; [flow_step] executes it, if it is enabled.  The
    theorems show that the bounded system refines the unbounded one, so that what
    [Agent] proves holds of it, when the reader makes progress, and when it does
    not. *)

From S2P Require Import Prelude GoString GoHash GoNet GoUrl Message Delegation Agent.

Definition channel_capacity : nat := 10.
Arguments channel_capacity : simpl never.

(** Where the reading loop is: at [ReadMessage], at [msgChan <- message.Body], at
    [responseChannel <- m], or returned. *)
Inductive reader_pc := Reading | Sending (c : nat) (data : string) | Responding (m : Message) | Returned.

#[export] Instance reader_pc_eq_dec : EqDecision reader_pc.
Proof. solve_decision. Defined.

Section Flow.
Context {H : Type} (handlers : gmap string H).

(** The state: what the reader has done ([fl_agent] keeps everything that was ever
    put on a channel), how much of each channel its handler has taken, the response
    channel, the frames written, whether the writing goroutine still runs and
    whether the socket was closed. *)
Record flow := mkFlow {
  fl_agent : agent H; fl_pc : reader_pc; fl_taken : gmap nat nat;
  fl_queue : list Message; fl_written : list string; fl_writer : bool; fl_closed : bool }.

Definition initial_flow : flow := mkFlow initial_agent Reading ∅ [] [] true false.

(** Everything ever sent on a channel, and what of it is not taken yet. *)
Definition history (a : agent H) (c : nat) : list string :=
  match achans a !! c with Some ch => received ch | None => [] end.
Definition taken (s : flow) (c : nat) : nat := default 0%nat (fl_taken s !! c).
Definition buffered (s : flow) (c : nat) : list string := drop (taken s c) (history (fl_agent s) c).

(** An iteration of the loop up to the send it ends in. *)
Definition receive (i : incoming H) (a : agent H) : agent H * reader_pc :=
  match i with
  | ReadError => (fst (route handlers i a), Returned)
  | Frame order raw =>
      match ParseMessageSafe raw with
      | Err _ => (fst (route handlers i a), Returned)
      | Ok m =>
          if bool_decide (Type_ m = Connect) then
            match url_path (Body_ m) with
            | None => (a, Reading)
            | Some path =>
                match getHandler order path handlers with
                | Some _ => (open_stream order handlers (Key m) (Body_ m) a, Reading)
                | None => (a, Responding (mkMessage (Key m) Close ""))
                end
            end
          else if bool_decide (Type_ m = Body) then
            (a, match responders a !! Key m with
                | Some c => Sending c (Body_ m)
                | None => Responding (mkMessage (Key m) Close "")
                end)
          else if bool_decide (Type_ m = Close) then (closeHandler (Key m) a, Reading)
          else (closeHandler (Key m) a, Responding (mkMessage (Key m) Close ""))
      end
  end.

(** The send the reader waits for. *)
Definition complete (pc : reader_pc) (a : agent H) : agent H :=
  match pc with
  | Sending c data => send_achan c data a
  | Responding m => respond m a
  | Reading | Returned => a
  end.

Inductive label :=
| LRead (i : incoming H)   (* [ReadMessage] returns *)
| LDeliver                 (* the waiting body fits its channel *)
| LRespond                 (* the waiting reply fits the response channel *)
| LTake (c : nat)          (* a handler receives from its channel *)
| LReply (m : Message)     (* a handler sends a reply *)
| LWrite (ok : bool)       (* the writing goroutine takes a reply and writes it *)
| LPing (ok : bool)        (* its ticker *)
| LPong.                   (* the pong timer closes the socket *)

Definition set_reader (a : agent H) (pc : reader_pc) (s : flow) : flow :=
  mkFlow a pc (fl_taken s) (fl_queue s) (fl_written s) (fl_writer s) (fl_closed s).
Definition push_reply (m : Message) (s : flow) : flow :=
  mkFlow (fl_agent s) (fl_pc s) (fl_taken s) (fl_queue s ++ [m]) (fl_written s) (fl_writer s) (fl_closed s).
Definition set_writer (queue : list Message) (written : list string) (running : bool) (s : flow) : flow :=
  mkFlow (fl_agent s) (fl_pc s) (fl_taken s) queue written running (fl_closed s || negb running).

Definition flow_step (l : label) (s : flow) : option flow :=
  match l with
  | LRead i =>
      if bool_decide (fl_pc s = Reading)
      then let '(a, pc) := receive i (fl_agent s) in Some (set_reader a pc s) else None
  | LDeliver =>
      match fl_pc s with
      | Sending c data =>
          if (length (buffered s c) <? channel_capacity)%nat
          then Some (set_reader (send_achan c data (fl_agent s)) Reading s) else None
      | _ => None
      end
  | LRespond =>
      match fl_pc s with
      | Responding m =>
          if (length (fl_queue s) <? channel_capacity)%nat
          then Some (push_reply m (set_reader (respond m (fl_agent s)) Reading s)) else None
      | _ => None
      end
  | LTake c =>
      if (0 <? length (buffered s c))%nat
      then Some (mkFlow (fl_agent s) (fl_pc s) (<[c := S (taken s c)]> (fl_taken s))
                   (fl_queue s) (fl_written s) (fl_writer s) (fl_closed s))
      else None
  | LReply m => if (length (fl_queue s) <? channel_capacity)%nat then Some (push_reply m s) else None
  | LWrite ok =>
      match fl_writer s, fl_queue s with
      | true, m :: queue =>
          match write_reply m with
          | Some data => if ok then Some (set_writer queue (fl_written s ++ [data]) true s)
                         else Some (set_writer queue (fl_written s) false s)
          | None => Some (set_writer queue (fl_written s) false s)
          end
      | _, _ => None
      end
  | LPing ok => if fl_writer s then Some (set_writer (fl_queue s) (fl_written s) ok s) else None
  | LPong => Some (mkFlow (fl_agent s) (fl_pc s) (fl_taken s) (fl_queue s) (fl_written s) (fl_writer s) true)
  end.

Fixpoint flow_run (ls : list label) (s : flow) : option flow :=
  match ls with
  | [] => Some s
  | l :: ls => match flow_step l s with Some s => flow_run ls s | None => None end
  end.
Definition flow_reachable (s : flow) : Prop := exists ls, flow_run ls initial_flow = Some s.
End Flow.
Arguments flow : clear implicits.
Arguments label : clear implicits.
Arguments LDeliver {H}. Arguments LRespond {H}. Arguments LTake {H} c. Arguments LReply {H} m.
Arguments LWrite {H} ok. Arguments LPing {H} ok. Arguments LPong {H}.

(** ** Refinement of the unbounded agent *)

Section FlowProps.
Context {H : Type} (handlers : gmap string H).
Implicit Types (s : flow H) (a : agent H) (l : list (incoming H)).
Abbreviation step := (flow_step handlers).
Abbreviation run := (flow_run handlers).
Abbreviation receive := (receive handlers).
Abbreviation reachable := (flow_reachable handlers).

(** An iteration is its first part and the send it waits for. *)
Lemma receive_complete i a :
  route handlers i a =
  (complete (snd (receive i a)) (fst (receive i a)), bool_decide (snd (receive i a) <> Returned)).
Proof.
  destruct i as [|order raw]; [done|]. cbn [AgentFlow.receive route]. destruct (ParseMessageSafe raw) as [m|]; [|done].
  destruct (bool_decide (Type_ m = Connect)).
  { unfold open_stream. destruct (url_path _) as [path|]; [|done]. by destruct (getHandler _ _ _) eqn:G; simpl; rewrite ?G. }
  destruct (bool_decide (Type_ m = Body)); [by destruct (responders a !! Key m)|].
  by destruct (bool_decide (Type_ m = Close)).
Qed.

(** The loop as a fold, with whether it still runs. *)
Definition agent_run l a : agent H * bool :=
  foldl (fun (x : agent H * bool) i => if snd x then route handlers i (fst x) else x) (a, true) l.

Lemma agent_run_snoc l i a :
  agent_run (l ++ [i]) a =
  if snd (agent_run l a) then route handlers i (fst (agent_run l a)) else agent_run l a.
Proof. unfold agent_run. by rewrite foldl_app. Qed.

Lemma agent_run_loop l a : fst (agent_run l a) = connectToProxyWS handlers l a.
Proof.
  unfold agent_run. revert a. induction l as [|i l IH]; intros a; [done|]. cbn [foldl fst snd connectToProxyWS].
  destruct (route handlers i a) as [a' []]; [by apply IH|].
  clear. by induction l.
Qed.

(** What the reader has read in an interleaving: the frames and the error its
    [ReadMessage] calls returned, in order. *)
Definition reads (ls : list (label H)) : list (incoming H) :=
  omap (fun lb => match lb with LRead i => Some i | _ => None end) ls.

(** The invariant: the reader's work, with the send it waits for, is the run of the
    unbounded loop on what was read; no channel exceeds its capacity, no handler has
    taken more than was sent. *)
Record flow_ok l s : Prop := {
  fo_run : agent_run l initial_agent = (complete (fl_pc s) (fl_agent s), bool_decide (fl_pc s <> Returned));
  fo_agent : agent_ok (fl_agent s) \/ fl_pc s = Returned /\ apanicked (fl_agent s) = false;
  fo_pc : forall c data, fl_pc s = Sending c data -> exists k, responders (fl_agent s) !! k = Some c;
  fo_bounds : forall c, (length (buffered s c) <= channel_capacity)%nat;
  fo_queue : (length (fl_queue s) <= channel_capacity)%nat }.

Lemma close_achan_history c a d : history (close_achan c a) d = history a d.
Proof.
  unfold history, close_achan. destruct (achans a !! c) as [ch|] eqn:E; [|done]. destruct (achan_closed ch); [done|].
  simpl. rewrite lookup_insert. case_decide as D; [subst; by rewrite E|done].
Qed.

Lemma receive_history i a d : history (fst (receive i a)) d = history a d.
Proof.
  assert (forall k (a : agent H), history (closeHandler k a) d = history a d) as C.
  { intros k a0. unfold closeHandler. destruct (responders a0 !! k); [|done]. apply (close_achan_history n a0 d). }
  destruct i as [|order raw]; cbn [AgentFlow.receive fst route].
  - generalize (map_to_list (responders a)). induction l as [|kc l IH]; [done|]. simpl. by rewrite close_achan_history.
  - destruct (ParseMessageSafe raw) as [m|]; [|done]. destruct (bool_decide (Type_ m = Connect)).
    { destruct (url_path _) as [path|] eqn:U; [|done]. destruct (getHandler _ _ _) eqn:G; [|done].
      unfold open_stream. rewrite U G. unfold history. simpl. rewrite lookup_insert. case_decide as D; [|done].
      subst d. by rewrite fresh_achan. }
    destruct (bool_decide (Type_ m = Body)); [done|]. destruct (bool_decide (Type_ m = Close)); apply C.
Qed.

Lemma send_history c data a ch d :
  achans a !! c = Some ch -> achan_closed ch = false ->
  history (send_achan c data a) d = history a d ++ if decide (c = d) then [data] else [].
Proof.
  intros E O. unfold history, send_achan. rewrite E O. simpl. rewrite lookup_insert.
  case_decide; [subst; by rewrite E|by rewrite app_nil_r].
Qed.

Lemma receive_ok i a : agent_ok a ->
  (agent_ok (fst (receive i a)) \/ snd (receive i a) = Returned /\ apanicked (fst (receive i a)) = false) /\
  forall c data, snd (receive i a) = Sending c data -> exists k, responders (fst (receive i a)) !! k = Some c.
Proof.
  intros I. destruct i as [|order raw].
  { split; [|done]. right. split; [done|]. apply (read_error_spec handlers a I). }
  pose proof (route_ok order handlers raw a I) as R. cbn [AgentFlow.receive route] in *.
  destruct (ParseMessageSafe raw) as [m|]; [|by split; [left|]].
  destruct (bool_decide (Type_ m = Connect)).
  { destruct (url_path _) as [path|] eqn:U; [|by split; [left|]].
    destruct (getHandler _ _ _) eqn:G; [by split; [left|]|by split; [left|]]. }
  destruct (bool_decide (Type_ m = Body)).
  { split; [by left|]. simpl. destruct (responders a !! Key m) eqn:E; [|done]. intros c data [= <- _]. eauto. }
  destruct (bool_decide (Type_ m = Close)); (split; [left; by apply closeHandler_ok|done]).
Qed.

Lemma drop_taken_app n (l k : list string) : (length (drop n (l ++ k)) <= length (drop n l) + length k)%nat.
Proof. rewrite !length_drop length_app. lia. Qed.

Lemma flow_step_ok l lb s s' : flow_ok l s -> step lb s = Some s' -> flow_ok (l ++ reads [lb]) s'.
Proof.
  intros [Run Ag Pc Bo Qu]. destruct lb as [i| | |c|m|ok|ok|]; cbn [flow_step]; [|rewrite app_nil_r..].
  - destruct (bool_decide (fl_pc s = Reading)) eqn:R; [|done]. bool_to_prop. rewrite R in Run Ag.
    destruct Ag as [I|[? _]]; [|done]. destruct (receive_ok i (fl_agent s) I) as [O P].
    pose proof (receive_complete i (fl_agent s)) as C. pose proof (receive_history i (fl_agent s)) as Hi.
    destruct (receive i (fl_agent s)) as [a pc]. intros [= <-]. split; simpl in *; [|done|done| |done].
    + by rewrite agent_run_snoc Run /= C.
    + intros c. unfold buffered. simpl. rewrite Hi. apply Bo.
  - destruct (fl_pc s) as [|c data| |] eqn:R; [done| |done|done].
    destruct (_ <? _)%nat eqn:L; [|done]. apply Nat.ltb_lt in L. intros [= <-].
    destruct Ag as [I|[? _]]; [|done]. destruct (Pc c data eq_refl) as [k Hk]. destruct (ao_open _ I k c Hk) as [r Hc].
    split; simpl; [done|left; by eapply send_ok|done| |done].
    intros d. unfold buffered. simpl. rewrite (send_history _ _ _ _ _ Hc) //. etrans; [apply drop_taken_app|].
    specialize (Bo d). unfold buffered in *. change (taken (set_reader _ _ s) d) with (taken s d).
    destruct (decide (c = d)) as [<-|]; cbn [length]; lia.
  - destruct (fl_pc s) as [| |m|] eqn:R; [done|done| |done].
    destruct (_ <? _)%nat eqn:L; [|done]. apply Nat.ltb_lt in L. intros [= <-].
    destruct Ag as [I|[? _]]; [|done]. split; simpl; [done|left; by apply respond_ok|done|done|].
    rewrite length_app. simpl. lia.
  - destruct (0 <? _)%nat; [|done]. intros [= <-]. split; simpl; [done|done|done| |done].
    intros d. specialize (Bo d). unfold buffered, taken in *. simpl. rewrite lookup_insert.
    destruct (decide (c = d)) as [<-|]; [|done]. simpl. rewrite !length_drop in Bo |- *. lia.
  - destruct (_ <? _)%nat eqn:L; [|done]. apply Nat.ltb_lt in L. intros [= <-]. split; simpl; [done..|].
    rewrite length_app. simpl. lia.
  - destruct (fl_writer s); [|done]. destruct (fl_queue s) as [|m q]; [done|]. simpl in Qu.
    destruct (write_reply m); [destruct ok|]; intros [= <-]; (split; simpl; [done..|lia]).
  - destruct (fl_writer s); [|done]. intros [= <-]. by split.
  - intros [= <-]. by split.
Qed.

Lemma flow_run_ok l ls s s' : flow_ok l s -> run ls s = Some s' -> flow_ok (l ++ reads ls) s'.
Proof.
  revert l s. induction ls as [|lb ls IH]; intros l s O; cbn [flow_run]; [intros [= <-]; by rewrite app_nil_r|].
  destruct (step lb s) as [s1|] eqn:E; [|done]. intros R.
  rewrite (_ : reads (lb :: ls) = reads [lb] ++ reads ls); [|by destruct lb]. rewrite app_assoc.
  by eapply IH; [eapply flow_step_ok|].
Qed.

Lemma initial_flow_ok : flow_ok [] initial_flow.
Proof.
  split; simpl; [done|left; by split|done| |lia]. intros c. unfold buffered, history. simpl.
  rewrite lookup_empty drop_nil. simpl. lia.
Qed.

Lemma run_ok ls s : run ls initial_flow = Some s -> flow_ok (reads ls) s.
Proof. by apply (flow_run_ok []), initial_flow_ok. Qed.

Lemma reachable_ok s : reachable s -> exists l, flow_ok l s.
Proof. intros [ls R]. exists (reads ls). by apply run_ok. Qed.

(** C28: The agent with bounded channels implements the unbounded one: after every
    interleaving of its goroutines and handlers, the reading loop has done exactly
    what the loop of [Agent] does on the frames that were read in it, all of them
    and in their order (up to the one send it may be waiting for); it has returned
    exactly if that loop has; nothing has panicked, and no channel holds more than
    ten messages. *)
Theorem bounded_agent_refines ls s :
  run ls initial_flow = Some s ->
  complete (fl_pc s) (fl_agent s) = connectToProxyWS handlers (reads ls) initial_agent /\
  (fl_pc s = Returned <-> snd (agent_run (reads ls) initial_agent) = false) /\
  apanicked (fl_agent s) = false /\
  (forall c, (length (buffered s c) <= 10)%nat) /\ (length (fl_queue s) <= 10)%nat.
Proof.
  intros O%run_ok. destruct O as [E Ag _ Bo Qu]. split; [by rewrite -agent_run_loop E|].
  split; [|split_and!; [by destruct Ag as [[]|[]]|done|done]].
  rewrite E. cbn [snd]. destruct (decide (fl_pc s = Returned)) as [D|D]; [by rewrite bool_decide_eq_false_2; [|intros N]|].
  by rewrite bool_decide_eq_true_2.
Qed.

Lemma buffer_taken s c : (0 < length (buffered s c))%nat -> exists s', step (LTake c) s = Some s' /\
  fl_pc s' = fl_pc s /\ fl_agent s' = fl_agent s /\ (length (buffered s' c) < length (buffered s c))%nat.
Proof.
  intros L. cbn [flow_step]. rewrite (proj2 (Nat.ltb_lt _ _) L). eexists. split_and!; [done..|].
  unfold buffered, taken in *. simpl. rewrite lookup_insert_eq. simpl. rewrite !length_drop in L |- *. lia.
Qed.

(** C29: The reader always gets on while the others do: whatever it waits for, at most
    two steps, one of the handler whose channel is full or of the running writer,
    and the send itself, bring it back to its socket. *)
Theorem reader_progress s :
  reachable s -> fl_writer s = true -> fl_pc s <> Returned ->
  exists ls s', run ls s = Some s' /\ fl_pc s' = Reading /\ (length ls <= 2)%nat /\
    Forall (fun lb => lb = LDeliver \/ lb = LRespond \/ lb = LWrite true \/
                      exists c data, fl_pc s = Sending c data /\ lb = LTake c) ls.
Proof.
  intros (l & O)%reachable_ok W N. destruct (fl_pc s) as [|c data|m|] eqn:P;
    [exists [], s; split_and!; [done|done|simpl; lia|done]| | |done].
  - pose proof (fo_bounds l s O c) as L. destruct (decide (length (buffered s c) = channel_capacity)) as [F|F].
    + destruct (buffer_taken s c) as (s1 & E1 & P1 & A1 & L1); [rewrite F; unfold channel_capacity; lia|].
      exists [LTake c; LDeliver]. cbn [flow_run]. rewrite E1. cbn [flow_step]. rewrite P1 P.
      rewrite (proj2 (Nat.ltb_lt _ _)); [|lia]. eexists. split_and!; [done|done|done|].
      rewrite !Forall_cons. split_and!; [right; right; right; by exists c, data|by left|done].
    + exists [LDeliver]. cbn [flow_run flow_step]. rewrite P (proj2 (Nat.ltb_lt _ _)); [|lia]. eexists.
      split_and!; [done|done|simpl; lia|]. rewrite Forall_cons. split; [by left|done].
  - pose proof (fo_queue l s O) as L. destruct (decide (length (fl_queue s) = channel_capacity)) as [F|F].
    + exists [LWrite true; LRespond]. cbn [flow_run flow_step]. rewrite W.
      destruct (fl_queue s) as [|m0 q] eqn:Q; [done|]. simpl in F.
      assert ((length q <? channel_capacity)%nat = true) as Lq by (apply Nat.ltb_lt; lia).
      destruct (write_reply m0); cbn [fl_pc fl_queue set_writer]; rewrite P Lq; eexists;
        (split_and!; [done|done|done|]; rewrite !Forall_cons; split_and!; [by right; right; left|by right; left|done]).
    + exists [LRespond]. cbn [flow_run flow_step]. rewrite P (proj2 (Nat.ltb_lt _ _)); [|lia]. eexists.
      split_and!; [done|done|simpl; lia|]. rewrite Forall_cons. split; [by right; left|done].
Qed.

(** The states in which the reader waits for good: for a handler that does not take
    from its full channel, or for room in the response channel after the writer has
    stopped. *)
Definition stuck (idle : nat -> Prop) s : Prop :=
  match fl_pc s with
  | Sending c _ => idle c /\ length (buffered s c) = channel_capacity
  | Responding _ => fl_writer s = false /\ length (fl_queue s) = channel_capacity
  | Reading | Returned => False
  end.

Lemma stuck_step idle lb s s' :
  stuck idle s -> (forall c, lb = LTake c -> ~ idle c) -> step lb s = Some s' ->
  stuck idle s' /\ fl_pc s' = fl_pc s /\ fl_agent s' = fl_agent s.
Proof.
  unfold stuck. intros St T. destruct lb as [i| | |c|m|ok|ok|]; cbn [flow_step].
  - destruct (bool_decide (fl_pc s = Reading)) eqn:R; [|done]. bool_to_prop. by rewrite R in St.
  - destruct (fl_pc s) as [|c data| |]; [done| |done|done]. destruct St as [_ ->]. by rewrite Nat.ltb_irrefl.
  - destruct (fl_pc s) as [| |m|]; [done|done| |done]. destruct St as [_ ->]. by rewrite Nat.ltb_irrefl.
  - destruct (0 <? _)%nat; [|done]. intros [= <-]. simpl. split_and!; [|done|done].
    destruct (fl_pc s) as [|d data| |]; [done| |done|done]. destruct St as [I L]. split; [done|].
    unfold buffered, taken in *. simpl. rewrite lookup_insert_ne //. intros ->. by apply (T d).
  - destruct (length (fl_queue s) <? _)%nat eqn:L; [|done]. apply Nat.ltb_lt in L. intros [= <-]. simpl.
    split_and!; [|done|done]. destruct (fl_pc s) as [| |m'|]; [done|done| |done]. lia.
  - destruct (fl_writer s) eqn:W; [|done]. destruct (fl_queue s) as [|m q] eqn:Q; [done|].
    destruct (fl_pc s) as [| |m'|] eqn:P; [done| |by destruct St|done].
    destruct (write_reply m); [destruct ok|]; intros [= <-]; simpl; by rewrite P.
  - destruct (fl_writer s) eqn:W; [|done]. intros [= <-]. simpl. destruct (fl_pc s) as [| |m'|]; [done|done| |done].
    by destruct St.
  - intros [= <-]. simpl. split_and!; [|done|done]. by destruct (fl_pc s).
Qed.

(** One idle handler, or a stopped writer, stops the whole connection.  When the
    reader waits to send to a full channel whose handler takes nothing any more, or
    waits for a reply slot after the writer has stopped, then whatever the other
    goroutines and handlers do and whatever happens to the socket, the reader never
    moves again: no frame of any other stream is routed, no stream is closed, and
    [connectToProxyWS] never returns. *)
Theorem stuck_reader_stays idle s ls s' :
  stuck idle s -> Forall (fun lb => forall c, lb = LTake c -> ~ idle c) ls -> run ls s = Some s' ->
  fl_pc s' = fl_pc s /\ fl_agent s' = fl_agent s /\ fl_pc s' <> Returned.
Proof.
  intros St F. revert s St. induction F as [|lb ls T F IH]; intros s St; cbn [flow_run].
  - intros [= <-]. split_and!; [done|done|]. unfold stuck in St. by destruct (fl_pc s).
  - destruct (step lb s) as [s1|] eqn:E; [|done]. destruct (stuck_step _ _ _ _ St T E) as (St1 & <- & <-). by apply IH.
Qed.
End FlowProps.

(** ** Concrete runs *)

Module FlowDemo.
Definition path (url : string) : option string := Some url.
Definition table : gmap string nat := {["/v1/logs/" := 7%nat]}.
Definition read (m : string) : label nat := LRead (Frame [] m).
Definition open (k : string) : label nat := read (FormatMessage k Connect "/v1/logs/").
Definition body (k data : string) : list (label nat) := [read (FormatMessage k Body data); LDeliver].

(** Two streams; the handler of [a] takes nothing, the eleventh body waits. *)
Definition idle_run : list (label nat) :=
  [open "a"; open "b"] ++ mjoin (replicate 10 (body "a" "x")) ++ [read (FormatMessage "a" Body "x")].
Definition idle_state : flow nat := default initial_flow (flow_run table idle_run initial_flow).

(** A ping fails, so the writer stops and the socket is closed; ten frames that were
    still buffered name unknown streams, the eleventh waits. *)
Definition unknown : list (label nat) := [read (FormatMessage "z" Body ""); LRespond].
Definition writer_run : list (label nat) :=
  [open "a"; LPing false] ++ mjoin (replicate 10 unknown) ++ [read (FormatMessage "z" Body "")].
Definition writer_state : flow nat := default initial_flow (flow_run table writer_run initial_flow).
End FlowDemo.
Import FlowDemo.

Example idle_run_goes : is_Some (flow_run table idle_run initial_flow).
Proof. vm_compute. by eexists. Qed.
Example writer_run_goes : is_Some (flow_run table writer_run initial_flow).
Proof. vm_compute. by eexists. Qed.

Lemma bounded_agent_refines_witness :
  length (reads idle_run) = 13%nat /\
  complete (fl_pc idle_state) (fl_agent idle_state) = connectToProxyWS table (reads idle_run) initial_agent.
Proof.
  split; [vm_compute; reflexivity|]. refine (proj1 (bounded_agent_refines table idle_run idle_state _)).
  vm_compute. reflexivity.
Defined.

Lemma reader_progress_witness :
  exists ls s', flow_run table ls idle_state = Some s' /\ fl_pc s' = Reading.
Proof.
  destruct (reader_progress table idle_state) as (ls & s' & R & P & _).
  - exists idle_run. vm_compute. reflexivity.
  - vm_compute. reflexivity.
  - vm_compute. discriminate.
  - exists ls, s'. exact (conj R P).
Defined.

(** Both dead ends are reached: with an idle handler of [a] the frames of [b] are
    never routed, and after the writer has stopped the stream [a] is never closed,
    although the socket is. *)
Lemma stuck_reader_stays_witness :
  (forall ls s', Forall (fun lb => forall c, lb = LTake c -> c <> 0%nat) ls ->
     flow_run table ls idle_state = Some s' -> fl_agent s' = fl_agent idle_state) /\
  (fl_closed writer_state = true /\
   forall ls s', flow_run table ls writer_state = Some s' ->
     achans (fl_agent s') !! 0%nat = Some (mkAgentChan [] false)).
Proof.
  split; [|split; [vm_compute; reflexivity|]].
  - intros ls s' F R. apply (stuck_reader_stays table (fun c => c = 0%nat) idle_state ls s'); [|exact F|exact R].
    vm_compute. split; reflexivity.
  - intros ls s' R. destruct (stuck_reader_stays table (fun _ => False) writer_state ls s') as (_ & -> & _); [| |exact R|].
    + vm_compute. split; reflexivity.
    + apply Forall_forall. intros lb _ c _ [].
    + vm_compute. reflexivity.
Defined.
