(* ===== verification/EndToEnd.v ===== *)
(** * From the proxy to the handler on the host

    Composes [Multiplexer] and [Agent]: the frames that the writing goroutine of a
    multiplexer hands to the WebSocket are the frames that [connectToProxyWS] reads
    on the host.  The connection between them delivers a prefix of what was written,
    in order. *)

From S2P Require Import Prelude GoString GoNet GoUrl Message Multiplexer Agent.

(** The message of a frame. *)
Definition parsed (frame : string) : Message :=
  match ParseMessageSafe frame with Ok m => m | Err _ => mkMessage "" Close "" end.

Section Frames.
Context (keyTraceURL : string -> bool).

(** Every frame of a multiplexer is the text of the message it parses to. *)
Lemma accepted_parsed w p m frame :
  reachable keyTraceURL w -> heap w !! p = Some m -> frame ∈ accepted m ->
  ParseMessageSafe frame = Ok (parsed frame) /\ message_frame (parsed frame) = frame.
Proof.
  intros I%reachable_Inv Hp Hf. destruct (inv_mux _ w I p m Hp) as [O _].
  pose proof (ok_frames _ m O) as F. pose proof (ok_sizes _ m O) as L. rewrite -> Forall_forall in F, L.
  destruct (F frame Hf) as (k & t & b & Hk & Ht & -> & _).
  unfold parsed. by rewrite (format_parse k t b Hk Ht (L _ Hf)).
Qed.

Lemma written_accepted w p m : reachable keyTraceURL w -> heap w !! p = Some m -> written m `prefix_of` accepted m.
Proof.
  intros I%reachable_Inv Hp. destruct (inv_mux _ w I p m Hp) as [O _]. pose proof (ok_order _ m O) as E.
  destruct (writerStopped m); [done|]. rewrite E. by apply prefix_app_r.
Qed.
End Frames.

Section Reading.
Context {H : Type} (handlers : gmap string H).
Implicit Types (a : agent H) (l : list (list (string * H) * string)).

(** Frames with the order in which [range] yields the handlers at each of them. *)
Definition reads l : list (incoming H) := (fun x => Frame (fst x) (snd x)) <$> l.
Definition readable l : Prop := Forall (fun x => is_Ok (ParseMessageSafe (snd x)) = true) l.
Abbreviation run l a := (connectToProxyWS handlers (reads l) a).

(** A readable frame neither ends the loop nor closes the connection nor takes back
    a handler. *)
Lemma route_goes_on order raw a :
  is_Ok (ParseMessageSafe raw) = true ->
  let '(a', go_on) := route handlers (Frame order raw) a in
  go_on = true /\ ws_open a' = ws_open a /\ started a `prefix_of` started a'.
Proof.
  intros P. unfold route. destruct (ParseMessageSafe raw) as [m|]; [|done]. clear P.
  assert (forall key (a0 : agent H), ws_open (closeHandler key a0) = ws_open a0 /\
    started (closeHandler key a0) = started a0) as C.
  { intros key a0. unfold closeHandler, close_achan. by repeat case_match. }
  repeat case_bool_decide; (split; [done|]).
  - unfold open_stream. destruct (url_path _); [|done]. destruct (getHandler _ _ _); [|done].
    split; [done|]. by apply prefix_app_r.
  - destruct (responders a !! Key m); [|done]. unfold send_achan. by repeat case_match.
  - destruct (C (Key m) a) as [-> ->]. done.
  - unfold SignalHandlerClosed. simpl. destruct (C (Key m) a) as [-> ->]. done.
Qed.

Lemma run_app l1 l2 a : readable l1 -> run (l1 ++ l2) a = run l2 (run l1 a).
Proof.
  intros R. revert a. induction R as [|[order raw] l P R IH]; intros a; [done|].
  cbn [reads app fmap list_fmap connectToProxyWS fst snd] in *. pose proof (route_goes_on order raw a P) as G.
  destruct (route _ _ a) as [a' go_on]. destruct G as [-> _]. apply IH.
Qed.

Lemma run_keeps l a : readable l -> agent_ok a ->
  agent_ok (run l a) /\ ws_open (run l a) = ws_open a /\ started a `prefix_of` started (run l a).
Proof.
  intros R. revert a. induction R as [|[order raw] l P R IH]; intros a I; [done|].
  cbn [reads fmap list_fmap connectToProxyWS fst snd] in *. pose proof (route_goes_on order raw a P) as G.
  pose proof (route_ok order handlers raw a I) as I'.
  destruct (route _ _ a) as [a' go_on]. destruct G as (-> & <- & S).
  destruct (IH a' I') as (O & W & S'). split_and!; [done|done|]. by etrans.
Qed.

(** Opening a stream. *)
Lemma connect_opens order k url raw path h a :
  ParseMessageSafe raw = Ok (mkMessage k Connect url) ->
  url_path url = Some path -> getHandler order path handlers = Some h ->
  exists c, let a' := run [(order, raw)] a in
    (k, url, c, h) ∈ started a' /\ responders a' !! k = Some c /\ achans a' !! c = Some (mkAgentChan [] false).
Proof.
  intros P Hu Hh. exists (fresh (dom (achans a))). cbn [reads fmap list_fmap connectToProxyWS fst snd route].
  rewrite P. cbn [Type_ Key Body_]. rewrite bool_decide_eq_true_2 //. unfold open_stream. rewrite Hu Hh. simpl.
  rewrite !lookup_insert_eq. split_and!; [|done|done]. apply elem_of_app. right. by left.
Qed.
End Reading.

(** ** The composition *)

(** C26: What clients send reaches the handler on the host.  In every interleaving of the
    proxy, let the host have read any part of what was written to its connection,
    from the start: the agent has neither panicked nor dropped the connection; and
    if in that part a stream was opened at a path some handler serves, and was not
    closed or opened again since, then that handler runs with the channel of the
    stream, and has been sent exactly the bodies of the stream, in the order in
    which the proxy queued them. *)
Theorem stream_reaches_handler {H : Type} keyTraceURL (handlers : gmap string H) w p m
  (l1 l2 : list (list (string * H) * string)) order k url raw path h :
  reachable keyTraceURL w -> heap w !! p = Some m ->
  (l1 ++ (order, raw) :: l2).*2 `prefix_of` written m ->
  parsed raw = mkMessage k Connect url ->
  Forall (fun x => Key (parsed (snd x)) = k -> Type_ (parsed (snd x)) = Body) l2 ->
  url_path url = Some path -> getHandler order path handlers = Some h ->
  let a := connectToProxyWS handlers (reads (l1 ++ (order, raw) :: l2)) initial_agent in
  apanicked a = false /\ ws_open a = true /\
  exists c, (k, url, c, h) ∈ started a /\
    achans a !! c = Some (mkAgentChan (stream_bodies k (parsed <$> l2.*2)) false).
Proof.
  intros R Hp Pre Ek F2 Hu Hh a.
  assert (forall x, x ∈ l1 ++ (order, raw) :: l2 ->
    ParseMessageSafe (snd x) = Ok (parsed (snd x)) /\ message_frame (parsed (snd x)) = snd x) as Ok_.
  { intros x Hx. eapply accepted_parsed; [exact R|exact Hp|].
    eapply elem_of_prefix; [|by eapply written_accepted]. eapply elem_of_prefix; [|exact Pre].
    apply list_elem_of_fmap. by exists x. }
  assert (readable l1 /\ readable [(order, raw)] /\ readable l2) as (R1 & R0 & R2).
  { rewrite -!Forall_app. apply Forall_forall. intros x Hx. by rewrite (proj1 (Ok_ x Hx)). }
  assert (a = connectToProxyWS handlers (reads l2)
    (connectToProxyWS handlers (reads [(order, raw)])
      (connectToProxyWS handlers (reads l1) initial_agent))) as Ea.
  { unfold a. by rewrite run_app // (run_app _ [(order, raw)] l2). }
  destruct (run_keeps handlers l1 initial_agent R1) as (I1 & W1 & _); [by split|].
  set (a1 := connectToProxyWS _ (reads l1) _) in *.
  destruct (run_keeps handlers _ a1 R0 I1) as (I0 & W0 & _).
  destruct (connect_opens handlers order k url raw path h a1) as (c & S & Hk & Hc); [|done..|].
  { rewrite (proj1 (Ok_ (order, raw) _)) /= ?Ek //. apply elem_of_app. right. by left. }
  set (a0 := connectToProxyWS _ (reads [_]) _) in *.
  destruct (run_keeps handlers l2 a0 R2 I0) as ([_ _ P] & W2 & S2). rewrite -Ea in P W2 S2.
  split_and!; [done|by rewrite W2 W0 W1|]. exists c.
  split; [destruct S2 as [l ->]; apply elem_of_app; by left|].
  pose proof (routed_in_order handlers k c [] a0 ((fun x => (fst x, parsed (snd x))) <$> l2) I0 Hk Hc) as B.
  assert ((fun om : list (string * H) * Message => Frame (fst om) (message_frame (snd om))) <$>
    ((fun x => (fst x, parsed (snd x))) <$> l2) = reads l2) as E.
  { rewrite -list_fmap_compose. apply list_fmap_ext. intros i x Hx. simpl. f_equal. apply Ok_.
    apply elem_of_app. right. right. by eapply list_elem_of_lookup_2. }
  rewrite E -Ea -!list_fmap_compose in B. rewrite -list_fmap_compose. apply B. apply Forall_fmap, Forall_forall. intros x Hx. simpl.
  rewrite -> Forall_forall in F2. split; [|by apply F2].
  destruct (Ok_ x) as [E1 E2]; [apply elem_of_app; right; by right|]. by rewrite E2.
Qed.

(** ** From the handler to the client *)

(** A frame as the reading goroutine of the proxy gets it: the case of the [enqueue]
    that may follow, and whether the client takes the message in time. *)
Record arrival := mkArrival { ar_sel : select_case; ar_taken : bool; ar_frame : string }.

(** The goroutine on a list of frames; [None] when a chosen case is not ready. *)
Fixpoint read_frames (p : nat) (l : list arrival) (w : world) : option world :=
  match l with
  | [] => Some w
  | x :: l =>
      match read_iteration (ar_sel x) p (Multiplexer.ReadFrame true (ar_frame x)) (ar_taken x) w with
      | None => None
      | Some (w, go_on) => if go_on then read_frames p l w else Some w
      end
  end.

(** The stream [k] of the multiplexer [p] has the open channel [c], on which [r] was
    received. *)
Definition stream_live (p : nat) (k : string) (c : nat) (r : list Message) (w : world) : Prop :=
  exists m, heap w !! p = Some m /\ frontendChans m !! k = Some c /\ chans w !! c = Some (mkChan (p, k) false r).

Section Replies.
Context (keyTraceURL : string -> bool).

Lemma set_mux_live p k c r q n n' w :
  heap w !! q = Some n -> frontendChans n' !! k = frontendChans n !! k ->
  stream_live p k c r w -> stream_live p k c r (set_mux q n' w).
Proof.
  intros Hq E (m & Hp & Hk & Hc). destruct (decide (p = q)) as [->|N].
  - simplify_eq. exists n'. simpl. rewrite lookup_insert_eq E. done.
  - exists m. simpl. by rewrite lookup_insert_ne.
Qed.

Lemma enqueue_live sel p k c r q msg w w' e :
  stream_live p k c r w -> enqueue sel q msg w = Some (w', e) -> stream_live p k c r w'.
Proof.
  intros L. unfold enqueue. destruct (_ <? _); [by intros [= <- _]|].
  destruct (heap w !! q) as [n|] eqn:Hq; [|by intros [= <- _]].
  destruct sel; [destruct (done_ n); [by intros [= <- _]|done]| |by intros [= <- _]].
  destruct (_ <? _)%nat; [|done]. intros [= <- _]. by eapply set_mux_live.
Qed.

(** Closing another stream. *)
Lemma close_other_live sel key p k k' c r w w' e :
  Inv keyTraceURL w -> k' <> k -> wire_key k' -> stream_live p k c r w ->
  mgr_closeConnection sel key k' w = Some (w', e) -> stream_live p k c r w'.
Proof.
  intros I N Wk L. unfold mgr_closeConnection. destruct (multiplexers w !! key) as [q|] eqn:Eq; [|by intros [= <- _]].
  unfold closeConnection. destruct (sendClose sel q k' w) as [[w1 e1]|] eqn:E; [|done]. intros [= <- _].
  destruct (inv_manager _ w I key q Eq) as (n & Hn & _).
  assert (Inv keyTraceURL w1) as I1.
  { eapply Inv_enqueue; [exact I|exact Hn| |exact E]. by constructor. }
  apply (enqueue_live _ _ _ _ _ _ _ _ _ _ L) in E. unfold close_locked.
  destruct (heap w1 !! q) as [n1|] eqn:Hq; [|by destruct E as (m & ? & ? & ?); exists m].
  destruct (frontendChans n1 !! k') as [c'|] eqn:Hk'; [|done].
  destruct (inv_open _ w1 I1 q n1 k' c' Hq Hk') as (ch & Hc' & Op & Ow).
  eapply set_mux_live; [by rewrite close_chan_heap|simpl; by rewrite lookup_delete_ne|].
  destruct E as (m & Hp & Hk & Hc). exists m. rewrite close_chan_heap. split_and!; [done|done|].
  unfold close_chan. rewrite Hc' Op. simpl. rewrite lookup_insert_ne //. intros ->. simplify_eq. simpl in Ow. congruence.
Qed.

(** One frame: a message for [k] is received if it is taken, others leave the stream
    alone. *)
Lemma read_live p k c r m0 x w w' go_on :
  Inv keyTraceURL w -> wire_key (Key m0) -> ParseMessageSafe (ar_frame x) = Ok m0 ->
  (Key m0 = k -> ar_taken x = true) -> stream_live p k c r w ->
  read_iteration (ar_sel x) p (Multiplexer.ReadFrame true (ar_frame x)) (ar_taken x) w = Some (w', go_on) ->
  go_on = true /\ Inv keyTraceURL w' /\
  stream_live p k c (r ++ if bool_decide (Key m0 = k) then [m0] else []) w'.
Proof.
  intros I Wk P T L E. assert (Inv keyTraceURL w') as I'.
  { pose proof L as (m & Hp & _). eapply Inv_steps; [exact I|]. by eapply read_iteration_steps. }
  revert E. unfold read_iteration. pose proof L as (m & Hp & Hk & Hc). rewrite Hp P.
  destruct (decide (Key m0 = k)) as [Ek|Nk].
  - rewrite (bool_decide_eq_true_2 _ Ek) Ek Hk T //. intros [= <- <-]. split_and!; [done|done|].
    exists m. unfold send_chan. rewrite Hc. simpl. by rewrite lookup_insert_eq.
  - rewrite (bool_decide_eq_false_2 _ Nk) app_nil_r.
    assert (forall w1 e, mgr_closeConnection (ar_sel x) (backendKey m) (Key m0) w = Some (w1, e) ->
      stream_live p k c r w1) as Cl by by (intros w1 e; apply (close_other_live _ _ _ _ _ _ _ _ _ _ I Nk Wk L)).
    destruct (frontendChans m !! Key m0) as [c'|] eqn:Hk'.
    + destruct (ar_taken x).
      * intros [= <- <-]. split_and!; [done|done|]. destruct (inv_open _ w I p m (Key m0) c' Hp Hk') as (ch & Hc' & Op & Ow).
        exists m. unfold send_chan. rewrite Hc' Op. simpl. split_and!; [done|done|]. rewrite lookup_insert_ne //.
        intros ->. simplify_eq. simpl in Ow. congruence.
      * destruct (mgr_closeConnection _ _ _ w) as [[w1 e]|]; [|done]. intros [= <- <-]. split_and!; [done|done|]. by eapply Cl.
    + destruct (bool_decide (Type_ m0 <> Close)); [|by intros [= <- <-]].
      destruct (mgr_closeConnection _ _ _ w) as [[w1 e]|]; [|done]. intros [= <- <-]. split_and!; [done|done|]. by eapply Cl.
Qed.

Definition of_stream (k : string) (l : list Message) : list Message :=
  List.filter (fun m => bool_decide (Key m = k)) l.

Lemma read_frames_live p k c l w w' (msgs : list Message) r :
  Inv keyTraceURL w ->
  Forall2 (fun x m => wire_key (Key m) /\ ParseMessageSafe (ar_frame x) = Ok m /\ (Key m = k -> ar_taken x = true)) l msgs ->
  stream_live p k c r w -> read_frames p l w = Some w' -> stream_live p k c (r ++ of_stream k msgs) w'.
Proof.
  intros I F. revert w r I. induction F as [|x m l msgs (Wk & P & T) F IH]; intros w r I L; cbn [read_frames].
  - intros [= <-]. by rewrite app_nil_r.
  - destruct (read_iteration _ _ _ _ w) as [[w1 go_on]|] eqn:E; [|done].
    destruct (read_live p k c r m x w w1 go_on) as (-> & I1 & L1); [done..|]. intros R.
    pose proof (IH w1 _ I1 L1 R) as Q. revert Q. unfold of_stream. simpl. by destruct (bool_decide _); rewrite -app_assoc.
Qed.

(** The goroutine never waits when the timer of [enqueue] fires. *)
Lemma read_frames_total p l w :
  Forall (fun x => ar_sel x = SelTimer) l -> is_Some (read_frames p l w).
Proof.
  intros F. revert w. induction F as [|x l S F IH]; intros w; cbn [read_frames]; [done|].
  assert (forall key k (w0 : world), is_Some (mgr_closeConnection SelTimer key k w0)) as C.
  { intros key k w0. unfold mgr_closeConnection, closeConnection, sendClose, enqueue. by repeat case_match. }
  assert (is_Some (read_iteration (ar_sel x) p (Multiplexer.ReadFrame true (ar_frame x)) (ar_taken x) w)) as [[w1 g] ->].
  { rewrite S. unfold read_iteration. destruct (heap w !! p) as [m|]; [|done].
    destruct (ParseMessageSafe _) as [m0|]; [|done].
    destruct (C (backendKey m) (Key m0) w) as [[w1 e] ->]. by repeat case_match. }
  by destruct g.
Qed.
End Replies.

Lemma frames_of_replies wakes frames :
  Forall (fun m => wire_key (Key m) /\ wire_type (Type_ m)) (replies wakes) ->
  frames `prefix_of` fst (write_loop wakes) ->
  Forall2 (fun f m => wire_key (Key m) /\ ParseMessageSafe f = Ok m) frames (take (length frames) (replies wakes)).
Proof.
  intros W [rest E]. destruct (write_loop_frames wakes) as [(n & P) S]. rewrite E in P, S.
  apply Forall_app in S as [S _].
  assert (frames = message_frame <$> take (length frames) (replies wakes)) as F.
  { apply (f_equal (take (length frames))) in P. rewrite take_app_length -fmap_take take_take in P.
    assert (length frames <= n)%nat as L.
    { apply (f_equal length) in P. rewrite length_fmap length_take in P. lia. }
    by rewrite Nat.min_l in P. }
  assert (forall m, m ∈ take (length frames) (replies wakes) -> m ∈ replies wakes) as In.
  { intros m Hm. by apply elem_of_take in Hm as (? & ?%list_elem_of_lookup_2 & _). }
  generalize dependent (take (length frames) (replies wakes)). intros t -> In.
  apply Forall2_fmap_l, Forall_Forall2_diag, Forall_forall. intros m Hm.
  rewrite -> Forall_forall in W. rewrite -> Forall_forall in S. destruct (W m (In m Hm)) as [Wk Wt]. split; [done|].
  destruct m as [k t0 b]. apply format_parse; [done|done|]. apply (S (message_frame (mkMessage k t0 b))).
  apply list_elem_of_fmap. by exists (mkMessage k t0 b).
Qed.

(** C27: What a handler on the host replies reaches its client.  Let the agent's writing
    goroutine have run on any events, with replies that carry message keys and
    types of the wire, and let the proxy have read any part of what it wrote.  A
    client that takes its messages in time receives on its channel exactly the
    replies of its stream, in order, and the channel stays open, whatever is sent
    to other streams, known or unknown, and whether or not their clients keep up;
    and the proxy does get through the frames. *)
Theorem replies_reach_client keyTraceURL w p m k c r wakes l :
  reachable keyTraceURL w -> heap w !! p = Some m -> frontendChans m !! k = Some c ->
  chans w !! c = Some (mkChan (p, k) false r) ->
  Forall (fun m => wire_key (Key m) /\ wire_type (Type_ m)) (replies wakes) ->
  (ar_frame <$> l) `prefix_of` fst (write_loop wakes) ->
  Forall (fun x => Key (parsed (ar_frame x)) = k -> ar_taken x = true) l ->
  (Forall (fun x => ar_sel x = SelTimer) l -> is_Some (read_frames p l w)) /\
  (forall w', read_frames p l w = Some w' ->
     chans w' !! c = Some (mkChan (p, k) false (r ++ of_stream k (take (length l) (replies wakes))))).
Proof.
  intros R Hp Hk Hc W Pre T. split; [apply read_frames_total|]. intros w' E.
  pose proof (frames_of_replies _ _ W Pre) as F. rewrite length_fmap in F. apply Forall2_fmap_l in F.
  destruct (read_frames_live keyTraceURL p k c l w w' (take (length l) (replies wakes)) r) as (m' & _ & _ & Q);
    [by apply reachable_Inv| |by exists m|done|done].
  assert (Forall2 (fun x (m : Message) => Key (parsed (ar_frame x)) = k -> ar_taken x = true) l (take (length l) (replies wakes))) as F'.
  { clear -F T. induction F; inversion T; by constructor; auto. }
  clear -F F'. induction F as [|x msg l1 l2 [Wk P] F IH]; inversion F' as [|? ? ? ? T F'']; subst; constructor; [|by apply IH].
  unfold parsed in T. rewrite P in T. done.
Qed.

(** ** Witnesses *)

Module EndToEndDemo.
(** One more message of the client [k1], and both frames written. *)
Definition run1 (o : op) (w : world) : world := default w (run_op Demo.keyURL o w).
Definition w5 : world := run1 (OpSend SelSend "host" "k1" "ls") Demo.w3.
Definition w6 : world := run1 (OpWrite 0 (WriteMessage true)) w5.
Definition w7 : world := run1 (OpWrite 0 (WriteMessage true)) w6.

Lemma run1_reachable o w : reachable Demo.keyURL w -> op_ok o w -> reachable Demo.keyURL (run1 o w).
Proof.
  intros R O. unfold run1. destruct (run_op Demo.keyURL o w) as [w'|] eqn:E; [|done].
  eapply reachable_trans; [exact R|]. apply (run_op_steps Demo.keyURL o); [by apply reachable_Inv|done|done].
Qed.

Lemma w7_reachable : reachable Demo.keyURL w7.
Proof.
  apply run1_reachable; [apply run1_reachable; [apply run1_reachable; [apply Demo.w3_reachable|apply Demo.k1_wire]|]|];
    (eexists; split; [reflexivity|reflexivity]).
Qed.

Definition table : gmap string nat := {["key/v1" := 7%nat]}.
Definition order : list (string * nat) := [("key/v1", 7%nat)].

Definition out : Message := mkMessage "k1" Body "out".
Definition wakes : list wake := [Reply out true; Tick true; Reply (mkMessage "k9" Body "?") true].
Definition arrivals : list arrival :=
  [mkArrival SelTimer true "k1||1||out"; mkArrival SelTimer false "k9||1||?"].
End EndToEndDemo.
Import EndToEndDemo.

Lemma stream_reaches_handler_witness :
  let a := connectToProxyWS table (reads [(order, "k1||0||key/v1/exec"); (order, "k1||1||ls")]) initial_agent in
  exists c, ("k1", "key/v1/exec", c, 7%nat) ∈ started a /\ achans a !! c = Some (mkAgentChan ["ls"] false).
Proof.
  refine (proj2 (proj2 (stream_reaches_handler Demo.keyURL table w7 0 (Demo.mux0 w7) [] [(order, "k1||1||ls")]
    order "k1" "key/v1/exec" "k1||0||key/v1/exec" "key/v1/exec" 7%nat w7_reachable _ _ _ _ _ _))).
  - reflexivity.
  - exists []. by vm_compute.
  - by vm_compute.
  - by repeat constructor.
  - reflexivity.
  - by vm_compute.
Defined.

Lemma replies_reach_client_witness :
  match read_frames 0 arrivals Demo.w2 with
  | Some w => chans w !! 1%nat = Some (mkChan (0%nat, "k1") false [out])
  | None => False
  end.
Proof.
  destruct (replies_reach_client Demo.keyURL Demo.w2 0 (Demo.mux0 Demo.w2) "k1" 1 [] wakes arrivals) as [S R].
  - apply Demo.w2_reachable.
  - reflexivity.
  - by vm_compute.
  - by vm_compute.
  - repeat apply List.Forall_cons; try apply List.Forall_nil; (split; [split; [vm_compute; split; discriminate|reflexivity]|right; left; reflexivity]).
  - exists []. by vm_compute.
  - repeat apply List.Forall_cons; try apply List.Forall_nil; by vm_compute.
  - destruct S as [w E]; [by repeat constructor|]. rewrite E. exact (R w E).
Defined.
