(* ===== verification/Config.v ===== *)
(** * Configuration and certificates

    Models [proxy/config.go]: the flags and their environment variables, the JWT
    verification key and its sources, the requests to the control platform, and
    the certificate archive.

    Errors are the texts of the source without the text of the library error they
    wrap.  Functions that talk to the control platform run in the monad [comm] of
    [Http]: the requests sent so far are its state, and the exchange with the
    server, which may depend on them, is a parameter. *)

From S2P Require Import Prelude GoString GoHash GoNet GoUrl GoCookie GoJson Message Delegation Capability Http.

(** ** Constants *)

Definition maxPublicKeyBytes : Z := Z.shiftl 1 20.
Definition maxAPIResponseBytes : Z := Z.shiftl 2 20.
Definition maxCertificateZipBytes : Z := Z.shiftl 8 20.
Definition maxCertificateFileSize : Z := Z.shiftl 2 20.
Definition minimumRSAKeyBits : Z := 2048.

(** ** [strconv.ParseInt(s, 0, 64)], which reads integer flags *)

(** [c | ('x' - 'X')] *)
Definition lower_bit (c : ascii) : Z := Z.lor (code c) 32.

Definition digit_value (c : ascii) : option Z :=
  if is_digit c then Some (code c - 48)
  else let l := lower_bit c in if (97 <=? l) && (l <=? 122) then Some (l - 87) else None.

(** The digits of a number in [base], underscores skipped. *)
Fixpoint uint_digits (base n : Z) (s : string) : option Z :=
  match s with
  | EmptyString => Some n
  | String c s =>
      if bool_decide (c = "_"%char) then uint_digits base n s
      else d ← digit_value c;
           if base <=? d then None
           else if max_uint64 <? n * base + d then None else uint_digits base (n * base + d) s
  end.

(** The base prefix of a number: its base, and what follows it. *)
Definition base_prefix (s : string) : Z * string :=
  match s with
  | String "0" (String c (String d r)) =>
      let l := lower_bit c in
      if l =? 98 then (2, String d r)
      else if l =? 111 then (8, String d r)
      else if l =? 120 then (16, String d r)
      else (8, String c (String d r))
  | String "0" r => (8, r)
  | _ => (10, s)
  end.

(** [underscoreOK]: underscores only between digits or after the prefix.  [last]
    is the class of the previous character: a digit, an underscore or neither. *)
Inductive char_class := CDigit | CUnderscore | COther.

Fixpoint underscore_loop (hex_ : bool) (last : char_class) (s : string) : bool :=
  match s with
  | EmptyString => match last with CUnderscore => false | _ => true end
  | String c s =>
      if is_digit c || hex_ && (97 <=? lower_bit c) && (lower_bit c <=? 102)
      then underscore_loop hex_ CDigit s
      else if bool_decide (c = "_"%char)
           then match last with CDigit => underscore_loop hex_ CUnderscore s | _ => false end
           else match last with CUnderscore => false | _ => underscore_loop hex_ COther s end
  end.

Definition underscoreOK (s : string) : bool :=
  match s with
  | String "0" (String c r) =>
      let l := lower_bit c in
      if (l =? 98) || (l =? 111) || (l =? 120) then underscore_loop (l =? 120) CDigit r
      else underscore_loop false COther s
  | _ => underscore_loop false COther s
  end.

Definition parse_uint0 (s : string) : option Z :=
  if bool_decide (s = "") then None
  else let '(base, digits) := base_prefix s in
       n ← uint_digits base 0 digits;
       if contains s "_" && negb (underscoreOK s) then None else Some n.

Definition parse_int0 (s : string) : option Z :=
  match s with
  | String "-" r => n ← parse_uint0 r; if n <=? 2 ^ 63 then Some (- n) else None
  | String "+" r => n ← parse_uint0 r; if n <=? max_int64 then Some n else None
  | _ => n ← parse_uint0 s; if n <=? max_int64 then Some n else None
  end.

Example parse_int0_decimal : parse_int0 "1_000" = Some 1000.
Proof. reflexivity. Qed.
Example parse_int0_hex : parse_int0 "-0x_1f" = Some (-31).
Proof. reflexivity. Qed.
Example parse_int0_octal : parse_int0 "010" = Some 8.
Proof. reflexivity. Qed.
Example parse_int0_underscore : parse_int0 "1__0" = None /\ parse_int0 "_1" = None /\ parse_int0 "1_" = None.
Proof. done. Qed.

(** ** Flags *)

Inductive flag_value := FString (s : string) | FInt (z : Z).

#[export] Instance flag_value_eq_dec : EqDecision flag_value.
Proof. solve_decision. Defined.

(** A [flag.FlagSet]: the declared flags with their values, and which of them were
    set. *)
Record flagset := mkFlags { formal : gmap string flag_value; actual : gset string }.

(** [Value.Set] of a string or integer flag. *)
Definition value_set (old : flag_value) (s : string) : option flag_value :=
  match old with FString _ => Some (FString s) | FInt _ => FInt <$> parse_int0 s end.

(** [flagSet.Set] *)
Definition flag_set (name value : string) (fs : flagset) : option flagset :=
  old ← formal fs !! name;
  v ← value_set old value;
  Some (mkFlags (<[name:=v]> (formal fs)) ({[name]} ∪ actual fs)).

(** [VisitAll] goes through the flags in lexical order. *)
Definition visit_order (fs : flagset) : list string :=
  merge_sort String.le (map_to_list (formal fs)).*1.

Definition flag_string (fs : flagset) (name : string) : string :=
  match formal fs !! name with Some (FString s) => s | _ => "" end.
Definition flag_int (fs : flagset) (name : string) : Z :=
  match formal fs !! name with Some (FInt z) => z | _ => 0 end.

Section Environment.
Context (getenv : string -> string).

Definition preferredEnvironment (preferred legacy : string) : string :=
  if bool_decide (getenv preferred = "") then getenv legacy else getenv preferred.

(** The environment variable of a flag. *)
Definition env_key (prefix name : string) : string :=
  to_upper (prefix +:+ smap (fun c => if bool_decide (c = "."%char) || bool_decide (c = "-"%char)
                                      then "_"%char else c) name).

(** The function [VisitAll] calls; [alreadySet] was collected before. *)
Definition apply_env (prefix : string) (alreadySet : gset string) (acc : result string flagset)
  (name : string) : result string flagset :=
  match acc with
  | Err e => Err e
  | Ok fs =>
      if bool_decide (name ∈ alreadySet) then Ok fs
      else let key := env_key prefix name in
           if bool_decide (getenv key = "") then Ok fs
           else match flag_set name (getenv key) fs with
                | Some fs' => Ok fs'
                | None => Err ("invalid environment value for " +:+ key)
                end
  end.

Definition applyEnvironmentToUnsetFlags (fs : flagset) (prefix : string) : result string flagset :=
  foldl (apply_env prefix (actual fs)) (Ok fs) (visit_order fs).
End Environment.

(** ** The JWT verification key *)

(** What [x509.ParsePKIXPublicKey] returns: an RSA key, with its modulus if it has
    one, or a key of another kind. *)
Inductive pkix_key := RSAKey (N : option Z) (E : Z) | UnknownKey (algorithm : string).

#[export] Instance pkix_key_eq_dec : EqDecision pkix_key.
Proof. solve_decision. Defined.

(** [big.Int.BitLen] *)
Definition BitLen (n : Z) : Z := if n =? 0 then 0 else Z.log2 (Z.abs n) + 1.

Section Keys.
Context (pem_decode : string -> option string) (parse_pkix : string -> result string pkix_key)
  (open_file : string -> result string reader).

Definition publicKeyDecode (keyBytes : string) : result string pkix_key :=
  if (go_len keyBytes =? 0) || (maxPublicKeyBytes <? go_len keyBytes)
  then Err ("JWT public key must contain between 1 and " +:+ itoa maxPublicKeyBytes +:+ " bytes")
  else match pem_decode keyBytes with
  | None => Err "Invalid key content"
  | Some block =>
      pubKey ← parse_pkix block;
      match pubKey with
      | RSAKey (Some n) e =>
          if BitLen n <? minimumRSAKeyBits
          then Err ("JWT RSA public key must be at least " +:+ itoa minimumRSAKeyBits +:+ " bits")
          else Ok (RSAKey (Some n) e)
      | _ => Err "JWT public key must be RSA"
      end
  end.

Definition ParsePublicKey (keyFile : string) : result string pkix_key :=
  file ← open_file keyFile;
  keyBytes ← read_limited (maxPublicKeyBytes + 1) file;
  if maxPublicKeyBytes <? go_len keyBytes
  then Err ("JWT public key exceeds " +:+ itoa maxPublicKeyBytes +:+ " bytes")
  else publicKeyDecode keyBytes.

Definition ParsePublicKeyFromMemory (keyFileContents : string) : result string pkix_key :=
  publicKeyDecode keyFileContents.
End Keys.

(** ** Requests to the control platform *)

(** A request that was sent: its URL and its basic-auth credentials. *)
Record platform_request := mkPReq { pq_URL : url; pq_BasicAuth : option (string * string); pq_Accept : string }.

Abbreviation platform := (comm platform_request string).

Record platformSchema := mkSchema { schema_ID : string; schema_Links : gmap string string }.

Record Certs := mkCerts { CA : string; Cert : string; Key : string }.

(** An entry of a zip archive: the size its header declares, whether it opens, what
    reading it yields, and the error of closing it. *)
Record zip_file := mkZip {
  zf_Name : string; UncompressedSize64 : Z; zf_Open : result string reader; zf_Close : option string }.

(** *** The certificate archive *)

Definition cert_names : list string := ["ca.pem"; "cert.pem"; "key.pem"].

(** The contents of one entry: the checks of the loop from the declared size on. *)
Definition read_entry (f : zip_file) : result string string :=
  if maxCertificateFileSize <? UncompressedSize64 f
  then Err ("certificate archive entry " +:+ zf_Name f +:+ " is too large")
  else match zf_Open f with
  | Err e => Err ("could not open certificate archive entry " +:+ zf_Name f +:+ ": " +:+ e)
  | Ok entry =>
      match read_limited (maxCertificateFileSize + 1) entry with
      | Err e => Err ("could not read certificate archive entry " +:+ zf_Name f +:+ ": " +:+ e)
      | Ok contents =>
          match zf_Close f with
          | Some e => Err ("could not close certificate archive entry " +:+ zf_Name f +:+ ": " +:+ e)
          | None =>
              if (go_len contents =? 0) || (maxCertificateFileSize <? go_len contents)
              then Err ("certificate archive entry " +:+ zf_Name f +:+ " has an invalid size")
              else Ok contents
          end
      end
  end.

Definition store_entry (name contents : string) (c : Certs) : Certs :=
  if bool_decide (name = "ca.pem") then mkCerts contents (Cert c) (Key c)
  else if bool_decide (name = "cert.pem") then mkCerts (CA c) contents (Key c)
  else if bool_decide (name = "key.pem") then mkCerts (CA c) (Cert c) contents
  else c.

Fixpoint extract_entries (files : list zip_file) (found : gset string) (c : Certs)
  : result string (gset string * Certs) :=
  match files with
  | [] => Ok (found, c)
  | f :: files =>
      if negb (bool_decide (zf_Name f ∈ cert_names)) then extract_entries files found c
      else if bool_decide (zf_Name f ∈ found)
           then Err ("certificate archive contains duplicate " +:+ zf_Name f)
           else contents ← read_entry f;
                extract_entries files ({[zf_Name f]} ∪ found) (store_entry (zf_Name f) contents c)
  end.

(** The loop over the required names. *)
Fixpoint missing_entry (required : list string) (found : gset string) : option string :=
  match required with
  | [] => None
  | r :: required => if bool_decide (r ∈ found) then missing_entry required found else Some r
  end.

Definition extractCertificateArchive (zip_reader : string -> result string (list zip_file))
  (archive : string) : result string Certs :=
  match zip_reader archive with
  | Err e => Err ("invalid certificate archive: " +:+ e)
  | Ok files =>
      if (16 <? length files)%nat then Err "certificate archive contains too many entries"
      else found_result ← extract_entries files ∅ (mkCerts "" "" "");
           match missing_entry cert_names (fst found_result) with
           | Some name => Err ("certificate archive is missing " +:+ name)
           | None => Ok (snd found_result)
           end
  end.

(** *** Downloads *)

(** The answers of the platform as structs: schemas, and the links of credentials. *)
Definition set_links (m : gmap string string) (key : string) (j : json) : option (gmap string string) :=
  if field_is "links" key then json_set_strings j m else Some m.
Definition set_schema (s : platformSchema) (key : string) (j : json) : option platformSchema :=
  if field_is "id" key then (fun x => mkSchema x (schema_Links s)) <$> json_set_string j (schema_ID s)
  else mkSchema (schema_ID s) <$> set_links (schema_Links s) key j.
Definition decode_collection {A : Type} (set : A -> string -> json -> option A) (zero : A) (body : string) : option (list A) :=
  json_parse body ≫= json_struct (fun data key j =>
    if field_is "data" key then json_slice (json_struct set) zero j data else Some data) [].
Definition decode_schemas : string -> option (list platformSchema) := decode_collection set_schema (mkSchema "" ∅).
Definition decode_credentials : string -> option (list (gmap string string)) := decode_collection set_links ∅.

Section Platform.
Context (exchange : list platform_request -> platform_request -> result string client_response)
  (zip_reader : string -> result string (list zip_file)).

Definition controlPlatformBaseURL (addr : string) : result string url :=
  match url_parse ("http://" +:+ addr) with
  | None => Err "invalid control-platform address"
  | Some baseURL =>
      if bool_decide (Host baseURL = "") || HasUser baseURL || negb (bool_decide (Path baseURL = ""))
         || negb (bool_decide (RawQuery baseURL = "")) || negb (bool_decide (Fragment baseURL = ""))
      then Err "invalid control-platform address" else Ok baseURL
  end.

Definition resolvePlatformResource (baseURL : url) (reference : string) : result string url :=
  match url_parse reference with
  | None => Err "invalid control-platform resource URL"
  | Some referenceURL =>
      let target := ResolveReference baseURL referenceURL in
      if HasUser target || negb (bool_decide (Fragment target = ""))
         || negb (bool_decide (Scheme target = "http")) && negb (bool_decide (Scheme target = "https"))
         || negb (equal_fold (Host target) (Host baseURL))
      then Err "control-platform resource URL is not same-origin" else Ok target
  end.

(** [client.Do], which does not follow redirects: the client refuses a URL without
    a host, its transport any other scheme than http and https. *)
Definition client_Do (q : platform_request) : platform client_response := fun sent =>
  if bool_decide (Host (pq_URL q) = "") then (sent, Err "http: no Host in request URL")
  else if negb (bool_decide (Scheme (pq_URL q) = "http")) && negb (bool_decide (Scheme (pq_URL q) = "https"))
       then (sent, Err "unsupported protocol scheme")
       else (sent ++ [q], exchange sent q).

Definition getPlatformResource (baseURL targetURL : url) (accessKey secretKey : string) (maxBytes : Z)
  : platform (string * header) :=
  _ ← lift (resolvePlatformResource baseURL (url_string targetURL));
  match NewRequestURL (url_string targetURL) with
  | None => fail "could not create control-platform request"
  | Some u =>
      let auth := if bool_decide (accessKey = "") && bool_decide (secretKey = "")
                  then None else Some (accessKey, secretKey) in
      resp ← wrap "control-platform request failed"
               (client_Do (mkPReq u auth "application/json, application/zip, application/x-pem-file"));
      if negb (cr_StatusCode resp =? 200)
      then fail ("control-platform request returned HTTP " +:+ itoa (cr_StatusCode resp))
      else body ← wrap "could not read control-platform response"
                    (lift (read_limited (maxBytes + 1) (cr_Body resp)));
           if maxBytes <? go_len body
           then fail ("control-platform response exceeds " +:+ itoa maxBytes +:+ " bytes")
           else mret (body, cr_Header resp)
  end.

Definition path_ref (p : string) : url := path_url p.

Definition downloadKey (addr : string) : platform string :=
  baseURL ← lift (controlPlatformBaseURL addr);
  let keyURL := ResolveReference baseURL (path_ref "/v1/scripts/api.crt") in
  body ← wrap "failed to download JWT verification key"
           (getPlatformResource baseURL keyURL "" "" maxPublicKeyBytes);
  mret (fst body).

(** The loop over the schemas. *)
Fixpoint find_collection (baseURL : url) (schemas : list platformSchema) : result string url :=
  match schemas with
  | [] => Err "control-platform credential schema is unavailable"
  | schema :: schemas =>
      if negb (bool_decide (schema_ID schema = "credential")) then find_collection baseURL schemas
      else let collection := default "" (schema_Links schema !! "collection") in
           if bool_decide (collection = "") then Err "credential schema has no collection URL"
           else match resolvePlatformResource baseURL collection with
                | Ok collectionURL => Ok collectionURL
                | Err e => Err ("invalid credential collection URL: " +:+ e)
                end
  end.

Definition credentialCollectionURL (baseURL : url) (accessKey secretKey : string) : platform url :=
  let schemaURL := ResolveReference baseURL (path_ref "/v1/schemas") in
  '(body, headers) ← wrap "failed to load control-platform schemas"
    (getPlatformResource baseURL schemaURL accessKey secretKey maxAPIResponseBytes);
  let advertised := header_get headers "X-API-Schemas" in
  body ← (if bool_decide (advertised = "") then mret body
          else advertisedURL ← wrap "invalid advertised schema URL"
                 (lift (resolvePlatformResource baseURL advertised));
               if bool_decide (url_string advertisedURL = url_string schemaURL) then mret body
               else reply ← wrap "failed to load advertised control-platform schemas"
                      (getPlatformResource baseURL advertisedURL accessKey secretKey maxAPIResponseBytes);
                    mret (fst reply));
  match decode_schemas body with
  | None => fail "invalid control-platform schema response"
  | Some schemas => lift (find_collection baseURL schemas)
  end.

Definition downloadCert (accessKey secretKey addr : string) : platform Certs :=
  if bool_decide (accessKey = "") || bool_decide (secretKey = "")
  then fail "control-platform credentials are required"
  else
    baseURL ← lift (controlPlatformBaseURL addr);
    collectionURL ← credentialCollectionURL baseURL accessKey secretKey;
    let query := query_set "kind" "agentApiKey"
                   (query_set "publicValue" accessKey (url_query collectionURL)) in
    let collectionURL := with_query (encode_query query) collectionURL in
    body ← wrap "failed to query certificate credential"
      (getPlatformResource baseURL collectionURL accessKey secretKey maxAPIResponseBytes);
    match decode_credentials (fst body) with
    | None => fail "invalid credential response"
    | Some [] => fail "certificate credential is unavailable"
    | Some (links :: _) =>
        let certificateReference := default "" (links !! "certificate") in
        if bool_decide (certificateReference = "") then fail "certificate credential has no certificate URL"
        else
          certificateURL ← wrap "invalid certificate URL"
            (lift (resolvePlatformResource baseURL certificateReference));
          archive ← wrap "failed to download TLS certificate archive"
            (getPlatformResource baseURL certificateURL accessKey secretKey maxCertificateZipBytes);
          lift (extractCertificateArchive zip_reader (fst archive))
    end.
End Platform.

(** ** [GetConfig] *)

Record Config := mkConfig {
  PublicKey : pkix_key;
  ListenAddr : string;
  PlatformAddr : string;
  ParentPid : Z;
  ProxyProtoHTTPSPorts : gset Z;
  TrustedProxyCIDRs : list IPNet;
  PlatformPublicOrigin : option url;
  PlatformAccessKey : string;
  PlatformSecretKey : string;
  TLSListenAddr : string;
  MasterFile : string;
  APIInterceptorConfigFile : string;
  Locale : string }.

Section GetConfig.
Context (getenv : string -> string) (pem_decode : string -> option string)
  (parse_pkix : string -> result string pkix_key) (open_file : string -> result string reader)
  (exchange : list platform_request -> platform_request -> result string client_response).

(** [Ok None] is [nil, nil]. *)
Definition parsePlatformPublicOrigin (raw : string) : result string (option url) :=
  let raw := trim_space raw in
  if bool_decide (raw = "") then Ok None
  else match url_parse raw with
  | None => Err "platform public origin must be an absolute http(s) origin"
  | Some parsed =>
      if negb (bool_decide (Scheme parsed = "http")) && negb (bool_decide (Scheme parsed = "https"))
         || bool_decide (Hostname parsed = "")
      then Err "platform public origin must be an absolute http(s) origin"
      else if HasUser parsed
              || negb (bool_decide (Path parsed = "")) && negb (bool_decide (Path parsed = "/"))
              || negb (bool_decide (RawQuery parsed = "")) || negb (bool_decide (Fragment parsed = ""))
      then Err "platform public origin must not contain credentials, a path, a query, or a fragment"
      else Ok (Some (with_paths "" (RawPath parsed) parsed))
  end.

Fixpoint parse_cidrs (values : list string) : result string (list IPNet) :=
  match values with
  | [] => Ok []
  | value :: values =>
      let value := trim_space value in
      if bool_decide (value = "") then parse_cidrs values
      else match ParseCIDR value with
           | None => Err ("invalid trusted proxy CIDR " +:+ value)
           | Some network => networks ← parse_cidrs values; Ok (network :: networks)
           end
  end.

Definition parseTrustedProxyCIDRs (raw : string) : result string (list IPNet) :=
  parse_cidrs (split raw ",").

(** The set of the ports that are integers. *)
Definition parse_ports (raw : string) : gset Z := list_to_set (omap parse_int (split raw ",")).

Definition declared_flags : gmap string flag_value :=
  let localeDefault := getenv "PASTURESTACK_LOCALE" in
  list_to_map
    [("master-file", FString ""); ("jwt-public-key-file", FString "");
     ("jwt-public-key-contents", FString ""); ("listen-address", FString ":8080");
     ("tls-listen-address", FString ""); ("platform-address", FString "");
     ("cattle-address", FString "");
     ("locale", FString (if bool_decide (localeDefault = "") then "en-US" else localeDefault));
     ("parent-pid", FInt 0); ("https-proxy-protocol-ports", FString "");
     ("trusted-proxy-cidrs", FString "127.0.0.0/8,::1/128"); ("platform-public-origin", FString "");
     ("api-interceptor-config-file", FString "")].

(** [flag.Parse] on the flag assignments of the command line; it ends the process
    when one is rejected. *)
Definition flag_parse (args : list (string * string)) : result string flagset :=
  foldl (fun acc arg => match acc with
                        | Err e => Err e
                        | Ok fs => match flag_set (fst arg) (snd arg) fs with
                                   | Some fs' => Ok fs'
                                   | None => Err ("invalid value or unknown flag " +:+ fst arg)
                                   end
                        end) (Ok (mkFlags declared_flags ∅)) args.

(** The verification key.  The error of [downloadKey] is overwritten by that of
    [publicKeyDecode] on the nil slice it comes with. *)
Definition config_key (keyFile keyContents platformAddr : string) : platform pkix_key :=
  if negb (bool_decide (keyFile = "")) then lift (ParsePublicKey pem_decode parse_pkix open_file keyFile)
  else if negb (bool_decide (keyContents = ""))
       then lift (ParsePublicKeyFromMemory pem_decode parse_pkix keyContents)
  else if negb (bool_decide (platformAddr = ""))
       then fun sent =>
         let '(sent, r) := downloadKey exchange platformAddr sent in
         let bytes := match r with Ok bytes => bytes | Err _ => "" end in
         (sent, publicKeyDecode pem_decode parse_pkix bytes)
  else fail "Must specify one of jwt-public-key-file and jwt-public-key-contents".

Definition GetConfig (args : list (string * string)) : platform (Config) :=
  fs ← lift (flag_parse args);
  fs ← lift (applyEnvironmentToUnsetFlags getenv fs "PROXY_");
  let platformAddr := if bool_decide (flag_string fs "platform-address" = "")
                      then flag_string fs "cattle-address" else flag_string fs "platform-address" in
  let locale := flag_string fs "locale" in
  let keyFile := flag_string fs "jwt-public-key-file" in
  let keyContents := flag_string fs "jwt-public-key-contents" in
  if negb (bool_decide (locale = "en-US")) && negb (bool_decide (locale = "zh-TW"))
  then fail ("unsupported locale " +:+ locale +:+ "; use en-US or zh-TW")
  else if negb (bool_decide (keyFile = "")) && negb (bool_decide (keyContents = ""))
  then fail "Can't specify both jwt-public-key-file and jwt-public-key-contents"
  else
    parsedKey ← config_key keyFile keyContents platformAddr;
    networks ← lift (parseTrustedProxyCIDRs (flag_string fs "trusted-proxy-cidrs"));
    origin ← lift (parsePlatformPublicOrigin (flag_string fs "platform-public-origin"));
    mret (mkConfig parsedKey (flag_string fs "listen-address") platformAddr
            (flag_int fs "parent-pid") (parse_ports (flag_string fs "https-proxy-protocol-ports"))
            networks origin
            (preferredEnvironment getenv "PLATFORM_ACCESS_KEY" "CATTLE_ACCESS_KEY")
            (preferredEnvironment getenv "PLATFORM_SECRET_KEY" "CATTLE_SECRET_KEY")
            (flag_string fs "tls-listen-address") (flag_string fs "master-file")
            (flag_string fs "api-interceptor-config-file") locale).
End GetConfig.

(** [GetCerts] *)
Definition GetCerts exchange zip_reader (config : Config) : platform Certs :=
  downloadCert exchange zip_reader (PlatformAccessKey config) (PlatformSecretKey config) (PlatformAddr config).

(** ** Lemmas: the certificate archive *)

(** An entry that opens, reads completely and closes, with contents [s] within the
    limits. *)
Definition entry_ok (f : zip_file) (s : string) : Prop :=
  UncompressedSize64 f <= maxCertificateFileSize /\ zf_Open f = Ok (mkReader s None) /\
  zf_Close f = None /\ 1 <= go_len s <= maxCertificateFileSize.

Lemma read_entry_iff f s : read_entry f = Ok s <-> entry_ok f s.
Proof.
  unfold read_entry, entry_ok. split.
  - destruct (_ <? UncompressedSize64 f) eqn:U; [done|]. bool_to_prop.
    destruct (zf_Open f) as [r|]; [|done]. destruct (read_limited _ r) as [t|] eqn:R; [|done].
    destruct (zf_Close f); [done|]. destruct (_ || _) eqn:G; [done|]. intros <-%Ok_inj. bool_to_prop.
    pose proof (go_len_nonneg t).
    destruct (read_limited_within maxCertificateFileSize r t) as [-> E]; [done|done|lia|].
    split_and!; try done; [|lia]. destruct r as [d e]. simpl in *. by subst.
  - intros (U & O & C & L). rewrite (proj2 (Z.ltb_ge _ _)) // O C.
    rewrite (read_limited_all maxCertificateFileSize (mkReader s None)); [|done|simpl; lia]. simpl.
    rewrite (proj2 (Z.eqb_neq _ _)); [|lia]. by rewrite (proj2 (Z.ltb_ge _ _)); [|lia].
Qed.

(** The field of the result an entry goes to. *)
Definition cert_field (n : string) (c : Certs) : string :=
  if bool_decide (n = "ca.pem") then CA c else if bool_decide (n = "cert.pem") then Cert c else Key c.

Lemma cert_field_store n m s c : n ∈ cert_names -> m ∈ cert_names ->
  cert_field m (store_entry n s c) = if bool_decide (n = m) then s else cert_field m c.
Proof.
  unfold cert_names. rewrite !elem_of_cons. intros Hn Hm.
  destruct Hn as [->|[->|[->|[]%not_elem_of_nil]]];
    destruct Hm as [->|[->|[->|[]%not_elem_of_nil]]]; done.
Qed.

Lemma certs_ext c c' : (forall n, n ∈ cert_names -> cert_field n c = cert_field n c') -> c = c'.
Proof.
  intros H. destruct c, c'.
  pose proof (H "ca.pem") as H1. pose proof (H "cert.pem") as H2. pose proof (H "key.pem") as H3.
  unfold cert_field in *. simpl in *. unfold cert_names in *. f_equal; set_solver.
Qed.

Definition named (n : string) (files : list zip_file) : list zip_file :=
  List.filter (fun f => bool_decide (zf_Name f = n)) files.

(** What the loop does for one of the names. *)
Lemma extract_entries_sound files found c found' c' n :
  extract_entries files found c = Ok (found', c') -> n ∈ cert_names ->
  (named n files = [] /\ (n ∈ found' <-> n ∈ found) /\ cert_field n c' = cert_field n c) \/
  ((n ∉ found) /\ n ∈ found' /\ exists f s, named n files = [f] /\ read_entry f = Ok s /\ cert_field n c' = s).
Proof.
  revert found c. induction files as [|f files IH]; intros found c; simpl.
  { intros [= <- <-] _. by left. }
  case_bool_decide as K; simpl.
  - case_bool_decide as D; [done|]. intros (s & R & H)%bind_Ok Hn.
    destruct (IH _ _ H Hn) as [(N & F & V)|(N & F & g & t & G)].
    + rewrite cert_field_store // in V. case_bool_decide as E.
      * right. rewrite -E in N F V |- *. split_and!; [done|set_solver|]. exists f, s. by rewrite N.
      * left. split_and!; [done|set_solver|done].
    + right. split_and!; [set_solver|done|]. exists g, t.
      rewrite bool_decide_eq_false_2; [done|]. intros <-. set_solver.
  - intros H Hn. rewrite (bool_decide_eq_false_2 (zf_Name f = n)); [by apply IH|by intros <-].
Qed.

Lemma extract_entries_complete files found c :
  (forall n, n ∈ cert_names -> named n files = [] \/
     (n ∉ found) /\ exists f s, named n files = [f] /\ read_entry f = Ok s) ->
  exists found' c', extract_entries files found c = Ok (found', c').
Proof.
  revert found c. induction files as [|f files IH]; intros found c H; simpl; [by eexists _, _|].
  case_bool_decide as K; simpl.
  - destruct (H _ K) as [N|(Nf & g & s & N & R)]; simpl in N; rewrite bool_decide_eq_true_2 // in N.
    injection N as <- N. rewrite bool_decide_eq_false_2 // R. apply IH. intros n Hn.
    destruct (decide (zf_Name f = n)) as [<-|E]; [by left|].
    destruct (H n Hn) as [N'|(Nf' & g & t & N' & R')]; simpl in N'; rewrite bool_decide_eq_false_2 // in N';
      [by left|]. right. split; [set_solver|eauto].
  - apply IH. intros n Hn. specialize (H n Hn). simpl in H.
    rewrite (bool_decide_eq_false_2 (zf_Name f = n)) in H; [done|by intros <-].
Qed.

Lemma missing_entry_None required found :
  missing_entry required found = None <-> forall n, n ∈ required -> n ∈ found.
Proof.
  induction required as [|r required IH]; simpl; [set_solver|].
  case_bool_decide; rewrite ?IH; set_solver.
Qed.

(** ** Lemmas: flags *)

Lemma visit_order_elem fs name : name ∈ visit_order fs <-> is_Some (formal fs !! name).
Proof.
  unfold visit_order. rewrite merge_sort_Permutation. rewrite list_elem_of_fmap. split.
  - intros ([k v] & -> & H%elem_of_map_to_list). by exists v.
  - intros [v H]. exists (name, v). split; [done|]. by apply elem_of_map_to_list.
Qed.

Lemma visit_order_NoDup fs : NoDup (visit_order fs).
Proof. unfold visit_order. rewrite merge_sort_Permutation. apply NoDup_fst_map_to_list. Qed.

(** The value a flag has after the environment was applied. *)
Definition env_value (getenv : string -> string) (prefix : string) (set_ : gset string) (name : string)
  (v : flag_value) : option flag_value :=
  if bool_decide (name ∈ set_) || bool_decide (getenv (env_key prefix name) = "") then Some v
  else value_set v (getenv (env_key prefix name)).

Section EnvLemmas.
Context (getenv : string -> string) (prefix : string) (set_ : gset string).
Abbreviation step := (apply_env getenv prefix set_).

Lemma apply_env_Err e l : foldl step (Err e) l = Err e.
Proof. induction l; [done|]. simpl. done. Qed.

Lemma apply_env_step fs name v : formal fs !! name = Some v ->
  match env_value getenv prefix set_ name v with
  | Some v' => exists fs', step (Ok fs) name = Ok fs' /\ formal fs' = <[name:=v']> (formal fs)
  | None => exists e, step (Ok fs) name = Err e
  end.
Proof.
  intros H. unfold env_value, apply_env. case_bool_decide; simpl.
  { eexists. by rewrite insert_id. }
  case_bool_decide; [eexists; by rewrite insert_id|]. unfold flag_set. rewrite H. simpl.
  destruct (value_set v _); simpl; eauto.
Qed.

Lemma apply_env_fold l fs :
  NoDup l -> (forall n, n ∈ l -> is_Some (formal fs !! n)) ->
  match foldl step (Ok fs) l with
  | Ok fs' => forall n v, formal fs !! n = Some v ->
      formal fs' !! n = if bool_decide (n ∈ l) then env_value getenv prefix set_ n v else Some v
  | Err _ => exists n v, n ∈ l /\ formal fs !! n = Some v /\ env_value getenv prefix set_ n v = None
  end.
Proof.
  revert fs. induction l as [|x l IH]; intros fs ND D.
  { intros n v H. simpl. done. }
  apply NoDup_cons in ND as [Nx ND]. destruct (D x) as [vx Hx]; [left|].
  pose proof (apply_env_step fs x vx Hx) as S. cbn [foldl].
  destruct (env_value getenv prefix set_ x vx) as [v'|] eqn:V.
  - destruct S as (fs1 & -> & F1). specialize (IH fs1 ND).
    assert (forall n, n <> x -> formal fs1 !! n = formal fs !! n) as Other.
    { intros n N. by rewrite F1 lookup_insert_ne. }
    destruct (foldl step (Ok fs1) l) as [fs'|e].
    + intros n v H. destruct (decide (n = x)) as [->|N].
      * rewrite (IH ltac:(intros k Hk; rewrite Other; [apply D; by right|congruence]) x v'); [|by rewrite F1 lookup_insert_eq].
        rewrite (bool_decide_eq_false_2 (x ∈ l)) // bool_decide_eq_true_2; [|left]. congruence.
      * rewrite (IH ltac:(intros k Hk; rewrite Other; [apply D; by right|congruence]) n v); [|by rewrite Other].
        by rewrite (bool_decide_ext (n ∈ x :: l) (n ∈ l)); [|set_solver].
    + destruct IH as (n & v & Hn & Hv & E).
      { intros k Hk. rewrite Other; [apply D; by right|congruence]. }
      exists n, v. split_and!; [by right| |done]. rewrite -Other //. congruence.
  - destruct S as (e & ->). rewrite apply_env_Err. exists x, vx. split_and!; [left|done|done].
Qed.
End EnvLemmas.

(** ** Lemmas: requests *)

(** A request to the host of the control platform; an empty port is left out. *)
Definition same_host (base : url) (q : platform_request) : Prop :=
  (Scheme (pq_URL q) = "http" \/ Scheme (pq_URL q) = "https") /\
  (exists host, Host (pq_URL q) = removeEmptyPort host /\ equal_fold host (Host base) = true) /\
  HasUser (pq_URL q) = false.

Section RequestLemmas.
Context (exchange : list platform_request -> platform_request -> result string client_response).

Lemma resolve_absolute base ref : Host ref <> "" ->
  Host (ResolveReference base ref) = Host ref /\
  HasUser (ResolveReference base ref) = HasUser ref.
Proof.
  intros N. unfold ResolveReference. rewrite (bool_decide_eq_false_2 (Host ref = "")) // orb_true_r orb_true_l.
  unfold set_path. destruct (set_encoded _ _) as [[path raw]|]; by case_bool_decide.
Qed.

Lemma getPlatformResource_sends base target k s max :
  sends_only (fun q => same_host base q /\
      pq_BasicAuth q = (if bool_decide (k = "") && bool_decide (s = "") then None else Some (k, s)))
    (getPlatformResource exchange base target k s max).
Proof.
  apply sends_only_bind_lift. intros t R. unfold resolvePlatformResource in R.
  unfold NewRequestURL. destruct (url_parse (url_string target)) as [u|]; [|apply sends_only_fail]. cbn [fmap option_fmap option_map].
  destruct (_ || _) eqn:G; [done|]. clear R. bool_to_prop.
  apply sends_only_bind; [apply sends_only_wrap|].
  - intros sent. unfold client_Do. cbn [pq_URL].
    change (Scheme (with_host _ u)) with (Scheme u). destruct (bool_decide (Host _ = "")) eqn:Hh; [by apply sends_nothing|]. apply bool_decide_eq_false in Hh.
    destruct (negb (bool_decide (Scheme u = "http")) && _) eqn:Sc; [by apply sends_nothing|].
    eexists. split; [done|]. apply Forall_singleton. split; [|done].
    destruct (resolve_absolute base u) as [E1 E2]; [by intros E; simpl in Hh; rewrite E in Hh|].
    unfold same_host. cbn [pq_URL]. change (HasUser (with_host _ u)) with (HasUser u). rewrite -E2.
    split_and!; [|exists (Host u); split; [done|congruence]|done]. bool_to_prop. destruct Sc; bool_to_prop; auto.
  - intros resp. destruct (negb (cr_StatusCode resp =? 200)); [apply sends_only_fail|]. apply sends_only_bind; [auto with proxy|].
    intros body. by destruct (_ <? _); auto with proxy.
Qed.
End RequestLemmas.

(** ** Properties *)

(** The ticket verifier's view of the key. *)
Definition jwt_key (k : pkix_key) : public_key :=
  match k with RSAKey (Some n) _ => RSAPublicKey (BitLen n) | _ => OtherKey end.

Lemma publicKeyDecode_strong pem_decode parse_pkix bytes k :
  publicKeyDecode pem_decode parse_pkix bytes = Ok k ->
  exists n e, k = RSAKey (Some n) e /\ minimumRSAKeyBits <= BitLen n.
Proof.
  unfold publicKeyDecode. destruct (_ || _); [done|]. destruct (pem_decode bytes); [|done].
  intros (pub & _ & H)%bind_Ok. destruct pub as [[n|] e|]; [|done..].
  destruct (_ <? _) eqn:L; [done|]. apply Ok_inj in H. bool_to_prop. eauto.
Qed.

Lemma config_key_strong pem_decode parse_pkix open_file exchange
  file contents addr sent sent' k :
  config_key pem_decode parse_pkix open_file exchange file contents addr sent
    = (sent', Ok k) ->
  exists bytes, publicKeyDecode pem_decode parse_pkix bytes = Ok k.
Proof.
  unfold config_key, lift. case_bool_decide; simpl.
  - case_bool_decide; simpl.
    + case_bool_decide; simpl; [done|]. destruct (downloadKey _ _ _) as [t r]. intros [= _ E]. eauto.
    + intros [= _ E]. eauto.
  - intros [= _ E]. unfold ParsePublicKey in E. apply bind_Ok in E as (f & _ & E).
    apply bind_Ok in E as (b & _ & E). destruct (_ <? _); [done|]. eauto.
Qed.

(** The networks of the flag, as written. *)
Definition cidr_values (raw : string) : list string :=
  List.filter (fun v => negb (bool_decide (v = ""))) (trim_space <$> split raw ",").

(** The networks are those of the entries, in order; one bad entry spoils all. *)
Lemma parseTrustedProxyCIDRs_values raw :
  match parseTrustedProxyCIDRs raw with
  | Ok nets => Forall2 (fun value n => ParseCIDR value = Some n) (cidr_values raw) nets
  | Err e => exists value, value ∈ cidr_values raw /\ ParseCIDR value = None /\ e = "invalid trusted proxy CIDR " +:+ value
  end.
Proof.
  unfold parseTrustedProxyCIDRs, cidr_values. induction (split raw ",") as [|v l IH]; cbn [parse_cidrs fmap list_fmap List.filter].
  { constructor. }
  destruct (bool_decide (trim_space v = "")); cbn [negb]; [exact IH|].
  destruct (ParseCIDR (trim_space v)) as [n|] eqn:P; [|by exists (trim_space v); split; [left|]].
  destruct (parse_cidrs l) as [nets|e]; cbn [mbind result_bind]; [by constructor|].
  destruct IH as (value & V & N & ->). exists value. split_and!; [by right|done..].
Qed.

Section ConfigProps.
Context (getenv : string -> string) (pem_decode : string -> option string)
  (parse_pkix : string -> result string pkix_key) (open_file : string -> result string reader)
  (exchange : list platform_request -> platform_request -> result string client_response).

Lemma parsePlatformPublicOrigin_shape raw u :
  parsePlatformPublicOrigin raw = Ok (Some u) ->
  (Scheme u = "http" \/ Scheme u = "https") /\ HasUser u = false /\ Path u = "" /\ RawQuery u = "" /\
  Fragment u = "".
Proof.
  unfold parsePlatformPublicOrigin. case_bool_decide; [done|].
  destruct (url_parse _) as [p|]; [|done]. destruct (_ || bool_decide (Hostname p = "")) eqn:G1; [done|].
  destruct (_ || _ || _ || _) eqn:G2; [done|]. intros [= <-]. bool_to_prop. simpl.
  split_and!; [|done..]. destruct H4; bool_to_prop; auto.
Qed.

(** C25: The dynamic values of an accepted configuration have the types the rest of the
    program assumes: the [interface{}] key is an RSA key of at least 2048 bits, so
    that the ticket parser hands every non-empty token of at most 16 KiB to the
    JWT library; the locale is one of the two supported ones; every port is a
    64-bit integer; and the public origin, if any, is an http(s) origin without
    credentials, path, query or fragment. *)
Theorem config_well_typed args sent sent' c :
  GetConfig getenv pem_decode parse_pkix open_file
    exchange args sent = (sent', Ok c) ->
  (exists bits, jwt_key (PublicKey c) = RSAPublicKey bits /\ 2048 <= bits /\
     forall jwt_parse token validate, token <> "" -> go_len token <= maxJWTBytes ->
       parseJWTSignature jwt_parse token (jwt_key (PublicKey c)) validate = jwt_parse validate token bits) /\
  Locale c ∈ ["en-US"; "zh-TW"] /\
  (forall p, p ∈ ProxyProtoHTTPSPorts c -> min_int64 <= p <= max_int64) /\
  (forall u, PlatformPublicOrigin c = Some u ->
     (Scheme u = "http" \/ Scheme u = "https") /\ HasUser u = false /\ Path u = "" /\ RawQuery u = "" /\
     Fragment u = "").
Proof.
  intros (fs0 & s0 & _ & H)%comm_bind_Ok. apply comm_bind_Ok in H as (fs & s1 & _ & H).
  cbv zeta in H. set (loc := flag_string fs "locale") in H.
  revert H. destruct (negb (bool_decide (loc = "en-US")) && _) eqn:L; [done|].
  destruct (negb (bool_decide (flag_string fs "jwt-public-key-file" = "")) && _); [done|]. intros H.
  apply comm_bind_Ok in H as (k & s2 & K & H). apply comm_bind_Ok in H as (nets & s3 & _ & H).
  apply comm_bind_Ok in H as (o & s4 & O & H). injection H as _ <-. cbn.
  injection O as _ O. split_and!.
  - apply config_key_strong in K as [bytes K]. apply publicKeyDecode_strong in K as (n & e & -> & B).
    exists (BitLen n). split_and!; [done|done|]. intros jp tok v N Lt. unfold parseJWTSignature. simpl.
    rewrite bool_decide_eq_false_2 // (proj2 (Z.ltb_ge _ _)) //. by rewrite (proj2 (Z.ltb_ge _ _)).
  - bool_to_prop. rewrite !elem_of_cons. destruct L; bool_to_prop; auto.
  - intros p. unfold parse_ports. rewrite elem_of_list_to_set list_elem_of_omap.
    intros (x & _ & E). by apply parse_int_range in E.
  - intros u ->. by eapply parsePlatformPublicOrigin_shape.
Qed.

(** When the key cannot be downloaded the operator is told that the key has a wrong
    size: the error of the download is lost. *)
Theorem download_error_masked addr sent sent' e :
  downloadKey exchange addr sent = (sent', Err e) -> addr <> "" ->
  config_key pem_decode parse_pkix open_file exchange "" "" addr sent =
    (sent', Err "JWT public key must contain between 1 and 1048576 bytes").
Proof.
  intros H N. unfold config_key. simpl. rewrite bool_decide_eq_false_2 //. simpl. by rewrite H.
Qed.
End ConfigProps.

(** Flags given on the command line win over the environment, which wins over the
    defaults: after a successful [applyEnvironmentToUnsetFlags] every flag has the
    value the command line gave it, or else the parsed value of its non-empty
    variable, or else its default; and it only fails on a variable that cannot be
    parsed. *)
Theorem flag_precedence getenv fs prefix :
  match applyEnvironmentToUnsetFlags getenv fs prefix with
  | Ok fs' => forall name v, formal fs !! name = Some v ->
      formal fs' !! name =
        if bool_decide (name ∈ actual fs) then Some v
        else if bool_decide (getenv (env_key prefix name) = "") then Some v
        else value_set v (getenv (env_key prefix name))
  | Err _ => exists name v, formal fs !! name = Some v /\ (name ∉ actual fs) /\
      getenv (env_key prefix name) <> "" /\ value_set v (getenv (env_key prefix name)) = None
  end.
Proof.
  pose proof (apply_env_fold getenv prefix (actual fs) (visit_order fs) fs (visit_order_NoDup fs)
    (fun n => proj1 (visit_order_elem fs n))) as H. unfold applyEnvironmentToUnsetFlags.
  destruct (foldl _ _ _) as [fs'|e].
  - intros name v Hv. rewrite (H _ _ Hv) bool_decide_eq_true_2; [|apply visit_order_elem; eauto].
    unfold env_value. by repeat case_bool_decide.
  - destruct H as (n & v & _ & Hv & E). exists n, v. unfold env_value in E.
    repeat case_bool_decide; done.
Qed.

Section CertProps.
Context (exchange : list platform_request -> platform_request -> result string client_response)
  (zip_reader : string -> result string (list zip_file)).

Lemma downloads_same_host accessKey secretKey addr :
  sends_only (fun q => exists base, controlPlatformBaseURL addr = Ok base /\ same_host base q /\
                pq_BasicAuth q = None)
    (downloadKey exchange addr) /\
  sends_only (fun q => exists base, controlPlatformBaseURL addr = Ok base /\ same_host base q /\
                pq_BasicAuth q = Some (accessKey, secretKey))
    (downloadCert exchange zip_reader accessKey secretKey addr).
Proof.
  assert (forall base target k s max, controlPlatformBaseURL addr = Ok base ->
    sends_only (fun q => exists base, controlPlatformBaseURL addr = Ok base /\ same_host base q /\
        pq_BasicAuth q = (if bool_decide (k = "") && bool_decide (s = "") then None else Some (k, s)))
      (getPlatformResource exchange base target k s max)) as G.
  { intros base target k s max Hb sent.
    destruct (getPlatformResource_sends exchange base target k s max sent)
      as (new & E & F). exists new. split; [done|]. eapply Forall_impl; [done|]. naive_solver. }
  split.
  - apply sends_only_bind_lift. intros base Hb. apply sends_only_bind; [|auto with proxy].
    apply sends_only_wrap. by apply (G base _ "" "").
  - unfold downloadCert. destruct (_ || _) eqn:N; [apply sends_only_fail|]. bool_to_prop.
    assert (forall base target max, controlPlatformBaseURL addr = Ok base ->
      sends_only (fun q => exists base, controlPlatformBaseURL addr = Ok base /\ same_host base q /\
          pq_BasicAuth q = Some (accessKey, secretKey))
        (getPlatformResource exchange base target accessKey secretKey max)) as K.
    { intros base target max Hb. pose proof (G base target accessKey secretKey max Hb) as K.
      by rewrite bool_decide_eq_false_2 in K. }
    apply sends_only_bind_lift. intros base Hb. apply sends_only_bind.
    { apply sends_only_bind; [by apply sends_only_wrap, K|]. intros [body h].
      apply sends_only_bind; [|intros b; by destruct (decode_schemas b); auto with proxy].
      case_bool_decide; [auto with proxy|]. apply sends_only_bind; [auto with proxy|]. intros u.
      case_bool_decide; [auto with proxy|].
      apply sends_only_bind; [by apply sends_only_wrap, K|auto with proxy]. }
    intros coll. apply sends_only_bind; [by apply sends_only_wrap, K|]. intros reply.
    destruct (decode_credentials (fst reply)) as [[|links l]|]; [auto with proxy| |auto with proxy].
    case_bool_decide; [auto with proxy|]. apply sends_only_bind; [auto with proxy|]. intros u.
    apply sends_only_bind; [by apply sends_only_wrap, K|auto with proxy].
Qed.

(** Whatever the control platform answers (advertised schema, collection and
    certificate addresses included), the key and certificate downloads send
    requests only to the host and port of the configured address, over http or
    https, without credentials in the URL; the key is asked for anonymously, and
    the access key is sent to nobody else. *)
Theorem platform_requests_same_host accessKey secretKey addr :
  sends_only (fun q => exists base, controlPlatformBaseURL addr = Ok base /\ same_host base q /\
                pq_BasicAuth q = None)
    (downloadKey exchange addr) /\
  sends_only (fun q => exists base, controlPlatformBaseURL addr = Ok base /\ same_host base q /\
                pq_BasicAuth q = Some (accessKey, secretKey))
    (downloadCert exchange zip_reader accessKey secretKey addr).
Proof. apply downloads_same_host. Qed.

(** A certificate archive is accepted exactly when it has at most 16 entries and,
    for each of ca.pem, cert.pem and key.pem, exactly one entry of that name, which
    opens, reads completely and closes without error and has between 1 byte and
    2 MiB; and the result is the contents of those three entries. *)
Theorem certificate_archive_iff archive c :
  extractCertificateArchive zip_reader archive = Ok c <->
  exists files, zip_reader archive = Ok files /\ (length files <= 16)%nat /\
    forall n, n ∈ cert_names -> exists f, named n files = [f] /\ entry_ok f (cert_field n c).
Proof.
  unfold extractCertificateArchive. destruct (zip_reader archive) as [files|e]; [|split; [done|by intros (? & ? & _)]].
  destruct (16 <? length files)%nat eqn:L; [apply Nat.ltb_lt in L|apply Nat.ltb_ge in L].
  { split; [done|]. intros (? & [= <-] & ? & _). lia. }
  split.
  - intros ([found c'] & E & H)%bind_Ok. destruct (missing_entry _ _) eqn:M; [done|].
    apply Ok_inj in H. cbn [fst snd] in *. subst c'. exists files. split_and!; [done|done|]. intros n Hn.
    destruct (extract_entries_sound _ _ _ _ _ n E Hn) as [(_ & F & _)|(_ & _ & f & s & N & R & <-)].
    + rewrite -> missing_entry_None in M. specialize (M n Hn). set_solver.
    + exists f. split; [done|]. by apply read_entry_iff.
  - intros (? & [= <-] & _ & H).
    destruct (extract_entries_complete files ∅ (mkCerts "" "" "")) as (found & c' & E).
    { intros n Hn. right. split; [set_solver|]. destruct (H n Hn) as (f & N & O%read_entry_iff). eauto. }
    assert (forall n, n ∈ cert_names -> n ∈ found /\ cert_field n c' = cert_field n c) as S.
    { intros n Hn. destruct (H n Hn) as (f & N & O%read_entry_iff).
      destruct (extract_entries_sound _ _ _ _ _ n E Hn) as [(N' & _)|(_ & F & f' & s & N' & R & V)];
        rewrite N in N'; [done|]. injection N' as <-. split; [done|]. congruence. }
    rewrite E. cbn [mbind result_bind fst snd]. rewrite (proj2 (missing_entry_None _ _)); [|intros n Hn; by apply S].
    f_equal. apply certs_ext. intros n Hn. by apply S.
Qed.
End CertProps.

(** ** The requests of a configuration *)

Section ConfigRequests.
Context (getenv : string -> string) (pem_decode : string -> option string)
  (parse_pkix : string -> result string pkix_key) (open_file : string -> result string reader)
  (exchange : list platform_request -> platform_request -> result string client_response).

Lemma config_key_sends file contents addr :
  sends_only (fun q => exists base, controlPlatformBaseURL addr = Ok base /\ same_host base q /\
                pq_BasicAuth q = None)
    (config_key pem_decode parse_pkix open_file exchange file contents addr).
Proof.
  unfold config_key. case_bool_decide; simpl; [|auto with proxy]. case_bool_decide; simpl; [|auto with proxy].
  case_bool_decide; simpl; [auto with proxy|]. intros sent.
  destruct (proj1 (downloads_same_host exchange (fun _ => Err "") "" "" addr) sent) as (new & E & F).
  exists new. by destruct (downloadKey _ _ _).
Qed.

(** An accepted configuration was put together with requests to its own platform
    address only, without credentials, and its key is a strong RSA key. *)
Lemma GetConfig_Ok args sent sent' c :
  GetConfig getenv pem_decode parse_pkix open_file
    exchange args sent = (sent', Ok c) ->
  (exists n e, PublicKey c = RSAKey (Some n) e /\ minimumRSAKeyBits <= BitLen n) /\
  exists new, sent' = sent ++ new /\
    Forall (fun q => exists base, controlPlatformBaseURL (PlatformAddr c) = Ok base /\ same_host base q /\
              pq_BasicAuth q = None) new.
Proof.
  intros (fs0 & s0 & E0 & H)%comm_bind_Ok. apply comm_bind_Ok in H as (fs & s1 & E1 & H).
  injection E0 as -> _. injection E1 as -> _. cbv zeta in H. set (addr := if bool_decide _ then _ else _) in H.
  revert H. destruct (negb _ && _); [done|]. destruct (negb _ && _); [done|]. intros H.
  apply comm_bind_Ok in H as (k & s2 & K & H). apply comm_bind_Ok in H as (nets & s3 & E3 & H).
  apply comm_bind_Ok in H as (o & s4 & E4 & H). injection E3 as -> _. injection E4 as -> _. injection H as -> <-.
  split; [apply config_key_strong in K as [bytes K]; by apply publicKeyDecode_strong in K|].
  destruct (config_key_sends (flag_string fs "jwt-public-key-file") (flag_string fs "jwt-public-key-contents") addr s1)
    as (new & E & F). rewrite K in E. simpl in E. subst. exists new. done.
Qed.
End ConfigRequests.

(** ** Witnesses *)

Module ConfigDemo.
Definition getenv (name : string) : string :=
  if bool_decide (name = "PROXY_LOCALE") then "zh-TW"
  else if bool_decide (name = "PROXY_LISTEN_ADDRESS") then ":9090" else "".
Definition pkix (block : string) : result string pkix_key := Ok (RSAKey (Some (2 ^ 2047)) 65537).

Definition args : list (string * string) :=
  [("jwt-public-key-contents", "KEY"); ("https-proxy-protocol-ports", "443,x,8443"); ("listen-address", ":80");
   ("platform-public-origin", "https://platform.example/"); ("trusted-proxy-cidrs", "10.0.0.0/8, ")].

Definition no_exchange (sent : list platform_request) (q : platform_request) : result string client_response :=
  Err "connection refused".

Definition run : list platform_request * result string Config :=
  GetConfig getenv Some pkix (fun _ => Err "no such file")  no_exchange args [].

(** A platform: the schemas, the credential, and the archive. *)
Definition schemas (collection : string) : json :=
  JObject [("type", JString "collection");
           ("data", JArray [JObject [("id", JString "host")];
                            JObject [("id", JString "credential"); ("links", JObject [("collection", JString collection)])]])].
Definition credentials : json :=
  JObject [("data", JArray [JObject [("links", JObject [("certificate", JString "https://platform:8080/cert")])]])].
Definition exchange (collection : string) (sent : list platform_request) (q : platform_request)
  : result string client_response :=
  Ok (mkResp 200 ∅ (mkReader (if bool_decide (Path (pq_URL q) = "/v1/schemas") then json_print (schemas collection)
                               else if bool_decide (Path (pq_URL q) = "/creds") then json_print credentials else "zip") None)).
Definition entry (name contents : string) : zip_file :=
  mkZip name (go_len contents) (Ok (mkReader contents None)) None.
Definition zip (archive : string) : result string (list zip_file) :=
  Ok [entry "readme" ""; entry "key.pem" "K"; entry "ca.pem" "A"; entry "cert.pem" "C"].
Definition download (collection : string) : list platform_request * result string Certs :=
  downloadCert (exchange collection) zip
    "access" "secret" "platform:8080" [].
End ConfigDemo.
Import ConfigDemo.

(** The flag wins over the environment, the environment over the default. *)
Example config_runs :
  match run with
  | (_, Ok c) => Locale c = "zh-TW" /\ ListenAddr c = ":80" /\ TrustedProxyCIDRs c = [mkIPNet [10; 0; 0; 0] [255; 0; 0; 0]] /\
      ProxyProtoHTTPSPorts c = {[443; 8443]}
  | _ => False
  end.
Proof. vm_compute. by split_and!. Qed.

Lemma config_well_typed_witness :
  match snd run with
  | Ok c => exists bits, jwt_key (PublicKey c) = RSAPublicKey bits /\ 2048 <= bits
  | Err _ => False
  end.
Proof.
  destruct run as [sent' [c|e]] eqn:E; [|by vm_compute in E].
  destruct (config_well_typed getenv Some pkix (fun _ => Err "no such file") 
    no_exchange args [] sent' c E) as [(bits & K & L & _) _].
  exists bits. exact (conj K L).
Defined.

(** The archive is fetched with three requests; a credential collection on another
    host is refused before it is asked. *)
Example download_runs :
  snd (download "/creds") = Ok (mkCerts "A" "C" "K") /\
  (Host ∘ pq_URL) <$> fst (download "/creds") = ["platform:8080"; "platform:8080"; "platform:8080"].
Proof. by vm_compute. Qed.

Example download_other_host_refused :
  is_Ok (snd (download "http://evil/creds")) = false /\
  (Host ∘ pq_URL) <$> fst (download "http://evil/creds") = ["platform:8080"].
Proof. by vm_compute. Qed.

Lemma download_error_masked_witness :
  snd (config_key Some pkix (fun _ => Err "no such file") no_exchange "" "" "platform" []) =
  Err "JWT public key must contain between 1 and 1048576 bytes".
Proof.
  destruct (downloadKey no_exchange "platform" []) as [sent' [b|e]] eqn:E; [by vm_compute in E|].
  by rewrite (download_error_masked Some pkix (fun _ => Err "no such file")
    no_exchange "platform" [] sent' e E).
Defined.
