(* ===== verification/Mux.v ===== *)
(** * The request router

    What the program uses of [gorilla/mux] ([src/vendor/github.com/gorilla/mux]):
    routes with method and path matchers, tried in order, the distinction between a
    method mismatch and no match, and the redirect to a clean path.  How a path
    template matches a path is a parameter of the section. *)

From S2P Require Import Prelude GoString GoUrl.

(** ** Clean paths *)

(** [cleanPath] of the router. *)
Definition mux_cleanPath (p : string) : string :=
  if bool_decide (p = "") then "/"
  else let p := if has_prefix p "/" then p else "/" +:+ p in
       let np := path_Clean p in
       if has_suffix p "/" && negb (bool_decide (np = "/")) then np +:+ "/" else np.

Example clean_dots : mux_cleanPath "/a/../b/./c/" = "/b/c/" /\ mux_cleanPath "/.." = "/" /\ mux_cleanPath "a" = "/a".
Proof. by vm_compute. Qed.

(** ** Routes *)

Inductive matcher := MethodMatcher (methods : list string) | PathMatcher (template : string).

(** A route: its matchers in the order they were added, its path template, and its
    handler. *)
Record route {H : Type} := mkRoute { rt_Matchers : list matcher; rt_Path : string; rt_Handler : H }.
Arguments route : clear implicits.

Inductive mux_match {H : Type} := MatchedRoute (rt : route H) | MethodMismatch | NotFound.
Arguments mux_match : clear implicits.

Section Mux.
Context {H : Type} (template_ok : string -> bool) (path_match : string -> string -> bool).
Implicit Types (rt : route H) (l : list (route H)).

Definition matches (m : matcher) (method path : string) : bool :=
  match m with
  | MethodMatcher methods => bool_decide (method ∈ methods)
  | PathMatcher template => path_match template path
  end.

(** The loop of [Route.Match]: [mismatch] is whether [match.MatchErr] is
    [ErrMethodMismatch], [matchErr] the local variable. *)
Fixpoint match_loop (ms : list matcher) (method path : string) (mismatch matchErr : bool) : bool * bool :=
  match ms with
  | [] => if matchErr then (false, true) else (true, false)
  | m :: ms =>
      if matches m method path then match_loop ms method path false matchErr
      else match m with
           | MethodMatcher _ => match_loop ms method path mismatch true
           | PathMatcher _ => (false, mismatch)
           end
  end.

(** [Route.Match]; a route whose template does not compile never matches. *)
Definition route_Match rt (method path : string) (mismatch : bool) : bool * bool :=
  if negb (template_ok (rt_Path rt)) then (false, mismatch)
  else match_loop (rt_Matchers rt) method path mismatch false.

(** [Router.Match], for a router without a handler of its own for mismatches. *)
Fixpoint router_Match l (method path : string) (mismatch : bool) : mux_match H :=
  match l with
  | [] => if mismatch then MethodMismatch else NotFound
  | rt :: l =>
      let '(ok, mismatch) := route_Match rt method path mismatch in
      if ok then MatchedRoute rt else router_Match l method path mismatch
  end.

(** ** Lemmas *)

Definition route_matches rt (method path : string) : bool :=
  template_ok (rt_Path rt) && forallb (fun m => matches m method path) (rt_Matchers rt).

Lemma match_loop_fst ms method path mm err :
  fst (match_loop ms method path mm err) = negb err && forallb (fun m => matches m method path) ms.
Proof.
  revert mm err. induction ms as [|m ms IH]; intros mm err; simpl; [by destruct err|].
  destruct (matches m method path); [apply IH|]. simpl. rewrite andb_false_r.
  destruct m; [rewrite IH|]; done.
Qed.

Lemma route_Match_fst rt method path mm : fst (route_Match rt method path mm) = route_matches rt method path.
Proof. unfold route_Match, route_matches. destruct (template_ok _); [|done]. apply match_loop_fst. Qed.

(** The first route that matches is taken. *)
Lemma router_Match_spec l method path mm :
  match router_Match l method path mm with
  | MatchedRoute rt => exists l1 l2, l = l1 ++ rt :: l2 /\ route_matches rt method path = true /\
      forall r, r ∈ l1 -> route_matches r method path = false
  | _ => forall rt, rt ∈ l -> route_matches rt method path = false
  end.
Proof.
  revert mm. induction l as [|rt l IH]; intros mm; simpl.
  { by destruct mm; intros ? ?%elem_of_nil. }
  pose proof (route_Match_fst rt method path mm) as E. destruct (route_Match rt method path mm) as [ok mm'].
  simpl in E. subst ok. destruct (route_matches rt method path) eqn:M.
  { exists [], l. split_and!; [done|done|]. by intros ? ?%elem_of_nil. }
  specialize (IH mm'). destruct (router_Match l method path mm') as [rt'| |].
  - destruct IH as (l1 & l2 & -> & ? & N). exists (rt :: l1), l2. split_and!; [done|done|].
    intros r. rewrite elem_of_cons. intros [->|]; auto.
  - intros r. rewrite elem_of_cons. intros [->|]; auto.
  - intros r. rewrite elem_of_cons. intros [->|]; auto.
Qed.

Lemma router_Match_skip rt l method path mm :
  route_matches rt method path = false ->
  exists mm', router_Match (rt :: l) method path mm = router_Match l method path mm'.
Proof.
  intros M. simpl. pose proof (route_Match_fst rt method path mm) as E.
  destruct (route_Match rt method path mm) as [ok mm']. simpl in E. subst ok. rewrite M. by exists mm'.
Qed.

Lemma router_Match_take rt l method path mm :
  route_matches rt method path = true -> router_Match (rt :: l) method path mm = MatchedRoute rt.
Proof.
  intros M. simpl. pose proof (route_Match_fst rt method path mm) as E.
  destruct (route_Match rt method path mm) as [ok mm']. simpl in E. by rewrite E M.
Qed.

(** When the last route matches, some route is taken. *)
Lemma router_Match_last l rt method path mm :
  route_matches rt method path = true -> exists rt', router_Match (l ++ [rt]) method path mm = MatchedRoute rt'.
Proof.
  intros M. pose proof (router_Match_spec (l ++ [rt]) method path mm) as S.
  destruct (router_Match _ _ _ _) as [rt'| |]; [by exists rt'|..];
    (rewrite (S rt) in M; [done|]; apply elem_of_app; right; left).
Qed.
End Mux.
