(* ===== verification/Filters.v ===== *)
(** * Filters of API requests

    Models [proxy/apiinterceptor/model] and [proxy/apiinterceptor/filters]: the
    data passed to a filter, the interface of filters, the filter that asks an HTTP
    endpoint ([filters/http]) and the filter that validates the caller's token
    against the control platform ([filters/auth]).

    A filter runs in the monad [comm] of [Http]: its state is the list of the
    requests it sent.  The exchange with the servers is a parameter. *)

From S2P Require Import Prelude GoString GoHash GoNet GoUrl GoCookie GoJson Message Delegation Capability Http.

(** ** Data *)

Definition SignatureHeader : string := "X-API-Auth-Signature".

Record FilterData := mkFilterData {
  fd_Type : string; fd_Endpoint : string; fd_SecretToken : string;
  fd_Methods : list string; fd_Paths : list string; fd_Timeout : string }.

#[export] Instance FilterData_eq_dec : EqDecision FilterData.
Proof. solve_decision. Defined.

(** A [map[string][]string]: unlike in an [http.Header], names are not
    canonicalised. *)
Abbreviation raw_header := (gmap string (list string)).

(** [None] is a nil map. *)
Record APIRequestData := mkData {
  ad_Headers : option raw_header; ad_Body : option object; ad_UUID : string; ad_APIPath : string;
  ad_APIMethod : string; ad_EnvID : string; ad_Status : Z; ad_Message : string }.

Definition empty_data : APIRequestData := mkData None None "" "" "" "" 0 "".
Definition set_status (z : Z) (d : APIRequestData) : APIRequestData :=
  mkData (ad_Headers d) (ad_Body d) (ad_UUID d) (ad_APIPath d) (ad_APIMethod d) (ad_EnvID d) z (ad_Message d).

(** The data as JSON: the fields in order, the empty ones left out.  It is an error
    if a number of the body has no JSON form. *)
Definition marshal_data (d : APIRequestData) : option string :=
  body ← any_json (AObject (default ∅ (ad_Body d)));
  Some (json_print (JObject (
    omitempty "headers" (bool_decide (default ∅ (ad_Headers d) = ∅)) (header_json (default ∅ (ad_Headers d)))
    ++ omitempty "body" (bool_decide (default ∅ (ad_Body d) = ∅)) body
    ++ omitempty "UUID" (bool_decide (ad_UUID d = "")) (JString (ad_UUID d))
    ++ omitempty "APIPath" (bool_decide (ad_APIPath d = "")) (JString (ad_APIPath d))
    ++ omitempty "APIMethod" (bool_decide (ad_APIMethod d = "")) (JString (ad_APIMethod d))
    ++ omitempty "envID" (bool_decide (ad_EnvID d = "")) (JString (ad_EnvID d))
    ++ omitempty "status" (bool_decide (ad_Status d = 0)) (JNumber (itoa (ad_Status d)))
    ++ omitempty "message" (bool_decide (ad_Message d = "")) (JString (ad_Message d))))).
Definition set_data_headers (j : json) (old : option raw_header) : option (option raw_header) :=
  match j with JNull => Some None | _ => Some <$> set_headers j (default ∅ old) end.
Definition set_data (d : APIRequestData) (key : string) (j : json) : option APIRequestData :=
  let '(mkData headers body uuid path method env status message) := d in
  if field_is "headers" key then (fun x => mkData x body uuid path method env status message) <$> set_data_headers j headers
  else if field_is "body" key then (fun x => mkData headers x uuid path method env status message) <$> json_set_object float_number j body
  else if field_is "UUID" key then (fun x => mkData headers body x path method env status message) <$> json_set_string j uuid
  else if field_is "APIPath" key then (fun x => mkData headers body uuid x method env status message) <$> json_set_string j path
  else if field_is "APIMethod" key then (fun x => mkData headers body uuid path x env status message) <$> json_set_string j method
  else if field_is "envID" key then (fun x => mkData headers body uuid path method x status message) <$> json_set_string j env
  else if field_is "status" key then (fun x => mkData headers body uuid path method env x message) <$> json_set_int j status
  else if field_is "message" key then (fun x => mkData headers body uuid path method env status x) <$> json_set_string j message
  else Some d.
Definition unmarshal_data (s : string) : option APIRequestData := json_parse s ≫= json_struct set_data empty_data.

(** A request a filter sends. *)
Record out_request := mkOut {
  oq_Method : string; oq_URL : url; oq_Header : header;
  oq_Body : string; oq_Timeout : Z }.

(** The error of a filter, with the status of the data returned beside it. *)
Definition filter_error : Type := Z * string.

(** The interface [APIFilter]. *)
Record APIFilter := mkFilter {
  GetType : string;
  ProcessFilter : FilterData -> APIRequestData -> comm out_request filter_error APIRequestData }.

(** [SignString]: base64 with the URL alphabet of the HMAC. *)
Definition b64_url (s : string) : string :=
  smap (fun c => if bool_decide (c = "+"%char) then "-"%char
                 else if bool_decide (c = "/"%char) then "_"%char else c) (b64_encode (bytes_of s)).
Definition SignString (stringToSign sharedSecret : string) : string :=
  b64_url (hmac_sha512 sharedSecret stringToSign).

(** ** The HTTP filter *)

Definition httpInterceptorType : string := "http".
Definition maxFilterResponseBodyBytes : Z := Z.shiftl 4 20.
Definition maxFilterRequestBodyBytes : Z := Z.shiftl 5 20.
Definition defaultFilterTimeout : Z := 15.
Definition maximumFilterTimeout : Z := 120.

Section HTTPFilter.
Context (exchange : list out_request -> out_request -> result string client_response).

Definition validFilterEndpoint (raw : string) : result string url :=
  match url_parse raw with
  | None => Err "invalid API filter endpoint"
  | Some endpoint =>
      if negb (bool_decide (Scheme endpoint = "http")) && negb (bool_decide (Scheme endpoint = "https"))
         || bool_decide (Host endpoint = "") || HasUser endpoint || negb (bool_decide (Fragment endpoint = ""))
      then Err "API filter endpoint must be HTTP(S), include a host, and contain no credentials or fragment"
      else Ok endpoint
  end.

(** The timeout in seconds. *)
Definition filter_timeout (raw : string) : Z :=
  if bool_decide (raw = "0") || bool_decide (raw = "") then defaultFilterTimeout
  else match parse_int raw with
       | Some parsed => if (0 <? parsed) && (parsed <=? maximumFilterTimeout) then parsed else defaultFilterTimeout
       | None => defaultFilterTimeout
       end.

Definition filter_client_Do (q : out_request) : comm out_request filter_error client_response := fun sent =>
  (sent ++ [q], match exchange sent q with Ok r => Ok r | Err e => Err (0, e) end).

Definition GenericHTTPFilter_ProcessFilter (filter : FilterData) (input : APIRequestData)
  : comm out_request filter_error APIRequestData :=
  match marshal_data input with
  | None => fail (0, "json: unsupported value")
  | Some bodyContent =>
      if maxFilterRequestBodyBytes <? go_len bodyContent
      then fail (0, "API filter request exceeds " +:+ itoa maxFilterRequestBodyBytes +:+ " bytes")
      else
        endpoint ← map_error (pair 0) (lift (validFilterEndpoint (fd_Endpoint filter)));
        match NewRequestURL (url_string endpoint) with
        | None => fail (0, "invalid request URL")
        | Some target =>
            let h := if bool_decide (fd_SecretToken filter = "") then ∅
                     else header_set SignatureHeader (SignString bodyContent (fd_SecretToken filter)) ∅ in
            let h := header_set "Content-Length" (itoa (go_len bodyContent))
                       (header_set "Content-Type" "application/json" h) in
            resp ← filter_client_Do (mkOut "POST" target h bodyContent (filter_timeout (fd_Timeout filter)));
            byteContent ← map_error (pair 0) (lift (read_limited (maxFilterResponseBodyBytes + 1) (cr_Body resp)));
            if maxFilterResponseBodyBytes <? go_len byteContent
            then fail (0, "API filter response exceeds " +:+ itoa maxFilterResponseBodyBytes +:+ " bytes")
            else if 0 <? go_len byteContent
                 then match unmarshal_data byteContent with
                      | None => fail (0, "invalid API filter response")
                      | Some output => mret (set_status (cr_StatusCode resp) output)
                      end
                 else mret (set_status (cr_StatusCode resp) empty_data)
        end
  end.

Definition NewHTTPFilter : APIFilter := mkFilter httpInterceptorType GenericHTTPFilter_ProcessFilter.
End HTTPFilter.

(** ** The token filter *)

Definition tokenInterceptorType : string := "authTokenValidator".
Definition maxPlatformAuthResponseBytes : Z := Z.shiftl 2 20.
Definition maxPlatformCredentialBytes : Z := Z.shiftl 16 10.
Definition platformAuthRequestTimeout : Z := 10.

Inductive auth_error := ErrPlatformUnauthorized | ErrPlatformForbidden | AuthError (text : string).

Definition platformAuthErrorStatus (e : auth_error) : Z :=
  match e with ErrPlatformUnauthorized => 401 | ErrPlatformForbidden => 403 | AuthError _ => 502 end.
Definition auth_error_text (e : auth_error) : string :=
  match e with
  | ErrPlatformUnauthorized => "control-platform authentication failed"
  | ErrPlatformForbidden => "control-platform access forbidden"
  | AuthError text => text
  end.

Section TokenFilter.
Context (exchange : list out_request -> out_request -> result string client_response).

Definition validatedPlatformURL (addr : string) : result string string :=
  match url_parse ("http://" +:+ addr) with
  | None => Err "invalid control-platform address"
  | Some parsed =>
      if bool_decide (Host parsed = "") || HasUser parsed || negb (bool_decide (Path parsed = ""))
         || negb (bool_decide (RawQuery parsed = "")) || negb (bool_decide (Fragment parsed = ""))
      then Err "invalid control-platform address" else Ok (url_string parsed)
  end.

(** The empty token stands for its absence. *)
Definition exactTokenCookie (h : raw_header) : result string string :=
  match List.filter (fun c => bool_decide (ck_Name c = "token")) (readCookies (header_values h "Cookie")) with
  | [] => Ok ""
  | c :: _ =>
      let value := ck_Value c in
      if maxPlatformCredentialBytes <? go_len value
      then Err ("authentication cookie exceeds " +:+ itoa maxPlatformCredentialBytes +:+ " bytes") else Ok value
  end.

(** [performPlatformAuthRequest]: body, headers and status. *)
Definition performPlatformAuthRequest (q : out_request) : comm out_request string (string * header * Z) :=
  resp ← (fun sent => (sent ++ [q], exchange sent q));
  body ← lift (read_limited (maxPlatformAuthResponseBytes + 1) (cr_Body resp));
  if maxPlatformAuthResponseBytes <? go_len body
  then fail ("control-platform account response exceeds " +:+ itoa maxPlatformAuthResponseBytes +:+ " bytes")
  else mret (body, cr_Header resp, cr_StatusCode resp).

(** [AuthorizeData] and [MessageData] of an answer. *)
Definition decode_message (body : string) : option string :=
  json_parse body ≫= json_struct (fun m key j => if field_is "message" key then json_set_string j m else Some m) "".
Definition decode_data (body : string) : option (list any) :=
  json_parse body ≫= json_struct (fun data key j =>
    if field_is "data" key then json_slice (fun _ => json_any float_number) ANil j data else Some data) [].

Definition checkIfAuthorized (bodyText : string) : result auth_error () :=
  match decode_message bodyText with
  | None => Err (AuthError "can not read the reponse body")
  | Some message => if bool_decide (message = "Unauthorized") then Err ErrPlatformUnauthorized else Ok ()
  end.

(** The credentials of a request to the platform: the cookie, or else the
    [Authorization] headers of the caller. *)
Definition auth_request (u : url) (token : string) (authHeaders : list string) : out_request :=
  if bool_decide (token = "")
  then mkOut "GET" u {["Authorization" := authHeaders]} "" platformAuthRequestTimeout
  else mkOut "GET" u (header_add_cookie (mkCookie "token" token false) ∅) "" platformAuthRequestTimeout.

(** The part [getAccountAndProject] and [getAccountID] share: the request and the
    checks of its answer. *)
Definition account_request (requestURL : string) (token : string) (authHeaders : list string)
  (invalid unreachable : string) : comm out_request auth_error (string * header) :=
  match NewRequestURL requestURL with
  | None => fail (AuthError invalid)
  | Some u =>
      reply ← map_error (fun _ => AuthError unreachable)
                (performPlatformAuthRequest (auth_request u token authHeaders));
      let '(bodyText, headers, status) := reply in
      if status =? 401 then fail ErrPlatformUnauthorized
      else if status =? 403 then fail ErrPlatformForbidden
      else if (status <? 200) || (300 <=? status)
      then fail (AuthError ("control-platform account request returned HTTP " +:+ itoa status))
      else _ ← lift (checkIfAuthorized bodyText); mret (bodyText, headers)
  end.

(** [(project, account, kind, name)] *)
Definition getAccountAndProject (host envid token : string) (authHeaders : list string)
  : comm out_request auth_error (string * string * string * string) :=
  reply ← account_request (host +:+ "/v2-beta/projects/" +:+ PathEscape envid +:+ "/accounts") token authHeaders
            "cannot connect to the control-platform server; check the platform server URL"
            "cannot connect to the control-platform server; check the platform server URL";
  let headers := snd reply in
  let projectid := header_get headers "X-Api-Account-Id" in
  let userid := header_get headers "X-Api-User-Id" in
  if bool_decide (projectid = "") || bool_decide (userid = "")
  then fail (AuthError "token is forbidden to access the projectid")
  else mret (projectid, userid, header_get headers "X-Api-Account-Kind", header_get headers "X-Api-Account-Name").

(** [v == "" || v == nil] *)
Definition missing (v : any) : bool := bool_decide (v = AString "") || bool_decide (v = ANil).

(** The loop of [getAccountID] over the accounts: an administrator at once, or else
    the last one. *)
Fixpoint pick_account (data : list any) (acc : string * string * string)
  : result auth_error (string * string * string) :=
  match data with
  | [] => Ok acc
  | v :: data =>
      match as_object v with
      | None => pick_account data acc
      | Some idData =>
          if missing (field idData "id") then Err (AuthError "can not extract user id")
          else if missing (field idData "kind") then Err (AuthError "can not extract user kind")
          else match as_string (field idData "id"), as_string (field idData "kind") with
               | Some id, Some kind =>
                   let account := (id, kind, default "" (as_string (field idData "name"))) in
                   if bool_decide (kind = "admin") then Ok account else pick_account data account
               | _, _ => Err (AuthError "can not extract accounts from account api")
               end
      end
  end.

(** [(account, kind, name)] *)
Definition getAccountID (host token : string) (authHeaders : list string)
  : comm out_request auth_error (string * string * string) :=
  reply ← account_request (host +:+ "/v2-beta/accounts") token authHeaders
            "can not get the account api" "cannot connect to the control-platform server";
  match decode_data (fst reply) with
  | None => fail (AuthError "can not extract accounts JSON")
  | Some data => lift (pick_account data ("", "", ""))
  end.

(** The headers a validated request is given. *)
Definition identity_headers (requestHeader : raw_header) (projectID accountID kind name : string) : raw_header :=
  let h := <["X-API-Account-Kind" := [kind]]> (<["X-API-Account-Id" := [accountID]]> requestHeader) in
  let h := if bool_decide (projectID = "") then h else <["X-API-Project-Id" := [projectID]]> h in
  if bool_decide (name = "") then h else <["X-API-Account-Name" := [name]]> h.

Definition with_auth_status {A} (text : string) (m : comm out_request auth_error A)
  : comm out_request filter_error A :=
  map_error (fun e => (platformAuthErrorStatus e, text +:+ auth_error_text e)) m.

Definition TokenValidationFilter_ProcessFilter (platformURL : string) (filter : FilterData) (input : APIRequestData)
  : comm out_request filter_error APIRequestData :=
  let envid := ad_EnvID input in
  let requestHeaders := default ∅ (ad_Headers input) in
  let authHeader := header_values requestHeaders "Authorization" in
  match exactTokenCookie requestHeaders with
  | Err e => fail (400, e)
  | Ok tokenValue =>
      if bool_decide (tokenValue = "") && bool_decide (authHeader = [])
      then mret (set_status 200 empty_data)
      else if existsb (fun value => maxPlatformCredentialBytes <? go_len value) authHeader
      then fail (400, "authorization credential exceeds " +:+ itoa maxPlatformCredentialBytes +:+ " bytes")
      else
        let answer projectID accountID kind name :=
          mret (mkData (Some (identity_headers requestHeaders projectID accountID kind name)) None "" "" "" "" 200 "") in
        if negb (bool_decide (envid = "")) then
          ids ← with_auth_status "error getting the accountid and projectid: "
                  (getAccountAndProject platformURL envid tokenValue authHeader);
          let '(projectID, accountID, kind, name) := ids in
          if bool_decide (accountID = "") || bool_decide (projectID = "")
          then fail (403, "token or Auth keys forbidden to access the projectid")
          else answer projectID accountID kind name
        else
          ids ← with_auth_status "error getting the accountid : "
                  (getAccountID platformURL tokenValue authHeader);
          let '(accountID, kind, name) := ids in
          if bool_decide (accountID = "")
          then fail (403, "token or Auth keys forbidden to access the account")
          else answer "" accountID kind name
  end.

(** [NewFilter] of [filters/auth]: the address comes from the environment. *)
Definition platform_address (getenv : string -> string) : string :=
  if negb (bool_decide (getenv "PROXY_PLATFORM_ADDRESS" = "")) then getenv "PROXY_PLATFORM_ADDRESS"
  else if negb (bool_decide (getenv "PROXY_CATTLE_ADDRESS" = "")) then getenv "PROXY_CATTLE_ADDRESS"
  else "localhost:8081".

Definition NewTokenFilter (getenv : string -> string) : result string APIFilter :=
  platformURL ← validatedPlatformURL (platform_address getenv);
  Ok (mkFilter tokenInterceptorType (TokenValidationFilter_ProcessFilter platformURL)).
End TokenFilter.

(** ** Properties of the HTTP filter *)

Section HTTPFilterProps.
Context (exchange : list out_request -> out_request -> result string client_response).

Lemma filter_timeout_range raw : 1 <= filter_timeout raw <= 120.
Proof.
  unfold filter_timeout, defaultFilterTimeout, maximumFilterTimeout. destruct (_ || _); [lia|].
  destruct (parse_int raw); [|lia]. destruct (_ && _) eqn:E; [|lia]. bool_to_prop. lia.
Qed.

(** A request the filter may send on behalf of [input]. *)
Definition filter_request_ok (filter : FilterData) (input : APIRequestData) (q : out_request) : Prop :=
  oq_Method q = "POST" /\ marshal_data input = Some (oq_Body q) /\ go_len (oq_Body q) <= 5 * 2 ^ 20 /\
  1 <= oq_Timeout q <= 120 /\
  (exists endpoint, url_parse (fd_Endpoint filter) = Some endpoint /\
     (Scheme endpoint = "http" \/ Scheme endpoint = "https") /\ Host endpoint <> "" /\ HasUser endpoint = false /\
     NewRequestURL (url_string endpoint) = Some (oq_URL q)) /\
  header_values (oq_Header q) SignatureHeader =
    (if bool_decide (fd_SecretToken filter = "") then []
     else [SignString (oq_Body q) (fd_SecretToken filter)]).

Ltac not_sent := intros [= <- <-]; split; [by left|done].
Ltac failed q := intros [= <- <-]; split; [right; by exists q|done].

(** A filter endpoint is sent at most one request per call: a POST of at most
    5 MiB with exactly the encoded data, to the configured http(s) endpoint, with a
    timeout between 1 and 120 seconds whatever the configuration says, and signed
    with the shared secret if there is one; and what is passed on was read from
    an answer of at most 4 MiB and carries its status. *)
Theorem http_filter_bounded filter input sent sent' r :
  GenericHTTPFilter_ProcessFilter exchange filter input sent
    = (sent', r) ->
  (sent' = sent \/ exists q, sent' = sent ++ [q] /\ filter_request_ok filter input q) /\
  (forall output, r = Ok output -> exists q resp body, sent' = sent ++ [q] /\ exchange sent q = Ok resp /\
     ad_Status output = cr_StatusCode resp /\ cr_Body resp = mkReader body None /\ go_len body <= 4 * 2 ^ 20 /\
     output = set_status (cr_StatusCode resp) (if bool_decide (body = "") then empty_data
                                               else default empty_data (unmarshal_data body)) /\
     (body <> "" -> is_Some (unmarshal_data body))).
Proof.
  unfold GenericHTTPFilter_ProcessFilter, fail, lift, map_error, mret, comm_ret, mbind, comm_bind.
  destruct (marshal_data input) as [content|] eqn:M; [|not_sent].
  destruct (_ <? go_len content) eqn:L; [not_sent|]. bool_to_prop.
  unfold validFilterEndpoint. destruct (url_parse (fd_Endpoint filter)) as [endpoint|] eqn:Ep; [|not_sent].
  destruct (_ || _) eqn:G; [not_sent|].
  destruct (NewRequestURL (url_string endpoint)) as [target|] eqn:Et; [|not_sent].
  set (h := header_set "Content-Length" _ _).
  set (q := mkOut "POST" target h content (filter_timeout (fd_Timeout filter))).
  assert (filter_request_ok filter input q) as Q.
  { split_and!; simpl; try done; [apply filter_timeout_range..| |].
    - exists endpoint. bool_to_prop. split_and!; try done. destruct H; bool_to_prop; auto.
    - unfold h. rewrite header_values_set_ne // header_values_set_ne //.
      destruct (bool_decide (fd_SecretToken filter = "")); [done|].
      unfold header_values, header_set. by rewrite lookup_insert_eq. }
  unfold filter_client_Do. destruct (exchange sent q) as [resp|e] eqn:X;
    [|failed q].
  destruct (read_limited _ (cr_Body resp)) as [body|e] eqn:R;
    [|failed q].
  destruct (_ <? go_len body) eqn:Lb; [failed q|]. bool_to_prop.
  destruct (read_limited_within maxFilterResponseBodyBytes (cr_Body resp) body) as [Eb En]; [done|done|lia|].
  assert (cr_Body resp = mkReader body None) as Er by (destruct (cr_Body resp); simpl in *; by subst).
  destruct (0 <? go_len body) eqn:P; bool_to_prop.
  - assert (body <> "") as Nb by (intros ->; by vm_compute in P).
    destruct (unmarshal_data body) as [output|] eqn:U; intros [= <- <-]; (split; [right; by exists q|]); [|done].
    intros o [= <-]. exists q, resp, body. rewrite bool_decide_eq_false_2 // U. by split_and!.
  - intros [= <- <-]. split; [right; by exists q|]. intros o [= <-]. exists q, resp, body.
    assert (body = "") as -> by (apply go_len_0; pose proof (go_len_nonneg body); lia). by split_and!.
Qed.
End HTTPFilterProps.

(** ** Properties of the token filter *)

Section TokenFilterProps.
Context (exchange : list out_request -> out_request -> result string client_response).

Abbreviation account_request := (account_request exchange).
Abbreviation getAccountAndProject := (getAccountAndProject exchange).
Abbreviation getAccountID := (getAccountID exchange).
Abbreviation process :=
  (TokenValidationFilter_ProcessFilter exchange).

(** The platform's answer to a request for [requestURL] with the given
    credentials, if it is a success of at most 2 MiB. *)
Definition platform_answer (requestURL token : string) (authHeaders : list string)
  (sent sent' : list out_request) (body : string) (headers : header) : Prop :=
  exists u resp, NewRequestURL requestURL = Some u /\
    sent' = sent ++ [auth_request u token authHeaders] /\
    exchange sent (auth_request u token authHeaders) = Ok resp /\
    200 <= cr_StatusCode resp < 300 /\ cr_Body resp = mkReader body None /\ go_len body <= 2 * 2 ^ 20 /\
    cr_Header resp = headers.

Lemma account_request_sound requestURL token authHeaders invalid unreachable sent sent' body headers :
  account_request requestURL token authHeaders invalid unreachable sent = (sent', Ok (body, headers)) ->
  platform_answer requestURL token authHeaders sent sent' body headers.
Proof.
  unfold Filters.account_request. destruct (NewRequestURL requestURL) as [u|] eqn:U; [|done].
  set (q := auth_request u token authHeaders).
  unfold performPlatformAuthRequest, map_error, fail, lift, mret, comm_ret, mbind, comm_bind.
  destruct (exchange sent q) as [resp|] eqn:X; [|done].
  destruct (read_limited _ (cr_Body resp)) as [b|] eqn:R; [|done].
  destruct (_ <? go_len b) eqn:L; [done|]. bool_to_prop.
  destruct (read_limited_within maxPlatformAuthResponseBytes (cr_Body resp) b) as [-> E]; [done|done|lia|].
  destruct (_ =? 401); [done|]. destruct (_ =? 403); [done|]. destruct (_ || _) eqn:St; [done|]. bool_to_prop.
  destruct (checkIfAuthorized _); [|done]. intros [= <- <- <-]. exists u, resp.
  split_and!; try done. destruct (cr_Body resp). simpl in *. by subst.
Qed.

(** The account list names an account. *)
Definition account_in (data : list any) (id kind : string) : Prop :=
  exists m, AObject m ∈ data /\ field m "id" = AString id /\ field m "kind" = AString kind /\ id <> "".

Lemma pick_account_sound data acc id kind name :
  pick_account data acc = Ok (id, kind, name) -> acc = (id, kind, name) \/ account_in data id kind.
Proof.
  revert acc. induction data as [|v data IH]; intros acc; simpl; [intros [= ->]; by left|].
  assert (forall acc', pick_account data acc' = Ok (id, kind, name) ->
    acc' = (id, kind, name) \/ account_in (v :: data) id kind) as Tail.
  { intros acc' H. destruct (IH _ H) as [|(m & Hm & ?)]; [by left|]. right. exists m. split; [by right|done]. }
  destruct (as_object v) as [m|] eqn:V; [|apply Tail].
  assert (v = AObject m) as -> by (destruct v; simplify_eq/=; done).
  destruct (missing (field m "id")) eqn:Mi; [done|]. destruct (missing (field m "kind")); [done|].
  destruct (as_string (field m "id")) as [i|] eqn:Ei; [|done].
  destruct (as_string (field m "kind")) as [k|] eqn:Ek; [|done].
  assert (account_in (AObject m :: data) i k) as Here.
  { exists m. split; [left|]. destruct (field m "id"); simplify_eq/=. destruct (field m "kind"); simplify_eq/=.
    split_and!; [done..|]. by intros ->. }
  case_bool_decide; intros K.
  - apply Ok_inj in K. injection K as <- <- _. by right.
  - destruct (Tail _ K) as [[= <- <- _]|]; by right.
Qed.

Lemma getAccountID_sound host token authHeaders sent sent' id kind name :
  getAccountID host token authHeaders sent = (sent', Ok (id, kind, name)) -> id <> "" ->
  exists body headers data, platform_answer (host +:+ "/v2-beta/accounts") token authHeaders sent sent' body headers /\
    decode_data body = Some data /\ account_in data id kind.
Proof.
  intros ([body headers] & sent1 & A & H)%comm_bind_Ok N. apply account_request_sound in A. simpl in H.
  destruct (decode_data body) as [data|] eqn:D; [|done]. injection H as -> P.
  apply pick_account_sound in P as [[= <- _ _]|P]; [done|]. by exists body, headers, data.
Qed.

Lemma getAccountAndProject_sound host envid token authHeaders sent sent' project account kind name :
  getAccountAndProject host envid token authHeaders sent = (sent', Ok (project, account, kind, name)) ->
  exists body headers,
    platform_answer (host +:+ "/v2-beta/projects/" +:+ PathEscape envid +:+ "/accounts") token authHeaders
      sent sent' body headers /\
    header_get headers "X-Api-Account-Id" = project /\ header_get headers "X-Api-User-Id" = account /\
    header_get headers "X-Api-Account-Kind" = kind /\ header_get headers "X-Api-Account-Name" = name.
Proof.
  intros ([body headers] & sent1 & A & H)%comm_bind_Ok. apply account_request_sound in A. cbv zeta in H.
  revert H. destruct (_ || _); [done|]. intros [= -> <- <- <- <-]. by exists body, headers.
Qed.

Lemma map_error_Ok {Q E E' A} (f : E -> E') (m : comm Q E A) sent sent' a :
  map_error f m sent = (sent', Ok a) -> m sent = (sent', Ok a).
Proof. unfold map_error. by destruct (m sent) as [s1 [b|e]]; intros [= -> ->]. Qed.

Lemma identity_headers_spec h project account kind name k :
  identity_headers h project account kind name !! k =
    if bool_decide (k = "X-API-Account-Name" /\ name <> "") then Some [name]
    else if bool_decide (k = "X-API-Project-Id" /\ project <> "") then Some [project]
    else if bool_decide (k = "X-API-Account-Kind") then Some [kind]
    else if bool_decide (k = "X-API-Account-Id") then Some [account] else h !! k.
Proof.
  unfold identity_headers. repeat case_bool_decide; simplify_eq; rewrite ?lookup_insert; repeat case_decide; naive_solver.
Qed.

(** C24: The token filter vouches for a caller only on the platform's word.  If it
    accepts a request, either the caller sent neither a token cookie nor an
    [Authorization] header, and then nothing was asked and no header is set, or
    exactly one request went to the platform, with the caller's cookie (its
    [Authorization] headers only in its absence), and was answered with a success;
    and the account (and, for a project path, the project) it writes into the
    headers are those of that answer, and not empty. *)
Theorem token_filter_sound platformURL filter input sent sent' output :
  process platformURL filter input sent = (sent', Ok output) ->
  let h := default ∅ (ad_Headers input) in
  let auth := header_values h "Authorization" in
  ad_Status output = 200 /\
  exists token, exactTokenCookie h = Ok token /\
  ((token = "" /\ auth = [] /\ sent' = sent /\ output = set_status 200 empty_data) \/
   exists project account kind name body headers,
     ad_Headers output = Some (identity_headers h project account kind name) /\ account <> "" /\
     if bool_decide (ad_EnvID input = "")
     then project = "" /\
          platform_answer (platformURL +:+ "/v2-beta/accounts") token auth sent sent' body headers /\
          exists data, decode_data body = Some data /\ account_in data account kind
     else project <> "" /\
          platform_answer (platformURL +:+ "/v2-beta/projects/" +:+ PathEscape (ad_EnvID input) +:+ "/accounts")
            token auth sent sent' body headers /\
          header_get headers "X-Api-Account-Id" = project /\ header_get headers "X-Api-User-Id" = account).
Proof.
  unfold TokenValidationFilter_ProcessFilter. cbv zeta. set (h := default ∅ (ad_Headers input)).
  set (auth := header_values h "Authorization").
  destruct (exactTokenCookie h) as [token|] eqn:T; [|done].
  destruct (bool_decide (token = "") && bool_decide (auth = [])) eqn:C.
  { intros [= <- <-]. split; [done|]. exists token. bool_to_prop. split; [done|]. by left. }
  destruct (existsb _ auth); [done|]. destruct (bool_decide (ad_EnvID input = "")) eqn:Env; cbn [negb].
  - intros ([[account kind] name] & sent1 & A%map_error_Ok & H)%comm_bind_Ok. revert H.
    destruct (bool_decide (account = "")) eqn:N; [done|]. bool_to_prop. intros [= <- <-]. split; [done|]. exists token. split; [done|]. right.
    destruct (getAccountID_sound _ _ _ _ _ _ _ _ A N) as (body & headers & data & P & D & I).
    exists "", account, kind, name, body, headers. split_and!; eauto.
  - intros ([[[project account] kind] name] & sent1 & A%map_error_Ok & H)%comm_bind_Ok. revert H.
    destruct (bool_decide (account = "") || _) eqn:N; [done|]. bool_to_prop. intros [= <- <-]. split; [done|]. exists token. split; [done|]. right.
    destruct (getAccountAndProject_sound _ _ _ _ _ _ _ _ _ _ A) as (body & headers & P & E1 & E2 & _).
    exists project, account, kind, name, body, headers. by split_and!.
Qed.
End TokenFilterProps.

(** ** Witnesses *)

Module FilterDemo.

(** The endpoint accepts; the platform knows the user of project 1a7. *)
Definition exchange (sent : list out_request) (q : out_request) : result string client_response :=
  Ok (mkResp 200 {["X-Api-Account-Id" := ["1a7"]; "X-Api-User-Id" := ["1a5"]]} (mkReader "{}" None)).
Definition fd : FilterData := mkFilterData "http" "http://filter/check" "secret" ["GET"] [] "300".
Definition input : APIRequestData :=
  mkData (Some {["Cookie" := ["token=t"]; "Authorization" := ["Basic x"]]}) None "uuid" "/v1/projects/1a7/hosts" "GET" "1a7" 0 "".
Definition run_http :=
  GenericHTTPFilter_ProcessFilter exchange fd input [].
Definition run_token :=
  TokenValidationFilter_ProcessFilter exchange
    "http://platform" fd input [].
End FilterDemo.
Import FilterDemo.

(** The configured timeout of 300 seconds is out of range. *)
Lemma http_filter_bounded_witness :
  oq_Timeout <$> fst run_http = [15] /\
  exists q, fst run_http = [q] /\ filter_request_ok fd input q.
Proof.
  split; [by vm_compute|]. destruct run_http as [sent' r] eqn:E.
  destruct (http_filter_bounded exchange fd input
    [] sent' r E) as [[->|(q & -> & Q)] _]; [|exists q; split; [cbn [fst app]; reflexivity|exact Q]].
  assert (fst run_http <> []) as N by by vm_compute. rewrite E in N. destruct (N eq_refl).
Defined.

(** The cookie is used, the [Authorization] header is not. *)
Lemma token_filter_sound_witness :
  (fun q => header_values (oq_Header q) "Cookie") <$> fst run_token = [["token=t"]] /\
  match snd run_token with
  | Ok output => ad_Status output = 200 /\ ad_Headers output <> None
  | Err _ => False
  end.
Proof.
  split; [by vm_compute|]. assert (is_Ok (snd run_token) = true) as K by by vm_compute.
  destruct run_token as [sent' [output|e]] eqn:E; [|done].
  destruct (token_filter_sound exchange "http://platform"
    fd input [] sent' output E) as (S & token & T & [(T' & _)|(p & a & k & n & b & h & H & _)]).
  - rewrite T' in T. by vm_compute in T.
  - split; [exact S|]. by rewrite H.
Defined.
