(* ===== verification/Interceptor.v ===== *)
(** * The API interceptor

    Models [proxy/apiinterceptor]: the configuration file and the router built from
    it ([router_constructor.go]), the interception of a request ([interceptor.go])
    and the replacement of the router ([handler.go]).  Routes are those of [Mux].

    A request is answered, forwarded to a destination, or (for a reload) replaces
    the router; what the filters send is recorded by the monad [comm]. *)

From S2P Require Import Prelude GoString GoHash GoNet GoUrl GoCookie GoJson Message Delegation Capability Http Filters Mux.

(** ** Data *)

Definition maxInterceptorRequestBodyBytes : Z := Z.shiftl 4 20.
Definition maxAPIInterceptorConfigBytes : Z := Z.shiftl 4 20.

Record ProxyError := mkProxyError { pe_Status : string; pe_Message : string }.

Record destination := mkDestination { DestinationURL : string; Paths : list string }.
Record configFileFields := mkConfigFile {
  RequestInterceptors : list FilterData; Destinations : list destination }.

(** The configuration file as structs. *)
Definition set_filter_data (d : FilterData) (key : string) (j : json) : option FilterData :=
  let '(mkFilterData type endpoint secret methods paths timeout) := d in
  if field_is "type" key then (fun x => mkFilterData x endpoint secret methods paths timeout) <$> json_set_string j type
  else if field_is "endpoint" key then (fun x => mkFilterData type x secret methods paths timeout) <$> json_set_string j endpoint
  else if field_is "secretToken" key then (fun x => mkFilterData type endpoint x methods paths timeout) <$> json_set_string j secret
  else if field_is "methods" key then (fun x => mkFilterData type endpoint secret x paths timeout) <$> json_set_list j methods
  else if field_is "paths" key then (fun x => mkFilterData type endpoint secret methods x timeout) <$> json_set_list j paths
  else if field_is "timeout" key then (fun x => mkFilterData type endpoint secret methods paths x) <$> json_set_string j timeout
  else Some d.
Definition set_destination (d : destination) (key : string) (j : json) : option destination :=
  if field_is "DestinationURL" key then (fun x => mkDestination x (Paths d)) <$> json_set_string j (DestinationURL d)
  else if field_is "Paths" key then mkDestination (DestinationURL d) <$> json_set_list j (Paths d)
  else Some d.
Definition set_config_file (c : configFileFields) (key : string) (j : json) : option configFileFields :=
  if field_is "RequestInterceptors" key then
    (fun x => mkConfigFile x (Destinations c)) <$>
      json_slice (json_struct set_filter_data) (mkFilterData "" "" "" [] [] "") j (RequestInterceptors c)
  else if field_is "Destinations" key then
    mkConfigFile (RequestInterceptors c) <$> json_slice (json_struct set_destination) (mkDestination "" []) j (Destinations c)
  else Some c.
Definition decode_config (s : string) : option configFileFields := json_parse s ≫= json_struct set_config_file (mkConfigFile [] []).

(** Where a request goes: the reverse proxy to the platform, or the single-host
    reverse proxy [newProxy] built for a URL. *)
Inductive handler := ToPlatform | ToProxy (u : url).

#[export] Instance url_eq_dec : EqDecision url.
Proof. solve_decision. Defined.
#[export] Instance handler_eq_dec : EqDecision handler.
Proof. solve_decision. Defined.

(** Which method of the interceptor handles a route. *)
Inductive route_handler := Intercept | Reload.

Record interceptor := mkInterceptor {
  configFile : string;
  apiFilters : gmap string APIFilter;
  pathPreFilters : gmap string (list FilterData);
  pathDestinations : gmap string handler;
  routes : list (route route_handler) }.

(** ** Helpers of the interceptor *)

Definition containsPath (strs : list string) (newStr : string) : bool :=
  existsb (fun a => bool_decide (a = newStr)) strs.

Definition same_filter (a b : FilterData) : bool :=
  bool_decide (fd_Type a = fd_Type b) && bool_decide (fd_Endpoint a = fd_Endpoint b)
  && bool_decide (fd_SecretToken a = fd_SecretToken b).
Definition containsFilter (filters : list FilterData) (newfilter : FilterData) : bool :=
  existsb (fun a => same_filter a newfilter) filters.

Definition extractEnvID (requestURL : string) : string :=
  if contains requestURL "/projects/"
  then match split requestURL "/projects/" with
       | _ :: part :: _ => hd "" (split part "/")
       | _ => ""
       end
  else "".

Definition method_match (method : string) (fd : FilterData) : bool :=
  existsb (fun m => bool_decide (to_upper m = method)) (fd_Methods fd).

(** The filters of the path, then those of the other matched paths that are not
    yet among them. *)
Definition add_filter (preFilters : list FilterData) (otherFilter : FilterData) : list FilterData :=
  if containsFilter preFilters otherFilter then preFilters else preFilters ++ [otherFilter].
Definition merge_filters (table : gmap string (list FilterData)) (path : string) (others : list string)
  : list FilterData :=
  foldl (fun acc p => foldl add_filter acc (default [] (table !! p))) (default [] (table !! path)) others.

(** What becomes of a request. *)
Inductive outcome :=
| Forward (d : handler) (req : request) (body : string)
| Proxied (req : request)              (* handed to the platform proxy as it came *)
| Answer (status : Z) (content : string) (json : bool)
| Panic                                (* an invalid status code *)
| Redirect (path : string)
| NotAllowed
| Reloaded.

(** [writeError]; encoding the two strings does not fail. *)
Definition marshal_error (e : ProxyError) : string :=
  json_print (JObject [("status", JString (pe_Status e)); ("message", JString (pe_Message e))]).
Definition writeError (svcError : ProxyError) : outcome :=
  match parse_int (pe_Status svcError) with
  | None => Answer 200 (pe_Message svcError) false
  | Some status =>
      if (status <? 100) || (999 <? status) then Panic
      else Answer status (marshal_error svcError) true
  end.

Section Interceptor.
Context (template_ok : string -> bool) (path_match : string -> string -> bool)
  (json_error : string -> string).   (* the text of the error of an invalid JSON text *)

(** The body of a request, and of the request that is passed on. *)
Definition decode (body : string) : result string (option object) :=
  match json_parse body ≫= (fun j => json_set_object float_number j None) with
  | Some m => Ok m
  | None => Err (json_error body)
  end.
Definition marshal (b : option object) : option string :=
  json_print <$> any_json (match b with Some m => AObject m | None => ANil end).

Definition returnHTTPError (httpStatus : Z) (errorMessage : string) : outcome :=
  writeError (mkProxyError (itoa httpStatus) errorMessage).

(** The loop of [processPreFilters] over the filters. *)
Fixpoint run_filters (filters : gmap string APIFilter) (UUID api method envID : string)
  (l : list FilterData) (inputBody : option object) (inputHeaders : raw_header)
  : comm out_request ProxyError (option object * raw_header) :=
  match l with
  | [] => mret (inputBody, inputHeaders)
  | filterData :: l =>
      if negb (method_match method filterData)
      then run_filters filters UUID api method envID l inputBody inputHeaders
      else match filters !! fd_Type filterData with
      | None => run_filters filters UUID api method envID l inputBody inputHeaders
      | Some apiFilter =>
          responseData ← map_error (fun _ => mkProxyError (itoa 500) "API request interceptor failed")
            (ProcessFilter apiFilter filterData
               (mkData (Some inputHeaders) inputBody UUID api method envID 0 ""));
          if ad_Status responseData =? 200
          then run_filters filters UUID api method envID l
                 (match ad_Body responseData with Some b => Some b | None => inputBody end)
                 (default inputHeaders (ad_Headers responseData))
          else fail (mkProxyError (itoa (ad_Status responseData))
                       (if bool_decide (ad_Message responseData = "")
                        then "Error response while processing the API interceptor"
                        else ad_Message responseData))
      end
  end.

Definition identity_names : list string :=
  ["X-API-Account-Id"; "X-API-Account-Kind"; "X-API-Account-Name"; "X-API-Project-Id"].

Definition processPreFilters (i : interceptor) (UUID path : string) (otherPathsMatched : list string)
  (api method : string) (body : option object) (headers : raw_header)
  : comm out_request ProxyError (option object * raw_header * handler) :=
  let dest := default ToPlatform (pathDestinations i !! path) in
  let destinationPlatform := bool_decide (pathDestinations i !! path = None) in
  let envID := extractEnvID api in
  let preFilters := merge_filters (pathPreFilters i) path otherPathsMatched in
  bh ← run_filters (apiFilters i) UUID api method envID preFilters body headers;
  let '(inputBody, inputHeaders) := bh in
  let inputHeaders := if destinationPlatform then foldr delete inputHeaders identity_names else inputHeaders in
  mret (inputBody, inputHeaders, dest).

(** The templates of the other routes that match the request. *)
Definition other_paths (i : interceptor) (path method api : string) : list string :=
  foldl (fun acc rt =>
    if fst (route_Match template_ok path_match rt method api false)
       && negb (bool_decide (rt_Path rt = path)) && negb (containsPath acc (rt_Path rt))
    then acc ++ [rt_Path rt] else acc) [] (routes i).

(** [io.ReadAll(http.MaxBytesReader(w, req.Body, max))] *)
Definition read_max (max : Z) (r : reader) : option string :=
  if max <? go_len (r_data r) then None
  else match r_error r with Some _ => None | None => Some (r_data r) end.

(** The final loop over the headers, in the order [range] yields them. *)
Definition apply_headers (order : list string) (inputHeaders : raw_header) (h : header) : header :=
  foldl (fun h key => match inputHeaders !! key with
                      | Some value => <[canonical key := value]> h
                      | None => h
                      end) h order.

(** [intercept], for the route with template [path]; [order] is the iteration order
    of the map of headers. *)
Definition intercept (i : interceptor) (UUID : string) (order : raw_header -> list string) (path : string)
  (req : request) (body : reader) : list out_request -> list out_request * outcome := fun sent =>
  let otherPathsMatched := other_paths i path (Method req) (Path (URL req)) in
  match read_max maxInterceptorRequestBodyBytes body with
  | None => (sent, returnHTTPError 400 "Invalid or oversized JSON request body")
  | Some bodyBytes =>
      match (if 0 <? go_len bodyBytes then decode bodyBytes else Ok None) with
      | Err e => (sent, returnHTTPError 400 ("Error reading json request body: " +:+ e))
      | Ok jsonInput =>
          let '(sent, r) := processPreFilters i UUID path otherPathsMatched (Path (URL req)) (Method req)
                              jsonInput (Header req) sent in
          match r with
          | Err proxyErr => (sent, writeError proxyErr)
          | Ok (inputBody, inputHeaders, dest) =>
              match marshal inputBody with
              | None => (sent, returnHTTPError 500 "Unable to encode filtered request body")
              | Some jsonStr =>
                  (sent, Forward dest (set_header (apply_headers (order inputHeaders) inputHeaders (Header req)) req)
                           jsonStr)
              end
          end
      end
  end.

(** ** The router *)

Context (file_missing : string -> bool) (open_file : string -> result string reader).

Definition readBoundedConfigFile (path : string) : result string string :=
  file ← open_file path;
  contents ← read_limited (maxAPIInterceptorConfigBytes + 1) file;
  if maxAPIInterceptorConfigBytes <? go_len contents
  then Err ("API interceptor configuration exceeds " +:+ itoa maxAPIInterceptorConfigBytes +:+ " bytes")
  else Ok contents.

Definition newProxy (target : string) : result string handler :=
  match url_parse target with
  | None => Err "invalid destination URL"
  | Some parsed =>
      if negb (bool_decide (Scheme parsed = "http")) && negb (bool_decide (Scheme parsed = "https"))
         || bool_decide (Host parsed = "") || HasUser parsed || negb (bool_decide (Fragment parsed = ""))
      then Err "destination URL must be HTTP(S), include a host, and contain no credentials or fragment"
      else Ok (ToProxy parsed)
  end.

(** The loops that fill the tables. *)
Definition add_paths (filter : FilterData) (table : gmap string (list FilterData)) (path : string)
  : gmap string (list FilterData) :=
  <[path := default [] (table !! path) ++ [filter]]> table.
Definition build_filters (l : list FilterData) : gmap string (list FilterData) :=
  foldl (fun table filter => foldl (add_paths filter) table (fd_Paths filter)) ∅ l.

Fixpoint build_destinations (l : list destination) (table : gmap string handler)
  : result string (gmap string handler) :=
  match l with
  | [] => Ok table
  | d :: l =>
      match newProxy (DestinationURL d) with
      | Err e => Err ("couldn't load configured proxy destination: " +:+ e)
      | Ok destProxy => build_destinations l (foldl (fun t path => <[path := destProxy]> t) table (Paths d))
      end
  end.

Definition intercept_route (method path : string) : route route_handler :=
  mkRoute _ [MethodMatcher [to_upper method]; PathMatcher path] path Intercept.
Definition reload_route : route route_handler :=
  mkRoute _ [MethodMatcher ["POST"]; PathMatcher "/v1-api-interceptor/reload"] "/v1-api-interceptor/reload" Reload.
Definition build_routes (l : list FilterData) : list (route route_handler) :=
  (filter ← l; path ← fd_Paths filter; method ← fd_Methods filter; [intercept_route method path]) ++ [reload_route].

(** The configuration: that of the file, or the empty one if there is none. *)
Definition load_config (configFile : string) : result string configFileFields :=
  if bool_decide (configFile = "") || file_missing configFile then Ok (mkConfigFile [] [])
  else match readBoundedConfigFile configFile with
  | Err e => Err ("error reading API interceptor config at " +:+ configFile +:+ ": " +:+ e)
  | Ok configContent =>
      match decode_config configContent with
      | None => Err "couldn't decode API interceptor config"
      | Some fields => Ok fields
      end
  end.

Definition buildRouter (configFile : string) (filters : gmap string APIFilter) : result string interceptor :=
  configFields ← load_config configFile;
  dests ← build_destinations (Destinations configFields) ∅;
  Ok (mkInterceptor configFile filters (build_filters (RequestInterceptors configFields)) dests
        (build_routes (RequestInterceptors configFields))).

(** [newRouter]: the platform's address, then [buildRouter]. *)
Definition newRouter (configFile platformAddr : string) (loadAPIFilters : result string (gmap string APIFilter))
  : result string interceptor :=
  if bool_decide (platformAddr = "")
  then Err "no PlatformAddr is set for forwarding control-platform API requests"
  else match url_parse ("http://" +:+ platformAddr) with
  | None => Err "invalid control-platform address"
  | Some platformURL =>
      if bool_decide (Host platformURL = "") || HasUser platformURL || negb (bool_decide (Path platformURL = ""))
         || negb (bool_decide (RawQuery platformURL = "")) || negb (bool_decide (Fragment platformURL = ""))
      then Err "invalid control-platform address"
      else match loadAPIFilters with
           | Err e => Err ("couldn't load API filters: " +:+ e)
           | Ok filters => buildRouter configFile filters
           end
  end.

(** [loadAPIFilters]: both filters under their types. *)
Definition loadAPIFilters (httpFilter : APIFilter) (newTokenFilter : result string APIFilter)
  : result string (gmap string APIFilter) :=
  match newTokenFilter with
  | Err e => Err ("couldn't initialize authentication API filter: " +:+ e)
  | Ok tokenFilter => Ok (<[GetType tokenFilter := tokenFilter]> (<[GetType httpFilter := httpFilter]> ∅))
  end.

(** [reload]: the new router, or an error and the old one. *)
Definition reload (current : interceptor) : interceptor * outcome :=
  match buildRouter (configFile current) (apiFilters current) with
  | Err _ => (current, returnHTTPError 500 "Failed to reload proxy configuration")
  | Ok router => (router, Reloaded)
  end.

(** [APIInterceptor.ServeHTTP]: the router in force handles the request. *)
Definition ServeHTTP (i : interceptor) (UUID : string) (order : raw_header -> list string)
  (req : request) (body : reader) : list out_request -> interceptor * list out_request * outcome := fun sent =>
  let path := Path (URL req) in
  if negb (bool_decide (mux_cleanPath path = path)) then (i, sent, Redirect (mux_cleanPath path))
  else match router_Match template_ok path_match (routes i) (Method req) path false with
  | NotFound => (i, sent, Proxied req)
  | MethodMismatch => (i, sent, NotAllowed)
  | MatchedRoute rt =>
      match rt_Handler rt with
      | Reload => let '(i, o) := reload i in (i, sent, o)
      | Intercept => let '(sent, o) := intercept i UUID order (rt_Path rt) req body sent in (i, sent, o)
      end
  end.
End Interceptor.

(** ** Lemmas: filters *)

Section FilterLemmas.
Context (filters : gmap string APIFilter) (UUID api method envID : string).


Definition filter_input (b : option object) (h : raw_header) : APIRequestData :=
  mkData (Some h) b UUID api method envID 0 "".


End FilterLemmas.

(** *** Which filters are run *)

(** Reference: the filters of a path, once for each time they name it, in the
    order of the configuration. *)
Definition filters_for (p : string) (l : list FilterData) : list FilterData :=
  fd ← l; (fun _ => fd) <$> List.filter (fun q => bool_decide (q = p)) (fd_Paths fd).

Lemma add_paths_lookup fd paths table p :
  default [] (foldl (add_paths fd) table paths !! p) =
  default [] (table !! p) ++ ((fun _ => fd) <$> List.filter (fun q => bool_decide (q = p)) paths).
Proof.
  revert table. induction paths as [|q paths IH]; intros table; simpl; [by rewrite app_nil_r|].
  rewrite IH. unfold add_paths at 1. rewrite lookup_insert. case_decide as E.
  - subst. rewrite bool_decide_eq_true_2 //. simpl. by rewrite -app_assoc.
  - by rewrite bool_decide_eq_false_2.
Qed.

Lemma build_filters_lookup l p : default [] (build_filters l !! p) = filters_for p l.
Proof.
  unfold build_filters. change (filters_for p l) with (default [] ((∅ : gmap string (list FilterData)) !! p) ++ filters_for p l).
  generalize (∅ : gmap string (list FilterData)).
  induction l as [|fd l IH]; intros table; simpl; [by rewrite app_nil_r|].
  rewrite IH add_paths_lookup -app_assoc. done.
Qed.








(** ** Lemmas: routing *)

Section RouteLemmas.
Context (template_ok : string -> bool) (path_match : string -> string -> bool).
Abbreviation router_Match := (router_Match template_ok path_match).

Definition method_path_route (rt : route route_handler) (m p : string) : Prop :=
  rt_Matchers rt = [MethodMatcher [m]; PathMatcher p] /\ rt_Path rt = p.

(** When no route has the method, a path match is a method mismatch. *)
Lemma router_Match_mismatch l method path mm :
  (forall rt, rt ∈ l -> exists m p, method_path_route rt m p /\ m <> method) ->
  (mm = true \/ exists rt, rt ∈ l /\ template_ok (rt_Path rt) = true /\ path_match (rt_Path rt) path = true) ->
  router_Match l method path mm = MethodMismatch.
Proof.
  intros N. revert mm. induction l as [|rt l IH]; intros mm H; simpl.
  { destruct H as [->|(? & ?%elem_of_nil & _)]; done. }
  destruct (N rt) as (m & p & [Em Ep] & Ne); [left|]. unfold route_Match. rewrite Em. simpl.
  rewrite (bool_decide_eq_false_2 (method ∈ [m])); [|by intros ->%list_elem_of_singleton].
  assert (mm = true \/ (template_ok (rt_Path rt) = true /\ path_match (rt_Path rt) path = true) \/
    exists r, r ∈ l /\ template_ok (rt_Path r) = true /\ path_match (rt_Path r) path = true) as H'.
  { destruct H as [|(r & Hr & Tr & Pr)]; [by left|]. right. apply elem_of_cons in Hr as [->|Hr]; [by left|right]. by exists r. }
  assert (forall r, r ∈ l -> exists m p, method_path_route r m p /\ m <> method) as N' by (intros r Hr; apply N; by right).
  rewrite Ep in H' |- *. destruct (template_ok p) eqn:T; simpl; [|apply IH; [done|naive_solver]].
  destruct (path_match p path) eqn:Pm; [apply IH; auto|apply IH; [done|naive_solver]].
Qed.
End RouteLemmas.

Lemma elem_of_build_routes l rt :
  rt ∈ build_routes l <->
  (exists fd p m, fd ∈ l /\ p ∈ fd_Paths fd /\ m ∈ fd_Methods fd /\ rt = intercept_route m p) \/
  rt = reload_route.
Proof.
  unfold build_routes. rewrite elem_of_app list_elem_of_singleton. f_equiv. rewrite list_elem_of_bind. split.
  - intros (fd & (p & (m & ->%list_elem_of_singleton & Hm)%list_elem_of_bind & Hp)%list_elem_of_bind & Hfd). by exists fd, p, m.
  - intros (fd & p & m & Hfd & Hp & Hm & ->). exists fd. split; [|done]. apply list_elem_of_bind. exists p. split; [|done].
    apply list_elem_of_bind. exists m. split; [|done]. by apply list_elem_of_singleton.
Qed.



Lemma method_match_elem method fd : method_match method fd = true <-> exists m, m ∈ fd_Methods fd /\ to_upper m = method.
Proof.
  unfold method_match. rewrite existsb_exists. setoid_rewrite list_elem_of_In.
  split; intros (m & Hm & E); exists m; split; try done; [by bool_to_prop|by rewrite bool_decide_eq_true_2].
Qed.

Lemma insert_paths_lookup (h : handler) paths (table : gmap string handler) p :
  foldl (fun t path => <[path := h]> t) table paths !! p =
  if bool_decide (p ∈ paths) then Some h else table !! p.
Proof.
  revert table. induction paths as [|q paths IH]; intros table; cbn [foldl].
  { by rewrite bool_decide_eq_false_2; [|apply not_elem_of_nil]. }
  rewrite IH lookup_insert. case_bool_decide as E; case_decide as F;
    try (rewrite bool_decide_eq_true_2; [done|subst; set_solver]). by rewrite bool_decide_eq_false_2; [|set_solver].
Qed.

(** ** Properties *)

Section InterceptorProps.
Context (template_ok : string -> bool) (path_match : string -> string -> bool)
  (json_error : string -> string) (file_missing : string -> bool) (open_file : string -> result string reader).

Abbreviation load_config := (load_config file_missing open_file).
Abbreviation buildRouter := (buildRouter file_missing open_file).
Abbreviation newProxy := (newProxy).
Abbreviation ServeHTTP := (ServeHTTP template_ok path_match json_error file_missing open_file).

Lemma buildRouter_Ok cf filters i :
  buildRouter cf filters = Ok i <-> exists cfg dests, load_config cf = Ok cfg /\
    build_destinations (Destinations cfg) ∅ = Ok dests /\
    i = mkInterceptor cf filters (build_filters (RequestInterceptors cfg)) dests
          (build_routes (RequestInterceptors cfg)).
Proof.
  unfold Interceptor.buildRouter. rewrite bind_Ok. split.
  - intros (cfg & L & (dests & D & E)%bind_Ok). apply Ok_inj in E. by exists cfg, dests.
  - intros (cfg & dests & L & D & ->). exists cfg. split; [done|]. apply bind_Ok. by exists dests.
Qed.

(** The destination of a path: that of the last entry that names it. *)
Definition destination_for (p : string) (l : list destination) : option destination :=
  last (List.filter (fun d => bool_decide (p ∈ Paths d)) l).

Lemma build_destinations_lookup l table dests p :
  build_destinations l table = Ok dests ->
  match destination_for p l with
  | None => dests !! p = table !! p
  | Some d => exists h, newProxy (DestinationURL d) = Ok h /\ dests !! p = Some h
  end.
Proof.
  revert table. induction l as [|d l IH]; intros table; simpl; [by intros [= <-]|].
  destruct (newProxy (DestinationURL d)) as [h|] eqn:N; [|done]. intros H. specialize (IH _ H).
  unfold destination_for in *. cbn [List.filter]. rewrite insert_paths_lookup in IH. case_bool_decide as E.
  - rewrite last_cons. destruct (last _) as [d'|]; [done|]. by exists h.
  - done.
Qed.

(** The tables of the router are those of the configuration: each path has exactly
    the filters that name it, in the order of the file, and the destination of the
    last entry that names it, whose URL was accepted. *)
Theorem router_tables_exact cf filters i p :
  buildRouter cf filters = Ok i ->
  exists cfg, load_config cf = Ok cfg /\
    default [] (pathPreFilters i !! p) = filters_for p (RequestInterceptors cfg) /\
    match destination_for p (Destinations cfg) with
    | None => pathDestinations i !! p = None
    | Some d => exists h, newProxy (DestinationURL d) = Ok h /\ pathDestinations i !! p = Some h
    end.
Proof.
  intros (cfg & dests & L & D & ->)%buildRouter_Ok. exists cfg. split_and!; [done|apply build_filters_lookup|].
  apply build_destinations_lookup with (p := p) in D. simpl. by destruct (destination_for p (Destinations cfg)).
Qed.

(** An answer of the interceptor itself. *)
Definition answered (o : outcome) : Prop := match o with Forward _ _ _ | Proxied _ => False | _ => True end.

#[local] Instance answered_dec o : Decision (answered o).
Proof. destruct o; apply _. Defined.











(** A path with interceptors is closed to the methods they do not list: unless the
    method is POST, such a request is answered 405 instead of being handed to the
    platform, because the router reports a method mismatch before it tries the
    handler for requests that match no route. *)
Theorem unlisted_method_refused cf filters cfg i UUID order req body sent fd p :
  load_config cf = Ok cfg -> buildRouter cf filters = Ok i ->
  mux_cleanPath (Path (URL req)) = Path (URL req) -> Method req <> "POST" ->
  (forall fd', fd' ∈ RequestInterceptors cfg -> method_match (Method req) fd' = false) ->
  fd ∈ RequestInterceptors cfg -> fd_Methods fd <> [] -> p ∈ fd_Paths fd -> template_ok p = true ->
  path_match p (Path (URL req)) = true ->
  ServeHTTP i UUID order req body sent = (i, sent, NotAllowed).
Proof.
  intros L (cfg' & dests & L' & _ & ->)%buildRouter_Ok C NP N Hfd Hm Hp T Pm.
  rewrite L in L'. injection L' as <-. unfold Interceptor.ServeHTTP. rewrite C bool_decide_eq_true_2 //. cbn [negb Interceptor.routes].
  rewrite (router_Match_mismatch template_ok path_match) //.
  - intros rt [(fd' & q & m & Hfd' & _ & Hm' & ->)| ->]%elem_of_build_routes;
      [|exists "POST", "/v1-api-interceptor/reload"; split; [done|by intros E; apply NP]].
    exists (to_upper m), q. split; [done|]. intros E. specialize (N fd' Hfd'). rewrite (proj2 (method_match_elem (Method req) fd')) // in N. by exists m.
  - right. destruct (fd_Methods fd) as [|m ms] eqn:E; [done|]. exists (intercept_route m p).
    split_and!; [|done..]. apply elem_of_build_routes. left. exists fd, p, m. rewrite E. split_and!; [done..|left|done].
Qed.

(** The status a failing filter chose is not the one the caller gets. *)
Theorem filter_status_lost filters UUID api method envID fd l b h sent sent' f status text :
  method_match method fd = true -> filters !! fd_Type fd = Some f ->
  ProcessFilter f fd (filter_input UUID api method envID b h) sent = (sent', Err (status, text)) ->
  run_filters filters UUID api method envID (fd :: l) b h sent =
    (sent', Err (mkProxyError "500" "API request interceptor failed")).
Proof.
  intros M F P. cbn [run_filters]. rewrite M F. cbn [negb]. unfold mbind, comm_bind, map_error.
  fold (filter_input UUID api method envID b h). by rewrite P.
Qed.
End InterceptorProps.

(** *** The router in force *)

(** The part of the file system the router is built from. *)
Record files := mkFiles {
  fs_missing : string -> bool; fs_open : string -> result string reader }.

Section RouterInForce.
Context (template_ok : string -> bool) (path_match : string -> string -> bool)
  (json_error : string -> string).

Definition build (fs : files) (cf : string) (filters : gmap string APIFilter) : result string interceptor :=
  buildRouter (fs_missing fs) (fs_open fs) cf filters.
Definition serve (fs : files) := ServeHTTP template_ok path_match json_error (fs_missing fs) (fs_open fs).

(** Requests served one after another, the file system changing in between. *)
Inductive serving (cf : string) (filters : gmap string APIFilter) : list files -> interceptor -> Prop :=
| serving_start fs i : build fs cf filters = Ok i -> serving cf filters [fs] i
| serving_request l i fs UUID order req body sent i' sent' o :
    serving cf filters l i -> serve fs i UUID order req body sent = (i', sent', o) ->
    serving cf filters (l ++ [fs]) i'.

(** At every moment the router in force is one that was built from a complete
    reading of the configuration file, at the start or by a reload; a reload that
    fails leaves it as it was, and no other request changes it. *)
Theorem router_from_config cf filters l i :
  serving cf filters l i ->
  (exists fs, fs ∈ l /\ build fs cf filters = Ok i) /\
  (forall fs UUID order req body sent i' sent' o,
     serve fs i UUID order req body sent = (i', sent', o) ->
     i' = i \/ o = Reloaded /\ build fs cf filters = Ok i').
Proof.
  assert (forall i, configFile i = cf -> apiFilters i = filters -> forall fs UUID order req body sent i' sent' o,
    serve fs i UUID order req body sent = (i', sent', o) -> i' = i \/ o = Reloaded /\ build fs cf filters = Ok i') as S.
  { intros j Ec Ef fs UUID order req body sent i' sent' o. unfold serve, ServeHTTP.
    destruct (negb _); [intros [= <- _ _]; by left|].
    destruct (router_Match _ _ _ _ _ _) as [rt| |]; [|intros [= <- _ _]; by left..].
    destruct (rt_Handler rt).
    - destruct (intercept _ _ _ _ _ _ _ _ _ _). intros [= <- _ _]. by left.
    - unfold reload. rewrite Ec Ef. change (buildRouter _ _ cf filters) with (build fs cf filters).
      destruct (build fs cf filters) as [r|] eqn:E; intros [= <- _ <-]; [by right|by left]. }
  assert (forall fs j, build fs cf filters = Ok j -> configFile j = cf /\ apiFilters j = filters) as K.
  { intros fs j (cfg & dests & _ & _ & ->)%buildRouter_Ok. done. }
  intros H. assert (exists fs, fs ∈ l /\ build fs cf filters = Ok i) as B.
  { induction H as [fs i B|l i fs ? ? ? ? ? i' ? ? H (fs0 & Hin & B) E]; [exists fs; split; [left|done]|].
    destruct (K _ _ B) as [Ec Ef]. apply (S _ Ec Ef) in E as [->|[_ E]]; eexists; (split; [|done]); set_solver. }
  split; [done|]. destruct B as (fs & _ & B). destruct (K _ _ B) as [Ec Ef]. by apply S.
Qed.
End RouterInForce.

(** ** Shared slices

    [preFilters := i.pathPreFilters[path]] shares the backing array of the slice in
    the table, and [append] writes into the spare capacity of that array.  Here
    the arrays are in a store; [grow] is the spare capacity a new array gets. *)

Section Slices.
Context (grow : nat -> nat).

Record slice := mkSlice { sl_array : option nat; sl_len : nat }.
Abbreviation store := (gmap nat (list FilterData)).

Definition zero_filter : FilterData := mkFilterData "" "" "" [] [] "".

Definition array_of (st : store) (s : slice) : list FilterData :=
  match sl_array s with Some a => default [] (st !! a) | None => [] end.
Definition read_slice (st : store) (s : slice) : list FilterData := take (sl_len s) (array_of st s).

(** [append(s, x)] *)
Definition append_slice (st : store) (s : slice) (x : FilterData) : store * slice :=
  let room := (sl_len s <? length (array_of st s))%nat in
  match (if room then sl_array s else None) with
  | Some a => (<[a := <[sl_len s := x]> (array_of st s)]> st, mkSlice (Some a) (S (sl_len s)))
  | None =>
      let a := fresh (dom st) in
      (<[a := read_slice st s ++ x :: replicate (grow (sl_len s)) zero_filter]> st, mkSlice (Some a) (S (sl_len s)))
  end.

(** One iteration of the loop that merges the filters. *)
Definition add_filter_slice (acc : store * slice) (x : FilterData) : store * slice :=
  if containsFilter (read_slice (fst acc) (snd acc)) x then acc else append_slice (fst acc) (snd acc) x.

Definition merge_slices (table : gmap string slice) (path : string) (others : list string) (st : store)
  : store * slice :=
  foldl (fun acc p => foldl add_filter_slice acc (read_slice (fst acc) (default (mkSlice None 0) (table !! p))))
    (st, default (mkSlice None 0) (table !! path)) others.

Definition valid (st : store) (s : slice) : Prop :=
  (sl_len s <= length (array_of st s))%nat /\ match sl_array s with Some a => is_Some (st !! a) | None => True end.

(** [s] may be appended to without disturbing [t]. *)
Definition apart (s t : slice) : Prop :=
  match sl_array t with Some b => sl_array s = Some b -> (sl_len t <= sl_len s)%nat | None => True end.

Lemma array_of_insert st a l s : array_of (<[a := l]> st) s = if decide (sl_array s = Some a) then l else array_of st s.
Proof.
  unfold array_of. destruct (sl_array s) as [b|]; [|by case_decide].
  rewrite lookup_insert. repeat case_decide; simplify_eq; done.
Qed.

(** Writing an array leaves the slices of other arrays, and the shorter slices of
    the same array, as they are. *)
Lemma valid_write st a l t :
  valid st t ->
  (sl_array t = Some a -> (length (array_of st t) <= length l)%nat /\ take (sl_len t) l = read_slice st t) ->
  valid (<[a := l]> st) t /\ read_slice (<[a := l]> st) t = read_slice st t.
Proof.
  intros [L V] H. unfold valid, read_slice. rewrite array_of_insert. split_and!.
  - case_decide as E; [|done]. destruct (H E). lia.
  - destruct (sl_array t) as [b|]; [|done]. rewrite lookup_insert. by case_decide.
  - case_decide as E; [|done]. by apply H.
Qed.

Lemma append_slice_spec st s x :
  valid st s ->
  let st' := fst (append_slice st s x) in let s' := snd (append_slice st s x) in
  valid st' s' /\ read_slice st' s' = read_slice st s ++ [x] /\
  forall t, valid st t -> apart s t -> valid st' t /\ read_slice st' t = read_slice st t /\ apart s' t.
Proof.
  intros [L V]. unfold append_slice. destruct (sl_len s <? length (array_of st s))%nat eqn:C.
  - apply Nat.ltb_lt in C. destruct (sl_array s) as [a|] eqn:A; simpl.
    2: { unfold array_of in C. rewrite A in C. simpl in C. lia. }
    split_and!.
    + split; [rewrite array_of_insert /= decide_True // length_insert; lia|]. by rewrite /= lookup_insert_eq.
    + unfold read_slice. rewrite array_of_insert /= decide_True //.
      rewrite (take_S_r _ _ x); [|by apply list_lookup_insert_eq]. by rewrite take_insert_ge.
    + intros t Vt Ap. unfold apart in *. assert (sl_array t = Some a -> (sl_len t <= sl_len s)%nat) as Le.
      { intros E. rewrite E in Ap. by apply Ap. }
      destruct (valid_write st a (<[sl_len s := x]> (array_of st s)) t Vt) as [V' R'].
      { intros E. assert (array_of st t = array_of st s) as -> by (unfold array_of; by rewrite E A).
        rewrite length_insert. split; [done|]. unfold read_slice, array_of. rewrite E A. by rewrite take_insert_ge; [|auto]. }
      split_and!; [done|done|]. destruct (sl_array t) as [b|]; [|done]. simpl. intros [= <-]. specialize (Le eq_refl). lia.
  - apply Nat.ltb_ge in C. cbn [fst snd]. set (a := fresh (dom st)).
    assert (st !! a = None) as Fr by (apply not_elem_of_dom, is_fresh).
    assert (length (read_slice st s) = sl_len s) as Len by (unfold read_slice; rewrite length_take; lia).
    split_and!.
    + split; [|by rewrite /= lookup_insert_eq]. rewrite array_of_insert /= decide_True // length_app Len /=. lia.
    + unfold read_slice at 1. rewrite array_of_insert /= decide_True // (cons_middle x) app_assoc.
      apply take_app_length'. rewrite length_app Len /=. lia.
    + intros t Vt Ap. assert (sl_array t <> Some a) as N.
      { intros E. destruct Vt as [_ Vt]. rewrite E in Vt. destruct Vt as [? Vt]. by rewrite Fr in Vt. }
      destruct (valid_write st a (read_slice st s ++ x :: replicate (grow (sl_len s)) zero_filter) t Vt) as [V' R']; [done|].
      split_and!; [done|done|]. unfold apart. simpl. destruct (sl_array t) as [b|]; [|done]. by intros [= <-].
Qed.

(** The table of slices: every slice is valid, and no two share an array. *)
Definition table_ok (table : gmap string slice) (st : store) : Prop :=
  (forall p s, table !! p = Some s -> valid st s) /\
  (forall p q s t a, table !! p = Some s -> table !! q = Some t -> sl_array s = Some a -> sl_array t = Some a -> p = q).

(** What a merge in progress keeps. *)
Definition merging (table : gmap string slice) (st : store) (acc : store * slice) : Prop :=
  valid (fst acc) (snd acc) /\
  forall p t, table !! p = Some t ->
    valid (fst acc) t /\ read_slice (fst acc) t = read_slice st t /\ apart (snd acc) t.

Lemma add_filters_merging table st l acc :
  merging table st acc ->
  merging table st (foldl add_filter_slice acc l) /\
  read_slice (fst (foldl add_filter_slice acc l)) (snd (foldl add_filter_slice acc l)) =
    foldl add_filter (read_slice (fst acc) (snd acc)) l.
Proof.
  revert acc. induction l as [|x l IH]; intros acc M; [done|]. cbn [foldl].
  assert (merging table st (add_filter_slice acc x) /\
    read_slice (fst (add_filter_slice acc x)) (snd (add_filter_slice acc x)) =
    add_filter (read_slice (fst acc) (snd acc)) x) as [M' E].
  { unfold add_filter_slice, add_filter. destruct (containsFilter _ x); [done|]. destruct M as [V T].
    destruct (append_slice_spec (fst acc) (snd acc) x V) as (V' & R & O). split; [split; [done|]|done].
    intros p t Ht. destruct (T p t Ht) as (Vt & Rt & At). destruct (O t Vt At) as (? & -> & ?). by split_and!. }
  destruct (IH _ M') as [M'' ->]. split; [done|by rewrite E].
Qed.

(** C34: Merging on shared slices computes the list [merge_filters] describes, and leaves
    the slices of the table as they were, as long as no other request appends to
    the same array in between. *)
Theorem merge_slices_refine table path others st :
  table_ok table st ->
  let '(st', s) := merge_slices table path others st in
  read_slice st' s = merge_filters (read_slice st <$> table) path others /\
  forall p t, table !! p = Some t -> read_slice st' t = read_slice st t.
Proof.
  intros [V D]. set (acc := (st, default (mkSlice None 0) (table !! path))).
  assert (merging table st acc) as M.
  { split; simpl.
    - destruct (table !! path) eqn:E; simpl; [by eapply V|]. split; [simpl; lia|done].
    - intros p t Ht. split_and!; [by eapply V|done|]. unfold apart. destruct (sl_array t) as [b|] eqn:A; [|done].
      destruct (table !! path) as [s|] eqn:E; simpl; [|done]. intros As.
      pose proof (D _ _ _ _ _ E Ht As A) as ->. simplify_eq. done. }
  assert (read_slice (fst acc) (snd acc) = default [] ((read_slice st <$> table) !! path)) as R.
  { simpl. rewrite lookup_fmap. by destruct (table !! path). }
  unfold merge_slices, merge_filters. fold acc. rewrite -R. clear R. clearbody acc. revert acc M.
  induction others as [|p others IH]; intros acc M; cbn [foldl].
  { destruct acc as [st' s]. split; [done|]. intros p t Ht. by apply (proj2 M p t Ht). }
  assert (read_slice (fst acc) (default (mkSlice None 0) (table !! p)) = default [] ((read_slice st <$> table) !! p)) as ->.
  { rewrite lookup_fmap. destruct (table !! p) as [t|] eqn:E; [|done]. by apply (proj2 M p t E). }
  destruct (add_filters_merging table st (default [] ((read_slice st <$> table) !! p)) acc M) as [M' <-].
  by apply IH.
Qed.
End Slices.

(** ** Witnesses *)

Module InterceptorDemo.
(** Templates are fixed paths, or prefixes if they end in a star. *)
Definition tpl_ok (t : string) : bool := has_prefix t "/".
Definition tpl_match (t p : string) : bool :=
  if has_suffix t "*" then has_prefix p (trim_suffix t "*") else bool_decide (t = p).
(** The platform knows one account. *)
Definition accounts : json :=
  JObject [("data", JArray [JObject [("id", JString "1a5"); ("kind", JString "user"); ("uuid", JNumber "1.5")]])].
Definition exchange (sent : list out_request) (q : out_request) : result string client_response :=
  Ok (mkResp 200 ∅ (mkReader (json_print accounts) None)).
Definition token_process := TokenValidationFilter_ProcessFilter exchange "http://platform".
Definition token_filter : APIFilter := mkFilter "authTokenValidator" token_process.
Definition stale_process :=
  TokenValidationFilter_ProcessFilter
    (fun _ _ => Ok (mkResp 401 ∅ (mkReader "{}" None))) "http://platform".
Definition stale_filter : APIFilter := mkFilter "authTokenValidator" stale_process.
Definition allow_filter : APIFilter := mkFilter "http" (fun _ _ => mret (set_status 200 empty_data)).
Definition deny_filter : APIFilter := mkFilter "deny" (fun _ _ => mret (set_status 403 empty_data)).
Definition filters : gmap string APIFilter :=
  {["authTokenValidator" := token_filter; "http" := allow_filter; "deny" := deny_filter]}.

Definition fd_token : FilterData := mkFilterData "authTokenValidator" "" "" ["get"] ["/v1/hosts"] "".
Definition config : configFileFields :=
  mkConfigFile [fd_token] [mkDestination "http://catalog" ["/v1/hosts"]].
Definition strings (l : list string) : json := JArray (JString <$> l).
Definition config_text : string :=
  json_print (JObject
    [("requestInterceptors", JArray [JObject [("type", JString "authTokenValidator"); ("methods", strings ["get"]);
                                              ("paths", strings ["/v1/hosts"]); ("order", JNumber "1")]]);
     ("destinations", JArray [JObject [("destinationURL", JString "http://catalog"); ("paths", strings ["/v1/hosts"])]])]).
Definition fs : files := mkFiles (fun _ => false) (fun _ => Ok (mkReader config_text None)).
Definition router : interceptor :=
  mkInterceptor "config.json" filters (build_filters [fd_token])
    {["/v1/hosts" := ToProxy (with_scheme "http" (with_host "catalog" (path_url "")))]} (build_routes [fd_token]).

Lemma router_built : build fs "config.json" filters = Ok router.
Proof. reflexivity. Qed.

Definition get (h : header) (method path : string) : request :=
  mkRequest method (path_url path) "proxy" "10.0.0.1:1" h None ∅.
Definition cookie_header : header := {["Cookie" := ["token=t"]; "X-Api-Account-Id" := ["1a1"]]}.
Definition spoof_header : header := {["X-Api-Account-Id" := ["1a1"]]}.
Definition first_caller (m : raw_header) : list string := ["X-Api-Account-Id"; "X-API-Account-Id"; "X-API-Account-Kind"; "Cookie"].
Definition first_filter (m : raw_header) : list string := ["X-API-Account-Id"; "X-Api-Account-Id"; "X-API-Account-Kind"; "Cookie"].

Definition serve_demo order req :=
  serve tpl_ok tpl_match id fs router "uuid" order req (mkReader "" None) [].


(** The account the destination is told. *)
Definition told (r : interceptor * list out_request * outcome) : list string :=
  match snd r with Forward _ req _ => header_values (Header req) "X-API-Account-Id" | _ => [] end.

(** Filters that differ in their methods only, and one that denies. *)
Definition fd_a : FilterData := mkFilterData "deny" "" "" ["GET"] ["/v1/a"] "".
Definition fd_b : FilterData := mkFilterData "http" "" "" ["POST"] ["/v1/a"] "".
Definition fd_c : FilterData := mkFilterData "deny" "" "" ["POST"] ["/v1/*"] "".
Definition router2 : interceptor :=
  mkInterceptor "config.json" filters (build_filters [fd_a; fd_b; fd_c]) ∅ (build_routes [fd_a; fd_b; fd_c]).

(** A table whose first slice has room for one more filter. *)
Definition st : gmap nat (list FilterData) :=
  {[0%nat := [fd_a; zero_filter]; 1%nat := [fd_b]; 2%nat := [fd_token]]}.
Definition table : gmap string slice :=
  {["/a" := mkSlice (Some 0%nat) 1; "/b" := mkSlice (Some 1%nat) 1; "/c" := mkSlice (Some 2%nat) 1]}.
Definition merged (others : list string) (st : gmap nat (list FilterData)) : gmap nat (list FilterData) * slice :=
  merge_slices (fun n => n) table "/a" others st.

Lemma table_valid : table_ok table st.
Proof.
  split.
  - assert (map_Forall (fun _ s => valid st s) table) as H; [|exact H].
    unfold table. rewrite !map_Forall_insert //. split_and!; [..|apply map_Forall_empty]; (split; [vm_compute; lia|vm_compute; by eexists]).
  - intros p q s t a. unfold table.
    rewrite !lookup_insert_Some !lookup_empty. intros Hp Hq Hs Ht.
    naive_solver.
Qed.
End InterceptorDemo.
Import InterceptorDemo.

Lemma router_tables_exact_witness :
  exists cfg, load_config (fs_missing fs) (fs_open fs) "config.json" = Ok cfg /\
    default [] (pathPreFilters router !! "/v1/hosts") = filters_for "/v1/hosts" (RequestInterceptors cfg).
Proof.
  destruct (router_tables_exact (fs_missing fs) (fs_open fs) "config.json" filters router
    "/v1/hosts" router_built) as (cfg & L & F & _).
  exists cfg. exact (conj L F).
Defined.


(** DELETE on a path that only has an interceptor for GET. *)
Lemma unlisted_method_refused_witness :
  serve_demo first_caller (get ∅ "DELETE" "/v1/hosts") = (router, [], NotAllowed).
Proof.
  apply (unlisted_method_refused tpl_ok tpl_match id (fs_missing fs) (fs_open fs)
    "config.json" filters config router "uuid" first_caller (get ∅ "DELETE" "/v1/hosts")
    (mkReader "" None) [] fd_token "/v1/hosts" eq_refl router_built); try by vm_compute.
  - intros fd' ->%list_elem_of_singleton. by vm_compute.
  - left.
  - left.
Defined.

(** POST on the same path does reach the platform: the route of the reload clears
    the mismatch. *)
Example unlisted_post_proxied :
  snd (serve_demo first_caller (get ∅ "POST" "/v1/hosts")) = Proxied (get ∅ "POST" "/v1/hosts").
Proof. reflexivity. Qed.

(** The platform answers 401; the filter says 401, the caller gets 500. *)
Lemma filter_status_lost_witness :
  exists text, snd (stale_process fd_token (filter_input "uuid" "/v1/hosts" "GET" "" None cookie_header) []) = Err (401, text) /\
  snd (run_filters {["authTokenValidator" := stale_filter]} "uuid" "/v1/hosts" "GET" "" [fd_token] None cookie_header []) =
    Err (mkProxyError "500" "API request interceptor failed").
Proof.
  destruct (stale_process fd_token (filter_input "uuid" "/v1/hosts" "GET" "" None cookie_header) []) as [s1 r] eqn:E.
  assert (exists text, r = Err (401, text)) as [text ->] by (vm_compute in E; injection E as _ <-; by eexists).
  exists text. split; [done|].
  by rewrite (filter_status_lost {["authTokenValidator" := stale_filter]} "uuid" "/v1/hosts" "GET" "" fd_token []
    None cookie_header [] s1 stale_filter 401 text eq_refl (lookup_singleton_eq _ _) E).
Defined.

Lemma router_from_config_witness :
  exists fs', fs' ∈ [fs; fs] /\ build fs' "config.json" filters = Ok router.
Proof.
  apply (router_from_config tpl_ok tpl_match id "config.json" filters [fs; fs] router).
  apply (serving_request tpl_ok tpl_match id "config.json" filters [fs] router fs "uuid"
    first_caller (get ∅ "POST" "/v1-api-interceptor/reload") (mkReader "" None) [] router [] Reloaded).
  - apply serving_start, router_built.
  - exact eq_refl.
Defined.

(** The same request, with a valid token and an account header of its own: which
    account the destination is told depends on the iteration order of a map. *)
Example account_header_order_dependent :
  told (serve_demo first_caller (get cookie_header "GET" "/v1/hosts")) = ["1a5"] /\
  told (serve_demo first_filter (get cookie_header "GET" "/v1/hosts")) = ["1a1"].
Proof. by vm_compute. Qed.

(** A request without credentials passes the token filter with the account header
    its sender chose. *)
Example caller_account_header_forwarded :
  told (serve_demo first_caller (get spoof_header "GET" "/v1/hosts")) = ["1a1"].
Proof. by vm_compute. Qed.

(** A filter of another matching path is dropped as a duplicate of one that is not
    run for the method: the POST below is forwarded although a denying filter is
    configured for it, and denied when that filter is the only one of its kind. *)
Example duplicate_filter_bypassed :
  merge_filters (pathPreFilters router2) "/v1/a" ["/v1/*"] = [fd_a; fd_b] /\
  is_Ok (snd (run_filters filters "uuid" "/v1/a" "POST" "" [fd_a; fd_b] None ∅ [])) = true /\
  is_Ok (snd (run_filters filters "uuid" "/v1/a" "POST" "" [fd_b; fd_c] None ∅ [])) = false.
Proof. by vm_compute. Qed.

Lemma merge_slices_refine_witness :
  read_slice (fst (merged ["/b"] st)) (snd (merged ["/b"] st)) =
    merge_filters (read_slice st <$> table) "/a" ["/b"].
Proof.
  pose proof (merge_slices_refine (fun n => n) table "/a" ["/b"] st table_valid) as H. unfold merged.
  destruct (merge_slices (fun n => n) table "/a" ["/b"] st). exact (proj1 H).
Defined.

(** Two requests that match different further paths, interleaved: the filter the
    first one merged is replaced by that of the second before it is run. *)
Example shared_slice_overwritten :
  let '(st1, s1) := merged ["/b"] st in
  let '(st2, s2) := merged ["/c"] st1 in
  read_slice st1 s1 = [fd_a; fd_b] /\ read_slice st2 s1 = [fd_a; fd_token].
Proof. by vm_compute. Qed.
