(* ===== verification/Server.v ===== *)
(** * The server: routing, master switching, TLS and start-up

    Models [proxy/proxy.go], [proxy/frontend_switcher.go], [proxy/swarm_handler.go],
    [proxy/access.go], [proxy/tls/splitter.go], [newTokenLookup] of
    [proxy/token.go] and [main.go]: how a connection becomes a request, which
    handler gets it, when it is forwarded to another master instead, the reverse
    proxies to the platform, and how all of it is put together at start-up.

    The table of routes is the concrete one of [main.go]; templates are matched by a
    small matcher for the patterns that occur in it. *)

From S2P Require Import Prelude GoString GoHash GoNet GoUrl GoCookie Message Multiplexer Backend Session SessionManager.
From S2P Require Import Delegation Capability Http Upgrade Frontend SessionHttp ProxyProtocol Config Mux Filters Interceptor.

(** ** Paths *)

(** [cleanPath]: every run of slashes becomes one.  [prev] is whether the last
    character was a slash. *)
Fixpoint squeeze (prev : bool) (s : string) : string :=
  match s with
  | EmptyString => ""
  | String c s =>
      if bool_decide (c = "/"%char)
      then if prev then squeeze true s else String c (squeeze true s)
      else String c (squeeze false s)
  end.
Definition cleanPath (path : string) : string := squeeze false path.

(** [pathCleaner.ServeHTTP] up to the router. *)
Definition clean_request (req : request) : request :=
  let p := cleanPath (Path (URL req)) in
  if bool_decide (p = Path (URL req)) then req else set_url (with_path p (URL req)) req.

(** ** Path templates *)

(** What a template compiles to: literal text, one or more characters other than a
    slash, any text without a line break, and optional literal text. *)
Inductive piece := PLit (s : string) | PSeg | PAll | POpt (s : string).

#[export] Instance piece_eq_dec : EqDecision piece.
Proof. solve_decision. Defined.

(** The patterns that occur after the colon of a variable. *)
Definition pattern_pieces (p : string) : option (list piece) :=
  if bool_decide (p = ".*") then Some [PAll]
  else if bool_decide (p = "hoststats(?:\/project)?(?:\/)?") then Some [PLit "hoststats"; POpt "/project"; POpt "/"]
  else if bool_decide (p = "containerstats(?:\/service)?(?:\/)?")
       then Some [PLit "containerstats"; POpt "/service"; POpt "/"]
  else if sforall (fun c => is_lower c) p && negb (bool_decide (p = "")) then Some [PLit p]
  else None.

(** A variable [{name}] or [{name:pattern}]: its name and its pieces. *)
Definition variable_pieces (v : string) : option (string * list piece) :=
  match cut ":" v with
  | None => if bool_decide (v = "") then None else Some (v, [PSeg])
  | Some (name, pattern) => if bool_decide (name = "") then None else pair name <$> pattern_pieces pattern
  end.

(** The text between braces is a variable, the rest is literal: the parts of a
    template, each with the name of its variable if it is one. *)
Fixpoint template_parts (n : nat) (s : string) : option (list (option string * list piece)) :=
  match n with
  | O => None
  | S n =>
      match cut "{" s with
      | None => if contains s "}" then None else Some [(None, [PLit s])]
      | Some (text, rest) =>
          '(v, rest) ← cut "}" rest;
          if contains text "}" then None
          else '(name, var) ← variable_pieces v;
               ps ← template_parts n rest;
               Some ((None, [PLit text]) :: (Some name, var) :: ps)
      end
  end.
Definition parts_of (template : string) : option (list (option string * list piece)) :=
  template_parts (S (String.length template)) template.
Definition part_pieces (l : list (option string * list piece)) : list piece := mjoin (snd <$> l).
Definition compile (template : string) : option (list piece) := part_pieces <$> parts_of template.

Fixpoint match_pieces (ps : list piece) (s : string) : bool :=
  match ps with
  | [] => bool_decide (s = "")
  | PLit l :: ps => match cut_prefix s l with Some r => match_pieces ps r | None => false end
  | POpt l :: ps =>
      match_pieces ps s || match cut_prefix s l with Some r => match_pieces ps r | None => false end
  | PSeg :: ps =>
      (fix seg (s : string) : bool :=
         match s with
         | EmptyString => false
         | String c r => negb (bool_decide (c = "/"%char)) && (match_pieces ps r || seg r)
         end) s
  | PAll :: ps =>
      (fix all (s : string) : bool :=
         match_pieces ps s || match s with
                              | EmptyString => false
                              | String c r => negb (code c =? 10) && all r
                              end) s
  end.

(** What each piece matches: as much as it can, as long as the rest still matches. *)
Fixpoint captures (ps : list piece) (s : string) : option (list string) :=
  match ps with
  | [] => if bool_decide (s = "") then Some [] else None
  | PLit l :: ps => match cut_prefix s l with Some r => cons l <$> captures ps r | None => None end
  | POpt l :: ps =>
      match cut_prefix s l ≫= captures ps with
      | Some ts => Some (l :: ts)
      | None => cons "" <$> captures ps s
      end
  | PSeg :: ps =>
      (fix seg (s : string) : option (list string) :=
         match s with
         | EmptyString => None
         | String c r =>
             if bool_decide (c = "/"%char) then None
             else match seg r with
                  | Some (t :: ts) => Some (String c t :: ts)
                  | _ => cons (String c "") <$> captures ps r
                  end
         end) s
  | PAll :: ps =>
      (fix all (s : string) : option (list string) :=
         match s with
         | EmptyString => cons "" <$> captures ps ""
         | String c r =>
             match (if code c =? 10 then None else all r) with
             | Some (t :: ts) => Some (String c t :: ts)
             | _ => cons "" <$> captures ps s
             end
         end) s
  end.

(** [extractVars]: the text of the pieces of each variable, the last one of a name
    winning. *)
Fixpoint extractVars (l : list (option string * list piece)) (ts : list string) (output : gmap string string)
  : gmap string string :=
  match l with
  | [] => output
  | (name, ps) :: l =>
      let text := join "" (take (length ps) ts) in
      extractVars l (drop (length ps) ts) (match name with Some x => <[x:=text]> output | None => output end)
  end.

(** [setMatch]: the variables of the route, for the path it matched. *)
Definition route_vars (template path : string) : gmap string string :=
  match parts_of template with
  | Some l => match captures (part_pieces l) path with Some ts => extractVars l ts ∅ | None => ∅ end
  | None => ∅
  end.

Definition template_ok (template : string) : bool :=
  has_prefix template "/" && bool_decide (is_Some (compile template)).
Definition path_match (template path : string) : bool :=
  match compile template with Some ps => match_pieces ps path | None => false end.

(** ** Routes *)

Inductive handler_kind :=
| HVersion | HSwagger | HSessions | HBackend | HFrontend | HFrontendHTTP | HStats | HPlatformWS | HPlatform.

#[export] Instance handler_kind_eq_dec : EqDecision handler_kind.
Proof. solve_decision. Defined.

Record Starter := mkStarter {
  BackendPaths : list string; FrontendPaths : list string; FrontendHTTPPaths : list string;
  StatsPaths : list string; PlatformProxyPaths : list string; PlatformWSProxyPaths : list string }.

(** [router.Handle(p, h)], [router.Handle(p, h).Methods(ms...)] *)
Definition any_route (h : handler_kind) (p : string) : route handler_kind := mkRoute _ [PathMatcher p] p h.
Definition method_route (h : handler_kind) (ms : list string) (p : string) : route handler_kind :=
  mkRoute _ [PathMatcher p; MethodMatcher ms] p h.

(** The routes of [StartProxy]. *)
Definition server_routes (s : Starter) (platformAddr : string) : list (route handler_kind) :=
  [any_route HVersion "/version"; any_route HSwagger "/swaggerapi/api/v1";
   method_route HSessions ["GET"; "POST"; "DELETE"] "/v1/exec/sessions/{sessionId}"]
  ++ (method_route HBackend ["GET"] <$> BackendPaths s)
  ++ (method_route HFrontend ["GET"] <$> FrontendPaths s)
  ++ (method_route HFrontendHTTP ["GET"; "POST"; "PUT"; "DELETE"; "PATCH"; "HEAD"] <$> FrontendHTTPPaths s)
  ++ (method_route HStats ["GET"] <$> StatsPaths s)
  ++ if bool_decide (platformAddr = "") then []
     else (any_route HPlatformWS <$> PlatformWSProxyPaths s) ++ (any_route HPlatform <$> PlatformProxyPaths s).

(** The paths of [main.go]. *)
Definition main_starter : Starter := mkStarter
  ["/v1/connectbackend"; "/v2-beta/connectbackend"; "/v2/connectbackend"]
  ["/v1/{logs:logs}"; "/v1/{logs:logs}/"; "/v1/{stats:stats}"; "/v1/{stats:stats}/{statsid}";
   "/v1/exec/"; "/v1/exec"; "/v1/console/"; "/v1/console"; "/v1/dockersocket/"; "/v1/dockersocket";
   "/v2-beta/{logs:logs}/"; "/v2-beta/{logs:logs}"; "/v2-beta/{stats:stats}"; "/v2-beta/{stats:stats}/{statsid}";
   "/v2-beta/exec/"; "/v2-beta/exec"; "/v2-beta/console/"; "/v2-beta/console"; "/v2-beta/dockersocket/";
   "/v2-beta/dockersocket";
   "/v2/{logs:logs}/"; "/v2/{logs:logs}"; "/v2/{stats:stats}"; "/v2/{stats:stats}/{statsid}";
   "/v2/exec/"; "/v2/exec"; "/v2/console/"; "/v2/console"; "/v2/dockersocket/"; "/v2/dockersocket"]
  ["/v1/container-proxy{path:.*}"; "/v2-beta/container-proxy{path:.*}"; "/v2/container-proxy{path:.*}";
   "/r/projects/{project}/{service}{path:.*}"; "/r/{service}{path:.*}"]
  ["/v1/{hoststats:hoststats(?:\/project)?(?:\/)?}"; "/v1/{containerstats:containerstats(?:\/service)?(?:\/)?}";
   "/v1/{containerstats:containerstats}/{containerid}";
   "/v2-beta/{hoststats:hoststats(?:\/project)?(?:\/)?}"; "/v2-beta/{containerstats:containerstats(?:\/service)?(?:\/)?}";
   "/v2-beta/{containerstats:containerstats}/{containerid}";
   "/v2/{hoststats:hoststats(?:\/project)?(?:\/)?}"; "/v2/{containerstats:containerstats(?:\/service)?(?:\/)?}";
   "/v2/{containerstats:containerstats}/{containerid}"]
  ["/{platform-proxy:.*}"]
  ["/v1/{sub:subscribe}"; "/v1/projects/{project}/{sub:subscribe}"; "/v2-beta/{sub:subscribe}";
   "/v2-beta/projects/{project}/{sub:subscribe}"; "/v2/{sub:subscribe}"; "/v2/projects/{project}/{sub:subscribe}"].

Definition main_match (platformAddr method path : string) : mux_match handler_kind :=
  router_Match template_ok path_match (server_routes main_starter platformAddr) method path false.

Definition matched (m : mux_match handler_kind) : option handler_kind :=
  match m with MatchedRoute rt => Some (rt_Handler rt) | _ => None end.

Example route_session : matched (main_match "p" "POST" "/v1/exec/sessions/psw_1") = Some HSessions.
Proof. by vm_compute. Qed.
Example route_stats :
  matched (main_match "p" "GET" "/v2/stats/1h1") = Some HFrontend /\
  matched (main_match "p" "GET" "/v2/hoststats/project") = Some HStats /\
  matched (main_match "p" "GET" "/v1/containerstats/i-1") = Some HStats.
Proof. by vm_compute. Qed.
Example route_proxy :
  matched (main_match "p" "PUT" "/r/web/index.html") = Some HFrontendHTTP /\
  matched (main_match "p" "GET" "/v1/projects/1a5/subscribe") = Some HPlatformWS /\
  matched (main_match "p" "GET" "/v2-beta/hosts") = Some HPlatform.
Proof. by vm_compute. Qed.
Example route_variables :
  let vars := route_vars "/r/projects/{project}/{service}{path:.*}" "/r/projects/1a5/web/x/y" in
  vars !! "project" = Some "1a5" /\ vars !! "service" = Some "web" /\ vars !! "path" = Some "/x/y" /\
  route_vars "/v1/{hoststats:hoststats(?:\/project)?(?:\/)?}" "/v1/hoststats/project" !! "hoststats"
    = Some "hoststats/project".
Proof. by vm_compute. Qed.
Example templates_compile :
  forallb (fun rt => template_ok (rt_Path rt)) (server_routes main_starter "p") = true.
Proof. by vm_compute. Qed.

(** ** The reverse proxies to the platform *)

(** [http.Handler] built by [newWSProxy] and [newPlatformProxies]: the host that is
    dialled for WebSockets, and the target of other requests, the interceptor
    ([None]) or a plain reverse proxy to a scheme and host. *)
Record ws_proxy := mkWS {
  ws_addr : string; ws_target : option (string * string); ws_httpsPorts : list Z; ws_publicOrigin : option url }.

#[export] Instance ws_proxy_eq_dec : EqDecision ws_proxy.
Proof. solve_decision. Defined.

Definition newWSProxy (platformAddr : string) (httpsPorts : list Z)
  (publicOrigin : option url) : result string ws_proxy :=
  baseURL ← controlPlatformBaseURL platformAddr;
  Ok (mkWS (Host baseURL) (Some (Scheme baseURL, Host baseURL)) httpsPorts publicOrigin).

(** The director of the reverse proxy. *)
Definition director (scheme host : string) (u : url) : url :=
  with_host host (with_scheme scheme u).

(** *** Serving *)

(** What the proxy does with a request: refuse it, relay it as a WebSocket, or hand
    it to the reverse proxy. *)
Inductive ws_outcome := WSDenied | WSRelay (addr : string) (req : request) | WSReverse (req : request).

(** [platformWSProxy.ServeHTTP]; [add_headers] is [proxyprotocol.AddHeaders] with
    the ports and the origin of the proxy. *)
Definition platformWSProxy_ServeHTTP (add_headers : list Z -> option url -> request -> request)
  (h : ws_proxy) (req : request) : ws_outcome :=
  if IsWebSocketUpgrade req
  then if negb (workspaceSameOrigin req) then WSDenied
       else WSRelay (ws_addr h) (add_headers (ws_httpsPorts h) (ws_publicOrigin h) req)
  else WSReverse (add_headers (ws_httpsPorts h) (ws_publicOrigin h) req).

(** [serveWebsocket]: what its calls return, and what is left when it returns: the
    error it answered, and for the connection it dialled and the one it hijacked
    whether they were opened and closed. *)
Record ws_env := mkWSEnv { dial_ok : bool; is_hijacker : bool; hijack_ok : bool; write_ok : bool }.
Record ws_end := mkWSEnd {
  we_error : option string; d_open : bool; d_closed : bool; nc_open : bool; nc_closed : bool; we_copied : bool }.

Definition serveWebsocket (e : ws_env) : ws_end :=
  if negb (dial_ok e)
  then mkWSEnd (Some "Unable to establish websocket connection: can't dial.") false false false false false
  else if negb (is_hijacker e)
  then mkWSEnd (Some "Unable to establish websocket connection: no hijacker.") true false false false false
  else if negb (hijack_ok e)
  then mkWSEnd (Some "Unable to establish websocket connection: can't hijack.") true false false false false
  else mkWSEnd None true true true true (write_ok e).

(** ** The master switcher *)

(** [Switcher]; the remote handler is the proxy [newWSProxy] built. *)
Record Switcher := mkSwitcher { remote : option ws_proxy; addr : string }.

#[export] Instance Switcher_eq_dec : EqDecision Switcher.
Proof. solve_decision. Defined.

Definition maxMasterAddressBytes : Z := 4096.

(** The master file when it is opened: missing, an error, or a reader and the error
    of closing it. *)
Inductive master_file := Missing | Unreadable (e : string) | Opened (r : reader) (close : option string).

Definition clear (s : Switcher) : Switcher :=
  if bool_decide (remote s = None) && bool_decide (addr s = "") then s else mkSwitcher None "".

(** [readConfig]: the new state, and the error if there is one. *)
Definition readConfig (file : master_file) (s : Switcher)
  : Switcher * option string :=
  match file with
  | Missing => (clear s, None)
  | Unreadable e => (s, Some e)
  | Opened r close =>
      match read_limited (maxMasterAddressBytes + 1) r with
      | Err e => (s, Some e)
      | Ok bytes =>
          match close with
          | Some e => (s, Some e)
          | None =>
              if maxMasterAddressBytes <? go_len bytes
              then (s, Some ("master address file exceeds " +:+ itoa maxMasterAddressBytes +:+ " bytes"))
              else
                let newAddr := trim_space bytes in
                if bool_decide (newAddr = "") then (clear s, None)
                else if bool_decide (addr s = newAddr) then (s, None)
                else match newWSProxy newAddr [] None with
                     | Err e => (s, Some ("invalid master address: " +:+ e))
                     | Ok p => (mkSwitcher (Some p) newAddr, None)
                     end
          end
      end
  end.

Definition lookupHandler (s : Switcher) : option ws_proxy := remote s.

(** [NewSwitcher] and [start]: without a master file there is nothing to poll,
    otherwise one [readConfig] per round. *)
Definition new_switcher : Switcher := mkSwitcher None "".
Definition switcher_start (masterFile : string) (rounds : list master_file)
  : Switcher :=
  if bool_decide (masterFile = "") then clear new_switcher
  else foldl (fun s f => fst (readConfig f s)) new_switcher rounds.

(** ** From the connection to the handler *)

(** What a request ends up at. *)
Inductive target :=
| Local (h : handler_kind) (req : request)
| Master (p : ws_proxy) (req : request)
| RedirectTo (path : string)
| NotFound404
| NotAllowed405.

(** [Switcher.Wrap]: the handlers that are wrapped go to the master when there is
    one. *)
Definition wrapped (h : handler_kind) : bool :=
  match h with HSessions | HBackend | HFrontend | HFrontendHTTP | HStats => true | _ => false end.
Definition Wrap (s : Switcher) (h : handler_kind) (req : request) : target :=
  match lookupHandler s with Some p => Master p req | None => Local h req end.
Definition serve_handler (s : Switcher) (h : handler_kind) (req : request) : target :=
  if wrapped h then Wrap s h req else Local h req.

(** [pathCleaner] and the router. *)
Definition serve_path (routes : list (route handler_kind)) (s : Switcher) (req : request) : target :=
  let req := clean_request req in
  let path := Path (URL req) in
  if negb (bool_decide (mux_cleanPath path = path)) then RedirectTo (mux_cleanPath path)
  else match router_Match template_ok path_match routes (Method req) path false with
       | NotFound => NotFound404
       | MethodMismatch => NotAllowed405
       | MatchedRoute rt => serve_handler s (rt_Handler rt) (set_vars (route_vars (rt_Path rt) path) req)
       end.

(** [SwarmHandler.ServeHTTP] *)
Definition SwarmHandler_ServeHTTP (routes : list (route handler_kind)) (s : Switcher) (req : request) : target :=
  match PeerCommonNames req with
  | Some (_ :: _) => serve_handler s HFrontendHTTP req
  | _ => serve_path routes s req
  end.

(** *** The TLS splitter *)

(** The connection [SplitListener.Accept] returns: what it reads, as the stream of
    the accepted connection would, or an error on every read. *)
Inductive split_conn := TLSServer (r : reader) | PlainConn (r : reader) | FailedConn (e : string).

(** [accepted] is what the inner listener returns, with what the client sends within
    the deadline; [timeout] the error of a client that sends nothing. *)
Definition split_Accept (timeout : string) (accepted : result string reader) : result string split_conn :=
  match accepted with
  | Err e => Err e
  | Ok r =>
      Ok match r_data r with
         | EmptyString => FailedConn (default timeout (r_error r))
         | String b _ => if (code b <? 32) || (127 <=? code b) then TLSServer r else PlainConn r
         end
  end.

(** *** The access log *)

Record accessLog := mkAccess { al_ip : string; al_method : string; al_uri : string; al_protocol : string; al_host : string;
  al_elapsedTime : Z }.

Definition safeAccessPath (req : request) : string :=
  if bool_decide (EscapedPath (URL req) = "") then "/" else EscapedPath (URL req).
Definition logAccess (req : request) (proto : string) (duration : Z) : accessLog :=
  let clientIP := match SplitHostPort (RemoteAddr req) with Some (host, _) => host | None => RemoteAddr req end in
  mkAccess clientIP (Method req) (safeAccessPath req) proto (ReqHost req) duration.

(** The fields written, cleaned by [logsafe.Value], and the time it took (in
    nanoseconds). *)
Definition writeAccessLog (record : accessLog) : list (string * string) * Z :=
  ([("clientIP", Value (al_ip record)); ("protocol", Value (al_protocol record)); ("method", Value (al_method record));
   ("path", Value (al_uri record)); ("host", Value (al_host record))], al_elapsedTime record).

(** ** Start-up *)

Inductive client_auth := VerifyClientCertIfGiven.
Record tlsConfig {K Pool : Type} := mkTLS {
  MinVersion : Z; ClientAuth : client_auth; ClientCAs : Pool; Certificates : list K }.
Arguments tlsConfig : clear implicits.

Definition VersionTLS12 : Z := 0x0303.

(** The listeners of the server: plain, plain and TLS on one address, TLS only;
    each reads the PROXY protocol of the trusted networks. *)
Inductive listener {K Pool : Type} :=
| TCPListener (address : string) (trusted : list IPNet)
| SplitListener (address : string) (trusted : list IPNet) (c : tlsConfig K Pool)
| TLSListener (address : string) (trusted : list IPNet) (c : tlsConfig K Pool).
Arguments listener : clear implicits.

(** What [StartProxy] has built when it starts to serve; [sv_parent] is the process
    whose end ends the server. *)
Record server {K Pool : Type} := mkServer {
  sv_routes : list (route handler_kind); sv_interceptor : interceptor; sv_ws : ws_proxy;
  sv_delegations : string; sv_serviceProxyURL : string; sv_parent : option Z; sv_listeners : list (listener K Pool) }.
Arguments server : clear implicits.

(** A start-up ends the process ([log.Fatalf]) or returns an error. *)
Inductive start_error := Fatal (text : string) | Returned (text : string).

Section Start.
Context {K Pool : Type} (key_pair : string -> string -> result string K) (append_certs : string -> option Pool)
  (listen : string -> option string)
  (exchange : list platform_request -> platform_request -> result string client_response)
  (zip_reader : string -> result string (list zip_file)) (file_missing : string -> bool)
  (open_file : string -> result string reader)
  (loaded : result string (gmap string APIFilter)).

(** [newServerTLSConfig] on the certificates of [GetCerts]. *)
Definition newServerTLSConfig (certs : Certs) : result string (tlsConfig K Pool) :=
  match key_pair (Cert certs) (Key certs) with
  | Err e => Err ("invalid server certificate or key: " +:+ e)
  | Ok tlsCert =>
      match append_certs (CA certs) with
      | None => Err "invalid client certificate authority bundle"
      | Some clientCas => Ok (mkTLS K Pool VersionTLS12 VerifyClientCertIfGiven clientCas [tlsCert])
      end
  end.

Definition setupTLS (c : Config) : comm platform_request string (tlsConfig K Pool) :=
  if bool_decide (PlatformAccessKey c = "") then fail "no access key supplied to download certificate"
  else certs ← GetCerts exchange zip_reader c;
       lift (newServerTLSConfig certs).

(** [newTokenLookup]: the address the tokens are asked from. *)
Definition newTokenLookup (platformAddr : string) : result string string :=
  baseURL ← controlPlatformBaseURL platformAddr;
  Ok (url_string (ResolveReference baseURL (path_ref "/v1/serviceproxies"))).

(** [NewTokenLookup]: without a usable address, a lookup that has none. *)
Definition NewTokenLookup (platformAddr : string) : string :=
  match newTokenLookup platformAddr with Ok serviceProxyURL => serviceProxyURL | Err _ => "" end.

(** [NewInterceptor] *)
Definition NewInterceptor (configFile platformAddr : string) : result string interceptor :=
  match newRouter file_missing open_file configFile platformAddr loaded with
  | Err e => Err ("couldn't configure API proxy handler: " +:+ e)
  | Ok router => Ok router
  end.

Definition newPlatformProxies (c : Config) : result string (interceptor * ws_proxy) :=
  match NewInterceptor (APIInterceptorConfigFile c) (PlatformAddr c) with
  | Err e => Err ("couldn't create API interceptor: " +:+ e)
  | Ok apiProxyHandler =>
      Ok (apiProxyHandler, mkWS (PlatformAddr c) None (elements (ProxyProtoHTTPSPorts c)) (PlatformPublicOrigin c))
  end.

(** The listeners: the plain one, which becomes the splitter when both addresses
    are the same, and otherwise one more for TLS. *)
Definition start_listeners (c : Config) : comm platform_request start_error (list (listener K Pool)) :=
  match listen (ListenAddr c) with
  | Some e => fail (Fatal ("Couldn't create listener: " +:+ e))
  | None =>
      if bool_decide (TLSListenAddr c = "") then mret [TCPListener (ListenAddr c) (TrustedProxyCIDRs c)]
      else tls ← map_error Returned (setupTLS c);
           if bool_decide (TLSListenAddr c = ListenAddr c) then mret [SplitListener (ListenAddr c) (TrustedProxyCIDRs c) tls]
           else match listen (TLSListenAddr c) with
                | Some e => fail (Returned e)
                | None => mret [TCPListener (ListenAddr c) (TrustedProxyCIDRs c); TLSListener (TLSListenAddr c) (TrustedProxyCIDRs c) tls]
                end
  end.

Definition StartProxy (s : Starter) (c : Config) : comm platform_request start_error (server K Pool) :=
  match newTokenLookup (PlatformAddr c) with
  | Err e => fail (Returned ("invalid service-proxy configuration: " +:+ e))
  | Ok serviceProxyURL =>
      match newPlatformProxies c with
      | Err e => fail (Fatal ("Couldn't create platform proxies: " +:+ e))
      | Ok (apiProxy, wsProxy) =>
          listeners ← start_listeners c;
          mret (mkServer K Pool (server_routes s (PlatformAddr c)) apiProxy wsProxy
                  ("http://" +:+ PlatformAddr c) serviceProxyURL
                  (if ParentPid c =? 0 then None else Some (ParentPid c)) listeners)
      end
  end.
End Start.

(** The goroutine that watches the parent process: what [os.FindProcess] and the
    signal 0 return every 250 ms, and the message the process ends with. *)
Inductive parent_poll := FindFailed (e : string) | SignalFailed | Alive.
Fixpoint watch_parent (polls : list parent_poll) : option string :=
  match polls with
  | [] => None
  | FindFailed e :: _ => Some ("Failed to find process: " +:+ e)
  | SignalFailed :: _ => Some "Parent process went away. Shutting down."
  | Alive :: polls => watch_parent polls
  end.

(** *** [main.go] *)

Definition versionRequested (args : list string) : bool :=
  existsb (fun arg => bool_decide (arg = "--version") || bool_decide (arg = "-version")) args.

Definition operatorMessage (locale key : string) : string :=
  let messages : gmap string (gmap string string) :=
    {["en-US" := {["start" := "Starting PastureStack WebSocket proxy."; "exit" := "WebSocket proxy stopped."]};
      "zh-TW" := {["start" := "正在啟動 PastureStack WebSocket 代理服務。"; "exit" := "WebSocket 代理服務已停止。"]}]} in
  default "" (default ∅ (messages !! locale) !! key).

(** [main]: nothing is started when the version is asked for.  [flag_args] are the
    assignments [flag.Parse] finds in the arguments; [config] is [GetConfig], [start]
    is [StartProxy]. *)
Definition main {C Sv} (flag_args : list string -> list (string * string))
  (config : list (string * string) -> comm platform_request string C)
  (start : Starter -> C -> comm platform_request start_error Sv) (args : list string)
  : comm platform_request start_error (option (C * Sv)) :=
  if versionRequested args then mret None
  else conf ← map_error Fatal (config (flag_args args));
       sv ← start main_starter conf;
       mret (Some (conf, sv)).

(** ** Lemmas: paths *)

Lemma contains_cons c s sub :
  contains (String c s) sub = has_prefix (String c s) sub || contains s sub.
Proof.
  unfold contains. rewrite cut_cons. destruct (has_prefix (String c s) sub); [done|]. by destruct (cut sub s) as [[]|].
Qed.

Lemma squeeze_clean prev s :
  contains (squeeze prev s) "//" = false /\ (prev = true -> has_prefix (squeeze prev s) "/" = false).
Proof.
  revert prev. induction s as [|c s IH]; intros prev; cbn [squeeze]; [done|].
  case_bool_decide as C.
  - subst. destruct (IH true) as [N P]. destruct prev; [by split; [|intros _; apply P]|].
    split; [|done]. rewrite contains_cons N orb_false_r. cbn [has_prefix]. by rewrite P // andb_false_r.
  - destruct (IH false) as [N _]. assert (has_prefix (String c (squeeze false s)) "/" = false) as Q.
    { cbn [has_prefix]. by rewrite bool_decide_eq_false_2 //. }
    split; [|done]. rewrite contains_cons N orb_false_r. cbn [has_prefix]. rewrite bool_decide_eq_false_2 //.
Qed.

Lemma squeeze_id prev s :
  contains s "//" = false -> (prev = true -> has_prefix s "/" = false) -> squeeze prev s = s.
Proof.
  revert prev. induction s as [|c s IH]; intros prev; cbn [squeeze]; [done|].
  rewrite contains_cons. intros [P N]%orb_false_iff Hp. rewrite !has_prefix_cons in P, Hp.
  destruct (bool_decide (c = "/"%char)) eqn:C; bool_to_prop.
  - subst. destruct prev.
    + specialize (Hp eq_refl). by rewrite has_prefix_nil in Hp.
    + f_equal. apply IH; [done|]. by destruct P.
  - f_equal. by apply IH.
Qed.

(** The non-empty parts of a path. *)
Fixpoint path_words_aux (cur s : string) : list string :=
  let word := if bool_decide (cur = "") then [] else [cur] in
  match s with
  | EmptyString => word
  | String c s =>
      if bool_decide (c = "/"%char) then word ++ path_words_aux "" s
      else path_words_aux (cur +:+ String c "") s
  end.
Definition path_words : string -> list string := path_words_aux "".

Lemma squeeze_words prev cur s :
  (prev = true -> cur = "") -> path_words_aux cur (squeeze prev s) = path_words_aux cur s.
Proof.
  revert prev cur. induction s as [|c s IH]; intros prev cur Hp; [done|]. cbn [squeeze path_words_aux].
  case_bool_decide as C.
  - destruct prev; cbn [path_words_aux].
    + rewrite IH //. rewrite Hp //.
    + rewrite bool_decide_eq_true_2 // IH //.
  - cbn [path_words_aux]. rewrite bool_decide_eq_false_2 // IH //.
Qed.

(** [cleanPath] only removes slashes that follow a slash: the result has no empty
    part inside, a path without one is unchanged, and the parts stay the same. *)
Theorem cleanPath_correct p :
  contains (cleanPath p) "//" = false /\ (contains p "//" = false -> cleanPath p = p) /\
  path_words (cleanPath p) = path_words p /\ cleanPath (cleanPath p) = cleanPath p.
Proof.
  split_and!.
  - apply squeeze_clean.
  - intros N. by apply squeeze_id.
  - by apply squeeze_words.
  - apply squeeze_id; [apply squeeze_clean|done].
Qed.

Definition no_newline (s : string) : bool := sforall (fun c => negb (code c =? 10)) s.

Lemma squeeze_no_newline prev s : no_newline s = true -> no_newline (squeeze prev s) = true.
Proof.
  revert prev. induction s as [|c s IH]; intros prev; [done|]. unfold no_newline in *. cbn [squeeze sforall].
  intros [Hc Hs]%andb_true_iff. destruct (bool_decide _); [destruct prev|]; cbn [sforall]; by rewrite ?Hc IH.
Qed.

Lemma squeeze_rooted s : has_prefix s "/" = true -> has_prefix (squeeze false s) "/" = true.
Proof.
  destruct s as [|c s]; [done|]. rewrite has_prefix_cons. intros [C%bool_decide_eq_true _]%andb_true_iff.
  subst. cbn [squeeze]. rewrite bool_decide_eq_true_2 // has_prefix_cons has_prefix_nil. by rewrite bool_decide_eq_true_2.
Qed.

(** ** Lemmas: routing *)

Lemma match_lit s path : match_pieces [PLit s] path = true <-> path = s.
Proof.
  cbn [match_pieces]. destruct (cut_prefix path s) as [r|] eqn:E.
  - apply cut_prefix_spec in E. subst. rewrite bool_decide_eq_true. split; intros H; [by subst; rewrite append_nil_r|].
    apply (inj (String.append s)). by rewrite append_nil_r.
  - split; [done|]. intros ->. assert (cut_prefix s s = Some "") as X by (apply cut_prefix_spec; by rewrite append_nil_r).
    by rewrite X in E.
Qed.

(** The first literal piece fixes how a path begins. *)
Lemma match_prefix s ps path : match_pieces (PLit s :: ps) path = true <-> exists r, path = s +:+ r /\ match_pieces ps r = true.
Proof.
  cbn [match_pieces]. destruct (cut_prefix path s) as [r|] eqn:E.
  - apply cut_prefix_spec in E. subst. split; [eauto|]. by intros (r' & <-%(inj (String.append s)) & H).
  - split; [done|]. intros (r & Er & _). apply cut_prefix_spec in Er. congruence.
Qed.

(** One segment, to the end of the path. *)
Lemma match_segment path :
  match_pieces [PSeg; PLit ""] path = true <-> path <> "" /\ sforall (fun c => negb (bool_decide (c = "/"%char))) path = true.
Proof.
  induction path as [|c r IH]; [by split; [|intros [? _]]|].
  change (match_pieces [PSeg; PLit ""] (String c r)) with
    (negb (bool_decide (c = "/"%char)) && (match_pieces [PLit ""] r || match_pieces [PSeg; PLit ""] r)).
  cbn [sforall]. destruct (negb (bool_decide (c = "/"%char))); [|by split; [|intros []]]. simpl andb.
  rewrite orb_true_iff match_lit IH. split.
  - intros [->|[_ H]]; done.
  - intros [_ H]. destruct r; [by left|by right].
Qed.

(** The pieces of a matched path: one text per piece, which together are the path. *)
Lemma join_empty_cons t l : join "" (t :: l) = t +:+ join "" l.
Proof. destruct l; [by rewrite append_nil_r|done]. Qed.

(** [o] are texts of the pieces [ps] that make up [s], if [m] says there are any. *)
Definition split_into (ps : list piece) (s : string) (o : option (list string)) (m : bool) : Prop :=
  match o with
  | Some ts => m = true /\ length ts = length ps /\ s = join "" ts
  | None => m = false
  end.

Lemma split_cons p ps t s o m : split_into ps s o m -> split_into (p :: ps) (t +:+ s) (cons t <$> o) m.
Proof.
  destruct o as [ts|]; [|done]. intros (M & L & ->). cbn [fmap option_fmap option_map split_into].
  rewrite join_empty_cons. by split_and!; [|simpl; rewrite L|].
Qed.

(** Taking one more character, or else the alternative. *)
Lemma split_more p ps c s o m o' m' :
  split_into (p :: ps) s o m -> split_into (p :: ps) (String c s) o' m' ->
  split_into (p :: ps) (String c s) (match o with Some (t :: ts) => Some (String c t :: ts) | _ => o' end) (m' || m).
Proof.
  destruct o as [[|t ts]|]; [by intros (_ & ? & _)| |by intros ->; rewrite orb_false_r].
  rewrite /split_into !join_empty_cons. intros (-> & L & ->) _. by rewrite orb_true_r.
Qed.

Lemma captures_pieces ps s : split_into ps s (captures ps s) (match_pieces ps s).
Proof.
  revert s. induction ps as [|p ps IH]; intros s; cbn [captures match_pieces].
  { by case_bool_decide. }
  destruct p as [l| | |l].
  - destruct (cut_prefix s l) as [r|] eqn:E; [|done]. apply cut_prefix_spec in E. subst. by apply split_cons.
  - induction s as [|c r IHs]; [done|]. destruct (bool_decide (c = "/"%char)); [done|]. cbn [negb andb].
    apply split_more; [done|]. by apply (split_cons PSeg ps (String c "")).
  - induction s as [|c r IHs]; [rewrite orb_false_r; by apply (split_cons PAll ps "")|].
    apply (split_more PAll ps c r _ _ _ (match_pieces ps (String c r)));
      [by destruct (code c =? 10)|by apply (split_cons PAll ps "")].
  - pose proof (split_cons (POpt l) ps "" s _ _ (IH s)) as S.
    destruct (cut_prefix s l) as [r|] eqn:E; cbn [mbind option_bind]; [|by rewrite orb_false_r].
    apply cut_prefix_spec in E. subst. pose proof (split_cons (POpt l) ps l r _ _ (IH r)) as T.
    destruct (captures ps r) as [ts|]; [|by rewrite (T : match_pieces ps r = false) orb_false_r].
    destruct T as (-> & L & E). by rewrite orb_true_r.
Qed.

(** The path a template stands for, given its variables. *)
Definition rebuild (l : list (option string * list piece)) (vars : gmap string string) : string :=
  join "" ((fun '(name, ps) => match name with
                               | Some x => default "" (vars !! x)
                               | None => join "" (omap (fun p => match p with PLit t => Some t | _ => None end) ps)
                               end) <$> l).

Lemma join_empty_app l1 l2 : join "" (l1 ++ l2) = join "" l1 +:+ join "" l2.
Proof.
  induction l1 as [|t l1 IH]; [done|]. cbn [app]. by rewrite !join_empty_cons IH append_assoc.
Qed.

Lemma extractVars_other l ts out x : x ∉ omap fst l -> extractVars l ts out !! x = out !! x.
Proof.
  revert ts out. induction l as [|[[y|] ps] l IH]; intros ts out; [done|..]; cbn [omap list_omap fst extractVars].
  - rewrite not_elem_of_cons. intros [N ?]. by rewrite IH // lookup_insert_ne.
  - intros ?. by rewrite IH.
Qed.

(** A part that is no variable is literal text. *)
Definition literal_parts (l : list (option string * list piece)) : Prop :=
  Forall (fun '(name, ps) => match name with None => exists t, ps = [PLit t] | Some _ => True end) l.

Lemma template_parts_literal n s l : template_parts n s = Some l -> literal_parts l.
Proof.
  revert s l. induction n as [|n IH]; intros s l; [done|]. cbn [template_parts].
  destruct (cut "{" s) as [[text rest]|].
  2: { destruct (contains s "}"); [done|]. intros [= <-]. repeat constructor. by exists s. }
  destruct (cut "}" rest) as [[v rest']|]; cbn; [|done]. destruct (contains text "}"); [done|].
  destruct (variable_pieces v) as [[name var]|]; cbn; [|done].
  destruct (template_parts n rest') as [l'|] eqn:E; cbn; [|done]. intros [= <-].
  constructor; [by exists text|]. constructor; [done|]. by eapply IH.
Qed.

(** What a piece may match. *)
Definition piece_text (p : piece) (t : string) : Prop :=
  match p with
  | PLit l => t = l
  | POpt l => t = l \/ t = ""
  | PSeg => t <> "" /\ sforall (fun c => negb (bool_decide (c = "/"%char))) t = true
  | PAll => no_newline t = true
  end.

Lemma texts_cons p ps t o ts :
  piece_text p t -> (forall ts', o = Some ts' -> Forall2 piece_text ps ts') ->
  cons t <$> o = Some ts -> Forall2 piece_text (p :: ps) ts.
Proof. intros P F. destruct o as [ts'|]; [|done]. intros [= <-]. constructor; auto. Qed.

Lemma captures_texts ps s ts : captures ps s = Some ts -> Forall2 piece_text ps ts.
Proof.
  revert s ts. induction ps as [|p ps IH]; intros s ts; cbn [captures].
  { case_bool_decide; [|done]. intros [= <-]. constructor. }
  destruct p as [l| | |l].
  - destruct (cut_prefix s l) as [r|]; [|done]. apply texts_cons; [done|]. intros ts'. apply IH.
  - revert ts. induction s as [|c r IHs]; intros ts; [done|]. destruct (bool_decide (c = "/"%char)) eqn:C; [done|].
    assert (piece_text PSeg (String c "")) as P by (split; [done|]; cbn [sforall]; by rewrite C).
    destruct ((fix seg (s : string) : option (list string) := _) r) as [[|t ts0]|];
      [by specialize (IHs _ eq_refl); inversion IHs| |apply texts_cons; [done|]; intros ts'; apply IH].
    intros [= <-]. specialize (IHs _ eq_refl). apply Forall2_cons in IHs as [[Nt St] F].
    constructor; [|done]. split; [done|]. cbn [sforall]. by rewrite C.
  - revert ts. induction s as [|c r IHs]; intros ts.
    { apply texts_cons; [done|]. intros ts'. apply IH. }
    destruct (code c =? 10) eqn:C; [apply texts_cons; [done|]; intros ts'; apply IH|].
    destruct ((fix all (s : string) : option (list string) := _) r) as [[|t ts0]|];
      [by specialize (IHs _ eq_refl); inversion IHs| |apply texts_cons; [done|]; intros ts'; apply IH].
    intros [= <-]. specialize (IHs _ eq_refl). apply Forall2_cons in IHs as [St F].
    constructor; [|done]. unfold piece_text, no_newline in *. cbn [sforall]. by rewrite C.
  - destruct (cut_prefix s l ≫= captures ps) as [ts0|] eqn:E.
    + intros [= <-]. constructor; [by left|]. destruct (cut_prefix s l) as [r|]; [|done]. by apply (IH r).
    + apply texts_cons; [by right|]. intros ts'. apply IH.
Qed.

Lemma extractVars_rebuild l ts out :
  literal_parts l -> NoDup (omap fst l) -> Forall2 piece_text (part_pieces l) ts ->
  rebuild l (extractVars l ts out) = join "" ts.
Proof.
  revert ts out. induction l as [|[name ps] l IH]; intros ts out Lit Nd F.
  { by inversion F. }
  apply Forall2_app_inv_l in F as (t1 & t2 & F1 & F2 & ->). apply Forall_cons in Lit as [L1 Lit].
  pose proof (Forall2_length _ _ _ F1) as Len. cbn [extractVars].
  rewrite (take_app_length' t1) // (drop_app_length' t1) // join_empty_app. unfold rebuild. cbn [fmap list_fmap].
  rewrite join_empty_cons. destruct name as [x|].
  - cbn [omap list_omap fst] in Nd. apply NoDup_cons in Nd as [Nx Nd].
    rewrite extractVars_other // lookup_insert_eq. f_equal. by apply IH.
  - destruct L1 as [t ->]. apply Forall2_cons_inv_l in F1 as (t' & l' & -> & F1 & ->).
    apply Forall2_nil_inv_l in F1 as ->. f_equal. by apply IH.
Qed.

(** The variables of a route are read off the path: a path that matches a template
    whose variables have different names is the template with the values the router
    hands to the handler in their places. *)
Theorem route_vars_rebuild template path l :
  parts_of template = Some l -> NoDup (omap fst l) -> path_match template path = true ->
  rebuild l (route_vars template path) = path.
Proof.
  intros P Nd M. unfold path_match, compile in M. rewrite P in M. unfold route_vars. rewrite P.
  pose proof (captures_pieces (part_pieces l) path) as C. cbn in M.
  destruct (captures (part_pieces l) path) as [ts|] eqn:E; [|by rewrite (C : _ = false) in M].
  destruct C as (_ & _ & C). rewrite C. apply extractVars_rebuild; [|done|by eapply captures_texts].
  by eapply template_parts_literal.
Qed.

(** The templates of the program are such. *)
Example templates_rebuild :
  forallb (fun rt => match parts_of (rt_Path rt) with Some l => bool_decide (NoDup (omap fst l)) | None => false end)
    (server_routes main_starter "p") = true.
Proof. by vm_compute. Qed.

Lemma match_all path : no_newline path = true -> match_pieces [PAll; PLit ""] path = true.
Proof.
  induction path as [|c r IH]; [done|]. unfold no_newline. cbn [sforall]. intros [Hc Hr]%andb_true_iff.
  change (match_pieces [PAll; PLit ""] (String c r)) with
    (match_pieces [PLit ""] (String c r) || (negb (code c =? 10) && match_pieces [PAll; PLit ""] r)).
  by rewrite Hc IH // orb_true_r.
Qed.

(** With a platform every path is handled: the last route takes it. *)
Lemma main_match_total addr_ method path :
  addr_ <> "" -> has_prefix path "/" = true -> no_newline path = true ->
  exists rt, main_match addr_ method path = MatchedRoute rt.
Proof.
  intros Ha Hp Hn. unfold main_match, server_routes. rewrite bool_decide_eq_false_2 //.
  change (any_route HPlatform <$> PlatformProxyPaths main_starter) with [any_route HPlatform "/{platform-proxy:.*}"].
  rewrite !app_assoc. apply router_Match_last. unfold route_matches.
  change (template_ok (rt_Path (any_route HPlatform "/{platform-proxy:.*}"))) with true.
  cbn [andb rt_Matchers any_route forallb matches]. rewrite andb_true_r. unfold path_match.
  assert (compile "/{platform-proxy:.*}" = Some [PLit "/"; PAll; PLit ""]) as -> by by vm_compute.
  apply match_prefix. destruct path as [|c r]; [done|]. rewrite has_prefix_cons in Hp. bool_to_prop. subst.
  exists r. split; [done|]. apply match_all. unfold no_newline in Hn. cbn [sforall] in Hn. by bool_to_prop.
Qed.

Definition session_route : route handler_kind :=
  method_route HSessions ["GET"; "POST"; "DELETE"] "/v1/exec/sessions/{sessionId}".

Lemma server_routes_handler s a :
  Forall (fun rt => match rt_Handler rt with
                    | HBackend => exists p, p ∈ BackendPaths s /\ rt = method_route HBackend ["GET"] p
                    | HSessions => rt = session_route
                    | _ => True
                    end) (server_routes s a).
Proof.
  unfold server_routes. rewrite !Forall_app. split_and!.
  - repeat constructor.
  - apply Forall_fmap, Forall_forall. intros p Hp. by exists p.
  - by apply Forall_fmap, Forall_true.
  - by apply Forall_fmap, Forall_true.
  - by apply Forall_fmap, Forall_true.
  - case_bool_decide; [constructor|]. rewrite Forall_app. split; by apply Forall_fmap, Forall_true.
Qed.

(** The routes of one method list and one path. *)
Lemma method_route_matches h ms p method path :
  template_ok p = true ->
  route_matches template_ok path_match (method_route h ms p) method path = true <->
  path_match p path = true /\ method ∈ ms.
Proof.
  intros T. unfold route_matches. cbn [rt_Path rt_Matchers method_route forallb matches]. rewrite T. cbn [andb].
  rewrite andb_true_r andb_true_iff bool_decide_eq_true. done.
Qed.

Lemma session_path path :
  path_match "/v1/exec/sessions/{sessionId}" path = true <->
  exists id, path = "/v1/exec/sessions/" +:+ id /\ id <> "" /\
    sforall (fun c => negb (bool_decide (c = "/"%char))) id = true.
Proof.
  unfold path_match. assert (compile "/v1/exec/sessions/{sessionId}" =
    Some [PLit "/v1/exec/sessions/"; PSeg; PLit ""]) as -> by by vm_compute.
  rewrite match_prefix. setoid_rewrite match_segment. done.
Qed.

(** The session route comes third, and the two before it match other paths. *)
Lemma session_first platformAddr method path :
  route_matches template_ok path_match session_route method path = true ->
  main_match platformAddr method path = MatchedRoute session_route.
Proof.
  intros M. pose proof M as M'. apply method_route_matches in M' as [(id & E & _)%session_path _]; [|by vm_compute].
  unfold main_match, server_routes. cbn [app].
  destruct (router_Match_skip template_ok path_match (any_route HVersion "/version")
    (any_route HSwagger "/swaggerapi/api/v1" :: session_route ::
     (method_route HBackend ["GET"] <$> BackendPaths main_starter) ++
     drop (3 + length (BackendPaths main_starter)) (server_routes main_starter platformAddr)) method path false)
    as [m1 E1]; [by rewrite E|].
  destruct (router_Match_skip template_ok path_match (any_route HSwagger "/swaggerapi/api/v1") (session_route ::
     (method_route HBackend ["GET"] <$> BackendPaths main_starter) ++
     drop (3 + length (BackendPaths main_starter)) (server_routes main_starter platformAddr)) method path m1)
    as [m2 E2]; [by rewrite E|].
  etrans; [exact E1|]. etrans; [exact E2|]. by apply router_Match_take.
Qed.

(** C22: The endpoints with privileges of their own are reached by exactly the requests
    meant for them: hosts register by GET on one of the three connectbackend paths
    and nowhere else, and console sessions are handled by GET, POST and DELETE on
    /v1/exec/sessions/ followed by one non-empty path segment, and nothing else. *)
Theorem own_endpoints_exact platformAddr method path :
  (matched (main_match platformAddr method path) = Some HBackend <->
     method = "GET" /\ path ∈ BackendPaths main_starter) /\
  (matched (main_match platformAddr method path) = Some HSessions <->
     method ∈ ["GET"; "POST"; "DELETE"] /\
     exists id, path = "/v1/exec/sessions/" +:+ id /\ id <> "" /\
       sforall (fun c => negb (bool_decide (c = "/"%char))) id = true).
Proof.
  assert (forall h, matched (main_match platformAddr method path) = Some h ->
    exists rt, rt ∈ server_routes main_starter platformAddr /\ rt_Handler rt = h /\
      route_matches template_ok path_match rt method path = true) as Inv.
  { intros h. unfold main_match.
    pose proof (router_Match_spec template_ok path_match (server_routes main_starter platformAddr) method path false) as S.
    destruct (router_Match _ _ _ _ _ _) as [rt| |]; [|done..]. intros [= <-]. destruct S as (l1 & l2 & -> & M & _).
    exists rt. split_and!; [apply elem_of_app; right; left|done|done]. }
  pose proof (server_routes_handler main_starter platformAddr) as F. rewrite -> Forall_forall in F. split; split.
  - intros (rt & Hrt & Hh & M)%Inv. specialize (F rt Hrt). rewrite Hh in F. destruct F as (p & Hp & ->).
    assert (template_ok p = true /\ compile p = Some [PLit p]) as [T C].
    { revert Hp. cbn. rewrite !elem_of_cons. intros [->|[->|[->|[]%not_elem_of_nil]]]; by vm_compute. }
    apply method_route_matches in M as [Pm ->%list_elem_of_singleton]; [|done]. split; [done|].
    unfold path_match in Pm. rewrite C in Pm. apply match_lit in Pm. by subst.
  - intros [-> Hp]. revert Hp. cbn [BackendPaths main_starter]. rewrite !elem_of_cons.
    intros [->|[->|[->|[]%not_elem_of_nil]]]; by vm_compute.
  - intros (rt & Hrt & Hh & M)%Inv. specialize (F rt Hrt). rewrite Hh in F. subst rt.
    apply method_route_matches in M as [Pm Hm]; [|by vm_compute]. split; [done|]. by apply session_path.
  - intros [Hm Hp%session_path]. rewrite session_first //. apply method_route_matches; [by vm_compute|done].
Qed.

Lemma clean_request_path req : Path (URL (clean_request req)) = cleanPath (Path (URL req)).
Proof. unfold clean_request. by case_bool_decide. Qed.

(** Where a request may end: here, if there is no master or the handler is not one
    of those that follow it (with a client certificate, only at the HTTP frontend);
    at the master in force; or at a redirect to another path.  Never at 404 or
    405. *)
Definition well_routed (s : Switcher) (req : request) (t : target) : Prop :=
  match t with
  | Local h req' => (wrapped h = true -> lookupHandler s = None) /\ PeerCommonNames req' = PeerCommonNames req /\
      (forall cn l, PeerCommonNames req = Some (cn :: l) -> h = HFrontendHTTP)
  | Master p req' => lookupHandler s = Some p /\ PeerCommonNames req' = PeerCommonNames req
  | RedirectTo path => path <> cleanPath (Path (URL req))
  | NotFound404 | NotAllowed405 => False
  end.

Lemma serve_handler_routed s h req r :
  PeerCommonNames r = PeerCommonNames req ->
  (forall cn l, PeerCommonNames req = Some (cn :: l) -> h = HFrontendHTTP) ->
  well_routed s req (serve_handler s h r).
Proof.
  intros E C. unfold serve_handler, Wrap. destruct (wrapped h) eqn:W; [|by split_and!; [rewrite W|..]].
  destruct (lookupHandler s) eqn:L; [done|]. by split_and!.
Qed.

Lemma serve_path_routed platformAddr s req :
  platformAddr <> "" -> has_prefix (Path (URL req)) "/" = true -> no_newline (Path (URL req)) = true ->
  (forall cn l, PeerCommonNames req <> Some (cn :: l)) ->
  well_routed s req (serve_path (server_routes main_starter platformAddr) s req).
Proof.
  intros Ha Hp Hn Nc. unfold serve_path. rewrite clean_request_path.
  destruct (bool_decide (mux_cleanPath _ = _)) eqn:C; cbn [negb]; bool_to_prop; [|done].
  destruct (main_match_total platformAddr (Method (clean_request req)) (cleanPath (Path (URL req)))) as [rt E];
    [done|by apply squeeze_rooted|by apply squeeze_no_newline|].
  unfold main_match in E. rewrite E. apply serve_handler_routed.
  - unfold clean_request. by destruct (bool_decide _).
  - intros cn l X. by destruct (Nc cn l).
Qed.

(** With a platform configured every request is well routed. *)
Lemma request_routing platformAddr s req :
  platformAddr <> "" -> has_prefix (Path (URL req)) "/" = true -> no_newline (Path (URL req)) = true ->
  well_routed s req (SwarmHandler_ServeHTTP (server_routes main_starter platformAddr) s req).
Proof.
  intros Ha Hp Hn. unfold SwarmHandler_ServeHTTP. destruct (PeerCommonNames req) as [[|cn l]|] eqn:E.
  - apply serve_path_routed; [done..|]. by rewrite E.
  - by apply serve_handler_routed.
  - apply serve_path_routed; [done..|]. by rewrite E.
Qed.

(** ** The master file *)

(** What one reading of the master file says: nothing ([None]), that there is no
    master, or its address. *)
Definition master_address (f : master_file) : option (option string) :=
  match f with
  | Missing => Some None
  | Unreadable _ => None
  | Opened (mkReader data None) None =>
      if maxMasterAddressBytes <? go_len data then None
      else if bool_decide (trim_space data = "") then Some None
      else if is_Ok (controlPlatformBaseURL (trim_space data)) then Some (Some (trim_space data)) else None
  | Opened _ _ => None
  end.
Definition next_master (m : option string) (f : master_file) : option string :=
  default m (master_address f).

(** The state a master stands for. *)
Definition switched (m : option string) (s : Switcher) : Prop :=
  match m with
  | None => s = mkSwitcher None ""
  | Some a => a <> "" /\ exists p, newWSProxy a [] None = Ok p /\ s = mkSwitcher (Some p) a
  end.

Lemma clear_switched m s : switched m s -> clear s = mkSwitcher None "".
Proof.
  unfold clear. destruct m as [a|]; simpl; [|by intros ->].
  by intros (N & p & _ & ->).
Qed.

Lemma readConfig_switched m f s :
  switched m s -> switched (next_master m f) (fst (readConfig f s)).
Proof.
  intros I. pose proof (clear_switched _ _ I) as C. unfold next_master. destruct f as [|e|[data err] close];
    cbn -[trim_space read_limited maxMasterAddressBytes controlPlatformBaseURL]; [done|done|].
  destruct (read_limited _ _) as [bytes|e] eqn:R.
  - destruct close as [e|]; [by destruct err|]. destruct (_ <? go_len bytes) eqn:L.
    + destruct err as [e|]; [done|]. bool_to_prop. pose proof (read_limited_beyond _ _ _ R L) as B. cbn [r_data] in B.
      by rewrite (proj2 (Z.ltb_lt _ _) B).
    + bool_to_prop. destruct (read_limited_within maxMasterAddressBytes (mkReader data err) bytes) as [-> E];
        [done|done|done|]. cbn [r_data r_error] in *. subst err. rewrite (proj2 (Z.ltb_ge _ _)) //.
      destruct (bool_decide (trim_space data = "")) eqn:T; [done|]. bool_to_prop. unfold newWSProxy.
      destruct (bool_decide (addr s = trim_space data)) eqn:A; bool_to_prop.
      * destruct m as [a|]; [|by simpl in I; subst]. destruct I as (Na & p & P & ->). simpl in A. subst a.
        unfold newWSProxy in P. destruct (controlPlatformBaseURL _) as [b|] eqn:B; [|done]. simpl.
        split; [done|]. unfold newWSProxy. rewrite B. by exists p.
      * destruct (controlPlatformBaseURL _) as [b|] eqn:B; [|done]. simpl. split; [done|].
        unfold newWSProxy. rewrite B. by eexists.
  - unfold read_limited in R. destruct (_ <=? _); [done|]. by destruct err as [e'|].
Qed.

(** C20: The switcher implements its specification: after any number of readings of the
    master file the requests go to the address of the last conclusive one (a
    missing or empty file means this server itself), through a proxy built for that
    address; an unreadable, oversized or invalid file changes nothing. *)
Theorem switcher_follows_master_file masterFile rounds :
  masterFile <> "" ->
  let m := foldl next_master None rounds in
  let s := switcher_start masterFile rounds in
  addr s = default "" m /\
  match m with
  | None => lookupHandler s = None
  | Some a => exists base, controlPlatformBaseURL a = Ok base /\
      lookupHandler s = Some (mkWS (Host base) (Some (Scheme base, Host base)) [] None)
  end.
Proof.
  intros N m s. assert (switched m s) as I.
  { unfold m, s, switcher_start. rewrite bool_decide_eq_false_2 //.
    assert (switched None new_switcher) as I0 by done. revert I0.
    generalize (None : option string) new_switcher. induction rounds as [|f rounds IH]; intros m0 s0 I0; [done|].
    cbn [foldl]. by apply IH, readConfig_switched. }
  destruct m as [a|]; simpl in I.
  - destruct I as (_ & p & P & ->). split; [done|]. apply bind_Ok in P as (base & B & E). injection E as <-. by exists base.
  - rewrite I. done.
Qed.

(** ** WebSockets to the platform *)

(** When the connection to the browser cannot be taken over, the connection already
    dialled to the platform is never closed; once it is taken over, both are closed
    whatever happens. *)
Theorem websocket_dial_leak e :
  dial_ok e = true ->
  (is_hijacker e && hijack_ok e = false -> d_open (serveWebsocket e) = true /\ d_closed (serveWebsocket e) = false) /\
  (is_hijacker e && hijack_ok e = true -> d_closed (serveWebsocket e) = true /\ nc_closed (serveWebsocket e) = true).
Proof. unfold serveWebsocket. intros ->. simpl. by destruct (is_hijacker e), (hijack_ok e). Qed.

(** ** Start-up *)

Definition listen_address {K Pool} (l : listener K Pool) : string :=
  match l with TCPListener a _ | SplitListener a _ _ | TLSListener a _ _ => a end.
Definition listen_trusted {K Pool} (l : listener K Pool) : list IPNet :=
  match l with TCPListener _ t | SplitListener _ t _ | TLSListener _ t _ => t end.
Definition listen_tls {K Pool} (l : listener K Pool) : option (tlsConfig K Pool) :=
  match l with TCPListener _ _ => None | SplitListener _ _ c | TLSListener _ _ c => Some c end.

Section StartProps.
Context {K Pool : Type} (key_pair : string -> string -> result string K) (append_certs : string -> option Pool)
  (listen : string -> option string)
  (exchange : list platform_request -> platform_request -> result string client_response)
  (zip_reader : string -> result string (list zip_file)) (file_missing : string -> bool)
  (open_file : string -> result string reader)
  (loaded : result string (gmap string APIFilter)).

Abbreviation certs_of := (GetCerts exchange zip_reader).
Abbreviation start := (StartProxy (K := K) (Pool := Pool) key_pair append_certs listen
   exchange zip_reader file_missing
  open_file loaded).
Abbreviation listeners_of := (start_listeners (K := K) (Pool := Pool) key_pair append_certs listen
   exchange zip_reader).
Abbreviation tls_of := (setupTLS (K := K) (Pool := Pool) key_pair append_certs
  exchange zip_reader).

(** A TLS configuration that is safe to serve: TLS 1.2 at least, the certificate and
    the client authorities of an archive downloaded with the access key, by the
    requests that led from [sent] to [sent']. *)
Definition tls_sound (c : Config) (sent sent' : list platform_request) (t : tlsConfig K Pool) : Prop :=
  PlatformAccessKey c <> "" /\
  exists certs k pool, certs_of c sent = (sent', Ok certs) /\ key_pair (Cert certs) (Key certs) = Ok k /\
    append_certs (CA certs) = Some pool /\ t = mkTLS K Pool VersionTLS12 VerifyClientCertIfGiven pool [k].

Lemma setupTLS_sound c sent sent' t : tls_of c sent = (sent', Ok t) -> tls_sound c sent sent' t.
Proof.
  unfold setupTLS. destruct (bool_decide (PlatformAccessKey c = "")) eqn:A; [done|]. bool_to_prop.
  intros (certs & sent1 & G & N)%comm_bind_Ok. split; [done|]. rewrite G. injection N as -> N. revert N.
  unfold newServerTLSConfig. destruct (key_pair _ _) as [k|] eqn:Ek; [|done].
  destruct (append_certs _) as [pool|] eqn:Ep; [|done]. intros [= <-]. by exists certs, k, pool.
Qed.

(** The addresses the server listens on: the plain one, and the TLS one if it is
    another. *)
Definition listen_addresses (c : Config) : list string :=
  if bool_decide (TLSListenAddr c = "" \/ TLSListenAddr c = ListenAddr c) then [ListenAddr c]
  else [ListenAddr c; TLSListenAddr c].

Lemma start_listeners_Ok c sent sent' ls :
  listeners_of c sent = (sent', Ok ls) ->
  listen_address <$> ls = listen_addresses c /\
  Forall (fun l => listen_trusted l = TrustedProxyCIDRs c) ls /\
  (TLSListenAddr c <> "" <-> exists l, l ∈ ls /\ is_Some (listen_tls l)) /\
  (forall l t, l ∈ ls -> listen_tls l = Some t -> listen_address l = TLSListenAddr c /\ tls_sound c sent sent' t).
Proof.
  unfold start_listeners, listen_addresses. destruct (listen (ListenAddr c)); [done|].
  destruct (bool_decide (TLSListenAddr c = "")) eqn:T; bool_to_prop.
  - intros [= _ <-]. rewrite bool_decide_eq_true_2; [|by left]. split_and!; [done|by repeat constructor| |].
    + split; [done|]. by intros (l & ->%list_elem_of_singleton & [? ?]).
    + by intros l t ->%list_elem_of_singleton.
  - intros (t & sent1 & M & E)%comm_bind_Ok. unfold map_error in M.
    destruct (tls_of c sent) as [sent2 [t'|]] eqn:S; [|done]. injection M as -> ->. apply setupTLS_sound in S.
    destruct (bool_decide (TLSListenAddr c = ListenAddr c)) eqn:L; bool_to_prop.
    + injection E as <- <-. rewrite bool_decide_eq_true_2; [|by right].
      split_and!; [done|by repeat constructor| |].
      * split; [|done]. intros _. eexists. split; [by left|]. by eexists.
      * intros l t' ->%list_elem_of_singleton [= <-]. by rewrite L.
    + destruct (listen (TLSListenAddr c)); [done|]. injection E as <- <-.
      rewrite bool_decide_eq_false_2; [|by intros [|]]. split_and!; [done|by repeat constructor| |].
      * split; [|done]. intros _. eexists. split; [by right; left|]. by eexists.
      * intros l t' [->| ->%list_elem_of_singleton]%elem_of_cons; [done|]. by intros [= <-].
Qed.

Lemma newPlatformProxies_Ok (c : Config) i w :
  newPlatformProxies file_missing open_file loaded c = Ok (i, w) ->
  PlatformAddr c <> "" /\ ws_addr w = PlatformAddr c.
Proof.
  unfold newPlatformProxies, NewInterceptor, newRouter.
  destruct (bool_decide (PlatformAddr c = "")) eqn:A; [done|]. bool_to_prop.
  destruct (match url_parse _ with Some _ => _ | None => _ end) as [i'|]; [|done]. by intros [= <- <-].
Qed.

(** Starting the server sends requests only for the certificates, only to the host
    and port of the configured platform, and all of them with the configured access
    key, whatever the platform answers. *)
Lemma startup_requests s c :
  sends_only (fun q => exists base, controlPlatformBaseURL (PlatformAddr c) = Ok base /\ same_host base q /\
                pq_BasicAuth q = Some (PlatformAccessKey c, PlatformSecretKey c)) (start s c).
Proof.
  unfold StartProxy. destruct (newTokenLookup _); [|auto with proxy].
  destruct (newPlatformProxies _ _ _ _) as [[i w]|]; [|auto with proxy]. apply sends_only_bind; [|auto with proxy].
  unfold start_listeners. destruct (listen _); [auto with proxy|]. case_bool_decide; [auto with proxy|].
  apply sends_only_bind.
  - apply sends_only_map_error. unfold setupTLS. case_bool_decide; [auto with proxy|].
    apply sends_only_bind; [apply downloads_same_host|auto with proxy].
  - intros t. case_bool_decide; [auto with proxy|]. destruct (listen _); auto with proxy.
Qed.

Lemma StartProxy_Ok s c sent sent' sv :
  start s c sent = (sent', Ok sv) ->
  PlatformAddr c <> "" /\ sv_routes sv = server_routes s (PlatformAddr c) /\
  is_Ok (controlPlatformBaseURL (PlatformAddr c)) = true /\
  listeners_of c sent = (sent', Ok (sv_listeners sv)).
Proof.
  unfold StartProxy, newTokenLookup. destruct (controlPlatformBaseURL _) as [base|]; [|done]. simpl.
  destruct (newPlatformProxies _ _ _ _) as [[i w]|] eqn:P; [|done]. apply newPlatformProxies_Ok in P as [A _].
  intros (ls & sent1 & L & [= -> <-])%comm_bind_Ok. done.
Qed.

(** A server that starts is configured as promised: its platform address is a valid
    one (the configuration alone would accept none at all); it listens on the
    addresses of the configuration, every listener trusts the configured networks
    and no other; it offers TLS exactly if a TLS address is given, on that address,
    version 1.2 at least, with the certificate and the client authorities of an
    archive downloaded with the access key. *)
Theorem started_server_sound s c sent sent' sv :
  start s c sent = (sent', Ok sv) ->
  PlatformAddr c <> "" /\ is_Ok (controlPlatformBaseURL (PlatformAddr c)) = true /\
  listen_address <$> sv_listeners sv = listen_addresses c /\
  Forall (fun l => listen_trusted l = TrustedProxyCIDRs c) (sv_listeners sv) /\
  (TLSListenAddr c <> "" <-> exists l, l ∈ sv_listeners sv /\ is_Some (listen_tls l)) /\
  (forall l t, l ∈ sv_listeners sv -> listen_tls l = Some t -> listen_address l = TLSListenAddr c /\ tls_sound c sent sent' t).
Proof. intros (A & _ & B & L)%StartProxy_Ok. apply start_listeners_Ok in L. done. Qed.

(** Every request to a server that started is served, by one server.  Whatever the
    method and the path (rooted, without line breaks), a request is never answered
    404 or 405 by the router; console, statistics, service and backend requests,
    and all requests with a client certificate, are handled here only when there is
    no other master, and by the master in force otherwise; a request with a client
    certificate that is handled here goes to the HTTP frontend. *)
Theorem started_server_routes c sent sent' sv sw req :
  start main_starter c sent = (sent', Ok sv) ->
  has_prefix (Path (URL req)) "/" = true -> no_newline (Path (URL req)) = true ->
  well_routed sw req (SwarmHandler_ServeHTTP (sv_routes sv) sw req).
Proof. intros (A & -> & _)%StartProxy_Ok Hp Hn. by apply request_routing. Qed.

(** C16: The program as a whole, from its arguments to the serving loop: when it serves,
    it first made its configuration, then its listeners.  Every request it sent went
    to the host and port of the platform address it was given: those for the
    verification key without credentials, and after them those for the certificates
    with the configured access key.  The key that verifies tickets is an RSA key of
    at least 2048 bits.  TLS is offered exactly if a TLS address is given, on that
    address, version 1.2 at least, with the certificate and the client authorities
    of the archive these last requests downloaded. *)
Theorem program_starts_safely getenv pem_decode parse_pkix
  flag_args args sent sent' c sv :
  main flag_args (GetConfig getenv pem_decode parse_pkix open_file
    exchange) start args sent = (sent', Ok (Some (c, sv))) ->
  versionRequested args = false /\
  (exists base key_requests cert_requests, controlPlatformBaseURL (PlatformAddr c) = Ok base /\
     sent' = sent ++ key_requests ++ cert_requests /\
     GetConfig getenv pem_decode parse_pkix open_file exchange (flag_args args) sent = (sent ++ key_requests, Ok c) /\
     start main_starter c (sent ++ key_requests) = (sent', Ok sv) /\
     Forall (fun q => same_host base q /\ pq_BasicAuth q = None) key_requests /\
     Forall (fun q => same_host base q /\ pq_BasicAuth q = Some (PlatformAccessKey c, PlatformSecretKey c)) cert_requests /\
     (TLSListenAddr c <> "" <-> exists l, l ∈ sv_listeners sv /\ is_Some (listen_tls l)) /\
     (forall l t, l ∈ sv_listeners sv -> listen_tls l = Some t ->
        listen_address l = TLSListenAddr c /\ tls_sound c (sent ++ key_requests) sent' t)) /\
  (exists n e, PublicKey c = RSAKey (Some n) e /\ 2048 <= BitLen n) /\
  sv_routes sv = server_routes main_starter (PlatformAddr c).
Proof.
  unfold main. destruct (versionRequested args); [by intros [=]|].
  intros (c' & s1 & G & H)%comm_bind_Ok. apply comm_bind_Ok in H as (sv' & s2 & S & E). injection E as -> -> ->.
  unfold map_error in G. destruct (GetConfig _ _ _ _ _ _ _) as [s3 [c''|]] eqn:Gc; [|done].
  injection G as -> ->. destruct (GetConfig_Ok _ _ _ _ _ _ _ _ _ Gc) as (Hk & new1 & -> & F1).
  pose proof (startup_requests main_starter c (sent ++ new1)) as (new2 & E2 & F2). rewrite S in E2. simpl in E2. subst.
  destruct (StartProxy_Ok _ _ _ _ _ S) as (_ & R & B & L). destruct (controlPlatformBaseURL _) as [base|] eqn:Eb; [|done].
  apply start_listeners_Ok in L as (_ & _ & O & T). split; [done|]. split; [|done].
  exists base, new1, new2. split; [done|]. split; [by rewrite app_assoc|]. split; [done|]. split; [done|]. split.
  { eapply Forall_impl; [exact F1|]. naive_solver. }
  split; [|done]. eapply Forall_impl; [exact F2|]. naive_solver.
Qed.
End StartProps.

(** ** Trusted peers *)

(** An address is in the network [value] denotes: it shares as many leading bits
    with the address before the slash as the number after it says; a network that
    is wider than the block of IPv4-mapped addresses does not reach into it. *)
Definition in_cidr (value : string) (ip : IP) : Prop :=
  exists address mask a p, cut "/" value = Some (address, mask) /\ ParseAddr address = Some a /\ dtoi mask = Some p /\
    let ones := p + (128 - GoNet.BitLen a) in same_prefix ones ip (As16 a) /\ (ones < 96 -> Is4 ip = false).

Lemma ParseCIDR_parts s n :
  ParseCIDR s = Some n ->
  exists address mask a p, cut "/" s = Some (address, mask) /\ ParseAddr address = Some a /\ dtoi mask = Some p.
Proof.
  unfold ParseCIDR. destruct (cut "/" s) as [[address mask]|]; [|done].
  intros (a & A & H)%bind_Some. destruct (negb _); [done|]. apply bind_Some in H as (p & D & _).
  by exists address, mask, a, p.
Qed.

Lemma Contains_in_cidr value n ip : ParseCIDR value = Some n -> ip16 ip -> Contains n ip = true <-> in_cidr value ip.
Proof.
  intros P I. split.
  - intros H. destruct (ParseCIDR_parts _ _ P) as (address & mask & a & p & C & A & D). exists address, mask, a, p.
    split; [done|]. split; [done|]. split; [done|]. by apply (ParseCIDR_contains value address mask a p n ip).
  - intros (address & mask & a & p & C & A & D & H). by apply (ParseCIDR_contains value address mask a p n ip).
Qed.

(** C40: Who may speak the PROXY protocol, from the text of the flag to the accepted
    connection: with networks configured, a connection is allowed to announce a
    client exactly if the address of its peer, in its 4-byte or 16-byte form, is in
    one of them; with none, exactly if it is local. *)
Theorem trusted_peers_exact raw nets addr address input ip :
  parseTrustedProxyCIDRs raw = Ok nets -> To16 (peer_ip address) = Some ip -> ip16 ip ->
  allow (accept (Some <$> nets) addr address input) = true <->
  (exists value, value ∈ cidr_values raw /\ in_cidr value ip) \/ cidr_values raw = [] /\ IsLoopback ip = true.
Proof.
  intros E P I. pose proof (parseTrustedProxyCIDRs_values raw) as F. rewrite E in F.
  unfold accept, newConn, trustedProxySource. cbn [allow].
  rewrite bool_decide_eq_false_2; [|by intros N; rewrite N in P]. rewrite (IsLoopback_To16 _ _ P).
  assert (forall n, Contains n ip = Contains n (peer_ip address)) as C by by intros n; apply Contains_To16.
  destruct nets as [|n nets]; [apply Forall2_nil_inv_r in F as ->; set_solver|].
  change (match Some <$> n :: nets with [] => _ | _ => ?x end) with x.
  rewrite existsb_exists. split.
  - intros (on & (m & -> & M)%list_elem_of_In%list_elem_of_fmap & Cm). left. rewrite -C in Cm.
    apply list_elem_of_lookup_1 in M as [k M]. destruct (Forall2_lookup_r _ _ _ _ _ F M) as (value & V & Pv).
    exists value. apply list_elem_of_lookup_2 in V. split; [done|].
    by apply (Contains_in_cidr value m).
  - intros [(value & V & H)|[N _]]; [|by rewrite N in F; apply Forall2_nil_inv_l in F].
    apply list_elem_of_lookup_1 in V as [k V]. destruct (Forall2_lookup_l _ _ _ _ _ F V) as (m & M & Pv).
    exists (Some m). apply list_elem_of_lookup_2 in M.
    split; [by apply list_elem_of_In, list_elem_of_fmap_2|]. rewrite -C. by apply (Contains_in_cidr value m).
Qed.

(** ** Witnesses *)

Module ServerDemo.
Definition config (tls_address : string) : Config :=
  mkConfig (RSAKey (Some (2 ^ 2047)) 65537) ":80" "platform:8080" 0 {[443]} [mkIPNet [10; 0; 0; 0] [255; 0; 0; 0]] None
    "access" "secret" tls_address "/etc/master" "" "en-US".
Definition run (tls_address : string) :=
  StartProxy (fun cert key => Ok (cert, key)) Some (fun _ => None) (ConfigDemo.exchange "/creds")
    ConfigDemo.zip (fun _ => true) (fun _ => Err "no such file") (Ok ∅) main_starter
    (config tls_address) [].
(** The whole program; the platform serves its key and its certificates. *)
Definition getenv (name : string) : string :=
  if bool_decide (name = "CATTLE_ACCESS_KEY") then "access" else if bool_decide (name = "CATTLE_SECRET_KEY") then "secret" else "".
Definition program (args : list string) :=
  main (fun _ => [("platform-address", "platform:8080"); ("tls-listen-address", ":8080")])
    (GetConfig getenv Some ConfigDemo.pkix (fun _ => Err "no such file") (ConfigDemo.exchange "/creds"))
    (StartProxy (fun cert key => Ok (cert, key)) Some (fun _ => None) (ConfigDemo.exchange "/creds")
       ConfigDemo.zip (fun _ => true) (fun _ => Err "no such file") (Ok ∅)) args [].
Definition get (path : string) : request :=
  mkRequest "GET" (path_url path) "proxy" "10.0.0.1:1" ∅ None ∅.
Definition contents (s : string) : master_file := Opened (mkReader s None) None.
Definition rounds : list master_file :=
  [Missing; contents "other:8080
"; Unreadable "permission denied"; contents "bad/address"].
End ServerDemo.
Import ServerDemo.

(** Both listeners, and TLS with the downloaded certificate. *)
Lemma started_server_sound_witness :
  match snd (run ":443") with
  | Ok sv => listen_address <$> sv_listeners sv = [":80"; ":443"] /\
      exists l, l ∈ sv_listeners sv /\ is_Some (listen_tls l)
  | Err _ => False
  end.
Proof.
  destruct (run ":443") as [sent' [sv|e]] eqn:E; [|by vm_compute in E].
  destruct (started_server_sound _ _ _ _ _ _ _ _ _ _ _ _ _ E) as (_ & _ & A & _ & T & _).
  split; [exact A|]. by apply T.
Defined.

(** A console request when another server is the master. *)
Lemma started_server_routes_witness :
  match snd (run "") with
  | Ok sv =>
      let sw := switcher_start "/etc/master" rounds in
      well_routed sw (get "//v1//exec/") (SwarmHandler_ServeHTTP (sv_routes sv) sw (get "//v1//exec/"))
  | Err _ => False
  end.
Proof.
  destruct (run "") as [sent' [sv|e]] eqn:E; [|by vm_compute in E]. cbv beta iota zeta delta [snd].
  apply (started_server_routes _ _ _ _ _ _ _ _ _ _ _ _ _ _ E); by vm_compute.
Defined.

Example request_to_master :
  match SwarmHandler_ServeHTTP (server_routes main_starter "platform:8080")
          (switcher_start "/etc/master" rounds) (get "//v1//exec/") with
  | Master p req => ws_addr p = "other:8080" /\ Path (URL req) = "/v1/exec/"
  | _ => False
  end.
Proof. by vm_compute. Qed.

(** Unreadable and invalid contents leave the master in force. *)
Lemma switcher_follows_master_file_witness :
  addr (switcher_start "/etc/master" rounds) = "other:8080".
Proof.
  destruct (switcher_follows_master_file "/etc/master" rounds) as [-> _]; [done|]. by vm_compute.
Defined.

Lemma websocket_dial_leak_witness :
  let e := mkWSEnv true true false true in
  d_open (serveWebsocket e) = true /\ d_closed (serveWebsocket e) = false.
Proof. intros e. by apply (websocket_dial_leak e). Defined.

Lemma program_starts_safely_witness :
  match program [] with
  | (sent, Ok (Some (c, sv))) => length sent = 4%nat /\ exists n e, PublicKey c = RSAKey (Some n) e /\ 2048 <= BitLen n
  | _ => False
  end.
Proof.
  destruct (program []) as [sent' [[[c sv]|]|e]] eqn:E; [|by vm_compute in E..].
  destruct (program_starts_safely _ _ _ _ _ _ _ _ _ _ _ _ _ _ _ _ _ E) as (_ & _ & K & _).
  split; [|exact K]. assert (fst (program []) = sent') as <- by by rewrite E. by vm_compute.
Defined.

(** The default networks, and a peer that is in none of them. *)
Lemma trusted_peers_exact_witness :
  allow (accept [Some (mkIPNet [127; 0; 0; 0] [255; 0; 0; 0])] "127.0.0.9:1" (Some (TCP_ [127; 0; 0; 9])) "") = true.
Proof.
  apply (trusted_peers_exact "127.0.0.0/8" [mkIPNet [127; 0; 0; 0] [255; 0; 0; 0]] "127.0.0.9:1" (Some (TCP_ [127; 0; 0; 9])) ""
    (v4InV6Prefix ++ [127; 0; 0; 9])); [by vm_compute|done|split; [done|by repeat constructor]|].
  left. exists "127.0.0.0/8". split; [by apply (bool_decide_eq_true_1 (_ ∈ _)); vm_compute|].
  exists "127.0.0.0", "8". eexists _, 8. by split_and!; vm_compute.
Defined.
