(* ===== verification/System.v ===== *)
(** * The whole server

    Puts the components together the way [StartProxy] does: one backend manager,
    one session manager, one token cache, the interceptor and the master switcher
    behind the router, and the events that change them: requests, traffic of the
    attached consoles, the cleaner of the sessions, the goroutines of the host
    connections, and the polls of the master file.

    A request is one event, from the listener to the end of its handler, but the
    hosts do not stand still meanwhile: its handler runs on the backends of
    [Interleaving], so between any two of its calls frames arrive from hosts and
    are written to them, hosts connect and disconnect, and other streams are opened,
    used and closed.  The same goes for the traffic of a console, one event per
    frame, and for the cleaner.  The table of the sessions changes under the lock of
    its manager only.

    The theorems compose those of the components: what holds in every state such a
    server can reach. *)

From stdpp Require Import propset.
From S2P Require Import Prelude GoString GoHash GoNet GoUrl GoCookie Message Multiplexer Backend Session SessionProps SessionStream SessionManager.
From S2P Require Import Delegation Capability Http Upgrade Frontend SessionHttp TokenLookup ProxyProtocol HttpPipe FrontendHttp Stats Clients Interleaving.
From S2P Require Import Config Mux Filters Interceptor Server.

(** ** The server *)

(** *** [k8s]: two static answers *)

Definition quoted (s : string) : string := String (ascii_of_nat 34) (s +:+ String (ascii_of_nat 34) "").
Definition version_fields : list (string * string) :=
  [("major", "1"); ("minor", "2+"); ("gitVersion", "v1.2.1");
   ("gitCommit", "ed6532f975cff184196dbe214de8fa0198b415ef"); ("gitTreeState", "clean")].
Definition k8s_version : string :=
  "{" +:+ newline
  +:+ join ("," +:+ newline) ((fun '(k, v) => "  " +:+ quoted k +:+ ": " +:+ quoted v) <$> version_fields)
  +:+ newline +:+ "}".
Definition static_json (text : string) : http_answer := mkAnswer 200 [("Content-Type", "application/json")] text.
Definition Version : http_answer := static_json k8s_version.
Definition Swagger (api : string) : http_answer := static_json api.

(** *** State and environment *)

(** The handlers of [StartProxy]: what they are built from. *)
Record setup := mkSetup {
  st_routes : list (route handler_kind);
  st_frontend : FrontendHandler;             (* [frontendBaseHandler] *)
  st_http : FrontendHTTPHandler;             (* [frontendHTTPHandler] *)
  st_ws : ws_proxy;                          (* [platformWsProxy], with its [proxyProtocolConverter] *)
  st_swagger : string;
  st_trusted : list IPNet }.                 (* the networks the listeners trust *)

Definition new_setup (s : Starter) (platformAddr : string) (key : public_key) (delegations failures : Verifier)
  (httpsPorts : list Z) (publicOrigin : option url) (swagger : string) (trusted : list IPNet) : setup :=
  mkSetup (server_routes s platformAddr) (mkFrontend key (Some delegations) (Some failures))
    (mkFrontendHTTP (mkFrontend key None None) httpsPorts publicOrigin)
    (mkWS platformAddr None httpsPorts publicOrigin) swagger trusted.

Record system := mkSystem {
  sy_manager : manager world;                (* the sessions, and the backends under them *)
  sy_cache : entries;                        (* the service proxy tokens *)
  sy_interceptor : interceptor;
  sy_sent : list out_request;                (* what the filters sent *)
  sy_infos : gmap string ProxyProtoInfo;
  sy_switcher : Switcher }.

(** What a request finds outside: identifiers, clocks, answers of the engine and of
    the platform, the connection, and the traffic of its stream. *)
Record request_env := mkRequestEnv {
  re_uuid : nat -> string; re_session : string;
  re_post : string -> string -> option response;
  re_auth : auth_env; re_auth' : auth_env; re_auths : nat -> auth_env;
  re_now : Z; re_live1 : bool; re_live2 : bool; re_begin : Z; re_clock : nat -> Z;
  re_hijack : hijack; re_lookup : lookup_env;
  re_body : string; re_payload : option string;
  re_incoming : list ws_message; re_stats : list stats_event; re_relay : list relay_event;
  re_response : server_writer; re_others : list (list other);   (* what others do before its calls on the backends *)
  re_missing : string -> bool; re_open : string -> result string reader; re_order : raw_header -> list string }.

(** What the client gets. *)
Inductive answer :=
| AAnswer (a : http_answer)
| ARedirect (path : string)
| ASession (r : http_reply)
| AStream (e : stream_end)
| AStats (o : stats_outcome)
| AHttp (w : server_writer)
| APlatform (o : outcome)
| ARelay (addr : string) (req : request)              (* a WebSocket, relayed to this address *)
| AReverse (scheme host : string) (req : request).    (* the answer of the master *)

Section System.
Context (jwt_parse : bool -> string -> Z -> result jwt_error jwtToken)
  (parse_unverified : string -> option jwtToken) (tpl_ok : string -> bool)
  (tpl_match : string -> string -> bool) (json_error : string -> string).
Implicit Types (s : system) (env : request_env) (req : request).


(** *** The handlers on the shared state *)

Definition set_manager (m : manager world) s : system :=
  mkSystem m (sy_cache s) (sy_interceptor s) (sy_sent s) (sy_infos s) (sy_switcher s).
Definition set_world (w : world) s : system := set_manager (set_backend w (sy_manager s)) s.
Definition set_cache (c : entries) s : system :=
  mkSystem (sy_manager s) c (sy_interceptor s) (sy_sent s) (sy_infos s) (sy_switcher s).
Definition set_interceptor (i : interceptor) (sent : list out_request) s : system :=
  mkSystem (sy_manager s) (sy_cache s) i sent (sy_infos s) (sy_switcher s).
Definition set_infos (infos : gmap string ProxyProtoInfo) s : system :=
  mkSystem (sy_manager s) (sy_cache s) (sy_interceptor s) (sy_sent s) infos (sy_switcher s).
Definition set_switcher (sw : Switcher) s : system :=
  mkSystem (sy_manager s) (sy_cache s) (sy_interceptor s) (sy_sent s) (sy_infos s) sw.

Definition session_env env : http_env :=
  mkHttpEnv (re_now env) (re_live1 env) (re_live2 env) (re_uuid env 0) (re_auth env) (re_begin env) (re_clock env)
    (re_hijack env).
Definition can_hijack (hj : hijack) : bool := match hj with NoHijacker => false | _ => true end.
Definition hijack_succeeds (hj : hijack) : bool := match hj with Hijacked _ _ => true | _ => false end.

Definition add_headers s (ports : list Z) (origin : option url) (req : request) : request :=
  AddHeaders ports origin (sy_infos s) req.

(** [proxyProtocolConverter.ServeHTTP] in front of the interceptor; the headers are
    already added when [platformWSProxy] hands the request over. *)
Definition serve_interceptor env (req : request) s : system * answer :=
  let '(i, sent, o) := Interceptor.ServeHTTP tpl_ok tpl_match json_error
    (re_missing env) (re_open env) (sy_interceptor s) (re_uuid env 0) (re_order env)
    req (Http.mkReader (re_body env) None) (sy_sent s) in
  (set_interceptor i sent s, APlatform o).
Definition proxyProtocolConverter_ServeHTTP (c : setup) env (req : request) s : system * answer :=
  serve_interceptor env (add_headers s (ws_httpsPorts (st_ws c)) (ws_publicOrigin (st_ws c)) req) s.

Abbreviation key_of c := (parsedPublicKey (st_frontend c)).

(** The backends while others use them, and afterwards. *)
Definition interleaved_by (l : list (list other)) (w : world) : interleaved := mkInterleaved w l ∅.
Definition manager_by (l : list (list other)) (m : manager world) : manager interleaved :=
  with_backend (interleaved_by l (m_backend m)) m.
Definition settled (m : manager interleaved) : manager world := with_backend (il_world (m_backend m)) m.

Section Handlers.
Context (c : setup).

#[local] Instance system_backendProxy : backendProxy interleaved :=
  interleaved_backendProxy jwt_parse (keyTraceURL parse_unverified) (key_of c).

Definition serve_local env (h : handler_kind) (req : request) s : system * answer :=
  let m := sy_manager s in
  let b := interleaved_by (re_others env) (m_backend m) in
  match h with
  | HVersion => (s, AAnswer Version)
  | HSwagger => (s, AAnswer (Swagger (st_swagger c)))
  | HSessions =>
      let '(m, r) := serveSession jwt_parse (re_post env) (st_frontend c) (session_env env) req (re_body env)
        (manager_by (re_others env) m) in
      (set_manager (settled m) s, ASession r)
  | HBackend =>
      let '(w, e) := serveBackend jwt_parse (key_of c) req (re_hijack env) (re_session env) (m_backend m) in
      (set_world w s, AStream e)
  | HFrontend =>
      let '(b, e) := serveFrontend jwt_parse (re_post env)
        (st_frontend c) (re_auth env) (re_begin env) (re_clock env) (re_hijack env) (re_uuid env 0) (re_incoming env)
        req b in
      (set_world (il_world b) s, AStream e)
  | HFrontendHTTP =>
      let '(b, cache, rw_, e) := serveHTTP jwt_parse (re_post env) (st_http c) (re_auth env) (re_lookup env) (sy_infos s)
        (re_uuid env 0) (can_hijack (re_hijack env)) (hijack_succeeds (re_hijack env)) (re_relay env) req b (sy_cache s)
        (re_response env) in
      (set_cache cache (set_world (il_world b) s), AHttp (answer_failure rw_ e))
  | HStats =>
      let '(b, o) := serveStats jwt_parse (re_post env)
         (st_frontend c) (re_auth env) (re_auth' env) (re_auths env) (re_begin env) (re_clock env)
        (re_hijack env) (re_payload env) (re_uuid env) (re_stats env) req b in
      (set_world (il_world b) s, AStats o)
  | HPlatformWS =>
      match platformWSProxy_ServeHTTP (add_headers s) (st_ws c) req with
      | WSDenied => (s, AAnswer (http_Error [] "Cross-origin websocket request denied" 403))
      | WSRelay addr req => (s, ARelay addr req)
      | WSReverse req => serve_interceptor env req s
      end
  | HPlatform => proxyProtocolConverter_ServeHTTP c env req s
  end.

(** An operation of the session manager that is not a request. *)
Definition manage (o : mop) (l : list (list other)) s : system :=
  set_manager (settled (run_mop o (manager_by l (sy_manager s)))) s.
End Handlers.

(** The remote handler of the switcher. *)
Definition serve_master (p : ws_proxy) (req : request) s : answer :=
  match platformWSProxy_ServeHTTP (add_headers s) p req with
  | WSDenied => AAnswer (http_Error [] "Cross-origin websocket request denied" 403)
  | WSRelay addr req => ARelay addr req
  | WSReverse req => match ws_target p with
                     | Some (scheme, host) => AReverse scheme host (set_url (director scheme host (URL req)) req)
                     | None => AAnswer (mkAnswer 502 [] "")
                     end
  end.

(** The handler of the server. *)
Definition serve (c : setup) env (req : request) s : system * answer :=
  match SwarmHandler_ServeHTTP (st_routes c) (sy_switcher s) req with
  | Local h req => serve_local c env h req s
  | Master p req => (s, serve_master p req s)
  | RedirectTo path => (s, ARedirect path)
  | NotFound404 => (s, AAnswer (http_Error [] "404 page not found" 404))
  | NotAllowed405 => (s, AAnswer (mkAnswer 405 [] ""))
  end.

(** *** Events and histories *)

Inductive event :=
| ERequest (env : request_env) (req : request)
| ETab (p : nat) (o : sop) (l : list (list other))   (* traffic, timers and the end of a console session *)
| ECleanup (now : Z) (l : list (list other))         (* the cleaner of the sessions *)
| EHost (o : op)                             (* an iteration of a goroutine of a host connection *)
| EMaster (file : master_file)               (* a poll of the master file *)
| EConn (addr : string) (peer : option net_addr) (input : string)   (* the first bytes of a connection are read *)
| EConnState (addr : string) (closed_ : bool).

Definition run_event (c : setup) (ev : event) s : system :=
  match ev with
  | ERequest env req => fst (serve c env req s)
  | ETab p o l => manage c (MSession p o) l s
  | ECleanup now l => manage c (MCleanup now) l s
  | EHost o => set_world (default (m_backend (sy_manager s))
                 (run_op (keyTraceURL parse_unverified) o (m_backend (sy_manager s)))) s
  | EMaster file => set_switcher (fst (readConfig file (sy_switcher s))) s
  | EConn addr peer input =>
      set_infos (snd (fst (ProxyProtocol.read (accept (Some <$> st_trusted c) addr peer input) (sy_infos s)))) s
  | EConnState addr closed_ => set_infos (StateCleanup addr closed_ (sy_infos s)) s
  end.

(** What others do during an event. *)
Definition event_others (ev : event) : list other :=
  match ev with
  | ERequest env _ => concat (re_others env)
  | ETab _ _ l | ECleanup _ l => concat l
  | _ => []
  end.

(** The identifiers drawn during an event. *)
Definition others_drawn (l : list other) : propset string := {[ k | exists x, x ∈ l /\ k ∈ other_keys x ]}.
Definition event_drawn (ev : event) : propset string :=
  match ev with ERequest env _ => drawn (re_uuid env) | _ => ∅ end ∪ others_drawn (event_others ev).

(** What is left to the outside: fresh identifiers; client objects and timers of
    sessions used as the handlers use them; goroutines of connections that exist. *)
Definition host_goroutine (o : op) : bool :=
  match o with OpRead _ _ _ _ | OpWrite _ _ => true | _ => false end.
Definition event_ok (U : propset string) s (ev : event) : Prop :=
  match ev with
  | ERequest env _ => fresh_supply (others_drawn (event_others ev) ∪ U) (re_uuid env)
  | ETab p o _ => mop_ok (MSession p o) (sy_manager s)
  | EHost o => host_goroutine o = true /\ op_ok o (m_backend (sy_manager s))
  | _ => True
  end.

Inductive run (c : setup) : propset string -> system -> list event -> system -> Prop :=
| run_nil U s : run c U s [] s
| run_cons U s ev l s' :
    event_ok U s ev -> run c (event_drawn ev ∪ U) (run_event c ev s) l s' -> run c U s (ev :: l) s'.

(** The server when it starts to listen. *)
Definition initial_system (max : nat) (replay_ active_ ended_ : Z) (i : interceptor) (sw : Switcher) : system :=
  mkSystem (initial_manager initial_world max replay_ active_ ended_) newTokenCache i [] ∅ sw.

(** ** Requests and the handlers they reach *)

(** The request a handler sees is the one that came in, with the path cleaned and
    the variables of its route. *)
Definition same_request req req' : Prop :=
  Header req' = Header req /\ ReqHost req' = ReqHost req /\ Method req' = Method req /\
  RawQuery (URL req') = RawQuery (URL req).

Lemma same_request_token req req' : same_request req req' -> request_token req' = request_token req.
Proof. intros (Hh & _ & _ & Hq). unfold request_token, url_query. by rewrite Hh Hq. Qed.

(** What follows the master is not served here while there is one. *)
Definition served (sw : Switcher) req (t : target) : Prop :=
  match t with
  | Local h req' => (wrapped h = true -> lookupHandler sw = None) /\ same_request req req'
  | Master p req' => lookupHandler sw = Some p /\ same_request req req'
  | _ => True
  end.

Lemma serve_handler_served sw h req req' : same_request req req' -> served sw req (serve_handler sw h req').
Proof.
  intros S. unfold serve_handler, Wrap. destruct (wrapped h) eqn:W; [|by split; [rewrite W|]].
  by destruct (lookupHandler sw) eqn:L.
Qed.

Lemma request_served routes_ sw req : served sw req (SwarmHandler_ServeHTTP routes_ sw req).
Proof.
  assert (served sw req (serve_path routes_ sw req)) as P.
  { unfold serve_path. destruct (negb _); [done|]. destruct (router_Match _ _ _ _ _ _) as [rt| |]; [|done..].
    apply serve_handler_served. unfold clean_request. by destruct (bool_decide _). }
  unfold SwarmHandler_ServeHTTP. destruct (PeerCommonNames req) as [[|]|]; [done| |done]. by apply serve_handler_served.
Qed.

(** The token [createSession] authenticates with is the one word of the posted one. *)
Lemma auth_request_token req token u raw :
  request_token (SessionHttp.auth_request req token u) = raw -> raw <> "" -> fields token = [raw].
Proof.
  unfold request_token, SessionHttp.auth_request. cbn [set_header set_url Header URL].
  rewrite header_get_set (bool_decide_eq_false_2 ("Bearer " +:+ token = "")) //. change (fields ("Bearer " +:+ token)) with ("Bearer" :: fields token).
  assert (forall p r u0, query_get "token" (url_query (with_paths p r (with_query "" u0))) = "") as Q by reflexivity.
  rewrite Q. change (equal_fold "bearer" "Bearer") with true. cbv iota.
  destruct (fields token) as [|t []]; case_bool_decide; intros E N; congruence.
Qed.

(** ** What holds in every state *)

(** The requests of a history, those of hosts that connect meanwhile included. *)
Definition requests (l : list event) : list request :=
  l ≫= fun ev => (match ev with ERequest _ req => [req] | _ => [] end) ++ (event_others ev ≫= other_requests).

(** A request of the history presented this ticket. *)
Definition presented (l : list event) (raw : string) : Prop := exists req, req ∈ requests l /\ request_token req = raw.

(** A request of the history posted this secret with a ticket that names the host. *)
Definition session_ticket (key : public_key) (l : list event) (host secretHash_ : string) : Prop :=
  exists env req input raw token, ERequest env req ∈ l /\ read_create (re_body env) = Some input /\
    secretHash_ = hash (in_Secret input) /\ fields (in_Token input) = [raw] /\
    verified jwt_parse key raw token /\ names_host token host.

Lemma presented_mono l l' raw : l ⊆ l' -> presented l raw -> presented l' raw.
Proof.
  intros S (req & H & E). exists req. split; [|done]. unfold requests in *.
  apply list_elem_of_bind in H as (ev & H & Hev). apply list_elem_of_bind. exists ev. split; [done|by apply S].
Qed.

Lemma session_ticket_mono key l l' host hash_ : l ⊆ l' -> session_ticket key l host hash_ -> session_ticket key l' host hash_.
Proof. intros S (env & req & input & raw & token & H & R). exists env, req, input, raw, token. split; [by apply S|done]. Qed.

Abbreviation backends_inv c l :=
  (backends_ok (keyTraceURL parse_unverified) (presented_ticket jwt_parse (key_of c) (presented l))).
Abbreviation interleaved_inv_ c l :=
  (interleaved_inv jwt_parse (keyTraceURL parse_unverified) (key_of c) (presented l)).
#[local] Instance system_client_invariant c l : @client_invariant interleaved (system_backendProxy c) (interleaved_inv_ c l).
Proof. apply interleaved_client_invariant. Qed.

Definition system_inv (c : setup) (max : nat) (U : propset string) (l : list event) s : Prop :=
  mgr_inv (backends_inv c l) (session_ticket (key_of c) l) max U (sy_manager s).

Lemma backends_inv_mono c U V l l' w : U ⊆ V -> l ⊆ l' -> backends_inv c l U w -> backends_inv c l' V w.
Proof.
  intros S T [Iw N K]. split; [done| |by eauto]. intros p m Hp. destruct (N p m Hp) as [Ht Pr].
  split; [done|by eapply presented_mono].
Qed.

(** Replacing the backends under the sessions. *)
Lemma system_inv_world c max U V l w s :
  system_inv c max U l s -> backends_inv c l V w -> system_inv c max V l (set_world w s).
Proof. intros [H [] C A] Hw. by split. Qed.

Lemma system_inv_mono c max U V l l' s : U ⊆ V -> l ⊆ l' -> system_inv c max U l s -> system_inv c max V l' s.
Proof.
  intros S T [H M C A]. split; [by eapply backends_inv_mono|done|done|]. intros p ses_ Hp.
  destruct (A p ses_ Hp) as [W Al]. split; [done|by eapply session_ticket_mono].
Qed.

(** The backends during an event of the history. *)
Lemma interleaved_by_inv c max U V l ll s :
  system_inv c max U l s -> U ⊆ V -> (forall x, x ∈ concat ll -> other_ok (presented l) V x) ->
  interleaved_inv_ c l V (interleaved_by ll (m_backend (sy_manager s))) /\
  mgr_inv (interleaved_inv_ c l) (session_ticket (key_of c) l) max V (manager_by ll (sy_manager s)).
Proof.
  intros H S O. assert (interleaved_inv_ c l V (interleaved_by ll (m_backend (sy_manager s)))) as Hi.
  { split; [by eapply backends_inv_mono; [done|done|apply (mi_backend _ _ _ _ _ H)]|]. simpl.
    apply Forall_forall. intros l' Hl. apply Forall_forall. intros x Hx. apply O.
    apply list_elem_of_In, in_concat. exists l'. by rewrite -!list_elem_of_In. }
  split; [done|]. by eapply mgr_inv_backend; [|exact H|exact Hi].
Qed.

Lemma settled_inv c max V l (m : manager interleaved) s :
  mgr_inv (interleaved_inv_ c l) (session_ticket (key_of c) l) max V m ->
  system_inv c max V l (set_manager (settled m) s).
Proof. intros H. pose proof (mi_backend _ _ _ _ _ H) as [Hw _]. by eapply mgr_inv_backend; [|exact H|exact Hw]. Qed.

(** What others do during the last event of a history is in order. *)
Lemma last_others_ok l ev V :
  others_drawn (event_others ev) ⊆ V ->
  forall x, x ∈ event_others ev -> other_ok (presented (l ++ [ev])) V x.
Proof.
  intros S x Hx. split.
  - intros k Hk. apply S. by exists x.
  - intros req Hr. exists req. split; [|done]. apply list_elem_of_bind. exists ev. split; [|set_solver].
    apply elem_of_app. right. apply list_elem_of_bind. by exists x.
Qed.

Lemma serve_local_inv c max env h req req' U l s :
  let l' := l ++ [ERequest env req] in
  let O := others_drawn (concat (re_others env)) in
  same_request req req' -> system_inv c max U l s -> fresh_supply (O ∪ U) (re_uuid env) ->
  system_inv c max (drawn (re_uuid env) ∪ (O ∪ U)) l' (fst (serve_local c env h req' s)).
Proof.
  intros l' O Same H0 F. set (U0 := O ∪ U) in *.
  assert (system_inv c max U0 l' s) as H by (eapply system_inv_mono; [| |exact H0]; subst U0 l'; set_solver).
  assert (forall x, x ∈ concat (re_others env) -> other_ok (presented l') U0 x) as Ok_.
  { apply (last_others_ok l (ERequest env req)). subst U0. simpl. set_solver. }
  destruct (interleaved_by_inv c max U0 U0 l' (re_others env) s H ltac:(done) Ok_) as [Hb Hm].
  assert (forall V s', V ⊆ drawn (re_uuid env) ∪ U0 -> system_inv c max V l' s' ->
    system_inv c max (drawn (re_uuid env) ∪ U0) l' s') as K by by (intros V s' ?; apply system_inv_mono).
  assert ({[re_uuid env 0]} ∪ U0 ⊆ drawn (re_uuid env) ∪ U0) as S1.
  { apply union_mono_r. intros k. rewrite elem_of_singleton. intros ->. exists 0%nat. split; [by apply Nat.ltb_lt|done]. }
  assert (U0 ⊆ drawn (re_uuid env) ∪ U0) as S0 by set_solver.
  pose proof (fs_new _ _ F 0 ltac:(apply Nat.ltb_lt; done)) as N.
  pose proof (fs_wire _ _ F 0 ltac:(apply Nat.ltb_lt; done)) as W.
  assert (request_token req' = request_token req) as Tk by by apply same_request_token.
  destruct h; cbn [serve_local].
  - by apply (K U0).
  - by apply (K U0).
  - destruct (serveSession _ _ _ _ _ _ _) as [m r] eqn:E. apply (K _ _ S1), settled_inv.
    pose proof (serveSession_inv (BP := system_backendProxy c) (interleaved_inv_ c l') (session_ticket (key_of c) l') max jwt_parse (re_post env)
      (st_frontend c) U0 (session_env env) req' (re_body env) _ Hm N W) as R.
    rewrite E in R. apply R. clear R E. intros input u token host Rd A. apply auth_verified in A as (V & Ne & Nh).
    exists env, req, input, (request_token (SessionHttp.auth_request req' (in_Token input) u)), token.
    split_and!; [subst l'; set_solver|done|done| |done|done].
    by eapply auth_request_token.
  - destruct (serveBackend _ _ _ _ _ _) as [w e] eqn:E. apply (K U0 _ S0).
    apply (system_inv_world c max U0); [done|]. rewrite (_ : w = fst (w, e)) // -E. apply serveBackend_inv.
    + rewrite Tk. exists req. split; [|done]. apply list_elem_of_bind. exists (ERequest env req). split; [left|subst l'; set_solver].
    + apply (mi_backend _ _ _ _ _ H).
  - destruct (serveFrontend _ _ _ _ _ _ _ _ _ _ _) as [b e] eqn:E. apply (K _ _ S1).
    apply (system_inv_world c max U0); [done|].
    assert (interleaved_inv_ c l' ({[re_uuid env 0]} ∪ U0) b) as [Hw _]; [|done].
    rewrite (_ : b = fst (b, e)) // -E. by apply serveFrontend_inv; [apply system_client_invariant|..].
  - destruct (serveHTTP _ _ _ _ _ _ _ _ _ _ _ _ _ _) as [[[b cache] rw_] e] eqn:E.
    apply (K _ _ S1). apply (system_inv_world c max U0); [done|].
    assert (interleaved_inv_ c l' ({[re_uuid env 0]} ∪ U0) b) as [Hw _]; [|done].
    rewrite (_ : b = fst (fst (fst (b, cache, rw_, e)))) // -E. by apply serveHTTP_inv; [apply system_client_invariant|..].
  - destruct (serveStats _ _ _ _ _ _ _ _ _ _ _ _ _ _) as [b o] eqn:E.
    apply (system_inv_world c max U0); [done|].
    assert (interleaved_inv_ c l' (drawn (re_uuid env) ∪ U0) b) as [Hw _]; [|done].
    rewrite (_ : b = fst (b, o)) // -E. by apply serveStats_inv; [apply system_client_invariant|..].
  - destruct (platformWSProxy_ServeHTTP _ _ _); [by apply (K U0)|by apply (K U0)|].
    unfold serve_interceptor. destruct (Interceptor.ServeHTTP _ _ _ _ _ _ _ _ _ _ _) as [[i sent] o].
    by apply (K U0).
  - unfold proxyProtocolConverter_ServeHTTP, serve_interceptor.
    destruct (Interceptor.ServeHTTP _ _ _ _ _ _ _ _ _ _ _) as [[i sent] o]. by apply (K U0).
Qed.

Lemma manager_by_ok (o : mop) l m : mop_ok o m -> mop_ok o (manager_by l m).
Proof. by destruct o. Qed.

Lemma manage_inv c max U l o ll s :
  system_inv c max U l s -> (forall x, x ∈ concat ll -> other_ok (presented l) U x) ->
  mop_ok o (sy_manager s) -> mop_drawn o = ∅ -> (forall P V, mop_allowed P V o) ->
  system_inv c max U l (manage c o ll s).
Proof.
  intros H Ok_ Ho Ed Al. destruct (interleaved_by_inv c max U U l ll s H ltac:(done) Ok_) as [_ Hm].
  apply settled_inv. pose proof (run_mop_inv (BP := system_backendProxy c) (interleaved_inv_ c l)
    (session_ticket (key_of c) l) max U o _ Hm (manager_by_ok o ll _ Ho) (Al _ _)) as R.
  rewrite Ed in R. eapply mgr_inv_mono; [apply system_client_invariant| |exact R]. set_solver.
Qed.

Lemma run_event_inv c max U l ev s :
  system_inv c max U l s -> event_ok U s ev -> system_inv c max (event_drawn ev ∪ U) (l ++ [ev]) (run_event c ev s).
Proof.
  intros H OK.
  assert (system_inv c max (others_drawn (event_others ev) ∪ U) (l ++ [ev]) s) as H1
    by (eapply system_inv_mono; [| |exact H]; set_solver).
  assert (forall s', system_inv c max (others_drawn (event_others ev) ∪ U) (l ++ [ev]) s' ->
    system_inv c max (event_drawn ev ∪ U) (l ++ [ev]) s') as K.
  { intros s'. apply system_inv_mono; [unfold event_drawn; set_solver|done]. }
  assert (forall x, x ∈ event_others ev -> other_ok (presented (l ++ [ev])) (others_drawn (event_others ev) ∪ U) x) as Ok_
    by (apply last_others_ok; set_solver).
  destruct ev as [env req|p o ll|now ll|o|file|addr peer input|addr closed_]; cbn [run_event event_ok] in *.
  - unfold serve. pose proof (request_served (st_routes c) (sy_switcher s) req) as Sv.
    destruct (SwarmHandler_ServeHTTP _ _ _) as [h req'|p req'|path| |]; [|by apply K..].
    destruct Sv as [_ Same]. eapply system_inv_mono; [|done|by apply serve_local_inv].
    unfold event_drawn. cbn [event_others]. set_solver.
  - apply K, manage_inv; try done.
  - apply K, manage_inv; try done.
  - destruct OK as [G OK]. apply K. apply (system_inv_world c max (others_drawn [] ∪ U)); [done|].
    apply backends_ok_stream; [apply (mi_backend _ _ _ _ _ H1)|done|by destruct o..].
  - by apply K.
  - by apply K.
  - by apply K.
Qed.

Lemma run_inv c max U l0 s l s' :
  run c U s l s' -> system_inv c max U l0 s -> exists V, system_inv c max V (l0 ++ l) s'.
Proof.
  intros R. revert l0. induction R as [U s|U s ev l s' OK R IH]; intros l0 H; [exists U; by rewrite app_nil_r|].
  rewrite cons_middle app_assoc. by apply IH, run_event_inv.
Qed.

Lemma initial_inv c max replay_ active_ ended_ i sw :
  0 <= replay_ -> system_inv c max ∅ [] (initial_system max replay_ active_ ended_ i sw).
Proof.
  intros L. split; simpl; [|by apply initial_ok|split; [done|]|done].
  - split; [apply Inv_initial|done|done].
  - unfold activeSessionCountLocked. simpl. rewrite map_filter_empty map_size_empty. lia.
Qed.

(** C1: The running server is safe as a whole.  Whatever requests, console traffic,
    host frames, timers and master files it meets after it started, with the calls
    of every request and console on the hosts interleaved with those of all others,
    with the frames of the hosts and with hosts that come and go: it never panics on
    a channel; every host connection it ever held was opened by a request that
    presented a ticket signed under the server's key which names this very host;
    every console session was created by a request that posted the secret the
    session is opened with, together with a ticket signed under that key which names
    the host the session runs on; and there are never more active sessions than the
    limit. *)
Theorem system_safe c max replay_ active_ ended_ i sw l s :
  0 <= replay_ -> run c ∅ (initial_system max replay_ active_ ended_ i sw) l s ->
  panicked (m_backend (sy_manager s)) = false /\
  (forall p m, heap (m_backend (sy_manager s)) !! p = Some m ->
     host_ticket jwt_parse (key_of c) (backendToken m) (backendKey m) /\
     exists req, req ∈ requests l /\ request_token req = backendToken m) /\
  (forall p ses_, objects (sy_manager s) !! p = Some ses_ ->
     exists env req input raw token, ERequest env req ∈ l /\ read_create (re_body env) = Some input /\
       secretHash ses_ = hash (in_Secret input) /\ fields (in_Token input) = [raw] /\
       verified jwt_parse (key_of c) raw token /\ names_host token (hostKey ses_)) /\
  (activeSessionCountLocked (sy_manager s) <= max)%nat.
Proof.
  intros L R. destruct (run_inv c max _ [] _ _ _ R (initial_inv c max replay_ active_ ended_ i sw L))
    as (V & [[Iw N _] _ [E C] A]).
  split_and!; [by destruct Iw|done| |by rewrite -E]. intros p ses_ Hp. by destruct (A p ses_ Hp).
Qed.

(** ** The master *)

(** C21: While another master is in force, no request reaches the hosts, the consoles or
    the token cache of this server: what is left here are the static answers and the
    platform's own paths. *)
Theorem master_takes_over c env req s p :
  lookupHandler (sy_switcher s) = Some p ->
  sy_manager (fst (serve c env req s)) = sy_manager s /\ sy_cache (fst (serve c env req s)) = sy_cache s /\
  match snd (serve c env req s) with
  | ASession _ | AStream _ | AStats _ | AHttp _ => False
  | _ => True
  end.
Proof.
  intros L. unfold serve. pose proof (request_served (st_routes c) (sy_switcher s) req) as Sv.
  destruct (SwarmHandler_ServeHTTP _ _ _) as [h req'|q req'|path| |]; try done.
  - destruct Sv as (W & _). rewrite L in W. destruct h; try (by specialize (W eq_refl)); try done.
    + cbn [serve_local]. destruct (platformWSProxy_ServeHTTP _ _ _); [done|done|]. unfold serve_interceptor.
      by destruct (Interceptor.ServeHTTP _ _ _ _ _ _ _ _ _ _ _) as [[i sent] o].
    + cbn [serve_local]. unfold proxyProtocolConverter_ServeHTTP, serve_interceptor.
      by destruct (Interceptor.ServeHTTP _ _ _ _ _ _ _ _ _ _ _) as [[i sent] o].
  - unfold serve_master. by destruct (platformWSProxy_ServeHTTP _ _ _); [..|destruct (ws_target q) as [[]|]].
Qed.

(** ** WebSockets *)

(** The answers that leave a WebSocket with the client open: a stream, a host
    connection, an attached console, statistics, the relay to the platform or the
    master, a service connection that was taken over, and a handshake that is
    passed on to the platform or the master by their reverse proxies. *)
Definition opens_websocket req (a : answer) : bool :=
  match a with
  | AStream (Streamed _) | AStats (StatsStream _) | ARelay _ _ => true
  | ASession r => match rp_body r with Upgraded _ _ => true | _ => false end
  | AHttp w => sw_hijacked w
  | APlatform (Forward _ _ _) | APlatform (Proxied _) | AReverse _ _ _ => IsWebSocketUpgrade req
  | _ => false
  end.

(** A handshake that came in and is allowed. *)
Definition allowed_handshake req : Prop :=
  IsWebSocketUpgrade req = true /\ workspaceSameOrigin req = true.

Lemma same_request_upgrade req req' : same_request req req' -> IsWebSocketUpgrade req' = IsWebSocketUpgrade req.
Proof. intros (Hh & _). unfold IsWebSocketUpgrade. by rewrite Hh. Qed.

Lemma allowed_handshake_same req req' : same_request req req' -> allowed_handshake req' -> allowed_handshake req.
Proof.
  intros (Hh & Ho & _). unfold allowed_handshake, IsWebSocketUpgrade, workspaceSameOrigin, workspaceRequestOriginAllowed.
  by rewrite Hh Ho.
Qed.

Lemma Upgraded_handshake hj req : Upgrade workspaceSameOrigin hj req = Upgraded_ -> allowed_handshake req.
Proof. by intros (? & _ & _ & ? & _)%Upgrade_iff. Qed.

Lemma attached_handshake {B : Type} `{BP : backendProxy B} post h env req r body (m : manager B) :
  opens_websocket r (ASession (snd (serveSession jwt_parse post h (session_env env) req body m))) = true ->
  allowed_handshake req.
Proof.
  assert (forall st p (n : manager B), opens_websocket r (ASession (session_reply st p n)) = false) as R.
  { intros st p n. unfold session_reply. by destruct (objects n !! p). }
  assert (forall b e, opens_websocket r (ASession (denial_reply post h (session_env env) b e)) = false) as D.
  { intros b e. unfold denial_reply. destruct (auth_failure _ _ _ _ _ _). by destruct e. }
  assert (forall (b : B) raw host e, opens_websocket r (ASession (create_failure post h b raw host e)) = false)
    as Cf by by intros b raw host [| |[]|[]].
  unfold serveSession. destruct (negb _); [done|]. destruct (bool_decide _).
  { unfold createSession. repeat case_match; cbn [snd]; try done; by rewrite ?R ?D ?Cf. }
  destruct (bool_decide (Method req = "GET")).
  - destruct (workspaceIsWebSocketUpgrade req).
    + unfold attachSession. repeat (case_match; try done). intros _. by eapply Upgraded_handshake.
    + unfold sessionStatus. repeat case_match; cbn [snd]; try done; by rewrite R.
  - destruct (bool_decide _); [|done]. unfold terminateSession. by repeat case_match.
Qed.

Lemma platform_ws_outcome add p req :
  match platformWSProxy_ServeHTTP add p req with
  | WSRelay _ _ => allowed_handshake req
  | WSReverse _ => IsWebSocketUpgrade req = false
  | WSDenied => True
  end.
Proof.
  unfold platformWSProxy_ServeHTTP. destruct (IsWebSocketUpgrade req) eqn:U; [|done].
  by destruct (workspaceSameOrigin req) eqn:O.
Qed.

(** The tokens a service request is authenticated with were accepted for a host. *)
Definition service_ticket c env req s : Prop :=
  exists cache token host, authAndLookup (BP := system_backendProxy c) jwt_parse (re_post env) (st_http c) (re_auth env)
    (re_lookup env) (interleaved_by (re_others env) (m_backend (sy_manager s))) req (sy_cache s) = (cache, Ok (token, host)).

Lemma local_handshake c env h req r s :
  sw_hijacked (re_response env) = false -> IsWebSocketUpgrade req = IsWebSocketUpgrade r ->
  opens_websocket r (snd (serve_local c env h req s)) = true ->
  allowed_handshake req \/
  h = HFrontendHTTP /\ shouldHijack (prepare (st_http c) (sy_infos s) req) = true /\ service_ticket c env req s \/
  h = HPlatform /\ IsWebSocketUpgrade r = true.
Proof.
  intros Hw Eu. destruct h; cbn [serve_local]; try done.
  - pose proof (attached_handshake (BP := system_backendProxy c) (re_post env) (st_frontend c) env req r (re_body env)
      (manager_by (re_others env) (sy_manager s))) as A.
    destruct (serveSession _ _ _ _ _ _ _). intros O. left. by apply A.
  - unfold serveBackend. repeat (case_match; simplify_eq/=; try done). intros _. left. by eapply Upgraded_handshake.
  - unfold serveFrontend. repeat (case_match; simplify_eq/=; try done). intros _. left. by eapply Upgraded_handshake.
  - pose proof (serveHTTP_hijacks (BP := system_backendProxy c) jwt_parse (re_post env) (st_http c) (re_auth env) (re_lookup env)
      (sy_infos s) (re_uuid env 0) (can_hijack (re_hijack env)) (hijack_succeeds (re_hijack env)) (re_relay env) req
      (interleaved_by (re_others env) (m_backend (sy_manager s))) (sy_cache s) _ Hw) as S.
    destruct (serveHTTP _ _ _ _ _ _ _ _ _ _ _ _ _ _) as [[[w cache] rw_] e]. simpl. rewrite answer_failure_hijacked.
    intros O. right. left. by destruct (S O).
  - destruct (serveStats _ _ _ _ _ _ _ _ _ _ _ _ _ _) as [w o] eqn:E. simpl.
    destruct o as [a| |ws]; [done|done|]. intros _. left. unfold serveStats in E.
    destruct (Upgrade workspaceSameOrigin (re_hijack env) req) eqn:U;
      [by eapply Upgraded_handshake|repeat case_match; simplify_eq..].
  - pose proof (platform_ws_outcome (add_headers s) (st_ws c) req) as P.
    destruct (platformWSProxy_ServeHTTP _ _ _) eqn:E; [done|intros _; by left|].
    unfold serve_interceptor. destruct (Interceptor.ServeHTTP _ _ _ _ _ _ _ _ _ _ _) as [[i sent] o].
    rewrite P in Eu. simpl. rewrite -Eu. by destruct o.
  - unfold proxyProtocolConverter_ServeHTTP, serve_interceptor.
    destruct (Interceptor.ServeHTTP _ _ _ _ _ _ _ _ _ _ _) as [[i sent] o]. simpl. intros O. right. right.
    split; [done|]. by destruct o.
Qed.

(** C11: Who can open a WebSocket through the server.  A stream, a host connection, a
    console, a statistics stream or a connection relayed to the platform or the
    master is opened only for a WebSocket handshake whose origin is absent or the
    host it was sent to.  The origin is not checked in two cases only: for a service
    request, whose connection is taken over if it asks for any upgrade, but only
    after a ticket was accepted for a connected host; and for a handshake on a path
    for which the server has no handler of its own, which the reverse proxy of the
    platform passes on. *)
Theorem websocket_origins c env req s :
  sw_hijacked (re_response env) = false -> opens_websocket req (snd (serve c env req s)) = true ->
  IsWebSocketUpgrade req = true /\ workspaceRequestOriginAllowed req = true \/
  exists h req', SwarmHandler_ServeHTTP (st_routes c) (sy_switcher s) req = Local h req' /\ same_request req req' /\
    (h = HFrontendHTTP /\ shouldHijack (prepare (st_http c) (sy_infos s) req') = true /\ service_ticket c env req' s \/
     h = HPlatform /\ IsWebSocketUpgrade req = true).
Proof.
  intros Hw. unfold serve. pose proof (request_served (st_routes c) (sy_switcher s) req) as Sv.
  destruct (SwarmHandler_ServeHTTP _ _ _) as [h req'|p req'|path| |]; try done; destruct Sv as [_ Same]; intros O.
  - destruct (local_handshake c env h req' req s Hw (same_request_upgrade _ _ Same) O) as [A|A];
      [left; by apply (allowed_handshake_same req req' Same)|right; by exists h, req'].
  - left. apply (allowed_handshake_same req req' Same). revert O. simpl. unfold serve_master.
    pose proof (platform_ws_outcome (add_headers s) p req') as P. rewrite (same_request_upgrade _ _ Same) in P.
    destruct (platformWSProxy_ServeHTTP _ _ _) as [|a r|r] eqn:E; [done|done|].
    destruct (ws_target p) as [[]|]; simpl; [by rewrite P|done].
Qed.

(** ** Requests without a ticket *)

(** The tickets a request carries, in its [Authorization] header or its query, posts
    for a session, or has looked up for its service. *)
Definition presents env s req (raw : string) : Prop :=
  raw = request_token req \/ raw = query_get "token" (url_query (URL req)) \/
  (exists input, read_create (re_body env) = Some input /\ fields (in_Token input) = [raw]) \/
  (exists req', same_request req req' /\
    snd (Lookup (le_get (re_lookup env)) (le_set (re_lookup env)) (le_order (re_lookup env)) (le_exchange (re_lookup env))
           req' (sy_cache s)) = Ok raw).

Lemma set_world_same s : sy_manager (set_world (m_backend (sy_manager s)) s) = sy_manager s.
Proof. simpl. by destruct (sy_manager s). Qed.

Section Unticketed.
Context (c : setup) (env : request_env) (s : system) (req req' : request) (Same : same_request req req')
  (N : forall raw token, presents env s req raw -> ~ verified jwt_parse (key_of c) raw token).

Lemma unticketed_parse token : fst (parseToken jwt_parse req' (key_of c)) = Ok token -> Valid token = true -> False.
Proof.
  intros E V. destruct (parseToken jwt_parse req' (key_of c)) as [r param] eqn:P. simpl in E. subst r.
  apply parseToken_verified in P as [-> Vf]; [|done]. eapply N; [|exact Vf]. left. by apply same_request_token.
Qed.

Lemma unticketed_auth {B : Type} `{BP : backendProxy B} post h aenv (b : B) :
  parsedPublicKey h = key_of c -> exists e, auth jwt_parse post h aenv b req' = Err e.
Proof.
  intros K. unfold auth. rewrite K. pose proof unticketed_parse as Np.
  destruct (parseToken _ _ _) as [[tok|e] param]; cbn [fst] in *.
  - destruct (Valid tok) eqn:V; [by destruct (Np tok)|]. by eexists.
  - repeat case_match; by eexists.
Qed.

Lemma unticketed_stats token :
  parseRequestToken jwt_parse (query_get "token" (url_query (URL req'))) (key_of c) = Ok token ->
  Valid token = true -> False.
Proof.
  intros E V. unfold parseRequestToken in E. destruct (bool_decide _); [done|].
  apply parseSignedJWT_guards in E as (bits & K & L & _ & J). eapply N; [|by exists bits].
  right. left. destruct Same as (_ & _ & _ & Q). unfold url_query. by rewrite Q.
Qed.

Lemma unticketed_lookup {B : Type} `{BP : backendProxy B} post (b : B) :
  parsedPublicKey (hf_frontend (st_http c)) = key_of c ->
  exists cache e, authAndLookup jwt_parse post (st_http c) (re_auth env) (re_lookup env) b req' (sy_cache s) = (cache, Err e).
Proof.
  intros K. unfold authAndLookup. destruct (unticketed_auth post (hf_frontend (st_http c)) (re_auth env) b K) as [e ->].
  destruct (Lookup _ _ _ _ _ _) as [cache r] eqn:L. exists cache. destruct r as [raw|[]]; [|by eexists..].
  destruct (parseSignedJWT _ _ _) as [token|] eqn:P; [|by eexists]. destruct (Valid token) eqn:V; [|by eexists].
  exfalso. rewrite K in P. apply parseSignedJWT_guards in P as (bits & Kb & Lb & _ & J). eapply N; [|by exists bits].
  right. right. right. exists req'. split; [done|by rewrite L].
Qed.
End Unticketed.

(** Backends nobody else uses meanwhile, with no stream that [w] has not. *)
Definition alone (w : world) (b : interleaved) : Prop := il_others b = [] /\ no_new ∅ w (il_world b).

Lemma alone_close c w b host key :
  alone w b -> alone w (fst (bp_closeConnection (backendProxy := system_backendProxy c) b host key)).
Proof.
  intros [E H]. unfold alone. simpl. unfold run_others. rewrite E. simpl. split; [exact E|]. unfold bm_close.
  destruct (mgr_closeConnection _ _ _ _) as [[w' r]|] eqn:C; [|exact H]. simpl.
  apply mgr_closeConnection_no_new in C. by eapply no_new_trans.
Qed.

(** C12: A request without a ticket that verifies (in its [Authorization] header or its
    query, posted for a session, or looked up for its service) reaches no host: it
    registers none, and opens no stream, no statistics and no service connection;
    it is answered or redirected, and the hosts and sessions are as they were.  A
    request about sessions creates none, and with no other request at work meanwhile
    no host and no stream is there that was not before; the holder of the secret of a
    session can still use it.  Both frontends have the same key, as [StartProxy] sets
    them up. *)
Theorem unticketed_request_harmless c env req s :
  parsedPublicKey (hf_frontend (st_http c)) = key_of c ->
  (forall raw token, presents env s req raw -> ~ verified jwt_parse (key_of c) raw token) ->
  let s' := fst (serve c env req s) in
  match snd (serve c env req s) with
  | ASession r => rp_status r <> 201 /\ sessions (sy_manager s') = sessions (sy_manager s) /\
      dom (objects (sy_manager s')) = dom (objects (sy_manager s)) /\
      (re_others env = [] -> no_new ∅ (m_backend (sy_manager s)) (m_backend (sy_manager s')))
  | AStream e => sy_manager s' = sy_manager s /\ exists a, e = Answered a
  | AStats o => sy_manager s' = sy_manager s /\ exists a, o = StatsRefused a
  | AHttp w => sy_manager s' = sy_manager s /\
      ((exists r u, w = http_redirect r u (re_response env)) \/ w = http_error "Service unavailable" 503 (re_response env))
  | _ => sy_manager s' = sy_manager s
  end.
Proof.
  intros K N. cbv zeta. unfold serve. pose proof (request_served (st_routes c) (sy_switcher s) req) as Sv.
  destruct (SwarmHandler_ServeHTTP _ _ _) as [h req'|p req'|path| |]; try done.
  2: { unfold serve_master. by destruct (platformWSProxy_ServeHTTP _ _ _); [..|destruct (ws_target p) as [[]|]]. }
  destruct Sv as [_ Same].
  pose proof (unticketed_parse c env s req req' Same N) as Np. pose proof (unticketed_stats c env s req req' Same N) as Ns.
  destruct h; cbn [serve_local]; try done.
  - destruct (serveSession_unauthorised (BP := system_backendProxy c) jwt_parse (re_post env)
      (alone (m_backend (sy_manager s))) (alone_close c _) (st_frontend c) (session_env env) req' (re_body env)
      (manager_by (re_others env) (sy_manager s))) as [[Us Uo Ub] St].
    { intros input u [token host] Rd A. apply auth_verified in A as (V & Ne & _). eapply N; [|exact V].
      right. right. left. exists input. split; [done|]. by eapply auth_request_token. }
    destruct (serveSession _ _ _ _ _ _ _) as [m r]. cbn [fst snd] in *. split_and!; [done|exact Us|exact Uo|].
    intros Eo. apply Ub. split; [exact Eo|]. by apply no_new_heap.
  - unfold serveBackend, authTicket. destruct (parseToken _ _ _) as [[tok|e] param]; cbn [fst snd] in *.
    + destruct (Valid tok) eqn:V; [by destruct (Np tok)|]. cbn [negb fst snd]. split; [apply set_world_same|eauto].
    + split; [apply set_world_same|eauto].
  - unfold serveFrontend.
    destruct (unticketed_auth c env s req req' Same N (BP := system_backendProxy c) (re_post env) (st_frontend c)
      (re_auth env) (interleaved_by (re_others env) (m_backend (sy_manager s))) eq_refl) as [e ->].
    cbn [fst snd]. split; [apply set_world_same|eauto].
  - unfold serveHTTP.
    destruct (unticketed_lookup c env s req req' Same N (BP := system_backendProxy c) (re_post env)
      (interleaved_by (re_others env) (m_backend (sy_manager s))) K) as (cache & e & ->).
    cbn [fst snd]. split; [apply set_world_same|]. simpl. destruct (IsNoAuthError e); [left; eauto|by right].
  - unfold serveStats.
    assert (exists e, stats_auth jwt_parse (re_post env) (st_frontend c) (re_auth env) req'
      = Err e) as [e ->].
    { unfold stats_auth. destruct (parseRequestToken _ _ _) as [tok|e].
      - destruct (Valid tok) eqn:V; [by destruct (Ns tok)|]. by eexists.
      - repeat case_match; by eexists. }
    destruct e; cbn [fst snd]; (split; [apply set_world_same|eauto]).
  - destruct (platformWSProxy_ServeHTTP _ _ _); [done|done|]. unfold serve_interceptor.
    by destruct (Interceptor.ServeHTTP _ _ _ _ _ _ _ _ _ _ _) as [[i sent] o].
  - unfold proxyProtocolConverter_ServeHTTP, serve_interceptor.
    by destruct (Interceptor.ServeHTTP _ _ _ _ _ _ _ _ _ _ _) as [[i sent] o].
Qed.

(** ** Announced clients *)









(** ** From the path to the session *)

Lemma session_id_plain id :
  workspaceSessionIDPattern id = true ->
  id <> "" /\ id <> "." /\ id <> ".." /\ sforall (fun x => negb (bool_decide (x = "/"%char))) id = true.
Proof.
  unfold workspaceSessionIDPattern, match_token. destruct (cut_prefix id "psw_") as [r|] eqn:E; [|done].
  apply cut_prefix_spec in E as ->. intros [_ F]%andb_true_iff. split_and!; [done..|].
  rewrite sforall_append. apply andb_true_iff. split; [done|].
  revert F. induction r as [|x r IH]; [done|]. cbn [sforall]. intros [Fx Fr]%andb_true_iff. rewrite IH // andb_true_r.
  apply negb_true_iff, bool_decide_eq_false. by intros ->.
Qed.

Lemma no_slash_suffix a id : id <> "" -> lacks "/"%char id = true -> has_suffix (a +:+ id) "/" = false.
Proof.
  intros N F. destruct (has_suffix (a +:+ id) "/") eqn:S; [|done]. exfalso.
  unfold has_suffix in S. apply andb_true_iff in S as [_ S]. apply bool_decide_eq_true in S.
  rewrite length_append /= in S. destruct id as [|x id]; [done|]. clear N. simpl in S.
  rewrite (_ : (String.length a + S (String.length id) - 1 = String.length a + String.length id)%nat) in S; [|lia].
  assert (sdrop (String.length id) (String x id) = "/") as S'.
  { rewrite -S. clear. induction a as [|y a IH]; [done|]. exact IH. }
  clear S. revert x F S'. induction id as [|y id IH]; intros x F S'.
  - simpl in S'. injection S' as ->. done.
  - apply (IH y); [|exact S']. unfold lacks in *. cbn [sforall] in *. by apply andb_true_iff in F as [_ F].
Qed.

Lemma session_path_clean id :
  workspaceSessionIDPattern id = true -> mux_cleanPath ("/v1/exec/sessions/" +:+ id) = "/v1/exec/sessions/" +:+ id.
Proof.
  intros (N & N1 & N2 & F)%session_id_plain. unfold mux_cleanPath.
  change (if bool_decide ("/v1/exec/sessions/" +:+ id = "") then _ else ?x) with x.
  change (has_prefix ("/v1/exec/sessions/" +:+ id) "/") with true. cbv zeta iota.
  rewrite no_slash_suffix //. cbn [andb]. unfold path_Clean.
  change (has_prefix ("/v1/exec/sessions/" +:+ id) "/") with true. cbv zeta iota.
  change ("/v1/exec/sessions/" +:+ id) with (join "/" [""; "v1"; "exec"; "sessions"; id]) at 1.
  rewrite split_join; [|done|by repeat (constructor; [done|])].
  cbn [clean_segments]. by rewrite (bool_decide_eq_false_2 (id = "")) // (bool_decide_eq_false_2 (id = ".")) //
    (bool_decide_eq_false_2 (id = "..")).
Qed.

Lemma session_vars id :
  workspaceSessionIDPattern id = true ->
  route_vars "/v1/exec/sessions/{sessionId}" ("/v1/exec/sessions/" +:+ id) = {["sessionId" := id]}.
Proof.
  intros (N & _ & _ & F)%session_id_plain. unfold route_vars.
  change (parts_of "/v1/exec/sessions/{sessionId}")
    with (Some [(None, [PLit "/v1/exec/sessions/"]); (Some "sessionId", [PSeg]); (None, [PLit ""])]).
  cbv iota. change (part_pieces _) with [PLit "/v1/exec/sessions/"; PSeg; PLit ""].
  pose proof (captures_pieces [PLit "/v1/exec/sessions/"; PSeg; PLit ""] ("/v1/exec/sessions/" +:+ id)) as C.
  destruct (captures _ _) as [ts|] eqn:E.
  - apply captures_texts in E. apply Forall2_cons_inv_l in E as (t1 & ts1 & -> & E & ->).
    apply Forall2_cons_inv_l in E as (t2 & ts2 & _ & E & ->). apply Forall2_cons_inv_l in E as (t3 & ts3 & -> & E & ->).
    apply Forall2_nil_inv_l in E as ->. destruct C as (_ & _ & C). rewrite !join_empty_cons in C.
    apply (inj (String.append "/v1/exec/sessions/")) in C. rewrite /= !append_nil_r in C. subst. reflexivity.
  - exfalso. assert (path_match "/v1/exec/sessions/{sessionId}" ("/v1/exec/sessions/" +:+ id) = true) as P.
    { apply session_path. by exists id. }
    unfold path_match in P. change (compile _) with (Some [PLit "/v1/exec/sessions/"; PSeg; PLit ""]) in P.
    cbv iota in P. by rewrite (C : _ = false) in P.
Qed.

(** C23: A GET, POST or DELETE request on the path of a well-formed session identifier,
    slashes doubled or not, is served by the session handler for exactly that
    session, unless the client has a certificate or another master is in force. *)
Theorem session_request_served c platformAddr env req s id :
  st_routes c = server_routes main_starter platformAddr ->
  lookupHandler (sy_switcher s) = None -> (forall cn l, PeerCommonNames req <> Some (cn :: l)) ->
  Method req ∈ ["GET"; "POST"; "DELETE"] -> workspaceSessionIDPattern id = true ->
  cleanPath (Path (URL req)) = "/v1/exec/sessions/" +:+ id ->
  exists req', Vars req' !! "sessionId" = Some id /\ same_request req req' /\
    serve c env req s =
      (let '(m, r) := serveSession (BP := system_backendProxy c) jwt_parse (re_post env) (st_frontend c) (session_env env)
                        req' (re_body env) (manager_by (re_others env) (sy_manager s)) in
       (set_manager (settled m) s, ASession r)).
Proof.
  intros Rt Lm Nc Me Pid Pc.
  assert (SwarmHandler_ServeHTTP (st_routes c) (sy_switcher s) req = serve_path (st_routes c) (sy_switcher s) req) as Sw.
  { unfold SwarmHandler_ServeHTTP. destruct (PeerCommonNames req) as [[|cn l]|] eqn:E; [done|by destruct (Nc cn l)|done]. }
  assert (Method (clean_request req) = Method req) as Em by (unfold clean_request; by destruct (bool_decide _)).
  assert (main_match platformAddr (Method req) ("/v1/exec/sessions/" +:+ id) = MatchedRoute session_route) as Mt.
  { apply session_first. apply method_route_matches; [by vm_compute|]. split; [|done].
    apply session_path. exists id. by destruct (session_id_plain id Pid) as (? & _ & _ & ?). }
  exists (set_vars {["sessionId" := id]} (clean_request req)). split_and!; [done| |].
  { unfold clean_request. by destruct (bool_decide _). }
  unfold serve. rewrite Sw. unfold serve_path. rewrite clean_request_path Pc session_path_clean //.
  rewrite bool_decide_eq_true_2 //. cbn [negb]. unfold main_match in Mt. rewrite Em Rt Mt.
  cbn [rt_Handler rt_Path session_route method_route]. rewrite session_vars //. unfold serve_handler, Wrap. cbn [wrapped].
  by rewrite Lm.
Qed.
End System.

(** ** A concrete server *)

Module SystemDemo.
Import FrontendDemo.

(** The identifiers of the request [n]. *)
Definition ids (n : nat) (i : nat) : string := String (ascii_of_nat (97 + n)) ("-" +:+ itoa (Z.of_nat i)).

(** They are fresh if nothing drawn before or by others starts with their letter. *)
Lemma ids_supply n l U :
  NoDup (ids n <$> seq 0 maxStatsTargets) /\ Forall wire_key (ids n <$> seq 0 maxStatsTargets) ->
  (forall i, ids n i ∉ U) -> (forall i, ids n i ∉ (⋃ (other_keys <$> concat l) : gset string)) ->
  fresh_supply (others_drawn (concat l) ∪ U) (ids n).
Proof.
  intros [N W] FU Fl.
  assert (forall i, (i < maxStatsTargets)%nat -> (ids n <$> seq 0 maxStatsTargets) !! i = Some (ids n i)) as L.
  { intros i Hi. rewrite list_lookup_fmap lookup_seq_lt //. }
  split.
  - intros i j Hij E. assert (i = j) as ->; [|lia]. eapply (NoDup_lookup _ _ _ (ids n i) N); [apply L; lia|].
    rewrite E. apply L. lia.
  - intros i Hi. rewrite elem_of_union. intros [(x & Hx & Hk)|H]; [|by eapply FU]. apply (Fl i).
    apply elem_of_union_list. exists (other_keys x). split; [|done]. apply list_elem_of_fmap. by exists x.
  - intros i Hi. rewrite -> Forall_forall in W. apply W. apply (list_elem_of_lookup_2 _ i). by apply L.
Qed.

Definition no_lookup : lookup_env := mkLookupEnv 0 0 map_to_list (fun _ => None).
Definition renv (n : nat) (body : string) (incoming : list ws_message) (others : list (list other)) : request_env :=
  mkRequestEnv (ids n) "s1" no_engine env env (fun _ => env) 5 true true 0 (fun _ => 0) taken_over no_lookup body None incoming [] []
    PipeDemo.fresh_response others (fun _ => true) (fun _ => Err "") (fun _ => []).
Definition plain : request_env := renv 0 "" [] [].
Definition config : setup := new_setup main_starter "platform:8080" (RSAPublicKey 2048) (mkVerifier "/introspect" true true)
  (mkVerifier "/report" true true) [443] None "{}" [mkIPNet [10; 0; 0; 0] [255; 0; 0; 0]].
Definition router_ : interceptor := mkInterceptor "" ∅ ∅ ∅ [].
Definition start_ : system := initial_system 4 1000 100 50 router_ new_switcher.

(** [b.c.k] is the ticket of the host [host], [h.o.s] one for its clients. *)
Definition sys_tickets (validate : bool) (raw : string) (bits : Z) : result jwt_error jwtToken :=
  if bool_decide (raw = "b.c.k") then Ok (mkToken raw true (Some {["reportedUuid":=AString "host"]}))
  else tickets validate raw bits.

Definition at_path (path : string) (req : request) : request := set_url (with_path path (URL req)) req.
(** A host registers; a client opens a stream to it and sends two lines.  Before its
    calls, its frames are written to the host, the host answers, another stream is
    opened, and the host connects again.  In the end the first connection breaks. *)
Definition register : request := at_path "/v1/connectbackend" (bearer "b.c.k").
Definition traffic : list (list other) :=
  [[]; [OtherOp (OpInit "host" "other"); OtherOp (OpConnect SelSend "host" "other" "/v1/logs")];
   [OtherOp (OpWrite 0 (WriteMessage true)); OtherOp (OpRead SelSend 0 (Multiplexer.ReadFrame true (FormatMessage "b-0" Body "out")) true)];
   [OtherHost register taken_over "s2"; OtherOp (OpWrite 0 (WriteMessage true))]].
Definition stream : request_env := renv 1 "" [TextMessage "ls"; TextMessage "pwd"] traffic.
Definition events : list event :=
  [ERequest plain register; ERequest stream (bearer "h.o.s"); ECleanup 7 [];
   EHost (OpRead SelSend 0 Multiplexer.ReadError false)].

Abbreviation demo f := (f sys_tickets (fun _ => None) (fun _ => true) (fun _ _ => false) id).
Abbreviation demo_serve := (demo (@serve)).
Abbreviation demo_run := (demo (@run)).
Definition after_ (l : list event) : system := foldl (fun s ev => demo (@run_event) config ev s) start_ l.
End SystemDemo.
Import FrontendDemo SystemDemo.

(** The host answered on the stream while it was open; what the client sent after the
    host had connected again went to the new connection. *)
Example demo_interleaved :
  let w := m_backend (sy_manager (after_ (take 2 events))) in
  (Multiplexer.written <$> heap w !! 0%nat, messagesToBackend <$> heap w !! 0%nat, messagesToBackend <$> current_mux "host" w,
   (fun c => Body_ <$> ch_received (snd c)) <$> map_to_list (chans w)) =
  (Some ["other||0||/v1/logs"; "b-0||0||/v1/exec"], Some ["b-0||1||ls"], Some ["b-0||1||pwd"; "b-0||2||"], [[]; ["out"]]).
Proof. by vm_compute. Qed.

Lemma ids_well_formed : Forall (fun n => NoDup (ids n <$> seq 0 maxStatsTargets) /\ Forall wire_key (ids n <$> seq 0 maxStatsTargets)) [0%nat; 1%nat].
Proof. apply (bool_decide_eq_true_1 (Forall _ _)). by vm_compute. Qed.

Lemma demo_history : demo_run config ∅ start_ events (after_ events).
Proof.
  pose proof ids_well_formed as W. rewrite -> !Forall_cons in W. destruct W as (W0 & W1 & _).
  apply run_cons; [apply ids_supply; [exact W0|set_solver|set_solver]|].
  apply run_cons; [|apply run_cons; [done|apply run_cons; [|apply run_nil]]].
  - apply ids_supply; [exact W1| |].
    + intros i. unfold event_drawn. rewrite !elem_of_union. intros [[(j & _ & E)|(x & Hx & _)]|H]; [done| |].
      * by apply not_elem_of_nil in Hx.
      * by apply not_elem_of_empty in H.
    + intros i. rewrite (_ : (⋃ (other_keys <$> concat traffic) : gset string) = {["other"]}); [|by vm_compute].
      rewrite elem_of_singleton. done.
  - split; [done|]. apply (bool_decide_eq_true_1 (is_Some _)). by vm_compute.
Qed.

Lemma system_safe_witness :
  panicked (m_backend (sy_manager (after_ events))) = false /\
  exists req, req ∈ requests events /\ request_token req = "b.c.k".
Proof.
  destruct (demo (@system_safe) config 4 1000 100 50 router_ new_switcher events (after_ events)
    ltac:(lia) demo_history) as (P & H & _).
  split; [exact P|].
  destruct (heap (m_backend (sy_manager (after_ events))) !! 0%nat) as [m|] eqn:E; [|by vm_compute in E].
  destruct (H 0%nat m E) as [_ (req & Hr & T)]. exists req. split; [exact Hr|]. rewrite T.
  assert (backendToken <$> heap (m_backend (sy_manager (after_ events))) !! 0%nat = Some "b.c.k") as K by by vm_compute.
  rewrite E in K. injection K as K. exact K.
Defined.



(** The same server, following a master. *)
Definition master_ : ws_proxy := mkWS "master:8080" (Some ("http", "master:8080")) [] None.
Definition following : system := set_switcher (mkSwitcher (Some master_) "master:8080") start_.

Lemma master_takes_over_witness :
  sy_manager (fst (demo_serve config plain register following)) = sy_manager following.
Proof.
  exact (proj1 (demo (@master_takes_over) config plain register following master_ eq_refl)).
Defined.

Lemma websocket_origins_witness :
  workspaceRequestOriginAllowed register = true.
Proof.
  destruct (demo (@websocket_origins) config plain register start_) as [[_ H]|(h & req' & E & _ & [[-> _]|[-> _]])];
    [by vm_compute|by vm_compute|exact H|by vm_compute in E|by vm_compute in E].
Defined.

(** A page of another site asks for a WebSocket on a path of the platform: the
    handshake is passed on. *)
Definition foreign_page : request :=
  let req := at_path "/v1/ws" (bearer "x.y.z") in set_header (header_set "Origin" "https://evil.example" (Header req)) req.
Example foreign_handshake_passed_on :
  let r := demo_serve config plain foreign_page start_ in
  opens_websocket foreign_page (snd r) = true /\ workspaceRequestOriginAllowed foreign_page = false.
Proof. by vm_compute. Qed.

(** The ticket nobody signed, for a host and posted for a session. *)
Definition unsigned_ : request := at_path "/v1/connectbackend" (bearer "x.y.z").
Definition unsigned_session : request :=
  mkRequest "POST" (path_url "/v1/exec/sessions/psw_aaaaaaaaaaaaaaaaaaaa") "proxy" "10.0.0.1:1234" ∅ None ∅.

Lemma nothing_looked_up req raw :
  snd (Lookup (le_get no_lookup) (le_set no_lookup) (le_order no_lookup) (le_exchange no_lookup) req newTokenCache) <> Ok raw.
Proof.
  unfold Lookup, getFromCache, get. cbn. unfold callPlatform. destruct (parse_service req) as [body|]; cbn; discriminate.
Qed.

Lemma nothing_presented req :
  request_token req = "x.y.z" \/ request_token req = "" -> query_get "token" (url_query (URL req)) = "" ->
  forall raw token, presents plain start_ req raw -> ~ verified sys_tickets (RSAPublicKey 2048) raw token.
Proof.
  intros T Q raw token P (bits & _ & _ & J & _).
  assert (raw = "x.y.z" \/ raw = "") as [-> | ->]; [|discriminate J..].
  destruct P as [->|[->|[(input & Rd & _)|(req' & _ & L)]]]; [exact T|by right|discriminate Rd|].
  by destruct (nothing_looked_up req' raw).
Qed.

Lemma unticketed_request_harmless_witness :
  sy_manager (fst (demo_serve config plain unsigned_ start_)) = sy_manager start_ /\
  sessions (sy_manager (fst (demo_serve config plain unsigned_session start_))) = ∅.
Proof.
  pose proof (demo (@unticketed_request_harmless) config plain unsigned_ start_ eq_refl
    (nothing_presented unsigned_ (or_introl eq_refl) eq_refl)) as H1.
  pose proof (demo (@unticketed_request_harmless) config plain unsigned_session start_ eq_refl
    (nothing_presented unsigned_session (or_intror eq_refl) eq_refl)) as H2.
  cbv zeta in H1, H2. split.
  - assert (exists e, snd (demo_serve config plain unsigned_ start_) = AStream e) as [e E] by (eexists; vm_compute; reflexivity).
    rewrite E in H1. exact (proj1 H1).
  - assert (exists r, snd (demo_serve config plain unsigned_session start_) = ASession r) as [r E] by (eexists; vm_compute; reflexivity).
    rewrite E in H2. exact (proj1 (proj2 H2)).
Defined.

(** The session of a path. *)
Definition status_request : request :=
  mkRequest "GET" (path_url "//v1/exec//sessions/psw_aaaaaaaaaaaaaaaaaaaa") "proxy" "10.0.0.1:1234" ∅ None ∅.

Lemma session_request_served_witness :
  exists req' : request, Vars req' !! "sessionId" = Some "psw_aaaaaaaaaaaaaaaaaaaa" /\
    Header req' = Header status_request.
Proof.
  destruct (demo (@session_request_served) config "platform:8080" plain status_request start_
    "psw_aaaaaaaaaaaaaaaaaaaa") as (req' & V & (Hh & _) & _); [reflexivity|reflexivity|done| |by vm_compute|by vm_compute|].
  - left.
  - exists req'. split; [exact V|exact Hh].
Defined.

Lemma route_vars_rebuild_witness :
  rebuild [(None, [PLit "/r/"]); (Some "service", [PSeg]); (None, [PLit ""]); (Some "path", [PAll]); (None, [PLit ""])]
    (route_vars "/r/{service}{path:.*}" "/r/web/index.html") = "/r/web/index.html".
Proof.
  apply route_vars_rebuild; [reflexivity| |by vm_compute].
  apply (bool_decide_eq_true_1 (NoDup _)). by vm_compute.
Defined.
